(* ===== verification/_CoqProject ===== *)
-Q . S2P
Prelude.v
NvmUtil.v
NvmCmd.v
NvmError.v
NvmQueue.v
ParallelSq.v
ParallelCq.v
BatchIo.v
SchedQueue.v
PageCache.v
PageCacheInv.v
PageCacheSpec.v
Exec.v
Host.v
Dma.v
DmaSpec.v
DmaInv.v
DmaApi.v
CtrlReset.v
Rpc.v
Admin.v
GpuSetup.v
GpuSetupInv.v
GpuQueuePair.v
GpuController.v
PageCacheSetup.v
PageCacheTables.v
PageCacheMembers.v
PageCacheSetupSpec.v
PageCacheRanges.v
PageCacheReady.v
KList.v
KModule.v
KModuleInv.v
KModuleMap.v
KModuleBus.v
KModuleSpec.v
