(* ===== verification/Prelude.v ===== *)
(** ShaperIO: GPU-initiated NVMe I/O.  Root of the verification library.

    The program lets GPU threads drive NVMe controllers.  A kernel module pins memory and
    maps it for DMA; a host library ([src/src]) opens controllers, maps memory through the
    module and creates queues by admin commands; GPU code ([src/include]) submits commands
    to queue pairs, caches pages of the media and schedules requests through a ring.

    * Files

    - [Prelude]: machine words as integers with explicit wrap-around, tactics, hints.
    - [NvmUtil]: macros of [nvm_util.h] and [regs.h], helpers of [lib_util.h].
    - [NvmCmd]: command builders and PRP lists ([nvm_cmd.h]).
    - [NvmError]: status packing and messages ([nvm_error.h], [error.cpp]).
    - [NvmQueue]: queue descriptors ([nvm_queue.h], [queue.cpp]) beside a controller that
      posts completions.
    - [ParallelSq] (module [Sq]): [sq_enqueue], [move_tail] and the head movement of
      [nvm_parallel_queue.h]; every memory access of every thread is a step.
    - [ParallelCq] (module [Cq]): [get_cid], [put_cid], [cq_poll], [cq_dequeue] and the
      completion half of [move_head_cq] of the same header, and the single-command requests
      of [page_cache.h] that call them, beside a controller that completes in any order.
    - [BatchIo] (module [Batch]): the batched requests of [page_cache.h], which one owner of
      a queue pair submits with one doorbell and awaits through the last completion entry.
    - [SchedQueue] (module [Ring]): the ring of [io_scheduler.cuh], its producers, the drain
      and notify stages of the scheduler, and its shutdown.
    - [PageCache] (module [Pc]), [PageCacheInv], [PageCacheSpec]: [acquire_page],
      [find_slot], [release_page] and [flush_cache] of [page_cache.h], with reads and
      write-backs through the scheduler's queues and the victim buffer; model, invariant and
      theorems.
    - [Exec]: computations with undefined behaviour and their total-correctness logic
      ([wp]; [wp_if] for code that is defined only under a condition).
    - [Host] (module [Host]): [mutex.cpp], [ctrl.cpp], [linux/device.cpp] over a heap of
      handles.
    - [Dma], [DmaSpec], [DmaInv], [DmaApi]: [dma.cpp] and [linux/dma.cpp]; operations,
      their specifications, the heap invariant, and the interface call by call.
    - [CtrlReset]: the reset sequence of [ctrl.cpp] as a trace of register accesses.
    - [Rpc]: admin references and the local admin queue pair ([rpc.cpp]).
    - [Admin]: admin commands ([admin.cpp]).
    - [GpuSetup] (module [Setup]): [buffer.h], [queue.h] and [ctrl.h]: buffers, queue pairs
      and the [Controller] object over the host library and CUDA, with exceptions.
      [GpuSetupInv], [GpuQueuePair] and [GpuController] hold the invariant and buffers, the
      queue pairs, and the controller's lifetime.
    - [PageCacheSetup] (module [PcSetup]): [page_cache_t] and [range_t] of [page_cache.h] on
      the host: the constructor and its tables, the destructor, the setters, the ranges.
      [PageCacheTables], [PageCacheMembers], [PageCacheSetupSpec], [PageCacheRanges] and
      [PageCacheReady] hold the contents of the tables, the members and what they own, the
      steps of the constructor, the ranges, and the theorems.
    - [KList]: the linked lists of the kernel module ([src/module/list.c]) as nodes in a
      store, and the sequences they represent.
    - [KModule]: [src/module/map.c], [ctrl.c] and [pci.c], built with GPU support, over a
      state of objects, lists and kernel resources.
    - [KModuleInv], [KModuleMap], [KModuleBus], [KModuleSpec]: the module's invariant and
      releasing a mapping, making one, adding and removing controllers, and the requests
      as a whole.

    * How the code is modelled

    A C integer is a [Z]; every operation that can leave its width is wrapped.  Concurrent
    GPU code is a step relation: a state holds shared memory and one record per call with a
    program counter, and a step performs one access, so theorems hold for every
    interleaving.  Ghost fields record history and are never read by the code.  The host
    library is a state monad whose [None] is undefined behaviour; each allocation, mutex or
    system call that can fail takes its result from a list of faults, and theorems quantify
    over that list.  The kernel module is a state monad of the same kind.  What one side
    promises the other is a class: [Kernel] is what the host library relies on from the
    module, [Platform] what the module relies on from the kernel and the GPU driver, [Cuda]
    what the set-up code relies on from the CUDA runtime.  C++ code that may throw returns
    [Ok] or [Thrown], and the destructors an exception runs are written out.  Other code
    outside the repository is an argument: the controller is the functions that answer
    a command or a register read.

    * What is shown

    - Page cache: a thread that holds a page sees the last write to it, wherever the page
      was evicted to in between; a frame holds one page at a time; reference counts are
      exact; a miss finds a frame; a flush writes back every dirty page.  These are for a
      sound configuration ([cfg_ok]) and reference counts that stay below their field
      ([bounded_step]), neither of which the code checks; a newly built cache has a sound
      configuration when [max_range] is a power of two ([new_cache_config]).
    - Scheduler ring: requests are taken once, whole and in slot order; each is notified
      once; a synchronous caller returns after its notification; until the scheduler has
      left after a shutdown the oldest request always makes progress.
    - Queues: concurrent submissions reach the controller once, whole and in ticket order;
      completions are seen once and in order; the blocking dequeue returns in time.  On the
      GPU identifiers and positions are never shared, and, on [timely] runs, each request
      finds the completion of its own command and the head passes only consumed completions.
      A batch shorter than the queue returns, and only after all its commands were fetched
      as built and completed; one that fills the queue hangs.
    - Commands: PRP chains decode to the pages given; status values round-trip.
    - Host library: every valid call of every program ([valid]; in particular the register
      window can be mapped) is free of undefined behaviour, a failing call changes nothing,
      and nothing is left once handles are released; mappings, remappings, controllers and,
      for a controller whose queues fit a page, admin queue pairs round-trip; the reset
      follows the NVMe sequence; created queues match what the controller was told.
    - GPU set-up: constructing a controller that can be started ([startable]) is free of
      undefined behaviour when the array of queue pairs can be allocated, which the code does
      not check; its queue pairs match what the controller was told and lie in cleared
      memory of their own; destroying it returns what constructing it took, while a
      constructor that throws leaks; the masks of the queues are those the models of the
      parallel queues assume.
    - Page cache set-up: constructing a cache ([buildable]) runs to its end or throws, with
      no use of memory it does not hold; the mismatched [delete] of the arrays it allocates
      with [new[]] is recorded in the state; the PRP entries
      of every cache page are read by the controller as that page, whether it is a part of a
      controller page, two or a list; destroying it returns what its members hold, and the
      table of page addresses is left; ranges are numbered in order and known to the device;
      their global addresses are unique when [max_range] is a power of two.
    - Kernel module: every sequence of [allowed] requests, probes, removals and reclaims is
      free of undefined behaviour; the module holds exactly what its live mappings account
      for; each request is answered as the branch taken requires, errors included; unloading
      returns everything; a host mapping meets [Kernel] exactly when all its pages were
      pinned.  The restrictions ([allowed], no failed DMA mapping of a single page) are not
      checked by the module.
    - Errors of the code that the model exposed are theorems of their own: they are listed
      as findings in the project manifest.

    * Bounds and fuel

    The wait loops of [nvm_cq_dequeue_block] and of the reset have the timeout in
    milliseconds as fuel, which is the number of rounds the code can make.
    [nvm_prp_list_chain] has the number of lists.  Walks over the kernel module's lists have
    the number of nodes, which bounds the length of a list ([linked_size]); the theorems
    show that they end.  Concurrent models need no fuel.
    Theorems on tickets and sequence numbers assume fewer than 2^32 calls; what happens
    beyond is stated separately.  The theorems of [ParallelCq] on what a poll finds are for
    runs in which no pass of [cq_poll] over the queue is overtaken by two laps of completions
    ([timely_step]): the code has no other defence against a stale phase.

    * Not modelled

    The GPU memory model is sequentially consistent here: fences and orderings are not
    represented.  Copies of queue pairs and controllers to the device are left out; the page
    cache's structure is kept as the value copied last.  Logging, timing and profiling
    counters are left out, as are the freestanding C++ library (third-party) and the benchmark drivers.  Host
    library calls and kernel module requests run one at a time: mutexes and spinlocks do not
    change the state.
    In the page cache the second reads of [read_data], the scheduler's service of the victim
    buffer and the array and pointer classes are left out.  Plain host arrays
    ([malloc], [new[]]) of the set-up code are not resources of the model and are taken to be
    allocated.  The theorems on its set-up are for page sizes that are
    powers of two; the model covers every page size.  *)
From Stdlib Require Import ZArith Lia List Permutation Sorted.
From stdpp Require Import base decidable list numbers.

Local Open Scope Z_scope.

(** ** Machine words

    A [w]-bit unsigned integer of the source is a [Z]; every operation that can
    leave the range is followed by [wrap w], written out where the C code
    computes at width [w]. *)
Definition wrap (w z : Z) : Z := z mod 2 ^ w.

Definition u8 (z : Z) : Z := wrap 8 z.
Definition u16 (z : Z) : Z := wrap 16 z.
Definition u32 (z : Z) : Z := wrap 32 z.
Definition u64 (z : Z) : Z := wrap 64 z.

(** [is_word w z]: [z] is the value of an unsigned [w]-bit variable. *)
Definition is_word (w z : Z) : Prop := 0 <= z < 2 ^ w.

#[global] Instance is_word_dec w z : Decision (is_word w z).
Proof. unfold is_word. apply _. Defined.

(** A C truth value: [!x]. *)
Definition lnot (x : Z) : Z := if x =? 0 then 1 else 0.

(** Arrays indexed by machine integers, updated at one index. *)
Definition fupd {A} (f : Z -> A) (k : Z) (v : A) : Z -> A :=
  fun x => if x =? k then v else f x.

Declare Scope word_scope.
Delimit Scope word_scope with word.
Notation "a ⊞₃₂ b" := (u32 (a + b)) (at level 50, left associativity) : word_scope.
Notation "a ⊟₃₂ b" := (u32 (a - b)) (at level 50, left associativity) : word_scope.
Notation "a ⊞₆₄ b" := (u64 (a + b)) (at level 50, left associativity) : word_scope.
Notation "a ⊟₆₄ b" := (u64 (a - b)) (at level 50, left associativity) : word_scope.

(** ** Tactics of the development *)

Create HintDb word.
Create HintDb ring.
Create HintDb pages.
Create Rewrite HintDb word.

(** Turn boolean comparisons in hypotheses and goal into propositions. *)
Ltac b2p :=
  repeat match goal with
  | H : _ && _ = true |- _ => apply andb_prop in H; destruct H
  | H : _ || _ = false |- _ => apply orb_false_elim in H; destruct H
  | H : _ && _ = false |- _ => apply andb_false_iff in H
  | H : _ || _ = true |- _ => apply orb_true_iff in H
  | H : negb _ = true |- _ => apply negb_true_iff in H
  | H : negb _ = false |- _ => apply negb_false_iff in H
  | H : (_ =? _) = true |- _ => apply Z.eqb_eq in H
  | H : (_ =? _) = false |- _ => apply Z.eqb_neq in H
  | H : (_ <? _) = true |- _ => apply Z.ltb_lt in H
  | H : (_ <? _) = false |- _ => apply Z.ltb_ge in H
  | H : (_ <=? _) = true |- _ => apply Z.leb_le in H
  | H : (_ <=? _) = false |- _ => apply Z.leb_gt in H
  | H : (_ >? _) = true |- _ => rewrite Z.gtb_ltb in H
  | H : (_ >? _) = false |- _ => rewrite Z.gtb_ltb in H
  | H : (_ >=? _) = true |- _ => rewrite Z.geb_leb in H
  | H : (_ >=? _) = false |- _ => rewrite Z.geb_leb in H
  end.

(** Case split on the first boolean test of the goal, with its meaning. *)
Ltac case_test :=
  match goal with
  | |- context [if ?b then _ else _] =>
      lazymatch b with
      | context [if _ then _ else _] => fail
      | _ => let E := fresh "Hb" in destruct b eqn:E; b2p
      end
  end.

(** Put powers of two at literal widths in normal form for [lia]. *)
Ltac pow2_norm :=
  unfold is_word in *;
  change (2 ^ 8) with 256 in *; change (2 ^ 16) with 65536 in *;
  change (2 ^ 32) with 4294967296 in *;
  change (2 ^ 64) with 18446744073709551616 in *.

Ltac word_lia := unfold u8, u16, u32, u64, wrap in *; pow2_norm;
  try Z.div_mod_to_equations; lia.

(** ** Words *)

Lemma wrap_range w z : 0 <= w -> is_word w (wrap w z).
Proof. intros; unfold is_word, wrap; apply Z.mod_pos_bound; lia. Qed.

Lemma wrap_id w z : is_word w z -> wrap w z = z.
Proof. unfold is_word, wrap; intros; now apply Z.mod_small. Qed.

Lemma u8_range z : is_word 8 (u8 z). Proof. now apply wrap_range. Qed.
Lemma u16_range z : is_word 16 (u16 z). Proof. now apply wrap_range. Qed.
Lemma u32_range z : is_word 32 (u32 z). Proof. now apply wrap_range. Qed.
Lemma u64_range z : is_word 64 (u64 z). Proof. now apply wrap_range. Qed.
Lemma u8_id z : is_word 8 z -> u8 z = z. Proof. apply wrap_id. Qed.
Lemma u16_id z : is_word 16 z -> u16 z = z. Proof. apply wrap_id. Qed.
Lemma u32_id z : is_word 32 z -> u32 z = z. Proof. apply wrap_id. Qed.
Lemma u64_id z : is_word 64 z -> u64 z = z. Proof. apply wrap_id. Qed.

#[export] Hint Resolve u8_range u16_range u32_range u64_range : word.
#[export] Hint Rewrite u8_id u16_id u32_id u64_id using (assumption || word_lia) : word.

Lemma wrap_add_l w a b : wrap w (wrap w a + b) = wrap w (a + b).
Proof. apply Zplus_mod_idemp_l. Qed.

Lemma wrap_add_r w a b : wrap w (a + wrap w b) = wrap w (a + b).
Proof. apply Zplus_mod_idemp_r. Qed.

Lemma wrap_sub_l w a b : wrap w (wrap w a - b) = wrap w (a - b).
Proof. apply Zminus_mod_idemp_l. Qed.

Lemma wrap_sub_r w a b : wrap w (a - wrap w b) = wrap w (a - b).
Proof. apply Zminus_mod_idemp_r. Qed.

Lemma wrap_wrap w a : wrap w (wrap w a) = wrap w a.
Proof. apply Zmod_mod. Qed.

(** The difference of two wrapped counters is their distance, as long as the
    distance itself fits: what every ring in the code relies on. *)
Lemma wrap_dist w a b : 0 <= a - b < 2 ^ w -> wrap w (wrap w a - wrap w b) = a - b.
Proof. intros; rewrite wrap_sub_l, wrap_sub_r; now apply wrap_id. Qed.

(** Wrapped counters less than [2^w] apart are equal only if they are the same. *)
Lemma wrap_inj_near w a b :
  0 <= w -> wrap w a = wrap w b -> Z.abs (a - b) < 2 ^ w -> a = b.
Proof.
  unfold wrap; intros Hw He Hd.
  assert (Hp : 0 < 2 ^ w) by lia.
  pose proof (Z.div_mod a (2 ^ w)); pose proof (Z.div_mod b (2 ^ w)).
  assert (a / 2 ^ w = b / 2 ^ w) by nia. nia.
Qed.

(** ** Bits *)

Lemma land_ones_mod z n : 0 <= n -> Z.land z (2 ^ n - 1) = z mod 2 ^ n.
Proof.
  intros. replace (2 ^ n - 1) with (Z.ones n) by (rewrite Z.ones_equiv; lia).
  now apply Z.land_ones.
Qed.

Lemma lor_shiftl_add a b n :
  0 <= n -> 0 <= a < 2 ^ n -> Z.lor (Z.shiftl b n) a = b * 2 ^ n + a.
Proof.
  intros Hn Ha. rewrite Z.shiftl_mul_pow2 by lia.
  assert (Hd : Z.land (b * 2 ^ n) a = 0).
  { apply Z.bits_inj'; intros i Hi; rewrite Z.land_spec, Z.bits_0.
    destruct (Z.ltb_spec i n).
    - rewrite Z.mul_pow2_bits_low by lia. done.
    - rewrite <- (Z.mod_small a (2 ^ n)), Z.mod_pow2_bits_high by lia.
      apply andb_false_r. }
  rewrite <- (Z.add_lor_land (b * 2 ^ n) a), Hd. lia.
Qed.

(** Masking a wrapped counter with [capacity - 1] is the counter modulo the
    capacity, when the capacity is a power of two that divides the width. *)
Lemma land_mask_wrap w k z :
  0 <= k <= w -> Z.land (wrap w z) (2 ^ k - 1) = z mod 2 ^ k.
Proof.
  intros. rewrite land_ones_mod by lia. unfold wrap.
  apply Z.mod_mod_divide.
  exists (2 ^ (w - k)). rewrite <- Z.pow_add_r by lia. f_equal; lia.
Qed.

(** Residues modulo [n] separate counters less than [n] apart. *)
Lemma mod_inj_near n a b : 0 < n -> a mod n = b mod n -> Z.abs (a - b) < n -> a = b.
Proof.
  intros Hn He Hd. pose proof (Z.div_mod a n); pose proof (Z.div_mod b n).
  assert (a / n = b / n) by nia. nia.
Qed.

(** ** Arrays *)

Lemma fupd_eq {A} (f : Z -> A) k v : fupd f k v k = v.
Proof. unfold fupd. now rewrite Z.eqb_refl. Qed.

Lemma fupd_ne {A} (f : Z -> A) k v x : x <> k -> fupd f k v x = f x.
Proof. intros. unfold fupd. now rewrite (proj2 (Z.eqb_neq x k)). Qed.

(** An index function that is defined below [n] tabulates to a list of length [n]. *)
Lemma mapM_seq {A} (f : nat -> option A) n :
  (forall i, (i < n)%nat -> is_Some (f i)) ->
  exists l, mapM f (seq 0 n) = Some l /\ length l = n /\ forall i x, l !! i = Some x -> f i = Some x.
Proof.
  intros H. destruct (mapM_is_Some_2 f (seq 0 n)) as [l El].
  { apply list.Forall_forall. intros i Hi%elem_of_seq. apply H. lia. }
  exists l. split; [done|]. apply mapM_Some in El. split; [by rewrite <- (list.Forall2_length _ _ _ El), length_seq|].
  intros i x Hx. destruct (Forall2_lookup_r _ _ _ _ _ El Hx) as (k & Hk & E). apply lookup_seq in Hk as [-> _]. done.
Qed.
