(* ===== verification/NvmUtil.v ===== *)
(** Bit-field, page and register macros shared by the driver.

    [src/include/nvm_util.h] (masks, [_RB]/[_WB], page arithmetic, command and
    completion fields), [src/src/regs.h] (controller registers and doorbells),
    [src/src/lib_util.h] (base-2 logarithm, delay loop helper).  A macro takes
    the width of its operand as a parameter where C computes at the width of
    the operand. *)
From Stdlib Require Import ZArith Lia List.
From stdpp Require Import base list numbers.
From S2P Require Import Prelude.

Import ListNotations.
Local Open Scope Z_scope.

(** ** Masks and bit fields *)

Definition NVM_MASK (num_bits : Z) : Z := u64 (u64 (Z.shiftl 1 num_bits) - 1).

Definition NVM_MASK_PART (hi lo : Z) : Z := u64 (NVM_MASK (hi + 1) - NVM_MASK lo).

Definition RB (v hi lo : Z) : Z := Z.shiftr (Z.land v (NVM_MASK_PART hi lo)) lo.

(** [(v) << (lo)] is computed at the width [w] of [v]. *)
Definition WB (w v hi lo : Z) : Z :=
  Z.land (wrap w (Z.shiftl v lo)) (NVM_MASK_PART hi lo).

(** ** Structures read through byte offsets

    A command or completion is a list of little-endian 32-bit words; [_REG]
    reads [bits/8] bytes at a byte offset of it. *)
Definition byte_at (dwords : list Z) (i : Z) : Z :=
  Z.land (Z.shiftr (nth (Z.to_nat (i / 4)) dwords 0) (8 * (i mod 4))) 255.

Fixpoint REG_bytes (dwords : list Z) (offs : Z) (n : nat) : Z :=
  match n with
  | O => 0
  | S n => Z.lor (byte_at dwords offs) (Z.shiftl (REG_bytes dwords (offs + 1) n) 8)
  end.

Definition REG (dwords : list Z) (offs bits : Z) : Z :=
  REG_bytes dwords offs (Z.to_nat (bits / 8)).

Definition NVM_CMD_CID (p : list Z) : Z := REG p 2 16.
Definition NVM_CMD_NSID (p : list Z) : Z := REG p 1 32.
Definition NVM_CPL_CID (p : list Z) : Z := REG p 12 16.
Definition NVM_CPL_SQHD (p : list Z) : Z := REG p 8 16.
Definition NVM_CPL_SQID (p : list Z) : Z := REG p 10 16.
Definition NVM_CPL_SF (p : list Z) : Z := REG p 14 16.
Definition NVM_CPL_STATUS (p : list Z) : Z := NVM_CPL_SF p.

(** ** Page arithmetic ([size_t] and [uint64_t] are 64 bits wide) *)

Definition NVM_PAGE_TO_BLOCK (page_size block_size pageno : Z) : Z :=
  u64 (page_size * pageno) / block_size.

Definition NVM_BLOCK_TO_PAGE (page_size block_size blockno : Z) : Z :=
  u64 (block_size * blockno) / page_size.

Definition NVM_PAGE_MASK (page_size : Z) : Z := u64 (Z.lnot (u64 (page_size - 1))).

Definition NVM_ADDR_MASK (addr page_size : Z) : Z :=
  Z.land (u64 addr) (NVM_PAGE_MASK page_size).

Definition NVM_PAGE_ALIGN (size page_size : Z) : Z :=
  Z.land (u64 (u64 (size + page_size) - 1)) (NVM_PAGE_MASK page_size).

Definition NVM_ADDR_OFFSET (addr page_size pageno : Z) : Z :=
  u64 (u64 addr + u64 (page_size * pageno)).

Definition NVM_CTRL_ALIGN (page_size size : Z) : Z := NVM_PAGE_ALIGN size page_size.

Definition NVM_CTRL_PAGES (page_size size : Z) : Z :=
  NVM_CTRL_ALIGN page_size size / page_size.

Definition sizeof_nvm_cmd_t : Z := 64.
Definition sizeof_nvm_cpl_t : Z := 16.

Definition NVM_SQ_PAGES (page_size qs : Z) : Z :=
  (u16 (qs - 1) * sizeof_nvm_cmd_t) / page_size + 1.

Definition NVM_CQ_PAGES (page_size qs : Z) : Z :=
  (u16 (qs - 1) * sizeof_nvm_cpl_t) / page_size + 1.

(** ** Controller registers *)

Definition CAP_MPSMAX (cap : Z) : Z := RB cap 55 52.
Definition CAP_MPSMIN (cap : Z) : Z := RB cap 51 48.
Definition CAP_DSTRD (cap : Z) : Z := RB cap 35 32.
Definition CAP_TO (cap : Z) : Z := RB cap 31 24.
Definition CAP_CQR (cap : Z) : Z := RB cap 16 16.
Definition CAP_MQES (cap : Z) : Z := RB cap 15 0.
Definition CSTS_RDY (csts : Z) : Z := RB csts 0 0.

Definition CC_IOCQES (v : Z) : Z := WB 32 v 23 20.
Definition CC_IOSQES (v : Z) : Z := WB 32 v 19 16.
Definition CC_MPS (v : Z) : Z := WB 32 v 10 7.
Definition CC_CSS (v : Z) : Z := WB 32 0 3 1.
Definition CC_EN (v : Z) : Z := WB 32 v 0 0.
Definition AQA_ACQS (v : Z) : Z := WB 32 v 27 16.
Definition AQA_ASQS (v : Z) : Z := WB 32 v 11 0.

Definition SQ_DBL (p y dstrd : Z) : Z := p + 0x1000 + (2 * y) * Z.shiftl 4 dstrd.
Definition CQ_DBL (p y dstrd : Z) : Z := p + 0x1000 + (2 * y + 1) * Z.shiftl 4 dstrd.

(** ** Host helpers *)

(** The [while (n > 0)] loop of [_nvm_b2log]; 32 rounds empty a 32-bit word. *)
Fixpoint b2log_loop (fuel : nat) (n count : Z) : Z :=
  match fuel with
  | O => count
  | S fuel => if n >? 0 then b2log_loop fuel (Z.shiftr n 1) (u32 (count + 1)) else count
  end.

Definition nvm_b2log (n : Z) : Z := u32 (b2log_loop 32 n 0 - 1).

Definition MIN (a b : Z) : Z := if a <=? b then a else b.
Definition MAX (a b : Z) : Z := if a >? b then a else b.

Definition nvm_delay_remain (remaining_nanoseconds : Z) : Z :=
  if remaining_nanoseconds =? 0 then 0
  else u64 (remaining_nanoseconds - MIN 1000000 remaining_nanoseconds).

(** ** Masks *)

Lemma NVM_MASK_eq n : 0 <= n <= 63 -> NVM_MASK n = 2 ^ n - 1.
Proof.
  intros. unfold NVM_MASK. rewrite Z.shiftl_1_l.
  assert (0 < 2 ^ n) by lia.
  assert (2 ^ n < 2 ^ 64) by (apply Z.pow_lt_mono_r; lia).
  rewrite (u64_id (2 ^ n)), u64_id; unfold is_word; lia.
Qed.

Lemma NVM_MASK_PART_eq hi lo :
  0 <= lo <= hi -> hi <= 62 -> NVM_MASK_PART hi lo = Z.shiftl (Z.ones (hi - lo + 1)) lo.
Proof.
  intros. unfold NVM_MASK_PART. rewrite !NVM_MASK_eq by lia.
  rewrite Z.shiftl_mul_pow2, Z.ones_equiv by lia.
  assert (E : 2 ^ (hi + 1) = 2 ^ (hi - lo + 1) * 2 ^ lo)
    by (rewrite <- Z.pow_add_r by lia; f_equal; lia).
  assert (2 ^ (hi + 1) <= 2 ^ 63) by (apply Z.pow_le_mono_r; lia).
  assert (0 < 2 ^ lo) by lia. assert (0 < 2 ^ (hi - lo + 1)) by lia.
  rewrite u64_id; unfold is_word; [nia|]. change (2 ^ 64) with (2 * 2 ^ 63). nia.
Qed.

(** [_RB] is the slice [hi..lo] of its operand. *)
Lemma RB_spec v hi lo :
  0 <= lo <= hi -> hi <= 62 -> RB v hi lo = (v / 2 ^ lo) mod 2 ^ (hi - lo + 1).
Proof.
  intros. unfold RB. rewrite NVM_MASK_PART_eq by lia.
  rewrite <- Z.shiftr_div_pow2, <- Z.land_ones by lia.
  rewrite Z.shiftr_land, Z.shiftr_shiftl_l, Z.sub_diag, Z.shiftl_0_r by lia. done.
Qed.

Lemma RB_range v hi lo :
  0 <= lo <= hi -> hi <= 62 -> 0 <= RB v hi lo < 2 ^ (hi - lo + 1).
Proof. intros; rewrite RB_spec by lia. apply Z.mod_pos_bound; lia. Qed.

(** [_WB] places the low [hi - lo + 1] bits of its operand at [lo], when the
    field lies inside the operand's width. *)
Lemma WB_spec w v hi lo :
  0 <= lo <= hi -> hi <= 62 -> hi < w ->
  WB w v hi lo = (v mod 2 ^ (hi - lo + 1)) * 2 ^ lo.
Proof.
  intros. unfold WB, wrap. rewrite NVM_MASK_PART_eq by lia.
  rewrite <- !Z.land_ones, <- Z.shiftl_mul_pow2 by lia.
  apply Z.bits_inj'; intros i Hi.
  rewrite !Z.land_spec, !Z.shiftl_spec, Z.land_spec by lia.
  destruct (Z.ltb_spec i lo).
  - rewrite !(Z.testbit_neg_r _ (i - lo)) by lia. now rewrite andb_false_r.
  - rewrite !Z.testbit_ones_nonneg by lia.
    destruct (Z.ltb_spec i w), (Z.ltb_spec (i - lo) (hi - lo + 1));
      rewrite ?andb_true_r, ?andb_false_r; try done; lia.
Qed.
#[export] Hint Rewrite RB_spec WB_spec using lia : word.

(** ** Page arithmetic *)

Lemma NVM_PAGE_MASK_pow2 k : 0 <= k < 64 -> NVM_PAGE_MASK (2 ^ k) = 2 ^ 64 - 2 ^ k.
Proof.
  intros. unfold NVM_PAGE_MASK, Z.lnot.
  assert (0 < 2 ^ k) by lia.
  assert (2 ^ k < 2 ^ 64) by (apply Z.pow_lt_mono_r; lia).
  rewrite (u64_id (2 ^ k - 1)) by (unfold is_word; lia).
  unfold u64, wrap. symmetry. apply (Z.mod_unique_pos _ _ (-1)); lia.
Qed.

(** Clearing the low [k] bits of a 64-bit word. *)
Lemma land_page_mask x k :
  is_word 64 x -> 0 <= k < 64 -> Z.land x (NVM_PAGE_MASK (2 ^ k)) = 2 ^ k * (x / 2 ^ k).
Proof.
  intros Hx Hk. rewrite NVM_PAGE_MASK_pow2 by lia.
  replace (2 ^ 64 - 2 ^ k) with (Z.shiftl (Z.ones (64 - k)) k).
  2: { rewrite Z.shiftl_mul_pow2, Z.ones_equiv by lia.
       assert (2 ^ 64 = 2 ^ (64 - k) * 2 ^ k)
         by (rewrite <- Z.pow_add_r by lia; f_equal; lia). lia. }
  rewrite Z.mul_comm, <- Z.shiftl_mul_pow2, <- Z.shiftr_div_pow2 by lia.
  apply Z.bits_inj'; intros i Hi. rewrite Z.land_spec, !Z.shiftl_spec by lia.
  destruct (Z.ltb_spec i k).
  - rewrite !(Z.testbit_neg_r _ (i - k)) by lia. apply andb_false_r.
  - rewrite Z.shiftr_spec, Z.testbit_ones_nonneg by lia.
    replace (i - k + k) with i by lia. destruct (Z.ltb_spec (i - k) (64 - k)).
    + apply andb_true_r.
    + rewrite andb_false_r. symmetry.
      destruct (Z.eq_dec x 0) as [->|]; [apply Z.bits_0|].
      apply Z.bits_above_log2; [unfold is_word in Hx; lia|].
      apply Z.log2_lt_pow2; [unfold is_word in Hx; lia|].
      apply (Z.lt_le_trans _ (2 ^ 64)); [unfold is_word in Hx; lia|].
      apply Z.pow_le_mono_r; lia.
Qed.

Lemma NVM_PAGE_ALIGN_spec size k :
  0 <= size -> 0 <= k < 64 -> size + 2 ^ k < 2 ^ 64 ->
  NVM_PAGE_ALIGN size (2 ^ k) = 2 ^ k * ((size + 2 ^ k - 1) / 2 ^ k).
Proof.
  intros Hs Hk Hfit. unfold NVM_PAGE_ALIGN. assert (0 < 2 ^ k) by lia.
  rewrite (u64_id (size + 2 ^ k)), u64_id by (unfold is_word; lia).
  apply land_page_mask; [unfold is_word|]; lia.
Qed.

(** A page-aligned size is the least multiple of the page size that holds it. *)
Theorem NVM_PAGE_ALIGN_least size k :
  0 <= size -> 0 <= k < 64 -> size + 2 ^ k < 2 ^ 64 ->
  let r := NVM_PAGE_ALIGN size (2 ^ k) in
  size <= r /\ (2 ^ k | r) /\ (forall m, (2 ^ k | m) -> size <= m -> r <= m) /\
  NVM_CTRL_PAGES (2 ^ k) size * 2 ^ k = r.
Proof.
  intros Hs Hk Hfit r. assert (0 < 2 ^ k) by lia.
  assert (Hr : r = 2 ^ k * ((size + 2 ^ k - 1) / 2 ^ k))
    by (apply NVM_PAGE_ALIGN_spec; lia).
  pose proof (Z.div_mod (size + 2 ^ k - 1) (2 ^ k)) as Hd.
  pose proof (Z.mod_pos_bound (size + 2 ^ k - 1) (2 ^ k)) as Hm.
  split; [lia|]. split; [exists ((size + 2 ^ k - 1) / 2 ^ k); lia|]. split.
  - intros m [q ->] Hq. rewrite Hr.
    assert ((size + 2 ^ k - 1) / 2 ^ k < q + 1) by (apply Z.div_lt_upper_bound; lia). nia.
  - unfold NVM_CTRL_PAGES, NVM_CTRL_ALIGN. fold r.
    rewrite Hr, (Z.mul_comm (2 ^ k)), Z.div_mul by lia. lia.
Qed.

(** The pages of a queue hold all its entries, and one page less would not. *)
Lemma queue_pages_fit es page_size qs :
  0 < es -> 0 < page_size -> (es | page_size) -> 1 <= qs <= 0x10000 ->
  let n := (u16 (qs - 1) * es) / page_size + 1 in
  qs * es <= n * page_size /\ (n - 1) * page_size < qs * es.
Proof.
  intros He Hp [m ->] Hq n. subst n.
  rewrite (u16_id (qs - 1)) by (unfold is_word; lia).
  rewrite Z.div_mul_cancel_r by nia.
  pose proof (Z.div_mod (qs - 1) m). pose proof (Z.mod_pos_bound (qs - 1) m). nia.
Qed.

(** ** Doorbells *)

(** Every doorbell of a controller is a distinct, stride-aligned register above
    the 4 KiB of controller registers: two queues never share one. *)
Theorem doorbells_distinct p dstrd y1 y2 :
  0 <= dstrd <= 15 -> 0 <= y1 -> 0 <= y2 ->
  SQ_DBL p y1 dstrd <> CQ_DBL p y2 dstrd /\
  (SQ_DBL p y1 dstrd = SQ_DBL p y2 dstrd -> y1 = y2) /\
  (CQ_DBL p y1 dstrd = CQ_DBL p y2 dstrd -> y1 = y2) /\
  p + 0x1000 <= SQ_DBL p y1 dstrd /\ SQ_DBL p y1 dstrd + Z.shiftl 4 dstrd = CQ_DBL p y1 dstrd.
Proof.
  intros Hd H1 H2. unfold SQ_DBL, CQ_DBL. rewrite Z.shiftl_mul_pow2 by lia.
  assert (0 < 2 ^ dstrd) by lia.
  assert (Hinj : forall a b, a * (4 * 2 ^ dstrd) = b * (4 * 2 ^ dstrd) -> a = b)
    by (intros a b; apply Z.mul_reg_r; lia).
  repeat split.
  - intros E. specialize (Hinj (2 * y1) (2 * y2 + 1)). lia.
  - intros E. specialize (Hinj (2 * y1) (2 * y2)). lia.
  - intros E. specialize (Hinj (2 * y1 + 1) (2 * y2 + 1)). lia.
  - nia.
  - lia.
Qed.

(** ** Base-2 logarithm *)

Lemma b2log_loop_spec fuel n count :
  0 < n -> Z.log2 n < Z.of_nat fuel -> 0 <= count -> count + Z.log2 n + 1 < 2 ^ 32 ->
  b2log_loop fuel n count = count + Z.log2 n + 1.
Proof.
  revert n count. induction fuel as [|fuel IH]; intros n count Hn Hf Hc Hb.
  { pose proof (Z.log2_nonneg n); lia. }
  pose proof (Z.log2_nonneg n) as Hl. cbn [b2log_loop].
  rewrite Z.gtb_ltb, (proj2 (Z.ltb_lt 0 n) Hn).
  rewrite u32_id by (unfold is_word; lia).
  destruct (Z.eq_dec n 1) as [->|].
  { destruct fuel; cbn [b2log_loop]; [|change (Z.shiftr 1 1 >? 0) with false]; cbn; lia. }
  assert (Hs : 0 < Z.shiftr n 1) by (rewrite Z.shiftr_div_pow2 by lia; Z.div_mod_to_equations; lia).
  assert (Hlog : Z.log2 (Z.shiftr n 1) = Z.log2 n - 1).
  { rewrite Z.log2_shiftr by lia. assert (1 <= Z.log2 n); [|lia].
    apply Z.log2_le_pow2; lia. }
  rewrite IH; lia.
Qed.

Lemma nvm_b2log_spec n : 0 < n < 2 ^ 32 -> nvm_b2log n = Z.log2 n.
Proof.
  intros. unfold nvm_b2log.
  assert (Z.log2 n < 32) by (apply Z.log2_lt_pow2; lia).
  pose proof (Z.log2_nonneg n). rewrite b2log_loop_spec by lia.
  rewrite u32_id; unfold is_word; lia.
Qed.

(** ** Delays *)

Lemma nvm_delay_remain_spec r :
  is_word 64 r -> nvm_delay_remain r = Z.max 0 (r - 1000000).
Proof.
  unfold is_word; intros. unfold nvm_delay_remain, MIN.
  repeat case_test; try lia; rewrite u64_id; unfold is_word; lia.
Qed.
#[export] Hint Rewrite nvm_b2log_spec nvm_delay_remain_spec using (assumption || word_lia) : word.

(** ** Fields of commands and completions *)

(** A little-endian half of a 32-bit word. *)
Lemma REG16_spec ds i (d : Z) h :
  ds !! i = Some d -> is_word 32 d -> (h = 0 \/ h = 1) ->
  REG ds (4 * Z.of_nat i + 2 * h) 16 = (d / 2 ^ (16 * h)) mod 2 ^ 16.
Proof.
  intros Hd Hw Hh. unfold REG. change (Z.to_nat (16 / 8)) with 2%nat. cbn [REG_bytes].
  rewrite Z.shiftl_0_l, Z.lor_0_r. unfold byte_at.
  assert (Hn : nth i ds 0 = d) by (apply nth_lookup_Some with (d := 0) in Hd; done).
  change 255 with (2 ^ 8 - 1). rewrite !(land_ones_mod _ 8) by lia.
  replace ((4 * Z.of_nat i + 2 * h) / 4) with (Z.of_nat i) by (Z.div_mod_to_equations; lia).
  replace ((4 * Z.of_nat i + 2 * h + 1) / 4) with (Z.of_nat i) by (Z.div_mod_to_equations; lia).
  replace ((4 * Z.of_nat i + 2 * h) mod 4) with (2 * h) by (Z.div_mod_to_equations; lia).
  replace ((4 * Z.of_nat i + 2 * h + 1) mod 4) with (2 * h + 1) by (Z.div_mod_to_equations; lia).
  rewrite Nat2Z.id, Hn, Z.lor_comm, lor_shiftl_add by (try apply Z.mod_pos_bound; lia).
  rewrite !Z.shiftr_div_pow2 by lia. unfold is_word in Hw.
  destruct Hh; subst h; simpl Z.mul; simpl Z.add; cbn; Z.div_mod_to_equations; lia.
Qed.
