(* ===== verification/NvmCmd.v ===== *)
(** NVMe commands and PRP lists: [src/include/nvm_cmd.h].

    A command is its sixteen 32-bit words; host and GPU memory holding PRP lists
    is a finite map from byte addresses to 64-bit entries.  An out-of-bounds
    array read is [None].  [prp_walk] and [cmd_pages] say how a controller reads
    the data pointer of a command (NVMe base specification, PRP entries and
    lists); the theorems show the driver's PRP chains decode to the pages they
    were built from. *)
From Stdlib Require Import ZArith Lia List.
From stdpp Require Import base list gmap numbers.
From S2P Require Import Prelude NvmUtil.

Import ListNotations.
Local Open Scope Z_scope.

(** ** Commands *)

Definition dword (cmd : list Z) (i : nat) : Z := nth i cmd 0.

(** A well-formed command: sixteen 32-bit words. *)
Definition cmd_ok (cmd : list Z) : Prop :=
  length cmd = 16%nat /\ Forall (is_word 32) cmd.

Definition NVM_CMD_OPCODE (gen fun_ data : Z) : Z :=
  Z.lor (Z.lor (WB 32 gen 7 7) (WB 32 fun_ 6 2)) (WB 32 data 1 0).

Definition NVM_IO_FLUSH : Z := NVM_CMD_OPCODE 0 0 0.
Definition NVM_IO_WRITE : Z := NVM_CMD_OPCODE 0 0 1.
Definition NVM_IO_READ : Z := NVM_CMD_OPCODE 0 0 2.
Definition NVM_IO_WRITE_ZEROES : Z := NVM_CMD_OPCODE 0 2 0.
Definition NVM_IO_DATASET_MGMT : Z := NVM_CMD_OPCODE 0 2 1.
Definition NVM_DSM_ATTR_DEALLOCATE : Z := 1.

Definition NVM_ADMIN_DELETE_SQ : Z := NVM_CMD_OPCODE 0 0 0.
Definition NVM_ADMIN_CREATE_SQ : Z := NVM_CMD_OPCODE 0 0 1.
Definition NVM_ADMIN_GET_LOG_PAGE : Z := NVM_CMD_OPCODE 0 0 2.
Definition NVM_ADMIN_DELETE_CQ : Z := NVM_CMD_OPCODE 0 1 0.
Definition NVM_ADMIN_CREATE_CQ : Z := NVM_CMD_OPCODE 0 1 1.
Definition NVM_ADMIN_IDENTIFY : Z := NVM_CMD_OPCODE 0 1 2.
Definition NVM_ADMIN_ABORT : Z := NVM_CMD_OPCODE 0 2 0.
Definition NVM_ADMIN_SET_FEATURES : Z := NVM_CMD_OPCODE 0 2 1.
Definition NVM_ADMIN_GET_FEATURES : Z := NVM_CMD_OPCODE 0 2 2.
Definition NVM_ADMIN_FORMAT_NVM : Z := NVM_CMD_OPCODE 1 0 0.

Definition nvm_cmd_header (cmd : list Z) (cid opcode ns_id : Z) : list Z :=
  let d0 := Z.lor (Z.lor (Z.lor (u32 (Z.shiftl cid 16)) (Z.shiftl 0 14)) (Z.shiftl 0 8))
                  (Z.land opcode 0x7f) in
  <[1%nat := ns_id]> (<[0%nat := d0]> cmd).

Definition nvm_cmd_data_ptr (cmd : list Z) (prp1 prp2 : Z) : list Z :=
  let d0 := Z.land (dword cmd 0)
                   (u32 (Z.lnot (Z.lor (Z.shiftl 0x03 14) (Z.shiftl 0x03 8)))) in
  <[9%nat := u32 (Z.shiftr prp2 32)]> (<[8%nat := u32 prp2]>
  (<[7%nat := u32 (Z.shiftr prp1 32)]> (<[6%nat := u32 prp1]> (<[0%nat := d0]> cmd)))).

(** [n_blks] is a [uint16_t] parameter: the argument is truncated at the call. *)
Definition nvm_cmd_rw_blks (cmd : list Z) (start_lba n_blks : Z) : list Z :=
  let n_blks := u16 n_blks in
  let d12 := Z.lor (Z.land (dword cmd 12) 0xffff0000) (Z.land (n_blks - 1) 0xffff) in
  <[12%nat := d12]> (<[11%nat := u32 (Z.shiftr start_lba 32)]>
  (<[10%nat := u32 start_lba]> cmd)).

Definition nvm_cmd_dsm (cmd : list Z) (nr attr : Z) : list Z :=
  <[11%nat := attr]> (<[10%nat := nr]> cmd).

(** ** PRP lists *)

Record nvm_prp_list_t := MkPrpList {
  pl_vaddr : Z;       (** virtual address of the page *)
  pl_local : bool;
  pl_page_size : Z;
  pl_ioaddr : Z       (** bus address of the page *)
}.

(** [for (i_prp = 0; ...) entries[i_prp] = ioaddrs[i_prp];] *)
Fixpoint prp_populate (n : nat) (mem : gmap Z Z) (entries : Z) (ioaddrs : list Z)
    (i_prp : nat) : option (gmap Z Z) :=
  match n with
  | O => Some mem
  | S n =>
      match ioaddrs !! i_prp with
      | None => None
      | Some a =>
          prp_populate n (<[entries + 8 * Z.of_nat i_prp := a]> mem) entries ioaddrs (S i_prp)
      end
  end.

(** [cuda_arch]: compiled for the device, where the [n_pages == 0] guard is
    preprocessed away. *)
Definition nvm_prp_list (cuda_arch : bool) (mem : gmap Z Z) (l : nvm_prp_list_t)
    (n_pages : Z) (ioaddrs : list Z) : option (gmap Z Z * Z) :=
  let n_prps := pl_page_size l / 8 in
  if negb cuda_arch && (n_pages =? 0) then Some (mem, 0)
  else
    let n_prps := if n_pages >? n_prps then u64 (n_prps - 1) else n_pages in
    match prp_populate (Z.to_nat n_prps) mem (pl_vaddr l) ioaddrs 0 with
    | None => None
    | Some mem' => Some (mem', n_prps)
    end.

(** The [for] loop of [nvm_prp_list_chain]; [fuel] counts the lists left. *)
Fixpoint prp_chain_loop (fuel : nat) (cuda_arch : bool) (mem : gmap Z Z)
    (lists : list nvm_prp_list_t) (n_pages : Z) (ioaddrs : list Z)
    (i_list : nat) (list_prps n_prps : Z) : option (gmap Z Z * Z) :=
  match fuel with
  | O => Some (mem, n_prps)
  | S fuel =>
      if n_prps <? n_pages then
        match lists !! (i_list - 1)%nat, lists !! i_list with
        | Some prev, Some l =>
            let mem := <[pl_vaddr prev + 8 * list_prps := pl_ioaddr l]> mem in
            match nvm_prp_list cuda_arch mem l (n_pages - n_prps)
                    (drop (Z.to_nat n_prps) ioaddrs) with
            | None => None
            | Some (mem, list_prps) =>
                prp_chain_loop fuel cuda_arch mem lists n_pages ioaddrs (S i_list)
                  list_prps (n_prps + list_prps)
            end
        | _, _ => None
        end
      else Some (mem, n_prps)
  end.

(** [lists = None] is the NULL pointer. *)
Definition nvm_prp_list_chain (cuda_arch : bool) (mem : gmap Z Z) (n_lists : nat)
    (lists : option (list nvm_prp_list_t)) (n_pages : Z) (ioaddrs : list Z)
    : option (gmap Z Z * Z) :=
  match n_lists, lists with
  | O, _ | _, None => Some (mem, 0)
  | S n, Some lists =>
      match lists !! 0%nat with
      | None => None
      | Some l0 =>
          match nvm_prp_list cuda_arch mem l0 n_pages ioaddrs with
          | None => None
          | Some (mem, list_prps) =>
              prp_chain_loop n cuda_arch mem lists n_pages ioaddrs 1 list_prps list_prps
          end
      end
  end.

(** Result: memory, command and number of PRP entries used. *)
Definition nvm_cmd_data (cuda_arch : bool) (mem : gmap Z Z) (cmd : list Z) (n_lists : nat)
    (lists : option (list nvm_prp_list_t)) (n_pages : Z) (ioaddrs : list Z)
    : option (gmap Z Z * list Z * Z) :=
  if negb cuda_arch && (n_pages =? 0) then Some (mem, cmd, 0)
  else
    let n_lists := match lists with None => O | Some _ => n_lists end in
    match ioaddrs !! 0%nat with
    | None => None
    | Some dptr0 =>
        if (n_pages >? 2) && negb (n_lists =? 0)%nat then
          match nvm_prp_list_chain cuda_arch mem n_lists lists (n_pages - 1) (drop 1 ioaddrs),
                lists ≫= (fun ls => ls !! 0%nat) with
          | Some (mem, prps), Some l0 =>
              Some (mem, nvm_cmd_data_ptr cmd dptr0 (pl_ioaddr l0), 1 + prps)
          | _, _ => None
          end
        else if n_pages >=? 2 then
          match ioaddrs !! 1%nat with
          | None => None
          | Some dptr1 => Some (mem, nvm_cmd_data_ptr cmd dptr0 dptr1, 2)
          end
        else Some (mem, nvm_cmd_data_ptr cmd dptr0 0, 1)
    end.

(** ** How a controller reads the data pointer *)

Definition cmd_prp1 (cmd : list Z) : Z := dword cmd 6 + dword cmd 7 * 2 ^ 32.
Definition cmd_prp2 (cmd : list Z) : Z := dword cmd 8 + dword cmd 9 * 2 ^ 32.
Definition cmd_opcode (cmd : list Z) : Z := RB (dword cmd 0) 7 0.
Definition cmd_slba (cmd : list Z) : Z := dword cmd 10 + dword cmd 11 * 2 ^ 32.
(** NLB is a zero-based 16-bit count. *)
Definition cmd_nlb (cmd : list Z) : Z := RB (dword cmd 12) 15 0 + 1.

(** [n] consecutive entries of a list page. *)
Definition read_entries (mem : gmap Z Z) (vaddr : Z) (n : nat) : option (list Z) :=
  mapM (fun k => mem !! (vaddr + 8 * Z.of_nat k)) (seq 0 n).

(** The list page at a bus address. *)
Definition list_at (lists : list nvm_prp_list_t) (ioaddr : Z) : option nvm_prp_list_t :=
  List.find (fun l => pl_ioaddr l =? ioaddr) lists.

(** The pages of a PRP list holding [r] more pages: all of its entries when they
    fit, otherwise all but the last, which points to the next list. *)
Fixpoint prp_walk (fuel : nat) (mem : gmap Z Z) (lists : list nvm_prp_list_t)
    (addr : Z) (r : nat) : option (list Z) :=
  match fuel with
  | O => None
  | S fuel =>
      l ← list_at lists addr;
      let e := Z.to_nat (pl_page_size l / 8) in
      if (r <=? e)%nat then read_entries mem (pl_vaddr l) r
      else
        pages ← read_entries mem (pl_vaddr l) (e - 1);
        next ← mem !! (pl_vaddr l + 8 * Z.of_nat (e - 1));
        rest ← prp_walk fuel mem lists next (r - (e - 1));
        Some (pages ++ rest)
  end.

(** The memory pages a command of [n_pages] pages transfers. *)
Definition cmd_pages (mem : gmap Z Z) (lists : list nvm_prp_list_t) (cmd : list Z)
    (n_pages : nat) : option (list Z) :=
  match n_pages with
  | 0%nat => Some []
  | 1%nat => Some [cmd_prp1 cmd]
  | 2%nat => Some [cmd_prp1 cmd; cmd_prp2 cmd]
  | S r => rest ← prp_walk (length lists) mem lists (cmd_prp2 cmd) r;
           Some (cmd_prp1 cmd :: rest)
  end.

(** ** Command fields *)

Lemma dword_insert_eq cmd i v :
  (i < length cmd)%nat -> dword (<[i := v]> cmd) i = v.
Proof. intros. unfold dword. apply nth_lookup_Some, list_lookup_insert_eq; done. Qed.

Lemma dword_insert_ne cmd i j v : i <> j -> dword (<[i := v]> cmd) j = dword cmd j.
Proof. intros. unfold dword. now rewrite !nth_lookup, list_lookup_insert_ne. Qed.
#[export] Hint Rewrite dword_insert_eq using (rewrite ?length_insert; lia) : word.
#[export] Hint Rewrite dword_insert_ne using lia : word.

(** The header sets identifier, namespace and a seven-bit opcode. *)
Lemma nvm_cmd_header_fields cmd cid opcode ns_id :
  length cmd = 16%nat -> is_word 16 cid -> 0 <= opcode < 256 ->
  let c := nvm_cmd_header cmd cid opcode ns_id in
  cmd_opcode c = opcode mod 128 /\ dword c 0 / 2 ^ 16 = cid /\ dword c 1 = ns_id /\
  forall i, (2 <= i)%nat -> dword c i = dword cmd i.
Proof.
  intros Hl Hc Ho c. subst c. unfold cmd_opcode, nvm_cmd_header.
  autorewrite with word. rewrite !Z.shiftl_0_l, !Z.lor_0_r.
  change 0x7f with (2 ^ 7 - 1). rewrite (land_ones_mod opcode 7) by lia.
  rewrite (u32_id (Z.shiftl cid 16))
    by (rewrite Z.shiftl_mul_pow2 by lia; word_lia).
  pose proof (Z.mod_pos_bound opcode (2 ^ 7)) as Hm.
  assert (2 ^ 7 < 2 ^ 16) by lia.
  rewrite lor_shiftl_add by lia.
  split; [|split; [|split]].
  - word_lia.
  - word_lia.
  - done.
  - intros i Hi. now autorewrite with word.
Qed.

(** A transfer of up to 65536 blocks is encoded exactly: the 16-bit truncation
    of the count and the zero-based field cancel. *)
Lemma nvm_cmd_rw_blks_fields cmd start_lba n_blks :
  length cmd = 16%nat -> is_word 64 start_lba -> 1 <= n_blks <= 65536 ->
  let c := nvm_cmd_rw_blks cmd start_lba n_blks in
  cmd_slba c = start_lba /\ cmd_nlb c = n_blks /\
  forall i, (i < 10 \/ 12 < i)%nat -> dword c i = dword cmd i.
Proof.
  intros Hl Hs Hn c. subst c. unfold cmd_slba, cmd_nlb, nvm_cmd_rw_blks.
  autorewrite with word. split; [|split].
  - rewrite Z.shiftr_div_pow2 by lia. word_lia.
  - change 0xffff with (2 ^ 16 - 1). rewrite land_ones_mod by lia.
    rewrite Z.div_1_r, <- Z.land_ones, Z.land_lor_distr_l by lia.
    rewrite <- Z.land_assoc. change (Z.land 0xffff0000 (Z.ones (15 - 0 + 1))) with 0.
    rewrite Z.land_0_r, Z.lor_0_l, Z.land_ones, Zmod_mod by lia. word_lia.
  - intros i Hi. now autorewrite with word.
Qed.

Lemma nvm_cmd_data_ptr_prps cmd prp1 prp2 :
  length cmd = 16%nat -> is_word 64 prp1 -> is_word 64 prp2 ->
  let c := nvm_cmd_data_ptr cmd prp1 prp2 in
  cmd_prp1 c = prp1 /\ cmd_prp2 c = prp2.
Proof.
  intros Hl H1 H2 c. subst c. unfold cmd_prp1, cmd_prp2, nvm_cmd_data_ptr.
  autorewrite with word. rewrite !Z.shiftr_div_pow2 by lia. split; word_lia.
Qed.

(** ** PRP lists *)

Lemma prp_populate_spec n mem entries ioaddrs i :
  (i + n <= length ioaddrs)%nat ->
  exists mem', prp_populate n mem entries ioaddrs i = Some mem' /\
    (forall k, (i <= k < i + n)%nat -> mem' !! (entries + 8 * Z.of_nat k) = ioaddrs !! k) /\
    (forall a, (forall k, (i <= k < i + n)%nat -> a <> entries + 8 * Z.of_nat k) ->
               mem' !! a = mem !! a).
Proof.
  revert mem i. induction n as [|n IH]; intros mem i Hl; cbn [prp_populate].
  { exists mem. split; [done|split; [lia|done]]. }
  destruct (lookup_lt_is_Some_2 ioaddrs i) as [a Ha]; [lia|]. rewrite Ha.
  destruct (IH (<[entries + 8 * Z.of_nat i := a]> mem) (S i)) as (mem' & Hp & He & Hf); [lia|].
  exists mem'. split; [done|split].
  - intros k Hk. destruct (decide (k = i)) as [->|].
    + rewrite Hf by lia. now rewrite lookup_insert_eq, Ha.
    + apply He; lia.
  - intros b Hb. rewrite Hf by (intros; apply Hb; lia).
    rewrite lookup_insert_ne; [done|]. intros <-. apply (Hb i); lia.
Qed.

Lemma read_entries_spec mem vaddr xs n :
  (n <= length xs)%nat ->
  (forall k, (k < n)%nat -> mem !! (vaddr + 8 * Z.of_nat k) = xs !! k) ->
  read_entries mem vaddr n = Some (take n xs).
Proof.
  intros Hl He. unfold read_entries. apply mapM_Some, Forall2_same_length_lookup_2.
  { rewrite length_seq, length_take. lia. }
  intros k x y Hx Hy. apply lookup_seq in Hx as [-> Hk]. simpl.
  rewrite He by lia. apply lookup_take_Some in Hy. tauto.
Qed.

(** A chain of list pages of the same size, apart in memory and on the bus. *)
Section prp_chain.
  Context (lists : list nvm_prp_list_t) (ps : Z) (e : nat) (cuda_arch : bool).
  Context (Hps : ps / 8 = Z.of_nat e) (He : (2 <= e)%nat) (Hps64 : is_word 64 ps).
  Context (Hsize : Forall (fun l => pl_page_size l = ps) lists).
  Context (Hbus : NoDup (pl_ioaddr <$> lists)).
  Context (Hapart : forall i j li lj, lists !! i = Some li -> lists !! j = Some lj ->
             i <> j -> pl_vaddr li + ps <= pl_vaddr lj \/ pl_vaddr lj + ps <= pl_vaddr li).

Definition in_page (l : nvm_prp_list_t) (a : Z) : Prop :=
  pl_vaddr l <= a < pl_vaddr l + ps.

Lemma in_page_entry l k : (k < e)%nat -> in_page l (pl_vaddr l + 8 * Z.of_nat k).
Proof. clear -Hps. intros Hk. unfold in_page. Z.div_mod_to_equations; lia. Qed.

Lemma list_at_lookup i l : lists !! i = Some l -> list_at lists (pl_ioaddr l) = Some l.
Proof.
  clear Hsize Hapart. revert i. induction lists as [|l0 ls IH]; intros i Hl; [done|].
  inversion Hbus as [|x xs Hni Hnd]; subst.
  unfold list_at; simpl. destruct i as [|i]; simpl in Hl.
  { injection Hl as ->. now rewrite Z.eqb_refl. }
  destruct (Z.eqb_spec (pl_ioaddr l0) (pl_ioaddr l)) as [E|E].
  - exfalso. apply Hni. rewrite E. apply list_elem_of_fmap. exists l.
    split; [done|]. now apply list_elem_of_lookup_2 with i.
  - apply (IH Hnd i Hl).
Qed.

Lemma nvm_prp_list_spec mem i l np ioaddrs :
  lists !! i = Some l -> (0 < np <= length ioaddrs)%nat ->
  let k := if (np <=? e)%nat then np else (e - 1)%nat in
  exists mem', nvm_prp_list cuda_arch mem l (Z.of_nat np) ioaddrs = Some (mem', Z.of_nat k) /\
    (forall j, (j < k)%nat -> mem' !! (pl_vaddr l + 8 * Z.of_nat j) = ioaddrs !! j) /\
    (forall a, ~ in_page l a -> mem' !! a = mem !! a).
Proof.
  intros Hl Hn k. unfold nvm_prp_list.
  assert (Hp : pl_page_size l = ps) by (eapply Forall_lookup_1 in Hsize; eauto).
  rewrite Hp, Hps, (proj2 (Z.eqb_neq (Z.of_nat np) 0)), andb_false_r by lia.
  assert (Hk : (if Z.of_nat np >? Z.of_nat e then u64 (Z.of_nat e - 1) else Z.of_nat np)
               = Z.of_nat k).
  { subst k. unfold is_word in Hps64.
    assert (Z.of_nat e < 2 ^ 64) by (rewrite <- Hps; Z.div_mod_to_equations; lia).
    destruct (Nat.leb_spec np e); case_test; try lia.
    rewrite u64_id; unfold is_word; lia. }
  assert (Hke : (k <= e)%nat) by (subst k; destruct (Nat.leb_spec np e); lia).
  rewrite Hk, Nat2Z.id.
  destruct (prp_populate_spec k mem (pl_vaddr l) ioaddrs 0) as (mem' & Hpop & Hent & Hfr).
  { subst k. destruct (Nat.leb_spec np e); lia. }
  exists mem'. rewrite Hpop. split; [done|split].
  - intros j Hj. apply Hent; lia.
  - intros a Ha. apply Hfr. intros j Hj ->. apply Ha. unfold in_page.
    Z.div_mod_to_equations; lia.
Qed.

(** Number of entries used in a list holding [r] more pages. *)
Definition entries_used (r : nat) : nat := if (r <=? e)%nat then r else (e - 1)%nat.

(** The walk of the last list of a chain. *)
Lemma prp_walk_last wfuel mem i l r xs :
  lists !! i = Some l -> (r <= e)%nat -> (r <= length xs)%nat ->
  (forall k, (k < r)%nat -> mem !! (pl_vaddr l + 8 * Z.of_nat k) = xs !! k) ->
  prp_walk (S wfuel) mem lists (pl_ioaddr l) r = Some (take r xs).
Proof.
  intros Hl Hr Hx Hk. cbn [prp_walk]. rewrite (list_at_lookup i) by done. cbn.
  assert (pl_page_size l = ps) as -> by (eapply Forall_lookup_1 in Hsize; eauto).
  rewrite Hps, Nat2Z.id, (proj2 (Nat.leb_le r e)) by lia.
  now apply read_entries_spec.
Qed.

(** The walk of an inner list: [e - 1] pages, then the next list. *)
Lemma prp_walk_next wfuel mem i l next r xs rest :
  lists !! i = Some l -> (e < r)%nat -> (e - 1 <= length xs)%nat ->
  (forall k, (k < e - 1)%nat -> mem !! (pl_vaddr l + 8 * Z.of_nat k) = xs !! k) ->
  mem !! (pl_vaddr l + 8 * Z.of_nat (e - 1)) = Some next ->
  prp_walk wfuel mem lists next (r - (e - 1)) = Some rest ->
  prp_walk (S wfuel) mem lists (pl_ioaddr l) r = Some (take (e - 1) xs ++ rest).
Proof.
  intros Hl Hr Hx Hk Hn Hw. cbn [prp_walk]. rewrite (list_at_lookup i) by done. cbn.
  assert (pl_page_size l = ps) as -> by (eapply Forall_lookup_1 in Hsize; eauto).
  rewrite Hps, Nat2Z.id, (proj2 (Nat.leb_gt r e)) by lia.
  rewrite (read_entries_spec _ _ xs) by (done || lia). cbn.
  rewrite Hn. cbn. now rewrite Hw.
Qed.

Lemma prp_chain_loop_ok fuel mem i prev np first ioaddrs :
  (i + fuel = length lists)%nat -> (1 <= i)%nat -> lists !! (i - 1)%nat = Some prev ->
  (np <= length ioaddrs)%nat -> (first < np)%nat ->
  (np - first <= (fuel + 1) * (e - 1) + 1)%nat ->
  let lp := entries_used (np - first) in
  (forall k, (k < lp)%nat ->
     mem !! (pl_vaddr prev + 8 * Z.of_nat k) = drop first ioaddrs !! k) ->
  exists mem', prp_chain_loop fuel cuda_arch mem lists (Z.of_nat np) ioaddrs i
      (Z.of_nat lp) (Z.of_nat (first + lp)) = Some (mem', Z.of_nat np) /\
    (forall a, (forall j l, (i <= j)%nat -> lists !! j = Some l -> ~ in_page l a) ->
       a <> pl_vaddr prev + 8 * Z.of_nat (e - 1) -> mem' !! a = mem !! a) /\
    prp_walk (S fuel) mem' lists (pl_ioaddr prev) (np - first) =
      Some (take (np - first) (drop first ioaddrs)).
Proof.
  revert mem i prev first. induction fuel as [|fuel IH];
    intros mem i prev first Hi H1 Hprev Hlen Hfirst Hcap lp Hent; subst lp.
  { cbn [prp_chain_loop]. unfold entries_used in *.
    destruct (Nat.leb_spec (np - first) e); [|lia].
    exists mem. split; [repeat f_equal; lia|]. split; [done|].
    eapply prp_walk_last; [done|lia|rewrite length_drop; lia|done]. }
  cbn [prp_chain_loop]. unfold entries_used in Hent |- *.
  destruct (Nat.leb_spec (np - first) e) as [Hle|Hgt].
  { rewrite (proj2 (Z.ltb_ge _ _)) by lia. exists mem.
    split; [repeat f_equal; lia|]. split; [done|].
    eapply prp_walk_last; [done|lia|rewrite length_drop; lia|done]. }
  rewrite (proj2 (Z.ltb_lt _ _)), Hprev by lia.
  destruct (lookup_lt_is_Some_2 lists i) as [l Hl]; [lia|]. rewrite Hl.
  set (first' := (first + (e - 1))%nat). set (mem1 := <[_ := _]> mem).
  replace (Z.of_nat np - Z.of_nat first') with (Z.of_nat (np - first')) by lia.
  rewrite Nat2Z.id.
  destruct (nvm_prp_list_spec mem1 i l (np - first') (drop first' ioaddrs))
    as (mem2 & -> & Hent2 & Hfr2); [done|rewrite length_drop; lia|].
  fold (entries_used (np - first')) in *. rewrite <- Nat2Z.inj_add.
  destruct (IH mem2 (S i) l first') as (mem3 & Hloop & Hfr3 & Hwalk);
    [lia|lia|now replace (S i - 1)%nat with i by lia|lia|lia|nia|done|].
  exists mem3. split; [done|].
  assert (Hout : forall a, in_page prev a -> forall j l', (i <= j)%nat ->
                   lists !! j = Some l' -> ~ in_page l' a).
  { intros a Ha j l' Hj Hl' Ha'. unfold in_page in *.
    pose proof (Hapart (i - 1)%nat j prev l' Hprev Hl'). lia. }
  assert (Hstep : forall a, (forall j l', (i <= j)%nat -> lists !! j = Some l' -> ~ in_page l' a) ->
                    mem3 !! a = mem1 !! a).
  { intros a Ha. rewrite Hfr3, Hfr2; [done|eauto| |].
    - intros j l' Hj. apply Ha; lia.
    - intros ->. apply (Ha i l); auto using in_page_entry with lia. }
  split.
  - intros a Ha Hne. rewrite Hstep by done. apply lookup_insert_ne; lia.
  - replace (take (np - first) (drop first ioaddrs))
      with (take (e - 1) (drop first ioaddrs) ++ take (np - first') (drop first' ioaddrs)).
    2: { subst first'. rewrite <- drop_drop, take_take_drop. f_equal; lia. }
    eapply prp_walk_next; [done|lia|rewrite length_drop; lia| | |].
    + intros k Hk. rewrite Hstep by (apply Hout, in_page_entry; lia).
      unfold mem1. rewrite lookup_insert_ne by lia. now apply Hent.
    + rewrite Hstep by (apply Hout, in_page_entry; lia). apply lookup_insert_eq.
    + replace (np - first - (e - 1))%nat with (np - first')%nat by lia. exact Hwalk.
Qed.

Lemma nvm_prp_list_chain_ok mem np ioaddrs l0 :
  lists !! 0%nat = Some l0 -> (0 < np <= length ioaddrs)%nat ->
  (np <= length lists * (e - 1) + 1)%nat ->
  exists mem', nvm_prp_list_chain cuda_arch mem (length lists) (Some lists) (Z.of_nat np) ioaddrs
      = Some (mem', Z.of_nat np) /\
    prp_walk (length lists) mem' lists (pl_ioaddr l0) np = Some (take np ioaddrs).
Proof.
  intros Hl0 Hnp Hcap. pose proof (lookup_lt_Some _ _ _ Hl0) as Hlen.
  unfold nvm_prp_list_chain. destruct (length lists) as [|n] eqn:Hn; [lia|]. rewrite Hl0.
  destruct (nvm_prp_list_spec mem 0 l0 np ioaddrs Hl0 Hnp) as (mem1 & -> & Hent & _).
  fold (entries_used np) in *.
  destruct (prp_chain_loop_ok n mem1 1 l0 np 0 ioaddrs) as (mem2 & Hloop & _ & Hwalk);
    rewrite ?Nat.sub_0_r, ?drop_0 in *; try done; try lia.
  exists mem2. split; done.
Qed.
End prp_chain.

(** List pages of one size of at least two entries, apart in memory and on the bus. *)
Definition prp_lists_ok (lists : list nvm_prp_list_t) (ps : Z) : Prop :=
  16 <= ps < 2 ^ 64 /\ Forall (fun l => pl_page_size l = ps) lists /\
  Forall (fun l => is_word 64 (pl_ioaddr l)) lists /\ NoDup (pl_ioaddr <$> lists) /\
  (forall i j li lj, lists !! i = Some li -> lists !! j = Some lj -> i <> j ->
     pl_vaddr li + ps <= pl_vaddr lj \/ pl_vaddr lj + ps <= pl_vaddr li).

(** C11: [nvm_cmd_data], given list pages that can hold the transfer, succeeds,
    uses one PRP entry per page, and leaves a command whose data pointer a
    controller decodes to exactly the pages it was given, in order. *)
Theorem nvm_cmd_data_decodes (cuda_arch : bool) mem cmd lists ps np ioaddrs :
  length cmd = 16%nat -> prp_lists_ok lists ps -> (1 <= np <= length ioaddrs)%nat ->
  Forall (is_word 64) ioaddrs ->
  (np <= length lists * (Z.to_nat (ps / 8) - 1) + 2)%nat ->
  exists mem' cmd',
    nvm_cmd_data cuda_arch mem cmd (length lists) (Some lists) (Z.of_nat np) ioaddrs
      = Some (mem', cmd', Z.of_nat np) /\
    cmd_pages mem' lists cmd' np = Some (take np ioaddrs).
Proof.
  intros Hc (Hps & Hsize & Hio & Hbus & Hap) Hnp Hw Hcap.
  assert (Hword : forall i a, ioaddrs !! i = Some a -> is_word 64 a)
    by (intros; eapply (Forall_lookup_1 _ _ _ _ Hw); eauto).
  unfold nvm_cmd_data.
  rewrite (proj2 (Z.eqb_neq (Z.of_nat np) 0)), andb_false_r by lia.
  destruct ioaddrs as [|a0 tl]; [simpl in Hnp; lia|]. cbn [lookup list_lookup].
  pose proof (Hword 0%nat a0 eq_refl) as Ha0.
  destruct (decide (np <= 2)%nat) as [H2|H2].
  { rewrite Z.gtb_ltb, (proj2 (Z.ltb_ge _ _)) by lia. cbn [andb].
    destruct np as [|[|[|np]]]; try lia.
    - pose proof (nvm_cmd_data_ptr_prps cmd a0 0 Hc Ha0) as [E _]; [done|].
      do 2 eexists; split; [reflexivity|]. simpl. now rewrite E, take_0.
    - destruct tl as [|a1 tl]; [simpl in Hnp; lia|].
      pose proof (nvm_cmd_data_ptr_prps cmd a0 a1 Hc Ha0) as [E1 E2]; [now apply (Hword 1%nat)|].
      do 2 eexists; split; [reflexivity|]. simpl. now rewrite E1, E2, take_0. }
  destruct lists as [|l0 ls]; [simpl in Hcap; lia|]. set (lists := l0 :: ls) in *.
  rewrite Z.gtb_ltb, (proj2 (Z.ltb_lt _ _)) by lia. cbn [andb negb Nat.eqb length].
  destruct (nvm_prp_list_chain_ok lists ps (Z.to_nat (ps / 8)) cuda_arch) with
    (mem := mem) (np := (np - 1)%nat) (ioaddrs := tl) (l0 := l0)
    as (mem' & Hch & Hwalk); try done; simpl in Hnp; try lia.
  { word_lia. }
  replace (Z.of_nat np - 1) with (Z.of_nat (np - 1)) by lia.
  subst lists. change (drop 1 (a0 :: tl)) with tl. cbn [length negb Nat.eqb].
  cbn [length] in Hch. rewrite Hch. cbn.
  pose proof (nvm_cmd_data_ptr_prps cmd a0 (pl_ioaddr l0) Hc Ha0) as [E1 E2].
  { inversion Hio; done. }
  do 2 eexists; split; [f_equal; f_equal; lia|].
  destruct np as [|[|[|np]]]; try lia. cbn [cmd_pages]. rewrite E1, E2.
  cbn [length Nat.sub] in Hwalk |- *. rewrite Hwalk. done.
Qed.

(** Three list pages of two entries each. *)
Definition example_lists : list nvm_prp_list_t :=
  [MkPrpList 0 true 16 4096; MkPrpList 16 true 16 8192; MkPrpList 64 true 16 512].

Lemma example_lists_ok : prp_lists_ok example_lists 16.
Proof.
  split; [lia|]. split; [now repeat constructor|].
  split; [repeat apply Forall_cons; unfold is_word; simpl; auto; lia|].
  split; [apply (bool_decide_unpack _); vm_compute; exact I|].
  intros [|[|[|i]]] [|[|[|j]]] li lj Hi Hj Hij; try done;
    injection Hi as <-; injection Hj as <-; simpl; lia.
Qed.

Lemma nvm_cmd_data_decodes_witness :
  exists mem' cmd',
    nvm_cmd_data true ∅ (replicate 16 0) (length example_lists) (Some example_lists)
      (Z.of_nat 5) [11; 22; 33; 44; 55; 66] = Some (mem', cmd', Z.of_nat 5) /\
    cmd_pages mem' example_lists cmd' 5 = Some (take 5 [11; 22; 33; 44; 55; 66]).
Proof.
  apply (nvm_cmd_data_decodes true ∅ (replicate 16 0) example_lists 16 5 [11; 22; 33; 44; 55; 66]).
  - reflexivity.
  - apply example_lists_ok.
  - simpl; lia.
  - repeat apply Forall_cons; unfold is_word; auto; lia.
  - vm_compute; lia.
Defined.

(** A read or write of 1 to 65536 blocks is encoded exactly: the controller
    decodes the start block and the zero-based 16-bit count to the request, and
    no other field of the command changes. *)
Theorem nvm_cmd_rw_blks_exact cmd start_lba n_blks :
  length cmd = 16%nat -> is_word 64 start_lba -> 1 <= n_blks <= 65536 ->
  cmd_slba (nvm_cmd_rw_blks cmd start_lba n_blks) = start_lba /\
  cmd_nlb (nvm_cmd_rw_blks cmd start_lba n_blks) = n_blks /\
  forall i, (i < 10 \/ 12 < i)%nat ->
    dword (nvm_cmd_rw_blks cmd start_lba n_blks) i = dword cmd i.
Proof. intros. now apply nvm_cmd_rw_blks_fields. Qed.

Lemma nvm_cmd_rw_blks_exact_witness :
  cmd_nlb (nvm_cmd_rw_blks (replicate 16 0) 123456789012 65536) = 65536.
Proof.
  apply (nvm_cmd_rw_blks_exact (replicate 16 0) 123456789012 65536);
    [reflexivity|unfold is_word; lia|lia].
Defined.

(** The seven-bit opcode mask of [nvm_cmd_header] turns a Format NVM command
    into a Delete I/O Submission Queue command. *)
Theorem format_nvm_header_is_delete_sq cmd cid ns_id :
  length cmd = 16%nat -> is_word 16 cid ->
  cmd_opcode (nvm_cmd_header cmd cid NVM_ADMIN_FORMAT_NVM ns_id) = NVM_ADMIN_DELETE_SQ /\
  NVM_ADMIN_FORMAT_NVM = 0x80.
Proof.
  intros Hl Hc. split; [|reflexivity].
  now destruct (nvm_cmd_header_fields cmd cid NVM_ADMIN_FORMAT_NVM ns_id Hl Hc) as [-> _].
Qed.

Lemma format_nvm_header_is_delete_sq_witness :
  cmd_opcode (nvm_cmd_header (replicate 16 0) 7 NVM_ADMIN_FORMAT_NVM 1) = NVM_ADMIN_DELETE_SQ.
Proof.
  apply (format_nvm_header_is_delete_sq (replicate 16 0) 7 1); [reflexivity|unfold is_word; lia].
Defined.
