(* ===== verification/NvmError.v ===== *)
(** Status codes and error strings: [src/include/nvm_error.h] and
    [src/src/error.cpp].  A completion is its four 32-bit words; reading a
    string table out of range is [None]. *)
From Stdlib Require Import ZArith Lia List String.
From stdpp Require Import base list numbers.
From S2P Require Import Prelude NvmUtil.

Import ListNotations.
Local Open Scope Z_scope.

(** ** Status of a completion *)

Definition NVM_ERR_SCT (cpl : list Z) : Z := u8 (RB (NVM_CPL_STATUS cpl) 11 9).
Definition NVM_ERR_SC (cpl : list Z) : Z := u8 (RB (NVM_CPL_STATUS cpl) 8 1).
Definition NVM_ERR_DNR (cpl : list Z) : bool := negb (RB (NVM_CPL_STATUS cpl) 15 15 =? 0).
Definition NVM_ERR_MORE (cpl : list Z) : bool := negb (RB (NVM_CPL_STATUS cpl) 14 14 =? 0).

(** [None] is the NULL completion. *)
Definition NVM_ERR_STATUS (cpl : option (list Z)) : Z :=
  match cpl with
  | Some cpl => - Z.lor (Z.shiftl (NVM_ERR_SCT cpl) 8) (NVM_ERR_SC cpl)
  | None => 0
  end.

Definition NVM_ERR_OK (cpl : list Z) : bool := (NVM_ERR_SCT cpl =? 0) && (NVM_ERR_SC cpl =? 0).

Definition NVM_ERR_PACK (cpl : option (list Z)) (err : Z) : Z :=
  if negb (err =? 0) then err else NVM_ERR_STATUS cpl.

Definition NVM_ERR_UNPACK_ERRNO (status : Z) : Z := if status >? 0 then status else 0.
Definition NVM_ERR_UNPACK_SCT (status : Z) : Z :=
  if status <? 0 then Z.land (Z.shiftr (- status) 8) 0xff else 0.
Definition NVM_ERR_UNPACK_SC (status : Z) : Z :=
  if status <? 0 then Z.land (- status) 0xff else 0.

Definition nvm_ok (status : Z) : bool := status =? 0.

(** ** Strings *)

Local Open Scope string_scope.

Definition generic_status : list string :=
  [ "Success";
    "Invalid command opcode";
    "Invalid field in command";
    "Command ID conflict";
    "Data transfer error";
    "Commands aborted due to power loss notification";
    "Internal error";
    "Command abort requested";
    "Command aborted due to SQ deletion";
    "Command aborted due to failed fused command";
    "Command aborted due to missing fused command";
    "Invalid namespace or format";
    "Command sequence error";
    "Invalid SGL segment descriptor";
    "Invalid number of SQL descriptors";
    "Data SGL length invalid";
    "Metadata SGL length invalid";
    "SGL descriptor type invalid";
    "Invalid use of controller memory buffer";
    "PRP offset invalid";
    "Atomic write unit exceeded";
    "Operation denied";
    "SGL offset invalid";
    "Unknown/reserved";
    "Host identifier inconsistent format";
    "Keep alive timer expired";
    "Keep alive timer invalid";
    "Command aborted due to preempt and abort";
    "Sanitize failed";
    "Sanitize in progress";
    "SGL data block granularity invalid";
    "Command not supported for queue in CMB" ].

Definition generic_status_nvm_commands : list string :=
  [ "LBA out of range";
    "Capacity exceeded";
    "Namespace not ready";
    "Reservation conflict";
    "Format in progress" ].

Definition command_specific_status : list string :=
  [ "Completion queue invalid";
    "Invalid queue identifier";
    "Invalid queue size";
    "Abort command limit exceeded";
    "Unknown/reserved";
    "Asynchronous event request limit exceeded";
    "Invalid firmware slot";
    "Invalid firmware image";
    "Invalid interrupt vector";
    "Invalid log page";
    "Invalid format";
    "Firmware activation requires conventional reset";
    "Invalid queue deletion";
    "Feature identifier not saveable";
    "Feature not changeable";
    "Feature not namespace specific";
    "Firmware activation requires NVM subsystem reset";
    "Firmware activation requires reset";
    "Firmware activation requires maximum time violation";
    "Firmware activation prohibited";
    "Overlapping range";
    "Namespace insufficient capacity";
    "Namespace identifier unavailable";
    "Unknown/reserved";
    "Namespace already attached";
    "Namespace is private";
    "Namespace not attached";
    "Thin provisioning not supported";
    "Controller list invalid";
    "Device self-test in progress";
    "Boot partition write prohibited";
    "Invalid controller identifier";
    "Invalid secondary controller state";
    "Invalid number of controller resources";
    "Invalid resource identifier" ].

Definition command_specific_status_nvm_commands : list string :=
  [ "Conflicting attributes";
    "Invalid protection information";
    "Attempted write to read only range" ].

Definition media_and_data_integrity_nvm_commands : list string :=
  [ "Write fault";
    "Unrecovered read error";
    "End-to-end guard check error";
    "End-to-end application tag check error";
    "End-to-end reference tag check error";
    "Compare failure";
    "Access denied";
    "Deallocated or unwritten logical block" ].

Local Close Scope string_scope.

(** [table[i]] *)
Definition table_at (table : list string) (i : Z) : option string :=
  if i <? 0 then None else nth_error table (Z.to_nat i).

Definition lookup_string (status_code_type status_code : Z) : option string :=
  if status_code_type =? 0x00 then
    if status_code <? 0x20 then table_at generic_status status_code
    else if (0x80 <=? status_code) && (status_code <=? 0x84) then
      table_at generic_status_nvm_commands (status_code - 0x80)
    else Some "Unknown generic error"%string
  else if status_code_type =? 0x01 then
    if status_code <? 0x23 then table_at command_specific_status status_code
    else if (0x80 <=? status_code) && (status_code <=? 0x82) then
      table_at command_specific_status_nvm_commands (status_code - 0x80)
    else Some "Unknown command specific error"%string
  else if status_code_type =? 0x02 then
    if (0x80 <=? status_code) && (status_code <=? 0x87) then
      table_at media_and_data_integrity_nvm_commands (status_code - 0x80)
    else Some "Unknown media or data integrity error"%string
  else Some "Unknown status code type"%string.

(** [strerror] is the C library's function. *)
Definition nvm_strerror (strerror : Z -> string) (status : Z) : option string :=
  let err := NVM_ERR_UNPACK_ERRNO status in
  let sct := u8 (NVM_ERR_UNPACK_SCT status) in
  let sc := u8 (NVM_ERR_UNPACK_SC status) in
  if negb (sct =? 0) || negb (sc =? 0) then lookup_string sct sc
  else Some (strerror err).

(** ** Packing *)

Lemma NVM_ERR_SCT_range cpl : 0 <= NVM_ERR_SCT cpl < 8.
Proof.
  unfold NVM_ERR_SCT. pose proof (RB_range (NVM_CPL_STATUS cpl) 11 9) as H.
  change (2 ^ (11 - 9 + 1)) with 8 in H. rewrite u8_id; unfold is_word; lia.
Qed.

Lemma NVM_ERR_SC_range cpl : 0 <= NVM_ERR_SC cpl < 256.
Proof. apply (u8_range _). Qed.

Lemma NVM_ERR_STATUS_eq cpl :
  NVM_ERR_STATUS (Some cpl) = - (NVM_ERR_SCT cpl * 256 + NVM_ERR_SC cpl).
Proof.
  unfold NVM_ERR_STATUS. now rewrite lor_shiftl_add by (apply NVM_ERR_SC_range || lia).
Qed.

(** Packing a completion status or an errno into one [int] loses nothing: a
    nonzero errno unpacks to itself with no NVMe status, a completion unpacks to
    its status type and code with no errno, and only a successful completion
    without errno packs to the value [nvm_ok] accepts. *)
Theorem nvm_err_pack_unpack cpl err :
  0 <= err ->
  let s := NVM_ERR_PACK (Some cpl) err in
  NVM_ERR_UNPACK_ERRNO s = err /\
  NVM_ERR_UNPACK_SCT s = (if err =? 0 then NVM_ERR_SCT cpl else 0) /\
  NVM_ERR_UNPACK_SC s = (if err =? 0 then NVM_ERR_SC cpl else 0) /\
  nvm_ok s = (err =? 0) && NVM_ERR_OK cpl.
Proof.
  intros He s. subst s. unfold NVM_ERR_PACK, NVM_ERR_UNPACK_ERRNO, NVM_ERR_UNPACK_SCT,
    NVM_ERR_UNPACK_SC, nvm_ok, NVM_ERR_OK.
  pose proof (NVM_ERR_SCT_range cpl). pose proof (NVM_ERR_SC_range cpl).
  rewrite NVM_ERR_STATUS_eq. change 0xff with (2 ^ 8 - 1).
  rewrite !land_ones_mod, Z.shiftr_div_pow2 by lia. change (2 ^ 8) with 256.
  repeat split; repeat case_test; try lia; try (Z.div_mod_to_equations; lia).
  all: destruct (NVM_ERR_SCT cpl =? 0) eqn:E1, (NVM_ERR_SC cpl =? 0) eqn:E2; b2p; simpl; lia.
Qed.

Lemma nvm_err_pack_unpack_witness :
  NVM_ERR_UNPACK_ERRNO (NVM_ERR_PACK (Some [0; 0; 0; 0]) 22) = 22.
Proof. apply (nvm_err_pack_unpack [0; 0; 0; 0] 22). lia. Defined.

Lemma table_at_in_bounds table i :
  0 <= i < Z.of_nat (length table) -> exists s, table_at table i = Some s.
Proof.
  intros Hi. unfold table_at. rewrite (proj2 (Z.ltb_ge i 0)) by lia.
  destruct (nth_error table (Z.to_nat i)) eqn:E; [eauto|].
  apply nth_error_None in E. lia.
Qed.

(** [nvm_strerror] reads inside its string tables whatever the packed status
    is: it returns a string for every [int]. *)
Theorem nvm_strerror_in_bounds strerror status :
  exists s, nvm_strerror strerror status = Some s.
Proof.
  unfold nvm_strerror. pose proof (u8_range (NVM_ERR_UNPACK_SCT status)) as H1.
  pose proof (u8_range (NVM_ERR_UNPACK_SC status)) as H2. revert H1 H2.
  generalize (u8 (NVM_ERR_UNPACK_SCT status)), (u8 (NVM_ERR_UNPACK_SC status)).
  intros sct sc H1 H2. unfold lookup_string. repeat case_test; try (eexists; reflexivity).
  all: apply table_at_in_bounds; vm_compute length; unfold is_word in *; lia.
Qed.
