(* ===== verification/NvmQueue.v ===== *)
(** Host view of submission and completion queues:
    [src/include/nvm_queue.h] and [src/src/queue.cpp].

    The descriptor is a record; queue memory is a function from addresses to
    entries.  The submission queue refines a bounded FIFO of slots; the
    completion queue is composed with a controller that posts entries under the
    phase-tag protocol, and the host sees them once each and in order. *)
From Stdlib Require Import ZArith Lia List.
From stdpp Require Import base list numbers relations.
From S2P Require Import Prelude NvmUtil.

Import ListNotations.
Local Open Scope Z_scope.

(** ** Descriptor *)

Record nvm_queue_t := MkQueue {
  q_no : Z; q_es : Z; q_qs : Z;
  q_head : Z; q_tail : Z; q_last : Z;
  q_phase : Z; q_local : bool;
  q_head_lock : Z; q_tail_lock : Z; q_in_ticket : Z; q_cid_ticket : Z;
  q_db : option Z;      (** doorbell address, [None] is NULL *)
  q_vaddr : Z; q_ioaddr : Z
}.

Definition set_head (q : nvm_queue_t) (v : Z) : nvm_queue_t :=
  MkQueue (q_no q) (q_es q) (q_qs q) v (q_tail q) (q_last q) (q_phase q) (q_local q)
    (q_head_lock q) (q_tail_lock q) (q_in_ticket q) (q_cid_ticket q)
    (q_db q) (q_vaddr q) (q_ioaddr q).
Definition set_tail (q : nvm_queue_t) (v : Z) : nvm_queue_t :=
  MkQueue (q_no q) (q_es q) (q_qs q) (q_head q) v (q_last q) (q_phase q) (q_local q)
    (q_head_lock q) (q_tail_lock q) (q_in_ticket q) (q_cid_ticket q)
    (q_db q) (q_vaddr q) (q_ioaddr q).
Definition set_last (q : nvm_queue_t) (v : Z) : nvm_queue_t :=
  MkQueue (q_no q) (q_es q) (q_qs q) (q_head q) (q_tail q) v (q_phase q) (q_local q)
    (q_head_lock q) (q_tail_lock q) (q_in_ticket q) (q_cid_ticket q)
    (q_db q) (q_vaddr q) (q_ioaddr q).
Definition set_phase (q : nvm_queue_t) (v : Z) : nvm_queue_t :=
  MkQueue (q_no q) (q_es q) (q_qs q) (q_head q) (q_tail q) (q_last q) v (q_local q)
    (q_head_lock q) (q_tail_lock q) (q_in_ticket q) (q_cid_ticket q)
    (q_db q) (q_vaddr q) (q_ioaddr q).

Definition EINVAL : Z := 22.

(** [max_qs], [mm_ptr] and [dstrd] are the fields of the controller handle. *)
Definition nvm_queue_clear (queue : nvm_queue_t) (max_qs mm_ptr dstrd : Z)
    (cq : bool) (no qs : Z) (local : bool) (vaddr ioaddr : Z) : Z * nvm_queue_t :=
  if (qs <? 2) || (qs >? 0x10000) || (qs >? max_qs) then (EINVAL, queue)
  else
    (0, {| q_no := no; q_es := if cq then sizeof_nvm_cpl_t else sizeof_nvm_cmd_t;
           q_qs := qs; q_head := 0; q_tail := 0; q_last := 0; q_phase := 1;
           q_local := local; q_head_lock := 0; q_tail_lock := 0;
           q_in_ticket := 0; q_cid_ticket := 0;
           q_db := Some (if cq then CQ_DBL mm_ptr no dstrd else SQ_DBL mm_ptr no dstrd);
           q_vaddr := vaddr; q_ioaddr := ioaddr |}).

Definition nvm_queue_reset (queue : nvm_queue_t) : nvm_queue_t :=
  set_phase (set_last (set_tail (set_head queue 0) 0) 0) 1.

(** ** Submission queue *)

(** Returns the address of the claimed entry, [None] for NULL. *)
Definition nvm_sq_enqueue (sq : nvm_queue_t) : option Z * nvm_queue_t :=
  if (u16 (u32 (q_tail sq - q_head sq)) mod q_qs sq) =? u32 (q_qs sq - 1) then (None, sq)
  else
    let cmd := q_vaddr sq + u32 (q_es sq * q_tail sq) in
    let sq := set_tail sq (u32 (q_tail sq + 1)) in
    let sq := if q_tail sq =? q_qs sq
              then set_tail (set_phase sq (lnot (q_phase sq))) 0
              else sq in
    (Some cmd, sq).

(** One of [n] threads; [last] is the pointer this thread received before. *)
Definition nvm_sq_enqueue_n (sq : nvm_queue_t) (last : option Z) (n i : Z)
    : option Z * nvm_queue_t :=
  let start := q_vaddr sq in
  let end_ := start + u32 (q_qs sq * q_es sq) in
  if n >=? q_qs sq then (None, sq)
  else
    let cmd :=
      match last with
      | None => start + q_es sq * i
      | Some last =>
          let cmd := last + n * q_es sq in
          if end_ <=? cmd then start + (cmd - end_) else cmd
      end in
    let sq := if i =? 0 then set_tail sq (u32 (u32 (q_tail sq) + u32 n) mod q_qs sq) else sq in
    (Some cmd, sq).

(** Returns the value written to the doorbell, if it is rung. *)
Definition nvm_sq_submit (sq : nvm_queue_t) : option Z * nvm_queue_t :=
  if negb (q_last sq =? q_tail sq) && bool_decide (q_db sq <> None)
  then (Some (q_tail sq), set_last sq (q_tail sq))
  else (None, sq).

Definition nvm_sq_update (sq : nvm_queue_t) : nvm_queue_t :=
  if bool_decide (q_db sq <> None) then
    let sq := set_head sq (u32 (q_head sq + 1)) in
    if q_head sq =? q_qs sq then set_head sq 0 else sq
  else sq.

(** ** Completion queue *)

(** Queue memory: the completion stored at an address. *)
Definition nvm_cq_poll (mem : Z -> list Z) (cq : nvm_queue_t) : option Z :=
  let cpl := q_vaddr cq + u32 (q_es cq * q_head cq) in
  if negb (lnot (RB (NVM_CPL_STATUS (mem cpl)) 0 0) =? lnot (q_phase cq)) then None
  else Some cpl.

Definition nvm_cq_dequeue (mem : Z -> list Z) (cq : nvm_queue_t) : option Z * nvm_queue_t :=
  match nvm_cq_poll mem cq with
  | None => (None, cq)
  | Some cpl =>
      let cq := set_head cq (u32 (q_head cq + 1)) in
      (Some cpl, if q_head cq =? q_qs cq
                 then set_phase (set_head cq 0) (lnot (q_phase cq)) else cq)
  end.

(** The loop of [nvm_cq_dequeue_block]: [mems k] is the memory the [k]-th poll
    reads; [None] means the fuel ran out. *)
Fixpoint dequeue_block_loop (fuel : nat) (mems : nat -> Z -> list Z) (k : nat)
    (cpl : option Z) (cq : nvm_queue_t) (nsecs : Z) : option (option Z * nvm_queue_t) :=
  match cpl with
  | Some _ => Some (cpl, cq)
  | None =>
      if negb (nsecs >? 0) then Some (None, cq)
      else
        match fuel with
        | O => None
        | S fuel =>
            let nsecs := nvm_delay_remain nsecs in
            let '(cpl, cq) := nvm_cq_dequeue (mems k) cq in
            dequeue_block_loop fuel mems (S k) cpl cq nsecs
        end
  end.

(** Each round takes one millisecond off the timeout, so the timeout in
    milliseconds bounds the rounds. *)
Definition nvm_cq_dequeue_block (mems : nat -> Z -> list Z) (cq : nvm_queue_t) (timeout : Z)
    : option (option Z * nvm_queue_t) :=
  let nsecs := u64 (timeout * 1000000) in
  let '(cpl, cq) := nvm_cq_dequeue (mems 0%nat) cq in
  dequeue_block_loop (Z.to_nat (nsecs / 1000000 + 1)) mems 1 cpl cq nsecs.

Definition nvm_cq_update (cq : nvm_queue_t) : option Z * nvm_queue_t :=
  if negb (q_last cq =? q_head cq) && bool_decide (q_db cq <> None)
  then (Some (q_head cq), set_tail (set_last cq (q_head cq)) (q_head cq))
  else (None, cq).

(** ** Submission queue as a bounded FIFO *)

(** A descriptor as [nvm_queue_clear] leaves it, with both pointers in range. *)
Definition queue_wf (q : nvm_queue_t) : Prop :=
  2 <= q_qs q <= 0x10000 /\ 0 <= q_head q < q_qs q /\ 0 <= q_tail q < q_qs q /\
  (q_es q = sizeof_nvm_cmd_t \/ q_es q = sizeof_nvm_cpl_t) /\ q_db q <> None /\
  (q_phase q = 0 \/ q_phase q = 1).

(** The slots claimed and not yet retired, oldest first. *)
Definition sq_pending (q : nvm_queue_t) : list Z :=
  (fun k => (q_head q + Z.of_nat k) mod q_qs q) <$>
    seq 0 (Z.to_nat ((q_tail q - q_head q) mod q_qs q)).

(** Abstract operations on a FIFO of slots with capacity [qs - 1]. *)
Definition fifo_push (qs : Z) (l : list Z) (slot : Z) : option (list Z) :=
  if Z.of_nat (length l) =? qs - 1 then None else Some (l ++ [slot]).

Lemma nvm_queue_clear_wf queue max_qs mm_ptr dstrd cq no qs local vaddr ioaddr :
  let r := nvm_queue_clear queue max_qs mm_ptr dstrd cq no qs local vaddr ioaddr in
  (fst r = 0 -> queue_wf (snd r) /\ q_qs (snd r) = qs /\ sq_pending (snd r) = []) /\
  (fst r = 0 <-> 2 <= qs <= 0x10000 /\ qs <= max_qs).
Proof.
  unfold nvm_queue_clear. case_test; cbn.
  - split; [done|]. split; [done|]. intros. b2p. destruct Hb as [Hb|Hb]; b2p; try lia.
  - split; [|split; [lia|done]]. intros _. split; [|split; [done|]].
    + unfold queue_wf; cbn. destruct cq; repeat split; auto; lia.
    + unfold sq_pending; cbn. done.
Qed.

Lemma full_check qs tail head :
  0 < qs -> (qs | 0x10000) -> u16 (u32 (tail - head)) mod qs = (tail - head) mod qs.
Proof.
  intros Hq Hd. unfold u16, u32, wrap.
  rewrite (Z.mod_mod_divide _ (2 ^ 32) (2 ^ 16)) by (exists (2 ^ 16); lia).
  now apply Z.mod_mod_divide.
Qed.

Lemma length_sq_pending q :
  queue_wf q -> Z.of_nat (length (sq_pending q)) = (q_tail q - q_head q) mod q_qs q.
Proof.
  intros (Hq & _). unfold sq_pending. rewrite length_fmap, length_seq, Z2Nat.id; [done|].
  apply Z.mod_pos_bound; lia.
Qed.

(** Slots of a ring of [qs] starting at [head] do not repeat within [qs]. *)
Lemma ring_slots_NoDup qs head n :
  0 < qs -> (Z.of_nat n <= qs) ->
  NoDup ((fun k => (head + Z.of_nat k) mod qs) <$> seq 0 n).
Proof.
  intros Hq Hn. apply NoDup_alt. intros i j x Hi Hj.
  apply list_lookup_fmap_Some in Hi as (a & -> & Hi), Hj as (b & E & Hj).
  apply lookup_seq in Hi as [-> Hi], Hj as [-> Hj].
  apply mod_inj_near in E; lia.
Qed.

Lemma nvm_sq_enqueue_refines q :
  queue_wf q -> (q_qs q | 0x10000) ->
  match nvm_sq_enqueue q with
  | (None, q') => q' = q /\ fifo_push (q_qs q) (sq_pending q) (q_tail q) = None
  | (Some p, q') =>
      queue_wf q' /\ p = q_vaddr q + q_es q * q_tail q /\ q_qs q' = q_qs q /\
      fifo_push (q_qs q) (sq_pending q) (q_tail q) = Some (sq_pending q')
  end.
Proof.
  intros Hwf Hdiv. pose proof Hwf as (Hq & Hh & Ht & He & Hdb & Hph).
  unfold nvm_sq_enqueue, fifo_push. rewrite length_sq_pending, full_check by (done || lia).
  rewrite (u32_id (q_qs q - 1)) by word_lia. case_test; [done|].
  set (n := (q_tail q - q_head q) mod q_qs q) in *.
  assert (Hn : 0 <= n < q_qs q) by (apply Z.mod_pos_bound; lia).
  set (q' := if _ =? _ then _ else _).
  assert (Hq' : queue_wf q' /\ q_qs q' = q_qs q /\ q_head q' = q_head q /\
                q_tail q' = (q_tail q + 1) mod q_qs q).
  { subst q'. rewrite (u32_id (q_tail q + 1)) by word_lia.
    cbn [q_tail q_qs set_tail]. case_test.
    - unfold queue_wf; cbn. rewrite Hb0, Z_mod_same_full. unfold lnot.
      repeat split; auto; try lia. case_test; auto.
    - unfold queue_wf; cbn. rewrite Z.mod_small by lia. repeat split; auto; lia. }
  destruct Hq' as (Hwf' & Eqs & Eh & Et).
  split; [done|]. split; [rewrite u32_id; [done|]; unfold sizeof_nvm_cmd_t, sizeof_nvm_cpl_t in He;
    destruct He as [-> | ->]; word_lia|].
  split; [done|]. f_equal. unfold sq_pending. rewrite Eqs, Eh, Et.
  rewrite Zminus_mod_idemp_l. replace (q_tail q + 1 - q_head q) with (q_tail q - q_head q + 1) by lia.
  rewrite <- Zplus_mod_idemp_l. fold n. rewrite (Z.mod_small (n + 1)) by lia.
  rewrite Z2Nat.inj_add by lia. change (Z.to_nat 1) with 1%nat.
  rewrite seq_app, fmap_app. cbn. do 2 f_equal.
  rewrite Z2Nat.id by lia. subst n. rewrite Zplus_mod_idemp_r.
  rewrite <- (Z.mod_small (q_tail q) (q_qs q)) at 1 by lia. f_equal; lia.
Qed.

Lemma nvm_sq_update_refines q s rest :
  queue_wf q -> sq_pending q = s :: rest ->
  queue_wf (nvm_sq_update q) /\ sq_pending (nvm_sq_update q) = rest /\ s = q_head q.
Proof.
  intros Hwf Hp. pose proof Hwf as (Hq & Hh & Ht & He & Hdb & Hph).
  unfold nvm_sq_update. rewrite bool_decide_true by done.
  rewrite (u32_id (q_head q + 1)) by word_lia. cbn [q_head q_qs set_head].
  set (q' := if _ =? _ then _ else _).
  assert (Hq' : queue_wf q' /\ q_qs q' = q_qs q /\ q_tail q' = q_tail q /\
                q_head q' = (q_head q + 1) mod q_qs q).
  { subst q'. case_test; unfold queue_wf; cbn.
    - rewrite Hb, Z_mod_same_full. repeat split; auto; lia.
    - rewrite Z.mod_small by lia. repeat split; auto; lia. }
  destruct Hq' as (Hwf' & Eqs & Et & Eh). split; [done|].
  revert Hp. unfold sq_pending. rewrite Eqs, Et, Eh.
  set (n := (q_tail q - q_head q) mod q_qs q).
  assert (Hn : 0 <= n < q_qs q) by (apply Z.mod_pos_bound; lia).
  destruct (Z.to_nat n) as [|m] eqn:Hm; [done|]. cbn. intros Hp. injection Hp as Hs Hrest.
  rewrite Z.add_0_r, Z.mod_small in Hs by lia. split; [|done].
  rewrite Zminus_mod_idemp_r. replace (q_tail q - (q_head q + 1)) with (q_tail q - q_head q - 1) by lia.
  rewrite <- Zminus_mod_idemp_l. fold n. rewrite (Z.mod_small (n - 1)) by lia.
  replace (Z.to_nat (n - 1)) with m by lia. rewrite <- Hrest, <- fmap_S_seq, <- list_fmap_compose.
  apply list_fmap_ext. intros i x _. cbn. rewrite Zplus_mod_idemp_l. f_equal; lia.
Qed.

(** C31: on a queue whose size divides 2^16 (every power of two the driver uses)
    the submission queue is a bounded FIFO of distinct slots: enqueue fails
    exactly when [qs - 1] slots are pending and otherwise appends the tail slot,
    update retires the oldest slot. *)
Theorem nvm_sq_bounded_fifo q :
  queue_wf q -> (q_qs q | 0x10000) ->
  NoDup (sq_pending q) /\
  match nvm_sq_enqueue q with
  | (None, q') => q' = q /\ fifo_push (q_qs q) (sq_pending q) (q_tail q) = None
  | (Some p, q') =>
      queue_wf q' /\ p = q_vaddr q + q_es q * q_tail q /\ q_qs q' = q_qs q /\
      fifo_push (q_qs q) (sq_pending q) (q_tail q) = Some (sq_pending q')
  end /\
  forall s rest, sq_pending q = s :: rest ->
    queue_wf (nvm_sq_update q) /\ sq_pending (nvm_sq_update q) = rest /\ s = q_head q.
Proof.
  intros Hwf Hd. split; [|split].
  - apply ring_slots_NoDup; destruct Hwf as (Hq & _); [lia|].
    pose proof (Z.mod_pos_bound (q_tail q - q_head q) (q_qs q)). lia.
  - now apply nvm_sq_enqueue_refines.
  - intros s rest. now apply nvm_sq_update_refines.
Qed.

Definition example_sq (qs head tail : Z) : nvm_queue_t :=
  MkQueue 1 64 qs head tail 0 1 true 0 0 0 0 (Some 4104) 0 0.

Lemma nvm_sq_bounded_fifo_witness : NoDup (sq_pending (example_sq 8 6 2)).
Proof.
  apply (nvm_sq_bounded_fifo (example_sq 8 6 2)).
  - unfold queue_wf, example_sq, sizeof_nvm_cmd_t; cbn. repeat split; auto; lia.
  - exists 8192. reflexivity.
Defined.

(** The full check of [nvm_sq_enqueue] truncates the distance to 16 bits
    before reducing it, so for a queue size that does not divide 2^16 a full
    queue accepts another command and the pending commands are lost. *)
Theorem nvm_sq_enqueue_overruns :
  exists q, queue_wf q /\ Z.of_nat (length (sq_pending q)) = q_qs q - 1 /\
    exists p q', nvm_sq_enqueue q = (Some p, q') /\ sq_pending q' = [].
Proof.
  exists (example_sq 1000 1 0). split.
  { unfold queue_wf, example_sq, sizeof_nvm_cmd_t; cbn. repeat split; auto; lia. }
  split; [vm_compute; reflexivity|]. do 2 eexists. vm_compute. done.
Qed.

(** ** Threads enqueuing in rounds *)

(** [nvm_sq_enqueue_n] over rounds: thread [i] starts with NULL and passes the
    pointer it got back. *)
Fixpoint enqueue_n_rounds (rounds : nat) (sq : nvm_queue_t) (n i : Z) : option Z :=
  match rounds with
  | O => None
  | S r => fst (nvm_sq_enqueue_n sq (enqueue_n_rounds r sq n i) n i)
  end.

Lemma enqueue_n_rounds_slot r sq n i :
  0 < n < q_qs sq -> 0 <= i < n -> 0 < q_es sq -> q_es sq * q_qs sq < 2 ^ 32 ->
  enqueue_n_rounds (S r) sq n i =
    Some (q_vaddr sq + q_es sq * ((Z.of_nat r * n + i) mod q_qs sq)).
Proof.
  intros Hn Hi He Hfit.
  assert (Hqs : u32 (q_qs sq * q_es sq) = q_qs sq * q_es sq) by (apply u32_id; unfold is_word; nia).
  induction r as [|r IH]; cbn [enqueue_n_rounds].
  { unfold nvm_sq_enqueue_n. rewrite Z.geb_leb, (proj2 (Z.leb_gt _ _)) by lia. cbn.
    do 2 f_equal. rewrite Z.mod_small by lia. done. }
  cbn [enqueue_n_rounds] in IH. rewrite IH. unfold nvm_sq_enqueue_n.
  rewrite Z.geb_leb, (proj2 (Z.leb_gt _ _)), Hqs by lia. cbn [fst]. f_equal.
  set (x := Z.of_nat r * n + i).
  replace (Z.of_nat (S r) * n + i) with (x + n) by lia.
  rewrite <- (Zplus_mod_idemp_l x n).
  pose proof (Z.mod_pos_bound x (q_qs sq)). set (y := x mod q_qs sq) in *.
  case_test.
  - replace (y + n) with (y + n - q_qs sq + 1 * q_qs sq) by lia.
    rewrite Z.mod_add, Z.mod_small by nia. nia.
  - rewrite Z.mod_small by nia. nia.
Qed.

(** ** Completion queue and controller *)

(** Phase tag of the [k]-th completion a controller posts. *)
Definition dev_phase (qs k : Z) : Z := if Z.even (k / qs) then 1 else 0.

Definition cpl_phase (cpl : list Z) : Z := RB (NVM_CPL_STATUS cpl) 0 0.

Record cq_sys := MkCqSys {
  cs_mem : Z -> list Z;            (** queue memory *)
  cs_q : nvm_queue_t;              (** host descriptor *)
  cs_posted : list (list Z);       (** completions posted so far *)
  cs_taken : list (list Z);        (** completions dequeued so far *)
  cs_acked : Z                     (** controller's count of freed entries *)
}.

Definition slot_addr (q : nvm_queue_t) (k : Z) : Z := q_vaddr q + q_es q * (k mod q_qs q).

Definition mem_write (mem : Z -> list Z) (a : Z) (c : list Z) : Z -> list Z :=
  fun b => if b =? a then c else mem b.

Inductive cq_step : cq_sys -> cq_sys -> Prop :=
  (** the controller posts into a free entry, with its phase tag *)
  | step_post s c :
      Z.of_nat (length (cs_posted s)) - cs_acked s < q_qs (cs_q s) - 1 ->
      cpl_phase c = dev_phase (q_qs (cs_q s)) (Z.of_nat (length (cs_posted s))) ->
      cq_step s (MkCqSys
        (mem_write (cs_mem s) (slot_addr (cs_q s) (Z.of_nat (length (cs_posted s)))) c)
        (cs_q s) (cs_posted s ++ [c]) (cs_taken s) (cs_acked s))
  (** the host dequeues *)
  | step_take s a q' :
      nvm_cq_dequeue (cs_mem s) (cs_q s) = (Some a, q') ->
      cq_step s (MkCqSys (cs_mem s) q' (cs_posted s) (cs_taken s ++ [cs_mem s a]) (cs_acked s))
  (** the host rings the doorbell; the controller frees entries up to it *)
  | step_ack s v q' :
      nvm_cq_update (cs_q s) = (Some v, q') ->
      cq_step s (MkCqSys (cs_mem s) q' (cs_posted s) (cs_taken s)
        (cs_acked s + (v - cs_acked s) mod q_qs (cs_q s))).

(** A fresh queue over memory whose entries have phase 0. *)
Definition cq_init (s : cq_sys) : Prop :=
  queue_wf (cs_q s) /\ q_es (cs_q s) = sizeof_nvm_cpl_t /\
  q_head (cs_q s) = 0 /\ q_last (cs_q s) = 0 /\ q_phase (cs_q s) = 1 /\
  (forall k, 0 <= k < q_qs (cs_q s) -> cpl_phase (cs_mem s (slot_addr (cs_q s) k)) = 0) /\
  cs_posted s = [] /\ cs_taken s = [] /\ cs_acked s = 0.

Record cq_inv (s : cq_sys) : Prop := {
  ci_wf : queue_wf (cs_q s);
  ci_es : q_es (cs_q s) = sizeof_nvm_cpl_t;
  ci_acked : 0 <= cs_acked s <= Z.of_nat (length (cs_taken s));
  ci_room : Z.of_nat (length (cs_posted s)) - cs_acked s <= q_qs (cs_q s) - 1;
  ci_last : q_last (cs_q s) = cs_acked s mod q_qs (cs_q s);
  ci_head : q_head (cs_q s) = Z.of_nat (length (cs_taken s)) mod q_qs (cs_q s);
  ci_phase : q_phase (cs_q s) = dev_phase (q_qs (cs_q s)) (Z.of_nat (length (cs_taken s)));
  ci_prefix : cs_taken s `prefix_of` cs_posted s;
  ci_tags : forall k c, cs_posted s !! k = Some c ->
              cpl_phase c = dev_phase (q_qs (cs_q s)) (Z.of_nat k);
  ci_ready : forall k c, (length (cs_taken s) <= k)%nat -> cs_posted s !! k = Some c ->
               cs_mem s (slot_addr (cs_q s) (Z.of_nat k)) = c;
  ci_stale : forall k, Z.of_nat (length (cs_posted s)) <= k <
                 Z.of_nat (length (cs_taken s)) + q_qs (cs_q s) ->
               cpl_phase (cs_mem s (slot_addr (cs_q s) k)) <> dev_phase (q_qs (cs_q s)) k
}.

Lemma dev_phase_01 qs k : dev_phase qs k = 0 \/ dev_phase qs k = 1.
Proof. unfold dev_phase. case_test; auto. Qed.

(** One lap later the expected phase is the other one. *)
Lemma dev_phase_lap qs k : 0 < qs -> dev_phase qs (k + qs) <> dev_phase qs k.
Proof.
  intros. unfold dev_phase. replace (k + qs) with (k + 1 * qs) by lia.
  rewrite Z.div_add, Z.add_1_r, Z.even_succ, <- Z.negb_even by lia.
  destruct (Z.even (k / qs)); done.
Qed.

(** Stepping a ring index: the wrap and the phase flip happen together. *)
Lemma ring_next qs k :
  1 < qs -> 0 <= k ->
  (k mod qs + 1 = qs ->
     (k + 1) mod qs = 0 /\ dev_phase qs (k + 1) = lnot (dev_phase qs k)) /\
  (k mod qs + 1 <> qs ->
     (k + 1) mod qs = k mod qs + 1 /\ dev_phase qs (k + 1) = dev_phase qs k).
Proof.
  intros Hq Hk. pose proof (Z.mod_pos_bound k qs). pose proof (Z.div_mod k qs).
  split; intros E.
  - assert (Hk1 : k + 1 = (k / qs + 1) * qs) by lia.
    split; [rewrite Hk1; apply Z_mod_mult|].
    unfold dev_phase. rewrite Hk1, Z.div_mul, Z.add_1_r, Z.even_succ, <- Z.negb_even by lia.
    destruct (Z.even (k / qs)); done.
  - assert (Hd : (k + 1) / qs = k / qs)
      by (symmetry; apply (Z.div_unique_pos _ _ _ (k mod qs + 1)); lia).
    split; [|unfold dev_phase; now rewrite Hd].
    rewrite Z.mod_eq, Hd by lia. lia.
Qed.

Lemma slot_addr_inj q j k :
  queue_wf q -> slot_addr q j = slot_addr q k -> Z.abs (j - k) < q_qs q -> j = k.
Proof.
  intros (Hq & _ & _ & He & _) E Hd. unfold slot_addr, sizeof_nvm_cmd_t, sizeof_nvm_cpl_t in *.
  apply (mod_inj_near (q_qs q)); [lia| |done]. nia.
Qed.

(** What [nvm_cq_dequeue] does in terms of the stored phase. *)
Lemma nvm_cq_dequeue_spec mem q k :
  queue_wf q -> 0 <= k -> q_head q = k mod q_qs q -> q_phase q = dev_phase (q_qs q) k ->
  (cpl_phase (mem (slot_addr q k)) = 0 \/ cpl_phase (mem (slot_addr q k)) = 1) ->
  nvm_cq_dequeue mem q =
    if cpl_phase (mem (slot_addr q k)) =? dev_phase (q_qs q) k
    then (Some (slot_addr q k),
          set_phase (set_head q ((k + 1) mod q_qs q)) (dev_phase (q_qs q) (k + 1)))
    else (None, q).
Proof.
  intros (Hq & Hh & Ht & He & Hdb & Hph) Hk Ehead Ephase H01.
  unfold nvm_cq_dequeue, nvm_cq_poll. rewrite (u32_id (q_es q * q_head q)).
  2: { unfold is_word, sizeof_nvm_cmd_t, sizeof_nvm_cpl_t in *. lia. }
  rewrite Ehead, Ephase. fold (slot_addr q k). fold (cpl_phase (mem (slot_addr q k))).
  destruct (ring_next (q_qs q) k ltac:(lia) Hk) as [Hwrap Hnext].
  assert (Hneg : (lnot (cpl_phase (mem (slot_addr q k))) =? lnot (dev_phase (q_qs q) k)) =
                 (cpl_phase (mem (slot_addr q k)) =? dev_phase (q_qs q) k)).
  { destruct H01 as [-> | ->], (dev_phase_01 (q_qs q) k) as [-> | ->]; done. }
  rewrite Hneg. clear Hneg.
  destruct (cpl_phase (mem (slot_addr q k)) =? dev_phase (q_qs q) k); cbn [negb]; [|done].
  rewrite (u32_id (k mod q_qs q + 1)) by (unfold is_word; lia). cbn [q_head q_qs set_head].
  unfold set_phase, set_head; cbn. f_equal.
  destruct (Z.eqb_spec (k mod q_qs q + 1) (q_qs q)) as [E|E].
  - destruct (Hwrap E) as [-> ->]. cbn. now rewrite Ephase.
  - destruct (Hnext E) as [-> ->]. cbn. now rewrite Ephase.
Qed.

Lemma cpl_phase_01 c : cpl_phase c = 0 \/ cpl_phase c = 1.
Proof. unfold cpl_phase. pose proof (RB_range (NVM_CPL_STATUS c) 0 0). lia. Qed.

Lemma cq_init_inv s : cq_init s -> cq_inv s.
Proof.
  intros (Hwf & He & Hh & Hl & Hp & Hm & Epo & Eta & Eac).
  pose proof Hwf as (Hq & _). assert (Hq0 : 0 < q_qs (cs_q s)) by lia.
  split; rewrite ?Epo, ?Eta, ?Eac; cbn; rewrite ?Zmod_0_l; auto; try lia; try done.
  intros k Hk. rewrite Hm by lia. unfold dev_phase. rewrite Z.div_small by lia. done.
Qed.

Lemma cq_post_inv s c :
  cq_inv s ->
  Z.of_nat (length (cs_posted s)) - cs_acked s < q_qs (cs_q s) - 1 ->
  cpl_phase c = dev_phase (q_qs (cs_q s)) (Z.of_nat (length (cs_posted s))) ->
  cq_inv (MkCqSys
    (mem_write (cs_mem s) (slot_addr (cs_q s) (Z.of_nat (length (cs_posted s)))) c)
    (cs_q s) (cs_posted s ++ [c]) (cs_taken s) (cs_acked s)).
Proof.
  intros [Hwf He Ha Hr Hl Hh Hph Hpre Htag Hrdy Hst] Hroom Hc.
  pose proof (prefix_length _ _ Hpre) as Hlen. destruct s as [mem q po ta ac]; cbn in *.
  split; cbn; rewrite ?length_app; cbn; auto; try lia.
  - now apply prefix_app_r.
  - intros k c' Hk. apply lookup_snoc_Some in Hk as [[_ Hk]|[-> <-]]; eauto.
  - intros k c' Hk Hc'. unfold mem_write. apply lookup_snoc_Some in Hc' as [[Hlt Hk']|[-> <-]].
    + rewrite (proj2 (Z.eqb_neq _ _)); [now apply Hrdy|].
      intros E. apply slot_addr_inj in E; [lia|done|lia].
    + now rewrite Z.eqb_refl.
  - intros k Hk. unfold mem_write. rewrite (proj2 (Z.eqb_neq _ _)); [apply Hst; lia|].
    intros E. apply slot_addr_inj in E; [lia|done|lia].
Qed.

(** The host takes the oldest posted completion, and only that. *)
Lemma cq_dequeue_inv s :
  cq_inv s ->
  nvm_cq_dequeue (cs_mem s) (cs_q s) =
    match cs_posted s !! length (cs_taken s) with
    | Some _ =>
        let k := Z.of_nat (length (cs_taken s)) in
        (Some (slot_addr (cs_q s) k),
         set_phase (set_head (cs_q s) ((k + 1) mod q_qs (cs_q s)))
           (dev_phase (q_qs (cs_q s)) (k + 1)))
    | None => (None, cs_q s)
    end.
Proof.
  intros [Hwf He Ha Hr Hl Hh Hph Hpre Htag Hrdy Hst].
  pose proof (prefix_length _ _ Hpre) as Hlen. pose proof Hwf as (Hq & _).
  rewrite (nvm_cq_dequeue_spec _ _ (Z.of_nat (length (cs_taken s))))
    by (done || lia || apply cpl_phase_01).
  destruct (cs_posted s !! length (cs_taken s)) as [c|] eqn:E.
  - rewrite (Hrdy _ c), (Htag _ _ E), Z.eqb_refl by done. done.
  - apply lookup_ge_None in E. rewrite (proj2 (Z.eqb_neq _ _)); [done|]. apply Hst. lia.
Qed.

Lemma queue_wf_head_phase q h ph :
  queue_wf q -> 0 <= h < q_qs q -> (ph = 0 \/ ph = 1) ->
  queue_wf (set_phase (set_head q h) ph).
Proof. intros (?&?&?&?&?&?) ??. repeat split; cbn; auto; lia. Qed.

Lemma cq_take_inv s a q' :
  cq_inv s -> nvm_cq_dequeue (cs_mem s) (cs_q s) = (Some a, q') ->
  cq_inv (MkCqSys (cs_mem s) q' (cs_posted s) (cs_taken s ++ [cs_mem s a]) (cs_acked s)).
Proof.
  intros Hinv Hd. rewrite (cq_dequeue_inv s Hinv) in Hd.
  destruct (cs_posted s !! length (cs_taken s)) as [c|] eqn:E; [|done].
  injection Hd as <- <-. destruct Hinv as [Hwf He Ha Hr Hl Hh Hph Hpre Htag Hrdy Hst].
  pose proof Hwf as (Hq & _). pose proof (lookup_lt_Some _ _ _ E) as Hlt.
  rewrite (Hrdy _ c) by done. destruct s as [mem q po ta ac]; cbn in *.
  assert (Hk : Z.of_nat (length (ta ++ [c])) = Z.of_nat (length ta) + 1)
    by (rewrite length_app; cbn; lia).
  split; cbn; rewrite ?Hk; auto; try lia.
  - apply queue_wf_head_phase; auto using dev_phase_01. apply Z.mod_pos_bound; lia.
  - destruct Hpre as [rest ->]. rewrite lookup_app_r, Nat.sub_diag in E by lia.
    destruct rest as [|x rest]; [done|]. injection E as ->. exists rest. now rewrite <- app_assoc.
  - intros k c' Hle Hc'. apply Hrdy; [rewrite length_app in Hle; cbn in Hle; lia|done].
  - intros k Hkr. destruct (decide (k = Z.of_nat (length ta) + q_qs q)) as [->|].
    + intros Heq. apply (dev_phase_lap (q_qs q) (Z.of_nat (length ta))); [lia|].
      unfold slot_addr in *; cbn in *. rewrite <- Heq.
      replace (Z.of_nat (length ta) + q_qs q) with (Z.of_nat (length ta) + 1 * q_qs q) by lia.
      rewrite Z.mod_add by lia. rewrite (Hrdy _ c) by done. now apply Htag.
    + apply Hst; lia.
Qed.

Lemma cq_ack_inv s v q' :
  cq_inv s -> nvm_cq_update (cs_q s) = (Some v, q') ->
  cq_inv (MkCqSys (cs_mem s) q' (cs_posted s) (cs_taken s)
    (cs_acked s + (v - cs_acked s) mod q_qs (cs_q s))).
Proof.
  intros [Hwf He Ha Hr Hl Hh Hph Hpre Htag Hrdy Hst] Hu. unfold nvm_cq_update in Hu.
  pose proof (prefix_length _ _ Hpre) as Hlen.
  destruct (negb _ && _); [|done]. injection Hu as <- <-.
  pose proof Hwf as (Hq & Hhr & _). destruct s as [mem q po ta ac]; cbn in *.
  assert (Hac : ac + (q_head q - ac) mod q_qs q = Z.of_nat (length ta)).
  { rewrite Hh, Zminus_mod_idemp_l, Z.mod_small by lia. lia. }
  split; cbn; rewrite ?Hac; auto; try lia.
  destruct Hwf as (?&?&?&?&?&?). repeat split; cbn; auto; lia.
Qed.

Lemma cq_reachable_inv s0 s : cq_init s0 -> rtc cq_step s0 s -> cq_inv s.
Proof.
  intros Hi Hr. apply cq_init_inv in Hi. induction Hr as [|x y z Hxy _ IH]; [done|].
  apply IH. destruct Hxy; eauto using cq_post_inv, cq_take_inv, cq_ack_inv.
Qed.

(** C10: a completion queue under the phase-tag protocol, with the controller
    posting into entries freed by doorbell writes: in every reachable state the
    host has dequeued a prefix of what the controller posted, the next dequeue
    returns NULL exactly when everything posted was dequeued, and otherwise
    returns the entry that holds the oldest completion not yet dequeued. *)
Theorem nvm_cq_fifo s0 s :
  cq_init s0 -> rtc cq_step s0 s ->
  cs_taken s `prefix_of` cs_posted s /\
  match fst (nvm_cq_dequeue (cs_mem s) (cs_q s)) with
  | None => cs_taken s = cs_posted s
  | Some a => cs_posted s !! length (cs_taken s) = Some (cs_mem s a)
  end.
Proof.
  intros Hi Hr. pose proof (cq_reachable_inv s0 s Hi Hr) as Hinv.
  rewrite (cq_dequeue_inv s Hinv). destruct Hinv. split; [done|].
  destruct (cs_posted s !! length (cs_taken s)) as [c|] eqn:E; cbn.
  - f_equal. symmetry. eauto.
  - apply lookup_ge_None in E. apply prefix_length_eq; [done|]. lia.
Qed.

Definition example_cq : nvm_queue_t :=
  MkQueue 1 16 4 0 0 0 1 true 0 0 0 0 (Some 4108) 0 0.

Definition example_cq0 : cq_sys := MkCqSys (fun _ => [0; 0; 0; 0]) example_cq [] [] 0.

(** One posted completion, not yet taken. *)
Definition example_cq1 : cq_sys :=
  MkCqSys (mem_write (fun _ => [0; 0; 0; 0]) (slot_addr example_cq 0) [7; 0; 0; 65536])
    example_cq [[7; 0; 0; 65536]] [] 0.

Lemma nvm_cq_fifo_witness :
  [[7; 0; 0; 65536]] !! 0%nat =
    Some (cs_mem example_cq1 (slot_addr example_cq 0)).
Proof.
  apply (nvm_cq_fifo example_cq0 example_cq1).
  - unfold cq_init, queue_wf, example_cq0, sizeof_nvm_cpl_t, sizeof_nvm_cmd_t; cbn.
    repeat split; auto; lia.
  - apply rtc_once. apply (step_post example_cq0 [7; 0; 0; 65536]); vm_compute; reflexivity.
Defined.

(** ** Blocking dequeue *)

Lemma nvm_cq_dequeue_None mem cq :
  nvm_cq_poll mem cq = None -> nvm_cq_dequeue mem cq = (None, cq).
Proof. unfold nvm_cq_dequeue. now intros ->. Qed.

Lemma nvm_cq_dequeue_Some mem cq a :
  nvm_cq_poll mem cq = Some a -> fst (nvm_cq_dequeue mem cq) = Some a.
Proof. unfold nvm_cq_dequeue. now intros ->. Qed.

Lemma dequeue_block_loop_spec rounds fuel mems k cq :
  (rounds <= fuel)%nat -> Z.of_nat rounds * 1000000 < 2 ^ 64 ->
  exists r, dequeue_block_loop fuel mems k None cq (Z.of_nat rounds * 1000000) = Some r /\
    ((r = (None, cq) /\ forall j, (k <= j < k + rounds)%nat -> nvm_cq_poll (mems j) cq = None) \/
     (exists j, (k <= j < k + rounds)%nat /\
        (forall i, (k <= i < j)%nat -> nvm_cq_poll (mems i) cq = None) /\
        r = nvm_cq_dequeue (mems j) cq /\ fst r <> None)).
Proof.
  revert fuel k. induction rounds as [|n IH]; intros fuel k Hf Hb.
  { exists (None, cq). split; [destruct fuel; reflexivity|]. left. split; [done|lia]. }
  destruct fuel as [|fuel]; [lia|]. cbn [dequeue_block_loop].
  rewrite Z.gtb_ltb, (proj2 (Z.ltb_lt _ _)) by lia. cbn [negb].
  rewrite nvm_delay_remain_spec by (unfold is_word; lia).
  replace (Z.max 0 (Z.of_nat (S n) * 1000000 - 1000000)) with (Z.of_nat n * 1000000) by lia.
  destruct (nvm_cq_poll (mems k) cq) as [a|] eqn:Hp.
  - pose proof (nvm_cq_dequeue_Some _ _ _ Hp) as Hd.
    destruct (nvm_cq_dequeue (mems k) cq) as [cpl cq'] eqn:E; cbn in Hd; subst cpl.
    exists (Some a, cq'). split; [now destruct fuel|]. right. exists k.
    split; [lia|]. split; [lia|]. split; [now rewrite E|done].
  - rewrite (nvm_cq_dequeue_None _ _ Hp).
    destruct (IH fuel (S k)) as (r & -> & [[-> Hn]|(j & Hj & Hi & -> & Hr)]); [lia|lia| |].
    + exists (None, cq). split; [done|]. left. split; [done|]. intros j Hj.
      destruct (decide (j = k)) as [->|]; [done|]. apply Hn; lia.
    + exists (nvm_cq_dequeue (mems j) cq). split; [done|]. right. exists j. split; [lia|].
      split; [|done]. intros i Hik. destruct (decide (i = k)) as [->|]; [done|]. apply Hi; lia.
Qed.

(** What [nvm_cq_dequeue_block] returns. *)
Lemma dequeue_block_outcome mems cq timeout :
  0 <= timeout -> timeout * 1000000 < 2 ^ 64 ->
  exists r, nvm_cq_dequeue_block mems cq timeout = Some r /\
    ((r = (None, cq) /\ forall j, (j <= Z.to_nat timeout)%nat -> nvm_cq_poll (mems j) cq = None) \/
     (exists j, (j <= Z.to_nat timeout)%nat /\
        (forall i, (i < j)%nat -> nvm_cq_poll (mems i) cq = None) /\
        r = nvm_cq_dequeue (mems j) cq /\ fst r <> None)).
Proof.
  intros H0 Hfit. unfold nvm_cq_dequeue_block. rewrite u64_id by (unfold is_word; lia).
  rewrite Z.div_mul by lia. destruct (nvm_cq_poll (mems 0%nat) cq) as [a|] eqn:Hp.
  - pose proof (nvm_cq_dequeue_Some _ _ _ Hp) as Hd.
    destruct (nvm_cq_dequeue (mems 0%nat) cq) as [cpl cq'] eqn:E; cbn in Hd; subst cpl.
    exists (Some a, cq'). split; [now destruct (Z.to_nat _)|]. right. exists 0%nat.
    rewrite E. repeat split; [lia|lia|done].
  - rewrite (nvm_cq_dequeue_None _ _ Hp).
    destruct (dequeue_block_loop_spec (Z.to_nat timeout) (Z.to_nat (timeout + 1)) mems 1 cq)
      as (r & Hl & Hr); [lia|lia|]. rewrite Z2Nat.id in Hl by lia. rewrite Hl.
    exists r. split; [done|]. destruct Hr as [[-> Hn]|(j & Hj & Hi & -> & Hr)].
    + left. split; [done|]. intros [|j] Hj; [done|]. apply Hn; lia.
    + right. exists j. repeat split; [lia| |done]. intros [|i] Hi'; [done|]. apply Hi; lia.
Qed.

(** [nvm_cq_dequeue_block] returns after at most [timeout] one-millisecond
    delays: it dequeues at the first of the [timeout + 1] polls that finds a
    completion, and returns NULL with the queue untouched if none does. *)
Theorem nvm_cq_dequeue_block_returns mems cq timeout :
  0 <= timeout -> timeout * 1000000 < 2 ^ 64 ->
  exists r, nvm_cq_dequeue_block mems cq timeout = Some r /\
    ((r = (None, cq) /\ forall j, (j <= Z.to_nat timeout)%nat -> nvm_cq_poll (mems j) cq = None) \/
     (exists j, (j <= Z.to_nat timeout)%nat /\
        (forall i, (i < j)%nat -> nvm_cq_poll (mems i) cq = None) /\
        r = nvm_cq_dequeue (mems j) cq /\ fst r <> None)).
Proof. exact (dequeue_block_outcome mems cq timeout). Qed.

Lemma nvm_cq_dequeue_block_returns_witness :
  exists r, nvm_cq_dequeue_block (fun _ _ => [0; 0; 0; 0]) example_cq 3 = Some r.
Proof.
  destruct (nvm_cq_dequeue_block_returns (fun _ _ => [0; 0; 0; 0]) example_cq 3) as (r & H & _);
    [lia|lia|]. exists r. exact H.
Defined.

(** Threads enqueuing in rounds with [nvm_sq_enqueue_n] get, in round [r],
    thread [i], the slot [(r * n + i) mod qs]: within a round no two threads
    share a slot, and rounds continue where the last one ended. *)
Theorem nvm_sq_enqueue_n_slots sq n r i j :
  0 < n < q_qs sq -> 0 <= i < n -> 0 <= j < n -> 0 < q_es sq ->
  q_es sq * q_qs sq < 2 ^ 32 ->
  enqueue_n_rounds (S r) sq n i =
    Some (q_vaddr sq + q_es sq * ((Z.of_nat r * n + i) mod q_qs sq)) /\
  (enqueue_n_rounds (S r) sq n i = enqueue_n_rounds (S r) sq n j -> i = j).
Proof.
  intros Hn Hi Hj He Hf. rewrite !enqueue_n_rounds_slot by done. split; [done|].
  intros E. injection E as E. assert (E' : (Z.of_nat r * n + i) mod q_qs sq =
    (Z.of_nat r * n + j) mod q_qs sq) by nia. apply mod_inj_near in E'; lia.
Qed.

Lemma nvm_sq_enqueue_n_slots_witness :
  enqueue_n_rounds 4 (example_sq 8 0 0) 3 2 = Some (64 * ((3 * 3 + 2) mod 8)).
Proof. apply (nvm_sq_enqueue_n_slots (example_sq 8 0 0) 3 3 2 1); cbn; lia. Defined.
