(* ===== verification/ParallelSq.v ===== *)
(** The GPU submission queue: [sq_enqueue], [move_tail] and the submission half
    of [move_head_cq] of [src/include/nvm_parallel_queue.h], run by any number of
    concurrent threads.

    Every call of [sq_enqueue] is a process; a step is one atomic access of the
    source.  The controller fetches commands below the doorbell, and a head mover
    frees slots up to the head a completion reports.  The main theorem: the
    controller fetches exactly the enqueued commands, in ticket order. *)
From Stdlib Require Import ZArith Lia List.
From stdpp Require Import base list numbers relations.
From S2P Require Import Prelude.

Import ListNotations.
Local Open Scope Z_scope.

Module Sq.

Definition LOCKED : Z := 1.
Definition UNLOCKED : Z := 0.

Definition get_id (x y : Z) : Z := u64 (Z.shiftr x y * 2).

(** ** State *)

(** Program points of [sq_enqueue], with the locals alive there. *)
Inductive sq_pc :=
  | SWait1                                (** first wait on [tickets[pos]] *)
  | SWait2                                (** second wait, acquire *)
  | SCopy (i : nat)                       (** copy 32-byte chunk [i] *)
  | SMark                                 (** set [tail_mark[pos]] *)
  | SCheck                                (** is [tail_mark[pos]] still set *)
  | SLoadLock                             (** look at [tail_lock] *)
  | STryLock                              (** [fetch_or] on [tail_lock] *)
  | SLoadTail
  | SMoveHead (cur_tail count : Z)        (** [move_tail]: room before the head *)
  | SMoveMark (cur_tail count : Z)        (** [move_tail]: exchange a mark *)
  | SMoveEnd (cur_tail count : Z)         (** [move_tail]: [head_lock] and return *)
  | SDoorbell (cur_tail count : Z)
  | SStoreTail (cur_tail count : Z)
  | SUnlock
  | SFinish                               (** [tickets[pos]] is incremented *)
  | SDone.

Record sq_proc := MkProc { p_ticket : Z; p_cmd : list Z; p_pc : sq_pc }.

(** Head mover, holding the completion queue's head lock. *)
Record sq_mover := MkMover { m_loc : Z; m_count : Z; m_new_head : Z }.

Record sq_state := MkSq {
  in_ticket : Z;
  tickets : Z -> Z;
  tail_mark : Z -> Z;
  slots : Z -> list Z;          (** queue memory, one command per slot *)
  sq_head : Z;
  sq_tail : Z;
  tail_lock : Z;
  head_lock : Z;
  procs : list sq_proc;         (** one process per call, by ticket *)
  mover : option sq_mover;
  dev_tail : Z;                 (** controller: commands announced *)
  fetched : list (list Z);      (** controller: commands fetched *)
  g_cleared : Z;                (** ghost: marks cleared by [move_tail] *)
  g_retired : Z                 (** ghost: slots freed by the head mover *)
}.

Definition set_pc (s : sq_state) (t : nat) (c : sq_pc) : sq_state :=
  MkSq (in_ticket s) (tickets s) (tail_mark s) (slots s) (sq_head s) (sq_tail s)
    (tail_lock s) (head_lock s)
    (alter (fun p => MkProc (p_ticket p) (p_cmd p) c) t (procs s)) (mover s) (dev_tail s)
    (fetched s) (g_cleared s) (g_retired s).

Definition set_tickets (s : sq_state) v : sq_state :=
  MkSq (in_ticket s) v (tail_mark s) (slots s) (sq_head s) (sq_tail s)
    (tail_lock s) (head_lock s) (procs s) (mover s) (dev_tail s)
    (fetched s) (g_cleared s) (g_retired s).
Definition set_mark (s : sq_state) v : sq_state :=
  MkSq (in_ticket s) (tickets s) v (slots s) (sq_head s) (sq_tail s)
    (tail_lock s) (head_lock s) (procs s) (mover s) (dev_tail s)
    (fetched s) (g_cleared s) (g_retired s).
Definition set_slots (s : sq_state) v : sq_state :=
  MkSq (in_ticket s) (tickets s) (tail_mark s) v (sq_head s) (sq_tail s)
    (tail_lock s) (head_lock s) (procs s) (mover s) (dev_tail s)
    (fetched s) (g_cleared s) (g_retired s).
Definition set_tail_lock (s : sq_state) v : sq_state :=
  MkSq (in_ticket s) (tickets s) (tail_mark s) (slots s) (sq_head s) (sq_tail s)
    v (head_lock s) (procs s) (mover s) (dev_tail s)
    (fetched s) (g_cleared s) (g_retired s).
Definition set_head_lock (s : sq_state) v : sq_state :=
  MkSq (in_ticket s) (tickets s) (tail_mark s) (slots s) (sq_head s) (sq_tail s)
    (tail_lock s) v (procs s) (mover s) (dev_tail s)
    (fetched s) (g_cleared s) (g_retired s).
Definition set_sq_tail (s : sq_state) v : sq_state :=
  MkSq (in_ticket s) (tickets s) (tail_mark s) (slots s) (sq_head s) v
    (tail_lock s) (head_lock s) (procs s) (mover s) (dev_tail s)
    (fetched s) (g_cleared s) (g_retired s).
Definition set_dev_tail (s : sq_state) v : sq_state :=
  MkSq (in_ticket s) (tickets s) (tail_mark s) (slots s) (sq_head s) (sq_tail s)
    (tail_lock s) (head_lock s) (procs s) (mover s) v
    (fetched s) (g_cleared s) (g_retired s).
Definition set_fetched (s : sq_state) v : sq_state :=
  MkSq (in_ticket s) (tickets s) (tail_mark s) (slots s) (sq_head s) (sq_tail s)
    (tail_lock s) (head_lock s) (procs s) (mover s) (dev_tail s)
    v (g_cleared s) (g_retired s).
Definition set_cleared (s : sq_state) v : sq_state :=
  MkSq (in_ticket s) (tickets s) (tail_mark s) (slots s) (sq_head s) (sq_tail s)
    (tail_lock s) (head_lock s) (procs s) (mover s) (dev_tail s)
    (fetched s) v (g_retired s).
Definition set_mover (s : sq_state) (head : Z) (m : option sq_mover) (retired : Z) : sq_state :=
  MkSq (in_ticket s) (tickets s) (tail_mark s) (slots s) head (sq_tail s)
    (tail_lock s) (head_lock s) (procs s) m (dev_tail s)
    (fetched s) (g_cleared s) retired.

(** ** Steps *)

Section steps.
  Context (qs_log2 : Z).

Definition qs : Z := 2 ^ qs_log2.
Definition qs_minus_1 : Z := qs - 1.

(** [sq->in_ticket.fetch_add(1)], the first access of a call. *)
Definition sq_enqueue_call (s : sq_state) (cmd : list Z) : sq_state :=
  MkSq (u32 (in_ticket s + 1)) (tickets s) (tail_mark s) (slots s) (sq_head s) (sq_tail s)
    (tail_lock s) (head_lock s) (procs s ++ [MkProc (in_ticket s) cmd SWait1]) (mover s)
    (dev_tail s) (fetched s) (g_cleared s) (g_retired s).

(** One 32-byte assignment [queue_loc[i] = cmd_[i]] of eight words. *)
Definition copy_chunk (dst src : list Z) (i : nat) : list Z :=
  take (8 * i) dst ++ take 8 (drop (8 * i) src) ++ drop (8 * (i + 1)) dst.

(** [move_tail]: one access of its loop, or its return. *)
Definition move_tail_step (s : sq_state) (t : nat) (c : sq_pc) : option sq_state :=
  match c with
  | SMoveHead cur_tail count =>
      let pass := negb (Z.land (u32 (u32 (cur_tail + count) + 1)) qs_minus_1
                        =? Z.land (sq_head s) qs_minus_1) in
      Some (set_pc s t (if pass then SMoveMark cur_tail count else SMoveEnd cur_tail count))
  | SMoveMark cur_tail count =>
      let loc := Z.land (u32 (cur_tail + count)) qs_minus_1 in
      let pass := tail_mark s loc =? LOCKED in
      let s := set_mark s (fupd (tail_mark s) loc UNLOCKED) in
      Some (if pass
            then set_pc (set_cleared s (g_cleared s + 1)) t
                   (SMoveHead cur_tail (u32 (count + 1)))
            else set_pc s t (SMoveEnd cur_tail count))
  | SMoveEnd cur_tail count =>
      Some (set_pc (set_head_lock s (u32 (head_lock s + 1))) t
              (if negb (count =? 0) then SDoorbell cur_tail count else SUnlock))
  | _ => None
  end.

(** The doorbell tells the controller its new tail modulo the queue size. *)
Definition ring_doorbell (s : sq_state) (new_db : Z) : sq_state :=
  set_dev_tail s (dev_tail s + (new_db - dev_tail s) mod qs).

(** [sq_enqueue]: the next access of the call with ticket number [t]. *)
Definition sq_enqueue_step (s : sq_state) (t : nat) : option sq_state :=
  match procs s !! t with
  | None => None
  | Some p =>
      let pos := Z.land (p_ticket p) qs_minus_1 in
      let id := get_id (p_ticket p) qs_log2 in
      match p_pc p with
      | SWait1 => Some (set_pc s t (if negb (tickets s pos =? id) then SWait1 else SWait2))
      | SWait2 => Some (set_pc s t (if negb (tickets s pos =? id) then SWait2 else SCopy 0))
      | SCopy i =>
          Some (set_pc (set_slots s (fupd (slots s) pos (copy_chunk (slots s pos) (p_cmd p) i))) t
                  (if (i + 1 <? 2)%nat then SCopy (i + 1) else SMark))
      | SMark => Some (set_pc (set_mark s (fupd (tail_mark s) pos LOCKED)) t SCheck)
      | SCheck => Some (set_pc s t (if tail_mark s pos =? LOCKED then SLoadLock else SFinish))
      | SLoadLock => Some (set_pc s t (if tail_lock s =? LOCKED then SCheck else STryLock))
      | STryLock =>
          Some (set_pc (set_tail_lock s (Z.lor (tail_lock s) LOCKED)) t
                  (if tail_lock s =? LOCKED then SCheck else SLoadTail))
      | SLoadTail => Some (set_pc s t (SMoveHead (sq_tail s) 0))
      | SMoveHead _ _ | SMoveMark _ _ | SMoveEnd _ _ => move_tail_step s t (p_pc p)
      | SDoorbell cur_tail count =>
          let new_tail := u32 (cur_tail + count) in
          Some (set_pc (ring_doorbell s (Z.land new_tail qs_minus_1)) t
                  (SStoreTail cur_tail count))
      | SStoreTail cur_tail count =>
          Some (set_pc (set_sq_tail s (u32 (cur_tail + count))) t SUnlock)
      | SUnlock => Some (set_pc (set_tail_lock s UNLOCKED) t SCheck)
      | SFinish =>
          Some (set_pc (set_tickets s (fupd (tickets s) pos (u32 (tickets s pos + 1)))) t SDone)
      | SDone => None
      end
  end.

(** [move_head_cq], from reading the reported head on: start, one slot, end. *)
Definition move_head_start (s : sq_state) (new_sq_head : Z) : option sq_state :=
  match mover s with
  | Some _ => None
  | None =>
      let loc := Z.land (sq_head s) qs_minus_1 in
      if negb (loc =? new_sq_head)
      then Some (set_mover s (sq_head s) (Some (MkMover loc 0 new_sq_head)) (g_retired s))
      else Some s
  end.

Definition move_head_step (s : sq_state) : option sq_state :=
  match mover s with
  | None => None
  | Some m =>
      if negb (m_loc m =? m_new_head m)
      then Some (set_mover (set_tickets s (fupd (tickets s) (m_loc m) (u32 (tickets s (m_loc m) + 1))))
                   (sq_head s)
                   (Some (MkMover (Z.land (u32 (m_loc m + 1)) qs_minus_1) (u32 (m_count m + 1))
                            (m_new_head m)))
                   (g_retired s + 1))
      else Some (set_mover s (u32 (sq_head s + m_count m)) None (g_retired s))
  end.

Inductive sq_step : sq_state -> sq_state -> Prop :=
  (** a thread calls [sq_enqueue] *)
  | sq_call s cmd : length cmd = 16%nat -> sq_step s (sq_enqueue_call s cmd)
  (** a call performs its next access *)
  | sq_access s t s' : sq_enqueue_step s t = Some s' -> sq_step s s'
  (** the controller fetches the next announced command *)
  | sq_fetch s :
      Z.of_nat (length (fetched s)) < dev_tail s ->
      sq_step s (set_fetched s (fetched s ++ [slots s (Z.of_nat (length (fetched s)) mod qs)]))
  (** a completion reports a head [x] the controller has reached, not before those
      retired already *)
  | sq_report s x s' :
      g_retired s <= x <= Z.of_nat (length (fetched s)) ->
      move_head_start s (x mod qs) = Some s' -> sq_step s s'
  | sq_move s s' : move_head_step s = Some s' -> sq_step s s'.

(** A fresh queue: [nvm_queue_clear] and zeroed mark and ticket arrays. *)
Definition sq_init (s : sq_state) : Prop :=
  in_ticket s = 0 /\ (forall i, tickets s i = 0) /\ (forall i, tail_mark s i = 0) /\
  sq_head s = 0 /\ sq_tail s = 0 /\ tail_lock s = 0 /\ head_lock s = 0 /\
  procs s = [] /\ mover s = None /\ dev_tail s = 0 /\ fetched s = [] /\
  g_cleared s = 0 /\ g_retired s = 0 /\ (forall i, length (slots s i) = 16%nat).

(** ** Running a schedule *)

Inductive sq_act :=
  | ACall (cmd : list Z) | AStep (t : nat) | AFetch | AReport (x : Z) | AMove.

Definition exec_act (a : sq_act) (s : sq_state) : option sq_state :=
  match a with
  | ACall cmd => if decide (length cmd = 16%nat) then Some (sq_enqueue_call s cmd) else None
  | AStep t => sq_enqueue_step s t
  | AFetch =>
      if decide (Z.of_nat (length (fetched s)) < dev_tail s)
      then Some (set_fetched s (fetched s ++ [slots s (Z.of_nat (length (fetched s)) mod qs)]))
      else None
  | AReport x =>
      if decide (g_retired s <= x <= Z.of_nat (length (fetched s)))
      then move_head_start s (x mod qs) else None
  | AMove => move_head_step s
  end.

Fixpoint exec (acts : list sq_act) (s : sq_state) : option sq_state :=
  match acts with
  | [] => Some s
  | a :: acts => match exec_act a s with Some s => exec acts s | None => None end
  end.

(** ** Invariant *)

Definition pc_of (s : sq_state) (t : nat) : option sq_pc := p_pc <$> procs s !! t.

(** Where a call stands: past the waits, command copied, mark set, mark found
    cleared, inside the tail lock. *)
Definition started (c : sq_pc) : bool :=
  match c with SWait1 | SWait2 => false | _ => true end.
Definition copied (c : sq_pc) : bool :=
  match c with SWait1 | SWait2 | SCopy _ => false | _ => true end.
Definition marked (c : sq_pc) : bool :=
  match c with SWait1 | SWait2 | SCopy _ | SMark => false | _ => true end.
Definition past (c : sq_pc) : bool :=
  match c with SFinish | SDone => true | _ => false end.
Definition holds (c : sq_pc) : bool :=
  match c with
  | SLoadTail | SMoveHead _ _ | SMoveMark _ _ | SMoveEnd _ _
  | SDoorbell _ _ | SStoreTail _ _ | SUnlock => true
  | _ => false
  end.

(** What the lock holder knows of the tail. *)
Definition holder_ok (s : sq_state) (c : sq_pc) : Prop :=
  match c with
  | SLoadTail | SUnlock => g_cleared s = sq_tail s /\ dev_tail s = sq_tail s
  | SMoveHead ct n | SMoveEnd ct n =>
      ct = sq_tail s /\ dev_tail s = ct /\ g_cleared s = ct + n /\ 0 <= n
  | SMoveMark ct n =>
      ct = sq_tail s /\ dev_tail s = ct /\ g_cleared s = ct + n /\ 0 <= n /\
      g_cleared s + 1 - sq_head s <= qs - 1
  | SDoorbell ct n => ct = sq_tail s /\ dev_tail s = ct /\ g_cleared s = ct + n /\ 0 < n
  | SStoreTail ct n =>
      ct = sq_tail s /\ dev_tail s = ct + n /\ g_cleared s = ct + n /\ 0 < n
  | _ => False
  end.

Definition lock_free (s : sq_state) : Prop :=
  tail_lock s = UNLOCKED /\ (forall t c, pc_of s t = Some c -> holds c = false) /\
  g_cleared s = sq_tail s /\ dev_tail s = sq_tail s.

Definition lock_held (s : sq_state) : Prop :=
  tail_lock s = LOCKED /\
  exists t c, pc_of s t = Some c /\ holds c = true /\ holder_ok s c /\
    forall t' c', pc_of s t' = Some c' -> holds c' = true -> t' = t.

Definition mover_ok (s : sq_state) : Prop :=
  match mover s with
  | None => g_retired s = sq_head s
  | Some m =>
      g_retired s = sq_head s + m_count m /\ 0 <= m_count m /\ m_loc m = g_retired s mod qs /\
      exists x, g_retired s <= x <= Z.of_nat (length (fetched s)) /\ m_new_head m = x mod qs
  end.

(** [tickets[pos]] counts the finished calls and the freed laps of the slot. *)
Definition tickets_ok (s : sq_state) (pos : Z) : Prop :=
  exists d r, 0 <= d /\ 0 <= r /\ tickets s pos = d + r /\
    (forall k, 0 <= k -> (pc_of s (Z.to_nat (pos + k * qs)) = Some SDone <-> k < d)) /\
    (forall k, 0 <= k -> (pos + k * qs < g_retired s <-> k < r)).

Definition mark_ok (s : sq_state) (pos : Z) : Prop :=
  (tail_mark s pos = LOCKED \/ tail_mark s pos = UNLOCKED) /\
  (tail_mark s pos = LOCKED <->
   exists t c, Z.of_nat t mod qs = pos /\ g_cleared s <= Z.of_nat t /\
     pc_of s t = Some c /\ marked c = true).

Definition inv_ids (s : sq_state) : Prop :=
  in_ticket s = Z.of_nat (length (procs s)) /\
  forall t p, procs s !! t = Some p -> p_ticket p = Z.of_nat t /\ length (p_cmd p) = 16%nat.

Definition inv_bounds (s : sq_state) : Prop :=
  0 <= sq_head s <= g_retired s /\ g_retired s <= Z.of_nat (length (fetched s)) /\
  Z.of_nat (length (fetched s)) <= dev_tail s /\ dev_tail s <= g_cleared s /\
  g_cleared s <= Z.of_nat (length (procs s)) /\ g_cleared s - sq_head s <= qs - 1.

(** A slot is entered only after its last call finished and was freed. *)
Definition free_before (s : sq_state) (t : nat) : Prop :=
  qs <= Z.of_nat t ->
  Z.of_nat t - qs < g_retired s /\ pc_of s (t - Z.to_nat qs) = Some SDone.

Definition inv_reuse (s : sq_state) : Prop :=
  forall t c, pc_of s t = Some c -> started c = true -> free_before s t.

Definition inv_tickets (s : sq_state) : Prop := forall pos, 0 <= pos < qs -> tickets_ok s pos.

(** Marks below [g_cleared] were set and cleared, the others not cleared. *)
Definition inv_cleared (s : sq_state) : Prop :=
  (forall t c, pc_of s t = Some c -> Z.of_nat t < g_cleared s -> marked c = true) /\
  (forall t c, pc_of s t = Some c -> past c = true -> Z.of_nat t < g_cleared s).

Definition inv_mark (s : sq_state) : Prop := forall pos, 0 <= pos < qs -> mark_ok s pos.

Definition inv_slots (s : sq_state) : Prop :=
  (forall t p, procs s !! t = Some p -> g_retired s <= Z.of_nat t ->
     copied (p_pc p) = true -> slots s (Z.of_nat t mod qs) = p_cmd p) /\
  (forall t p i, procs s !! t = Some p -> p_pc p = SCopy i ->
     i = 0%nat \/ (i = 1%nat /\ take 8 (slots s (Z.of_nat t mod qs)) = take 8 (p_cmd p))) /\
  (forall pos, length (slots s pos) = 16%nat).

Definition inv_lock (s : sq_state) : Prop := lock_free s \/ lock_held s.

Definition inv_fetched (s : sq_state) : Prop :=
  fetched s = take (length (fetched s)) (p_cmd <$> procs s).

Record sq_inv (s : sq_state) : Prop := {
  i_ids : inv_ids s; i_bounds : inv_bounds s; i_reuse : inv_reuse s;
  i_tickets : inv_tickets s; i_cleared : inv_cleared s; i_mark : inv_mark s;
  i_slots : inv_slots s; i_lock : inv_lock s; i_fetched : inv_fetched s;
  i_mover : mover_ok s
}.

Context (Hlg : 2 <= qs_log2 <= 16).

Lemma qs_range : 4 <= qs <= 65536.
Proof.
  unfold qs. split; [change 4 with (2 ^ 2)|change 65536 with (2 ^ 16)];
    apply Z.pow_le_mono_r; lia.
Qed.

Lemma land_qs z : Z.land z qs_minus_1 = z mod qs.
Proof. apply land_ones_mod. lia. Qed.

Lemma land_qs_u32 z : Z.land (u32 z) qs_minus_1 = z mod qs.
Proof. apply land_mask_wrap. lia. Qed.

Lemma mod_qs_range z : 0 <= z mod qs < qs.
Proof. apply Z.mod_pos_bound. pose proof qs_range. lia. Qed.

(** A process id [z = pos + k * qs]. *)
Lemma slot_decomp z : z = z mod qs + z / qs * qs.
Proof. pose proof qs_range. pose proof (Z.div_mod z qs). lia. Qed.

Lemma pc_of_set_pc s t c t' :
  is_Some (procs s !! t) ->
  pc_of (set_pc s t c) t' = if decide (t = t') then Some c else pc_of s t'.
Proof.
  intros [p Hp]. unfold pc_of; cbn. destruct (decide (t = t')) as [<-|].
  - now rewrite list_lookup_alter_eq, Hp.
  - now rewrite list_lookup_alter_ne.
Qed.

Lemma cmds_set_pc s t c : p_cmd <$> procs (set_pc s t c) = p_cmd <$> procs s.
Proof.
  cbn. apply list_eq. intros i. rewrite !list_lookup_fmap.
  destruct (decide (t = i)) as [<-|].
  - rewrite list_lookup_alter_eq. now destruct (procs s !! t).
  - now rewrite list_lookup_alter_ne.
Qed.

Lemma sq_init_inv s : sq_init s -> sq_inv s.
Proof.
  intros (E1&E2&E3&E4&E5&E6&E7&E8&E9&E10&E11&E12&E13&E14). pose proof qs_range as Hq.
  assert (Hpc : forall t, pc_of s t = None) by (intros; unfold pc_of; now rewrite E8).
  split.
  all: unfold inv_ids, inv_bounds, inv_reuse, inv_cleared, inv_slots, inv_fetched.
  - rewrite E1, E8. split; done.
  - rewrite ?E4, ?E8, ?E10, ?E11, ?E12, ?E13. cbn. lia.
  - intros t c. now rewrite Hpc.
  - intros pos Hp. exists 0, 0. rewrite E2. do 3 (split; [lia|]).
    split; intros k Hk; [rewrite Hpc; split; [done|lia]|rewrite E13; nia].
  - split; intros t c; now rewrite Hpc.
  - intros pos Hp. unfold mark_ok. rewrite E3. split; [now right|]. split; [done|].
    intros (t & c & _ & _ & H & _). now rewrite Hpc in H.
  - rewrite E8. split; [done|split; done].
  - left. unfold lock_free. rewrite E5, E6, E10, E12. repeat split.
    intros t c. now rewrite Hpc.
  - now rewrite E11.
  - unfold mover_ok. now rewrite E9, E13, E4.
Qed.

Lemma pc_of_Some s t c : pc_of s t = Some c <-> exists p, procs s !! t = Some p /\ p_pc p = c.
Proof.
  unfold pc_of. rewrite fmap_Some. split; intros (p & H1 & H2); exists p; split; congruence.
Qed.

Lemma procs_set_pc s t c t' p :
  procs (set_pc s t c) !! t' = Some p ->
  exists p0, procs s !! t' = Some p0 /\ p_ticket p = p_ticket p0 /\ p_cmd p = p_cmd p0 /\
    p_pc p = if decide (t = t') then c else p_pc p0.
Proof.
  cbn. destruct (decide (t = t')) as [<-|].
  - rewrite list_lookup_alter_eq. destruct (procs s !! t) as [p0|]; [|done].
    intros [= <-]. eauto.
  - rewrite list_lookup_alter_ne by done. eauto.
Qed.

(** ** Frames

    A step of call [t] from [c] to [c'] changes no other call. *)
Definition pc_step (s s' : sq_state) (t : nat) (c c' : sq_pc) : Prop :=
  pc_of s t = Some c /\ c <> SDone /\
  (forall t', pc_of s' t' = if decide (t = t') then Some c' else pc_of s t') /\
  (forall t' p, procs s' !! t' = Some p -> exists p0, procs s !! t' = Some p0 /\
     p_ticket p = p_ticket p0 /\ p_cmd p = p_cmd p0 /\
     p_pc p = if decide (t = t') then c' else p_pc p0) /\
  length (procs s') = length (procs s) /\ p_cmd <$> procs s' = p_cmd <$> procs s.

Lemma pc_step_set_pc s s0 t c c' :
  pc_of s t = Some c -> c <> SDone -> procs s0 = procs s -> pc_step s (set_pc s0 t c') t c c'.
Proof.
  intros Hc Hd E. assert (Hpc : forall t', pc_of s0 t' = pc_of s t')
    by (intros; unfold pc_of; now rewrite E).
  repeat split; auto.
  - intros t'. rewrite pc_of_set_pc, Hpc; [done|].
    rewrite E. apply pc_of_Some in Hc as (p & -> & _). eauto.
  - intros t' p Hp. apply procs_set_pc in Hp. now rewrite E in Hp.
  - cbn. now rewrite length_alter, E.
  - rewrite cmds_set_pc. now rewrite E.
Qed.

Section frames.
  Context (s s' : sq_state) (t : nat) (c c' : sq_pc) (Hst : pc_step s s' t c c').

Lemma fr_ids : in_ticket s' = in_ticket s -> inv_ids s -> inv_ids s'.
Proof.
  destruct Hst as (_ & _ & _ & Hp & Hl & _). intros E [H1 H2]. split; [congruence|].
  intros t' p H. apply Hp in H as (p0 & H & -> & -> & _). auto.
Qed.

Lemma fr_reuse :
  g_retired s <= g_retired s' -> (started c' = true -> free_before s t) ->
  inv_reuse s -> inv_reuse s'.
Proof.
  destruct Hst as (Hc & Hd & Hpc & _). intros Hr Hfree Hinv t' c0 H0 H1 H2.
  assert (Hf : free_before s t').
  { rewrite Hpc in H0. case_decide; simplify_eq; eauto. }
  destruct (Hf H2) as [? Hdn]. split; [lia|]. rewrite Hpc. case_decide; [|done].
  subst. congruence.
Qed.

Lemma fr_tickets :
  tickets s' = tickets s -> g_retired s' = g_retired s -> c' <> SDone ->
  inv_tickets s -> inv_tickets s'.
Proof.
  destruct Hst as (Hc & Hd & Hpc & _). intros Et Er Hd' Hinv pos Hp.
  destruct (Hinv pos Hp) as (d & r & ? & ? & ? & Hdn & ?). exists d, r.
  rewrite Et, Er. do 3 (split; [done|]). split; [|done]. intros k Hk.
  rewrite Hpc, <- (Hdn k Hk). case_decide; [|done]. subst. split; congruence.
Qed.

Lemma fr_cleared :
  g_cleared s' = g_cleared s -> (marked c = true -> marked c' = true) ->
  (past c' = true -> Z.of_nat t < g_cleared s) -> inv_cleared s -> inv_cleared s'.
Proof.
  destruct Hst as (Hc & Hd & Hpc & _). intros E Hm Hp [H1 H2].
  split; intros t' c0 H0; rewrite Hpc in H0; rewrite E; case_decide; simplify_eq; eauto.
Qed.

Lemma fr_mark :
  tail_mark s' = tail_mark s -> g_cleared s' = g_cleared s -> marked c' = marked c ->
  inv_mark s -> inv_mark s'.
Proof.
  destruct Hst as (Hc & Hd & Hpc & _). intros Em E Hm Hinv pos Hp.
  destruct (Hinv pos Hp) as [H01 Hiff]. unfold mark_ok. rewrite Em, E. split; [done|].
  rewrite Hiff. split; intros (t' & c0 & ? & ? & H0 & ?).
  - exists t'. rewrite Hpc. case_decide; subst; eauto. exists c'.
    replace c0 with c in * by congruence. rewrite Hm. auto.
  - exists t'. rewrite Hpc in H0. case_decide; simplify_eq; eauto.
    exists c. rewrite <- Hm. auto.
Qed.

Lemma fr_slots :
  slots s' = slots s -> g_retired s <= g_retired s' -> (copied c' = true -> copied c = true) ->
  (forall i, c' = SCopy i -> i = 0%nat) -> inv_slots s -> inv_slots s'.
Proof.
  destruct Hst as (Hc & Hd & Hpc & Hp & _). intros E Hr Hcp Hi (H1 & H2 & H3).
  apply pc_of_Some in Hc as (p1 & Hp1 & Ec). rewrite <- Ec in Hcp.
  split; [|split; [|now rewrite E]].
  - intros t' p H Hrt Hc'. apply Hp in H as (p0 & H & _ & -> & Epc). rewrite E.
    apply H1; [done|lia|]. rewrite Epc in Hc'. case_decide; [|done]. simplify_eq. auto.
  - intros t' p i H Hpi. apply Hp in H as (p0 & H & _ & -> & Epc). rewrite E.
    rewrite Epc in Hpi. case_decide; eauto.
Qed.

Lemma fr_lock :
  tail_lock s' = tail_lock s -> holds c' = holds c ->
  (holds c = false -> g_cleared s' = g_cleared s /\ sq_tail s' = sq_tail s /\
     dev_tail s' = dev_tail s /\ sq_head s' = sq_head s) ->
  (holds c = true -> holder_ok s c -> holder_ok s' c') -> inv_lock s -> inv_lock s'.
Proof.
  destruct Hst as (Hc & Hd & Hpc & _). intros El Hh Hsame Hok.
  intros [(Hf & Hn & Hcl & Hdt)|(Hl & t0 & c0 & H0 & H1 & H2 & Hu)].
  - left. destruct (Hsame (Hn t c Hc)) as (E1 & E2 & E3 & _).
    split; [congruence|]. split; [|split; congruence]. intros t' c0 H0. rewrite Hpc in H0.
    case_decide; simplify_eq; [rewrite Hh|]; eauto.
  - right. split; [congruence|]. exists t0. rewrite Hpc.
    destruct (decide (t = t0)) as [<-|].
    + replace c0 with c in * by congruence. exists c'. repeat split; [congruence|auto|].
      intros t' c1 H3 H4. rewrite Hpc in H3. case_decide; simplify_eq; eauto.
    + assert (Hcf : holds c = false).
      { destruct (holds c) eqn:Hhc; [|done]. exfalso. apply n, (Hu t c); auto. }
      destruct (Hsame Hcf) as (E1 & E2 & E3 & E4). exists c0. repeat split; auto.
      * destruct c0; cbn in H2 |- *; rewrite ?E1, ?E2, ?E3, ?E4; auto.
      * intros t' c1 H3 H4. rewrite Hpc in H3. case_decide; simplify_eq; eauto.
Qed.

Lemma fr_fetched : fetched s' = fetched s -> inv_fetched s -> inv_fetched s'.
Proof.
  destruct Hst as (_ & _ & _ & _ & _ & Hcm). unfold inv_fetched. intros -> H.
  now rewrite Hcm.
Qed.
End frames.

(** A step that only moves a call between program points of the same standing. *)
Lemma inv_set_pc s t c c' :
  sq_inv s -> pc_of s t = Some c -> c <> SDone -> c' <> SDone ->
  (started c' = true -> free_before s t) -> (copied c' = true -> copied c = true) ->
  marked c' = marked c -> (past c' = true -> Z.of_nat t < g_cleared s) ->
  (forall i, c' = SCopy i -> i = 0%nat) -> holds c' = holds c ->
  (holds c = true -> holder_ok s c -> holder_ok s c') -> sq_inv (set_pc s t c').
Proof.
  intros [Hid Hb Hr Ht Hcl Hm Hs Hl Hf Hmv] Hc Hd Hd' H1 H2 H3 H4 H5 H6 H7.
  pose proof (pc_step_set_pc s s t c c' Hc Hd eq_refl) as Hst. split.
  - eapply fr_ids; eauto.
  - destruct Hst as (_ & _ & _ & _ & E & _). unfold inv_bounds. now rewrite E.
  - eapply fr_reuse; eauto. reflexivity.
  - eapply fr_tickets; eauto.
  - eapply fr_cleared; eauto.
  - eapply fr_mark; eauto.
  - eapply fr_slots; eauto. reflexivity.
  - eapply fr_lock; eauto.
  - eapply fr_fetched; eauto.
  - exact Hmv.
Qed.

(** ** Steps that change shared state *)

Section one.
  Context (s : sq_state) (Hinv : sq_inv s) (HT : Z.of_nat (length (procs s)) < 2 ^ 32).
  Context (t : nat) (c : sq_pc) (Hc : pc_of s t = Some c).

Lemma call_in_range : Z.of_nat t < Z.of_nat (length (procs s)).
Proof. apply pc_of_Some in Hc as (p & Hp & _). apply lookup_lt_Some in Hp. lia. Qed.

Lemma not_cleared : marked c = false -> g_cleared s <= Z.of_nat t.
Proof.
  intros Hm. destruct (i_cleared s Hinv) as [H1 _].
  destruct (Z.lt_ge_cases (Z.of_nat t) (g_cleared s)); [|done].
  specialize (H1 t c Hc H). congruence.
Qed.

Lemma retired_le_cleared : g_retired s <= g_cleared s.
Proof. destruct (i_bounds s Hinv). lia. Qed.

(** The wait of a call ends only when its slot is free. *)
Lemma wait_free :
  started c = false -> tickets s (Z.of_nat t mod qs) = get_id (Z.of_nat t) qs_log2 ->
  free_before s t.
Proof.
  intros Hst Htk Hge. pose proof qs_range as Hq. pose proof call_in_range as Hr.
  destruct (i_tickets s Hinv (Z.of_nat t mod qs) (mod_qs_range _))
    as (d & r & Hd & Hr0 & Etk & Hdone & Hret).
  set (k := Z.of_nat t / qs). assert (Hk : 1 <= k) by (apply Z.div_le_lower_bound; lia).
  assert (Et : Z.of_nat t = Z.of_nat t mod qs + k * qs) by apply slot_decomp.
  assert (Hid : get_id (Z.of_nat t) qs_log2 = 2 * k).
  { unfold get_id. rewrite Z.shiftr_div_pow2 by lia. fold qs. fold k.
    pose proof (mod_qs_range (Z.of_nat t)). assert (k <= Z.of_nat t) by nia.
    rewrite u64_id; unfold is_word; lia. }
  assert (Hd' : d <= k).
  { apply Z.nlt_ge. rewrite <- (Hdone k) by lia. rewrite <- Et, Nat2Z.id, Hc.
    intros [= ->]. done. }
  assert (Hr' : r <= k).
  { apply Z.nlt_ge. rewrite <- (Hret k) by lia. rewrite <- Et.
    assert (marked c = false) by (destruct c; done).
    pose proof (not_cleared ltac:(done)). pose proof retired_le_cleared. lia. }
  assert (Ep : Z.of_nat t mod qs + (k - 1) * qs = Z.of_nat t - qs) by lia.
  split.
  - rewrite <- Ep. apply Hret; lia.
  - replace (t - Z.to_nat qs)%nat with (Z.to_nat (Z.of_nat t mod qs + (k - 1) * qs)) by lia.
    apply Hdone; lia.
Qed.

(** Two calls past their wait in one slot: the earlier one was freed. *)
Lemma started_freed t' c' :
  pc_of s t' = Some c' -> started c' = true -> (t < t')%nat ->
  Z.of_nat t mod qs = Z.of_nat t' mod qs -> Z.of_nat t < g_retired s.
Proof.
  intros Hc' Hst Hlt Hmod. pose proof qs_range.
  pose proof (slot_decomp (Z.of_nat t)). pose proof (slot_decomp (Z.of_nat t')).
  assert (Z.of_nat t / qs < Z.of_nat t' / qs) by nia.
  destruct (i_reuse s Hinv t' c' Hc' Hst); nia.
Qed.

Lemma started_below :
  started c = true -> Z.of_nat t < g_retired s + qs.
Proof.
  intros Hst. destruct (Z.lt_ge_cases (Z.of_nat t) qs) as [|Hge].
  - destruct (i_bounds s Hinv). lia.
  - destruct (i_reuse s Hinv t c Hc Hst Hge). lia.
Qed.
End one.

(** Discharge the parts of the invariant a step does not touch. *)
Ltac frames Hst :=
  split;
  [ try solve [eapply fr_ids; [exact Hst|reflexivity|assumption]]
  | let E := fresh "E" in
    pose proof Hst as (_ & _ & _ & _ & E & _); unfold inv_bounds in *; rewrite E; cbn; try lia
  | try solve [eapply fr_reuse; [exact Hst|cbn; lia|try done; eauto|assumption]]
  | try solve [eapply fr_tickets; [exact Hst|reflexivity|reflexivity|done|assumption]]
  | try solve [eapply fr_cleared; [exact Hst|reflexivity|try done; eauto; congruence
               |try done; eauto; congruence|assumption]]
  | try solve [eapply fr_mark; [exact Hst|reflexivity|reflexivity|done|assumption]]
  | try solve [eapply fr_slots; [exact Hst|reflexivity|cbn; lia|done|done|assumption]]
  | try solve [eapply fr_lock; [exact Hst|reflexivity|done|done|done|assumption]]
  | try solve [eapply fr_fetched; [exact Hst|reflexivity|assumption]]
  | try assumption ].

Lemma proc_facts s t p :
  sq_inv s -> procs s !! t = Some p ->
  pc_of s t = Some (p_pc p) /\ Z.land (p_ticket p) qs_minus_1 = Z.of_nat t mod qs /\
  p_ticket p = Z.of_nat t /\ length (p_cmd p) = 16%nat.
Proof.
  intros Hinv Hp. destruct (i_ids s Hinv) as [_ H]. destruct (H t p Hp) as [Et El].
  rewrite land_qs, Et. repeat split; auto. unfold pc_of. now rewrite Hp.
Qed.

(** A copy by one call touches no live command of another. *)
Lemma copy_other s t p i t' p' v :
  sq_inv s -> procs s !! t = Some p -> p_pc p = SCopy i ->
  procs s !! t' = Some p' -> t' <> t -> started (p_pc p') = true -> g_retired s <= Z.of_nat t' ->
  fupd (slots s) (Z.of_nat t mod qs) v (Z.of_nat t' mod qs) = slots s (Z.of_nat t' mod qs).
Proof.
  intros Hinv Hp Hi Hp' Hne Hst Hr. apply fupd_ne. intros E.
  destruct (proc_facts s t p Hinv Hp) as (Hc & _). rewrite Hi in Hc.
  destruct (proc_facts s t' p' Hinv Hp') as (Hc' & _).
  destruct (Nat.lt_trichotomy t' t) as [Hlt|[?|Hlt]]; [|done|].
  - pose proof (started_freed s Hinv t' _ _ Hc eq_refl Hlt E). lia.
  - pose proof (started_freed s Hinv t _ _ Hc' Hst Hlt (eq_sym E)).
    pose proof (not_cleared s Hinv t _ Hc eq_refl). pose proof (retired_le_cleared s Hinv). lia.
Qed.

Lemma copy_chunk_length dst src i :
  length dst = 16%nat -> length src = 16%nat -> (i = 0 \/ i = 1)%nat ->
  length (copy_chunk dst src i) = 16%nat.
Proof.
  intros Hd Hs Hi. unfold copy_chunk.
  rewrite !length_app, !length_take, !length_drop. destruct Hi; subst i; lia.
Qed.

Lemma copy_chunk_first dst src :
  length dst = 16%nat -> length src = 16%nat -> take 8 (copy_chunk dst src 0) = take 8 src.
Proof.
  intros Hd Hs. unfold copy_chunk. change (8 * 0)%nat with 0%nat.
  rewrite take_0, drop_0, app_nil_l. rewrite take_app_le, take_take by (rewrite length_take; lia). done.
Qed.

Lemma copy_chunk_last dst src :
  length dst = 16%nat -> length src = 16%nat -> take 8 dst = take 8 src ->
  copy_chunk dst src 1 = src.
Proof.
  intros Hd Hs H8. unfold copy_chunk.
  change (8 * 1)%nat with 8%nat. change (8 * (1 + 1))%nat with 16%nat. rewrite H8.
  rewrite (take_ge (drop 8 src)), (drop_ge dst), app_nil_r by (rewrite ?length_drop; lia).
  apply take_drop.
Qed.

Lemma inv_copy s t p i :
  sq_inv s -> procs s !! t = Some p -> p_pc p = SCopy i ->
  let pos := Z.of_nat t mod qs in
  sq_inv (set_pc (set_slots s (fupd (slots s) pos (copy_chunk (slots s pos) (p_cmd p) i))) t
            (if (i + 1 <? 2)%nat then SCopy (i + 1) else SMark)).
Proof.
  intros Hinv Hp Hi pos. destruct (proc_facts s t p Hinv Hp) as (Hc & _ & _ & Hlen).
  pose proof (i_slots s Hinv) as (_ & _ & H16). pose proof (H16 pos) as Hl16. fold pos in Hl16.
  rewrite Hi in Hc. set (c' := if _ : bool then _ else _).
  assert (Hi01 : i = 0%nat \/ i = 1%nat)
    by (destruct (i_slots s Hinv) as (_ & H & _); destruct (H t p i Hp Hi); tauto).
  assert (Hc' : started c' = true /\ marked c' = false /\ past c' = false /\ holds c' = false /\
                c' <> SDone) by (destruct Hi01; subst i; done).
  destruct Hc' as (Hst' & Hmk' & Hps' & Hho' & Hd').
  pose proof (copy_other s t p i) as Hoth. pose proof Hinv as [].
  pose proof (pc_step_set_pc s (set_slots s (fupd (slots s) pos (copy_chunk (slots s pos) (p_cmd p) i)))
                t (SCopy i) c' Hc ltac:(done) eq_refl) as Hst.
  frames Hst.
  pose proof Hst as (_ & _ & _ & Hprocs & _). destruct i_slots0 as (Hs1 & Hs2 & _).
  split; [|split].
  - intros t' q Hq Hr Hcp. apply Hprocs in Hq as (q0 & Hq0 & _ & -> & Epc). cbn.
    rewrite Epc in Hcp. destruct (decide (t = t')) as [<-|Hne].
    + assert (i = 1%nat) as -> by (destruct Hi01; subst; done).
      destruct (Hs2 t p 1%nat Hp Hi) as [?|[_ Ht8]]; [lia|]. simplify_eq.
      unfold pos. rewrite fupd_eq. now apply copy_chunk_last.
    + assert (Hst0 : started (p_pc q0) = true) by (destruct (p_pc q0); done).
      unfold pos. rewrite (Hoth t' q0); auto.
  - intros t' q j Hq Hj. apply Hprocs in Hq as (q0 & Hq0 & _ & -> & Epc). cbn.
    rewrite Epc in Hj. destruct (decide (t = t')) as [<-|Hne].
    + assert (i = 0%nat) as -> by (destruct Hi01; subst; done). right.
      unfold c' in Hj. cbn in Hj. injection Hj as <-. split; [done|].
      replace q0 with p by congruence. unfold pos. rewrite fupd_eq. now apply copy_chunk_first.
    + destruct (Hs2 t' q0 j Hq0 Hj) as [?|[-> Ht8]]; [now left|]. right. split; [done|].
      unfold pos. rewrite (Hoth t' q0); auto; [now rewrite Hj|].
      destruct (proc_facts s t' q0 Hinv Hq0) as (Hc0 & _). rewrite Hj in Hc0.
      pose proof (not_cleared s Hinv t' _ Hc0 eq_refl). pose proof (retired_le_cleared s Hinv). lia.
  - intros pos'. cbn. unfold fupd. case_test; [|done]. now apply copy_chunk_length.
Qed.

Lemma inv_set_mark s t :
  sq_inv s -> pc_of s t = Some SMark ->
  sq_inv (set_pc (set_mark s (fupd (tail_mark s) (Z.of_nat t mod qs) LOCKED)) t SCheck).
Proof.
  intros Hinv Hc. pose proof (not_cleared s Hinv t _ Hc eq_refl) as Hge.
  pose proof Hinv as [].
  pose proof (pc_step_set_pc s (set_mark s (fupd (tail_mark s) (Z.of_nat t mod qs) LOCKED))
                t SMark SCheck Hc ltac:(done) eq_refl) as Hst.
  frames Hst. pose proof Hst as (_ & _ & Hpc & _).
  intros pos Hp. destruct (i_mark0 pos Hp) as [H01 Hiff]. split; cbn.
  { unfold fupd. case_test; auto. }
  destruct (decide (pos = Z.of_nat t mod qs)) as [->|Hne].
  - rewrite fupd_eq. split; [intros _|done]. exists t, SCheck.
    rewrite Hpc, decide_True by done. auto.
  - rewrite fupd_ne, Hiff by done. split; intros (t' & c0 & ? & ? & H0 & ?).
    + exists t', c0. rewrite Hpc, decide_False by (intros <-; congruence). auto.
    + rewrite Hpc in H0. case_decide; [congruence|]. eauto 10.
Qed.

Lemma mark_clear_past s t :
  sq_inv s -> pc_of s t = Some SCheck ->
  tail_mark s (Z.of_nat t mod qs) <> LOCKED -> Z.of_nat t < g_cleared s.
Proof.
  intros Hinv Hc Hn. destruct (i_mark s Hinv _ (mod_qs_range (Z.of_nat t))) as [_ Hiff].
  destruct (Z.lt_ge_cases (Z.of_nat t) (g_cleared s)); [done|]. exfalso. apply Hn, Hiff.
  exists t, SCheck. auto.
Qed.

Lemma inv_take_lock s t :
  sq_inv s -> pc_of s t = Some STryLock -> tail_lock s <> LOCKED ->
  sq_inv (set_pc (set_tail_lock s (Z.lor (tail_lock s) LOCKED)) t SLoadTail).
Proof.
  intros Hinv Hc Hl. pose proof Hinv as [].
  pose proof (pc_step_set_pc s (set_tail_lock s (Z.lor (tail_lock s) LOCKED))
                t STryLock SLoadTail Hc ltac:(done) eq_refl) as Hst.
  frames Hst. pose proof Hst as (_ & _ & Hpc & _).
  destruct i_lock0 as [(Hf & Hn & Hcl & Hdt)|(Hl' & _)]; [|congruence].
  right. split; [cbn; now rewrite Hf|]. exists t, SLoadTail.
  rewrite Hpc, decide_True by done. repeat split; auto.
  intros t' c' H1 H2. rewrite Hpc in H1. case_decide; [done|]. rewrite (Hn t' c') in H2; done.
Qed.

Lemma holder_facts s t c :
  sq_inv s -> pc_of s t = Some c -> holds c = true -> holder_ok s c /\ tail_lock s = LOCKED /\
  forall t' c', pc_of s t' = Some c' -> holds c' = true -> t' = t.
Proof.
  intros [] Hc Hh. destruct i_lock0 as [(_ & Hn & _)|(Hl & t0 & c0 & H0 & H1 & H2 & Hu)].
  - rewrite (Hn t c Hc) in Hh. done.
  - assert (t = t0) as -> by eauto. replace c with c0 by congruence. auto.
Qed.

(** [move_tail] clears exactly the mark of the oldest call not yet cleared. *)
Lemma mark_at_cleared s :
  sq_inv s -> tail_mark s (g_cleared s mod qs) = LOCKED ->
  g_cleared s < Z.of_nat (length (procs s)) /\
  exists c, pc_of s (Z.to_nat (g_cleared s)) = Some c /\ marked c = true.
Proof.
  intros Hinv Hm. pose proof (i_bounds s Hinv) as Hb.
  destruct (i_mark s Hinv _ (mod_qs_range (g_cleared s))) as [_ Hiff].
  apply Hiff in Hm as (t & c & Hmod & Hge & Hc & Hmk).
  assert (Hst : started c = true) by (destruct c; done).
  pose proof (started_below s Hinv t c Hc Hst). pose proof (call_in_range s t c Hc).
  assert (Z.of_nat t = g_cleared s) by (apply (mod_inj_near qs); unfold inv_bounds in Hb; lia).
  split; [lia|]. exists c. replace (Z.to_nat (g_cleared s)) with t by lia. auto.
Qed.

Lemma inv_clear_mark s t ct n :
  sq_inv s -> Z.of_nat (length (procs s)) < 2 ^ 32 ->
  pc_of s t = Some (SMoveMark ct n) -> tail_mark s (g_cleared s mod qs) = LOCKED ->
  sq_inv (set_pc (set_cleared (set_mark s (fupd (tail_mark s) (g_cleared s mod qs) UNLOCKED))
                    (g_cleared s + 1)) t (SMoveHead ct (u32 (n + 1)))).
Proof.
  intros Hinv HT Hc Hm. destruct (mark_at_cleared s Hinv Hm) as (Hlt & cm & Hcm & Hmk).
  destruct (holder_facts s t _ Hinv Hc eq_refl) as ((E1 & E2 & E3 & E4 & E5) & _ & Hu).
  pose proof Hinv as []. pose proof i_bounds0 as Hb. unfold inv_bounds in Hb.
  pose proof (pc_step_set_pc s (set_cleared (set_mark s (fupd (tail_mark s) (g_cleared s mod qs) UNLOCKED))
                (g_cleared s + 1)) t _ (SMoveHead ct (u32 (n + 1))) Hc ltac:(done) eq_refl) as Hst.
  rewrite (u32_id (n + 1)) in * by (unfold is_word; lia).
  frames Hst; pose proof Hst as (_ & _ & Hpc & _).
  - destruct i_cleared0 as [H1 H2]. split; cbn.
    + intros t' c' H0 H3. rewrite Hpc in H0. destruct (decide (t = t')) as [<-|]; [now simplify_eq|].
      destruct (decide (Z.of_nat t' = g_cleared s)) as [E|]; [|apply (H1 t'); auto; lia].
      rewrite <- E, Nat2Z.id in Hcm. congruence.
    + intros t' c' H0 H3. rewrite Hpc in H0. destruct (decide (t = t')) as [<-|]; [now simplify_eq|].
      specialize (H2 t' c' H0 H3). lia.
  - intros pos Hp. destruct (i_mark0 pos Hp) as [H01 Hiff]. split; cbn.
    { unfold fupd. case_test; auto. }
    destruct (decide (pos = g_cleared s mod qs)) as [->|Hne].
    + rewrite fupd_eq. split; [done|]. intros (t' & c' & Hmod & Hge & H0 & Hmk').
      rewrite Hpc in H0. assert (Hst' : started c' = true) by (destruct c'; done).
      assert (H0' : exists c0, pc_of s t' = Some c0 /\ started c0 = true).
      { case_decide; simplify_eq; eauto. }
      destruct H0' as (c0 & Hc0 & Hs0). pose proof (started_below s Hinv t' c0 Hc0 Hs0).
      assert (Z.of_nat t' = g_cleared s) by (apply (mod_inj_near qs); lia). lia.
    + rewrite fupd_ne, Hiff by done. split; intros (t' & c' & Hmod & Hge & H0 & Hmk').
      * exists t'. rewrite Hpc. assert (Z.of_nat t' <> g_cleared s) by congruence.
        case_decide; [exists (SMoveHead ct (n + 1))|exists c']; repeat split; auto; lia.
      * exists t'. rewrite Hpc in H0. destruct (decide (t = t')) as [<-|].
        -- exists (SMoveMark ct n). repeat split; auto; lia.
        -- exists c'. repeat split; auto; lia.
  - eapply fr_lock; [exact Hst|done|done|done|cbn; lia|done].
Qed.

Lemma inv_set_mark_same s f :
  (forall pos, 0 <= pos < qs -> f pos = tail_mark s pos) -> sq_inv s -> sq_inv (set_mark s f).
Proof.
  intros Hf []. split; auto. intros pos Hp. destruct (i_mark0 pos Hp) as [H01 Hiff].
  unfold mark_ok. cbn. rewrite Hf by done. auto.
Qed.

Lemma inv_doorbell s t ct n :
  sq_inv s -> Z.of_nat (length (procs s)) < 2 ^ 32 -> pc_of s t = Some (SDoorbell ct n) ->
  sq_inv (set_pc (ring_doorbell s (Z.land (u32 (ct + n)) qs_minus_1)) t (SStoreTail ct n)).
Proof.
  intros Hinv HT Hc. pose proof qs_range as Hq.
  destruct (holder_facts s t _ Hinv Hc eq_refl) as ((E1 & E2 & E3 & E4) & _ & Hu).
  pose proof Hinv as []. pose proof i_bounds0 as Hb. unfold inv_bounds in Hb.
  assert (Hdt : dev_tail s + (Z.land (u32 (ct + n)) qs_minus_1 - dev_tail s) mod qs = ct + n).
  { rewrite land_qs, u32_id, Zminus_mod_idemp_l, Z.mod_small by (unfold is_word; lia). lia. }
  pose proof (pc_step_set_pc s (ring_doorbell s (Z.land (u32 (ct + n)) qs_minus_1))
                t _ (SStoreTail ct n) Hc ltac:(done) eq_refl) as Hst.
  frames Hst.
Qed.

Lemma inv_store_tail s t ct n :
  sq_inv s -> Z.of_nat (length (procs s)) < 2 ^ 32 -> pc_of s t = Some (SStoreTail ct n) ->
  sq_inv (set_pc (set_sq_tail s (u32 (ct + n))) t SUnlock).
Proof.
  intros Hinv HT Hc.
  destruct (holder_facts s t _ Hinv Hc eq_refl) as ((E1 & E2 & E3 & E4) & _ & Hu).
  pose proof Hinv as []. pose proof i_bounds0 as Hb. unfold inv_bounds in Hb.
  pose proof (pc_step_set_pc s (set_sq_tail s (u32 (ct + n))) t _ SUnlock Hc ltac:(done) eq_refl)
    as Hst.
  frames Hst. eapply fr_lock; [exact Hst|done|done|done| |done].
  intros _ _. cbn. rewrite u32_id by (unfold is_word; lia). lia.
Qed.

Lemma inv_unlock s t :
  sq_inv s -> pc_of s t = Some SUnlock ->
  sq_inv (set_pc (set_tail_lock s UNLOCKED) t SCheck).
Proof.
  intros Hinv Hc. destruct (holder_facts s t _ Hinv Hc eq_refl) as ((E1 & E2) & _ & Hu).
  pose proof Hinv as [].
  pose proof (pc_step_set_pc s (set_tail_lock s UNLOCKED) t _ SCheck Hc ltac:(done) eq_refl) as Hst.
  frames Hst. pose proof Hst as (_ & _ & Hpc & _). left. split; [done|]. split; [|done].
  intros t' c' H0. rewrite Hpc in H0. destruct (decide (t = t')) as [<-|Hne]; [now simplify_eq|].
  destruct (holds c') eqn:Hh; [|done]. exfalso. apply Hne. symmetry. eauto.
Qed.

(** Counting one more lap of a slot. *)
Lemma ticket_count_small s pos :
  sq_inv s -> Z.of_nat (length (procs s)) < 2 ^ 32 -> 0 <= pos < qs ->
  tickets s pos + 1 < 2 ^ 32 /\ 0 <= tickets s pos.
Proof.
  intros Hinv HT Hp. pose proof qs_range as Hq.
  destruct (i_tickets s Hinv pos Hp) as (d & r & Hd0 & Hr0 & -> & Hd & Hr).
  assert (Hd1 : d <= 2 ^ 30).
  { destruct (Z.eq_dec d 0); [lia|]. assert (H : d - 1 < d) by lia. apply Hd in H; [|lia].
    pose proof (call_in_range s _ _ H). nia. }
  assert (Hr1 : r <= 2 ^ 30).
  { destruct (Z.eq_dec r 0); [lia|]. assert (H : r - 1 < r) by lia. apply Hr in H; [|lia].
    pose proof (i_bounds s Hinv) as Hb. unfold inv_bounds in Hb. nia. }
  lia.
Qed.

Lemma mod_slot pos k : 0 <= pos < qs -> (pos + k * qs) mod qs = pos.
Proof. intros. rewrite Z_mod_plus_full. now apply Z.mod_small. Qed.

Lemma slot_eq pos k z : 0 <= pos < qs -> pos + k * qs = z <-> pos = z mod qs /\ k = z / qs.
Proof.
  intros Hp. pose proof (slot_decomp z). split; [|intros [-> ->]; lia].
  intros E. assert (Hp' : pos = z mod qs) by (rewrite <- E; now rewrite mod_slot).
  split; [done|]. nia.
Qed.

Lemma inv_finish s t :
  sq_inv s -> Z.of_nat (length (procs s)) < 2 ^ 32 -> pc_of s t = Some SFinish ->
  let pos := Z.of_nat t mod qs in
  sq_inv (set_pc (set_tickets s (fupd (tickets s) pos (u32 (tickets s pos + 1)))) t SDone).
Proof.
  intros Hinv HT Hc pos. pose proof (mod_qs_range (Z.of_nat t)) as Hpr.
  pose proof (ticket_count_small s pos Hinv HT Hpr) as Hsm. pose proof Hinv as [].
  pose proof (pc_step_set_pc s (set_tickets s (fupd (tickets s) pos (u32 (tickets s pos + 1))))
                t _ SDone Hc ltac:(done) eq_refl) as Hst.
  frames Hst; pose proof Hst as (_ & _ & Hpc & _).
  - intros pos' Hp'. destruct (i_tickets0 pos' Hp') as (d & r & Hd0 & Hr0 & Et & Hd & Hr).
    destruct (decide (pos' = pos)) as [->|Hne].
    + set (k := Z.of_nat t / qs). assert (Hk0 : 0 <= k) by (apply Z.div_pos; lia).
      assert (Ek : pos + k * qs = Z.of_nat t) by (symmetry; apply slot_decomp).
      assert (Hdk : d = k).
      { assert (~ k < d) by (rewrite <- (Hd k Hk0), Ek, Nat2Z.id, Hc; done).
        destruct (Z.eq_dec k 0); [lia|].
        destruct (i_reuse0 t _ Hc eq_refl) as [_ Hdn]; [nia|].
        assert (k - 1 < d); [|lia]. apply Hd; [lia|]. rewrite <- Hdn. f_equal. lia. }
      exists (d + 1), r. do 2 (split; [lia|]).
      split; [cbn; rewrite fupd_eq, u32_id; unfold is_word; lia|]. split; [|done]. intros j Hj. rewrite Hpc.
      destruct (decide (t = Z.to_nat (pos + j * qs))) as [E|E].
      * assert (E' : pos + j * qs = Z.of_nat t) by nia. apply slot_eq in E' as [_ ->]; [|done].
        split; [lia|done].
      * rewrite (Hd j Hj). split; [lia|]. intros Hlt.
        assert (j <> d) by (intros ->; apply E; rewrite Hdk, Ek; lia). lia.
    + exists d, r. cbn [tickets set_pc set_tickets g_retired]. rewrite fupd_ne by done. do 3 (split; [done|]). split; [|done].
      intros j Hj. rewrite Hpc. case_decide as E; [|auto]. exfalso. apply Hne.
      unfold pos. rewrite E, Z2Nat.id by nia. symmetry. now apply mod_slot.
  - eapply fr_cleared; [exact Hst|done|done| |done]. intros _.
    destruct i_cleared0 as [_ H]. now apply (H t SFinish).
Qed.

(** ** Calls, controller and head mover *)

Lemma pc_of_call s cmd t :
  pc_of (sq_enqueue_call s cmd) t =
    if decide (t = length (procs s)) then Some SWait1 else pc_of s t.
Proof.
  unfold pc_of; cbn. case_decide as E.
  - subst. now rewrite lookup_app_r, Nat.sub_diag by lia.
  - destruct (decide (t < length (procs s))%nat).
    + now rewrite lookup_app_l by lia.
    + rewrite lookup_app_r by lia. destruct (t - length (procs s))%nat eqn:Ht; [lia|].
      cbn. now rewrite (lookup_ge_None_2 (procs s)) by lia.
Qed.

Lemma inv_call s cmd :
  sq_inv s -> Z.of_nat (length (procs s)) + 1 < 2 ^ 32 -> length cmd = 16%nat ->
  sq_inv (sq_enqueue_call s cmd).
Proof.
  intros Hinv HT Hcmd. pose proof Hinv as []. pose proof (pc_of_call s cmd) as Hpc.
  assert (Hold : forall t c, pc_of s t = Some c -> t <> length (procs s)).
  { intros t c H ->. apply call_in_range in H. lia. }
  assert (Hnew : forall t p, procs (sq_enqueue_call s cmd) !! t = Some p ->
            procs s !! t = Some p \/ t = length (procs s) /\ p = MkProc (in_ticket s) cmd SWait1).
  { intros t p H. cbn in H. apply lookup_snoc_Some in H as [[_ H]|[-> <-]]; auto. }
  destruct i_ids0 as [Hid Hpr]. split.
  - split; [cbn; rewrite length_app, u32_id; cbn; unfold is_word; lia|].
    intros t p H. destruct (Hnew t p H) as [H'|[-> ->]]; auto.
  - unfold inv_bounds in *. cbn. rewrite length_app. cbn. lia.
  - intros t c H1 H2 H3. rewrite Hpc in H1. case_decide; [by simplify_eq|].
    destruct (i_reuse0 t c H1 H2 H3) as [? Hd]. split; [done|].
    rewrite Hpc, decide_False by eauto. done.
  - intros pos Hp. destruct (i_tickets0 pos Hp) as (d & r & ? & ? & ? & Hd & ?).
    exists d, r. do 3 (split; [done|]). split; [|done]. intros k Hk.
    rewrite Hpc, <- (Hd k Hk). case_decide as E; [|done]. split; [done|].
    intros H'. apply Hold in H'. done.
  - destruct i_cleared0 as [H1 H2]. unfold inv_bounds in *.
    split; intros t c H; rewrite Hpc in H; cbn; case_decide as E; eauto; simplify_eq; lia || done.
  - intros pos Hp. destruct (i_mark0 pos Hp) as [H01 Hiff]. split; [done|].
    change (tail_mark (sq_enqueue_call s cmd) pos) with (tail_mark s pos). rewrite Hiff.
    split; intros (t & c & ? & ? & H & ?); exists t, c; rewrite Hpc in *.
    + rewrite decide_False by eauto. auto.
    + case_decide; [by simplify_eq|]. auto.
  - destruct i_slots0 as (H1 & H2 & H3). split; [|split; [|done]].
    + intros t p H Hr Hc. destruct (Hnew t p H) as [H'|[-> ->]]; [now apply H1|done].
    + intros t p i H Hi. destruct (Hnew t p H) as [H'|[-> ->]]; [now apply (H2 t p i)|done].
  - destruct i_lock0 as [(Hf & Hn & ?)|(Hl & t0 & c0 & H0 & H1 & H2 & Hu)].
    + left. split; [done|]. split; [|done]. intros t c Hc. rewrite Hpc in Hc.
      case_decide; [by simplify_eq|eauto].
    + right. split; [done|]. exists t0, c0. rewrite Hpc, decide_False by eauto.
      repeat split; auto. intros t c H Hh. rewrite Hpc in H. case_decide; [by simplify_eq|eauto].
  - unfold inv_fetched in *. unfold inv_bounds in *. cbn. rewrite fmap_app, take_app_le; [done|].
    rewrite length_fmap. lia.
  - exact i_mover0.
Qed.

(** The command the controller is about to fetch is in its slot. *)
Lemma fetch_next s :
  sq_inv s -> Z.of_nat (length (fetched s)) < dev_tail s ->
  (p_cmd <$> procs s) !! length (fetched s) =
    Some (slots s (Z.of_nat (length (fetched s)) mod qs)).
Proof.
  intros Hinv Hlt. pose proof (i_bounds s Hinv) as Hb. unfold inv_bounds in Hb.
  destruct (lookup_lt_is_Some_2 (procs s) (length (fetched s))) as [p Hp]; [lia|].
  destruct (proc_facts s _ p Hinv Hp) as (Hc & _). rewrite list_lookup_fmap, Hp. cbn. f_equal.
  symmetry. destruct (i_slots s Hinv) as (H & _). apply H; [done|lia|].
  destruct (i_cleared s Hinv) as [Hm _]. specialize (Hm _ _ Hc ltac:(lia)).
  destruct (p_pc p); done.
Qed.

Lemma inv_fetch s :
  sq_inv s -> Z.of_nat (length (fetched s)) < dev_tail s ->
  sq_inv (set_fetched s (fetched s ++ [slots s (Z.of_nat (length (fetched s)) mod qs)])).
Proof.
  intros Hinv Hlt. pose proof (fetch_next s Hinv Hlt) as Hf. pose proof Hinv as [].
  split; auto.
  - unfold inv_bounds in *. cbn. rewrite length_app. cbn. lia.
  - unfold inv_fetched in *. cbn. rewrite length_app. cbn. rewrite Nat.add_1_r.
    erewrite take_S_r by exact Hf. now rewrite <- i_fetched0.
  - unfold mover_ok in *. cbn. destruct (mover s) as [m|]; [|done].
    destruct i_mover0 as (? & ? & ? & x & ? & ?). do 3 (split; [done|]).
    exists x. rewrite length_app. split; [lia|done].
Qed.

Lemma inv_report s x s' :
  sq_inv s -> Z.of_nat (length (procs s)) < 2 ^ 32 ->
  g_retired s <= x <= Z.of_nat (length (fetched s)) ->
  move_head_start s (x mod qs) = Some s' -> sq_inv s'.
Proof.
  intros Hinv HT Hx Hs. unfold move_head_start in Hs. pose proof Hinv as [].
  unfold mover_ok in i_mover0. destruct (mover s) as [m|] eqn:Em; [done|].
  destruct (negb _); [|congruence]. injection Hs as <-.
  split; auto. unfold mover_ok. cbn. rewrite land_qs. repeat split; [lia|lia|now rewrite i_mover0|].
  exists x. split; [lia|done].
Qed.

Lemma inv_move s s' :
  sq_inv s -> Z.of_nat (length (procs s)) < 2 ^ 32 -> move_head_step s = Some s' -> sq_inv s'.
Proof.
  intros Hinv HT Hs. unfold move_head_step in Hs. pose proof Hinv as []. pose proof qs_range as Hq.
  destruct (mover s) as [m|] eqn:Em; [|done]. pose proof i_mover0 as Hmv.
  unfold mover_ok in Hmv. rewrite Em in Hmv. destruct Hmv as (Er & Hc0 & El & x & Hx & En).
  pose proof i_bounds0 as Hb. unfold inv_bounds in Hb.
  destruct (m_loc m =? m_new_head m) eqn:Eloc; cbn [negb] in Hs; b2p; injection Hs as <-.
  - assert (x = g_retired s) by (apply (mod_inj_near qs); [lia|congruence|lia]).
    assert (Hh : u32 (sq_head s + m_count m) = g_retired s) by (rewrite u32_id; unfold is_word; lia).
    split; auto.
    + unfold inv_bounds. cbn. rewrite Hh. lia.
    + destruct i_lock0 as [Hf|(Hl & t0 & c0 & H0 & H1 & H2 & Hu)]; [now left|right].
      split; [done|]. exists t0, c0. repeat split; auto.
      destruct c0; cbn in H2 |- *; rewrite ?Hh; lia || done.
    + unfold mover_ok. cbn. lia.
  - assert (Hlt : g_retired s < x).
    { destruct (Z.eq_dec (g_retired s) x); [|lia]. exfalso. apply Eloc. congruence. }
    pose proof (mod_qs_range (g_retired s)) as Hmr.
    pose proof (ticket_count_small s (m_loc m) Hinv HT ltac:(rewrite El; done)) as Hsm.
    split; auto.
    + unfold inv_bounds. cbn. lia.
    + intros t c H1 H2 H3. destruct (i_reuse0 t c H1 H2 H3). split; [cbn; lia|done].
    + intros pos Hp. destruct (i_tickets0 pos Hp) as (d & r & Hd0 & Hr0 & Et & Hd & Hr).
      destruct (decide (pos = m_loc m)) as [->|Hne].
      * set (k := g_retired s / qs). assert (Hk0 : 0 <= k) by (apply Z.div_pos; lia).
        assert (Ek : m_loc m + k * qs = g_retired s) by (rewrite El; symmetry; apply slot_decomp).
        assert (Hrk : r = k).
        { assert (~ k < r) by (rewrite <- (Hr k Hk0), Ek; lia).
          destruct (Z.eq_dec k 0); [lia|]. assert (k - 1 < r); [|lia]. apply Hr; nia. }
        exists d, (r + 1). do 2 (split; [lia|]).
        split; [cbn; rewrite fupd_eq, u32_id; unfold is_word; lia|]. split; [done|].
        intros j Hj. cbn. specialize (Hr j Hj). nia.
      * exists d, r. cbn [tickets set_mover set_tickets]. rewrite fupd_ne by done.
        do 3 (split; [done|]). split; [done|]. intros j Hj. cbn. rewrite <- (Hr j Hj).
        split; [|lia]. intros H. assert (pos + j * qs <> g_retired s); [|lia].
        intros E. apply Hne. rewrite El, <- E. symmetry. now apply mod_slot.
    + destruct i_slots0 as (H1 & H2 & H3). split; [|split; done].
      intros t p H Hge. apply H1; [done|]. cbn in Hge. lia.
    + unfold mover_ok. cbn. rewrite land_qs. rewrite !u32_id by (unfold is_word; lia).
      repeat split; [lia|lia| |exists x; split; [lia|done]].
      rewrite El, Zplus_mod_idemp_l. done.
Qed.

Lemma inv_move_tail s t c s' :
  sq_inv s -> Z.of_nat (length (procs s)) < 2 ^ 32 -> pc_of s t = Some c ->
  move_tail_step s t c = Some s' -> sq_inv s'.
Proof.
  intros Hinv HT Hc Hs. pose proof qs_range as Hq.
  pose proof (i_bounds s Hinv) as Hb. unfold inv_bounds in Hb.
  destruct c as [| | | | | | | |ct n|ct n|ct n| | | | |]; try done; cbn in Hs; injection Hs as <-;
    destruct (holder_facts s t _ Hinv Hc eq_refl) as (Hok & _ & _); cbn in Hok.
  - rewrite land_qs_u32, land_qs, (u32_id (ct + n)) by (unfold is_word; lia).
    destruct (_ =? _) eqn:E; cbn [negb]; b2p.
    + eapply inv_set_pc; try done; eauto. intros _. now apply (i_reuse s Hinv t _ Hc).
    + eapply inv_set_pc; try done; eauto. { intros _. now apply (i_reuse s Hinv t _ Hc). }
      intros _ _. cbn. repeat split; try lia.
      assert (g_cleared s + 1 <> sq_head s + qs); [|lia]. intros E'. apply E.
      replace (ct + n + 1) with (sq_head s + 1 * qs) by lia. apply Z_mod_plus_full.
  - rewrite land_qs, u32_id by (unfold is_word; lia). replace (ct + n) with (g_cleared s) by lia.
    destruct (_ =? _) eqn:E; b2p; [now apply inv_clear_mark|].
    eapply (inv_set_pc (set_mark s _) t (SMoveMark ct n)); try done.
    + apply inv_set_mark_same; [|done]. intros pos Hp. unfold fupd. case_test; [|done]. subst.
      destruct (i_mark s Hinv _ Hp) as [[H|H] _]; [done|now rewrite H].
    + intros _. now apply (i_reuse s Hinv t _ Hc).
    + cbn. intros. lia.
  - assert (Hinv' : sq_inv (set_head_lock s (u32 (head_lock s + 1)))) by (destruct Hinv; split; auto).
    assert (Hfree : free_before s t) by now apply (i_reuse s Hinv t _ Hc).
    destruct (n =? 0) eqn:E; cbn [negb]; b2p;
      eapply (inv_set_pc (set_head_lock s _) t (SMoveEnd ct n)); try done; cbn; intros; lia.
Qed.

Lemma inv_access s t s' :
  sq_inv s -> Z.of_nat (length (procs s)) < 2 ^ 32 ->
  sq_enqueue_step s t = Some s' -> sq_inv s'.
Proof.
  intros Hinv HT Hs. unfold sq_enqueue_step in Hs.
  destruct (procs s !! t) as [p|] eqn:Hp; [|done].
  destruct (proc_facts s t p Hinv Hp) as (Hc & Epos & Et & Hlen).
  rewrite Epos, Et in Hs. assert (Hfree : started (p_pc p) = true -> free_before s t)
    by (apply (i_reuse s Hinv t _ Hc)).
  destruct (p_pc p) as [| |i| | | | | |ct n|ct n|ct n|ct n|ct n| | |] eqn:Epc;
    try (injection Hs as <-); try done.
  - destruct (negb _); eapply inv_set_pc; try done; eauto.
  - destruct (_ =? _) eqn:E; cbn [negb]; b2p; eapply inv_set_pc; try done; eauto.
    + intros _. now apply (wait_free s Hinv HT t SWait2).
    + now intros i [= <-].
  - now apply inv_copy.
  - now apply inv_set_mark.
  - destruct (_ =? _) eqn:E; b2p; eapply inv_set_pc; try done; eauto.
    intros _. now apply mark_clear_past.
  - destruct (_ =? _); eapply inv_set_pc; try done; eauto.
  - destruct (_ =? _) eqn:E; b2p; [|now apply inv_take_lock].
    assert (Hl : Z.lor (tail_lock s) LOCKED = tail_lock s) by (rewrite E; done). rewrite Hl.
    eapply (inv_set_pc (set_tail_lock s (tail_lock s)) t STryLock); try done; eauto.
    destruct Hinv; split; auto.
  - destruct (holder_facts s t _ Hinv Hc eq_refl) as ((E1 & E2) & _ & _).
    eapply inv_set_pc; try done; eauto. intros _ _. cbn. lia.
  - eapply inv_move_tail; eauto.
  - eapply inv_move_tail; eauto.
  - eapply inv_move_tail; eauto.
  - now apply inv_doorbell.
  - now apply inv_store_tail.
  - now apply inv_unlock.
  - now apply inv_finish.
Qed.

Lemma step_procs_mono s s' : sq_step s s' -> (length (procs s) <= length (procs s'))%nat.
Proof.
  assert (Hset : forall s0 t c, length (procs (set_pc s0 t c)) = length (procs s0))
    by (intros; cbn; now rewrite length_alter).
  intros [s0 cmd _|s0 t s1 H|s0 _|s0 x s1 _ H|s0 s1 H].
  - cbn. rewrite length_app. lia.
  - unfold sq_enqueue_step, move_tail_step in H. destruct (procs s0 !! t) as [p|]; [|done].
    destruct (p_pc p); try done; try (injection H as <-; rewrite ?Hset; cbn; try lia).
    + destruct (_ =? LOCKED); rewrite Hset; cbn; lia.
  - done.
  - unfold move_head_start in H. destruct (mover s0); [done|].
    destruct (negb _); injection H as <-; done.
  - unfold move_head_step in H. destruct (mover s0); [|done].
    destruct (negb _); injection H as <-; done.
Qed.

Lemma reachable_inv s0 s :
  sq_init s0 -> rtc sq_step s0 s -> Z.of_nat (length (procs s)) < 2 ^ 32 -> sq_inv s.
Proof.
  intros Hi Hr.
  apply (rtc_ind_r (R := sq_step) (fun s => Z.of_nat (length (procs s)) < 2 ^ 32 -> sq_inv s) s0);
    [| |done].
  { intros _. now apply sq_init_inv. }
  intros s1 s2 _ Hst IH HT.
  pose proof (step_procs_mono _ _ Hst) as Hm. specialize (IH ltac:(lia)).
  destruct Hst; eauto using inv_access, inv_fetch, inv_report, inv_move with lia.
  apply inv_call; auto. cbn in HT. rewrite length_app in HT. cbn in HT. lia.
Qed.

Lemma exec_rtc acts s s' : exec acts s = Some s' -> rtc sq_step s s'.
Proof.
  revert s. induction acts as [|a acts IH]; intros s H; cbn in H.
  { injection H as ->. reflexivity. }
  destruct (exec_act a s) as [s1|] eqn:E; [|done]. apply rtc_l with s1; [|now apply IH].
  destruct a as [cmd|t| |x|]; cbn in E.
  - case_decide; [|done]. injection E as <-. now constructor.
  - eapply sq_access; eauto.
  - case_decide; [|done]. injection E as <-. now constructor.
  - case_decide; [|done]. eapply sq_report; eauto.
  - eapply sq_move; eauto.
Qed.
End steps.

(** C3: any number of threads calling [sq_enqueue] concurrently, fewer than 2^32
    calls in all: the controller fetches exactly the enqueued commands, each
    complete, once, and in ticket order. *)
Theorem sq_fetches_in_order lg s0 s :
  2 <= lg <= 16 -> sq_init s0 -> rtc (sq_step lg) s0 s ->
  Z.of_nat (length (procs s)) < 2 ^ 32 ->
  fetched s `prefix_of` (p_cmd <$> procs s).
Proof.
  intros Hlg Hi Hr HT. destruct (reachable_inv lg Hlg s0 s Hi Hr HT).
  rewrite i_fetched0. apply prefix_take.
Qed.

(** C18: while fewer than 2^32 calls have been made, the tail lock is held by at most one
    call, and in every state the doorbell announces at most [qs - 1] commands beyond the
    head, so the queue never overruns a command the controller has not fetched. *)
Theorem sq_lock_and_room lg s0 s :
  2 <= lg <= 16 -> sq_init s0 -> rtc (sq_step lg) s0 s ->
  Z.of_nat (length (procs s)) < 2 ^ 32 ->
  (forall t1 t2 c1 c2, pc_of s t1 = Some c1 -> pc_of s t2 = Some c2 -> holds c1 = true -> holds c2 = true -> t1 = t2) /\
  dev_tail s - sq_head s <= qs lg - 1 /\
  sq_head s <= Z.of_nat (length (fetched s)) <= dev_tail s.
Proof.
  intros Hlg Hi Hr HT. pose proof (reachable_inv lg Hlg s0 s Hi Hr HT) as Hinv.
  pose proof (i_bounds lg s Hinv) as Hb. unfold inv_bounds in Hb. split; [|lia].
  intros t1 t2 c1 c2 H1 H2 Hh1 Hh2. destruct (holder_facts lg s t2 c2 Hinv H2 Hh2) as (_ & _ & Hu). eauto.
Qed.

(** ** After 2^32 calls *)

Definition idle (s : sq_state) : Prop := forall t c, pc_of s t = Some c -> c = SDone.

(** The first [n] calls are complete: their commands were fetched and their slots retired. *)
Record served (lg n : Z) (s : sq_state) : Prop := {
  sv_ticket : in_ticket s = u32 n;
  sv_tickets pos : 0 <= pos < qs lg -> tickets s pos = 2 * ((n + (qs lg - 1 - pos)) / qs lg);
  sv_marks pos : 0 <= pos < qs lg -> tail_mark s pos = UNLOCKED;
  sv_ends : sq_head s = u32 n /\ sq_tail s = u32 n /\ tail_lock s = UNLOCKED /\ mover s = None;
  sv_counts : dev_tail s = n /\ Z.of_nat (length (fetched s)) = n /\ g_retired s = n /\ Z.of_nat (length (procs s)) = n;
  sv_idle : idle s
}.

(** What a wrapped queue keeps: nobody gets past the first wait. *)
Definition wrapped (lg : Z) (n : nat) (s : sq_state) : Prop :=
  is_word 32 (in_ticket s) /\
  (forall pos, 0 <= pos < qs lg -> tickets s pos = 2 * (2 ^ 32 / qs lg)) /\
  (n <= length (procs s))%nat /\
  (dev_tail s = 2 ^ 32 /\ Z.of_nat (length (fetched s)) = 2 ^ 32 /\ g_retired s = 2 ^ 32 /\ sq_head s = 0 /\ mover s = None) /\
  forall t p, procs s !! t = Some p ->
    ((t < n)%nat /\ p_pc p = SDone) \/ ((n <= t)%nat /\ p_pc p = SWait1 /\ is_word 32 (p_ticket p)).

Lemma wrapped_id lg x :
  2 <= lg <= 16 -> is_word 32 x -> get_id x lg < 2 * (2 ^ 32 / qs lg).
Proof.
  intros Hlg Hx. unfold get_id, qs, is_word in *. rewrite Z.shiftr_div_pow2 by lia.
  assert (Hd : 2 ^ 32 = 2 ^ (32 - lg) * 2 ^ lg) by (rewrite <- Z.pow_add_r by lia; f_equal; lia).
  assert (Hlt : x / 2 ^ lg < 2 ^ (32 - lg)) by (apply Z.div_lt_upper_bound; lia).
  assert (2 ^ (32 - lg) <= 2 ^ 30) by (apply Z.pow_le_mono_r; lia).
  assert (0 <= x / 2 ^ lg) by (apply Z.div_pos; lia).
  rewrite Hd, Z.div_mul, u64_id by (unfold is_word; lia). lia.
Qed.

Lemma wrapped_step lg n s s' :
  2 <= lg <= 16 -> wrapped lg n s -> sq_step lg s s' -> wrapped lg n s'.
Proof.
  intros Hlg Hw Hst. destruct Hst as [s1 cmd _|s1 t s2 Hs|s1 Hf|s1 x s2 Hx Hs|s1 s2 Hs]; destruct Hw as (Hin & Htk & Hn & Hc & Hp).
  - split; [apply u32_range|]. split; [done|]. split; [cbn; rewrite length_app; lia|]. split; [done|].
    intros t p H. apply lookup_snoc_Some in H as [[_ H]|[-> <-]]; [eauto|]. right. auto.
  - unfold sq_enqueue_step in Hs. destruct (procs s1 !! t) as [p|] eqn:E; [|done].
    destruct (Hp t p E) as [[_ Ep]|(Hge & Ep & Hw)]; rewrite Ep in Hs; [done|].
    injection Hs as <-. rewrite Htk, (proj2 (Z.eqb_neq _ _)).
    2: { pose proof (wrapped_id lg (p_ticket p) Hlg Hw). lia. }
    2: { rewrite land_qs by lia. apply mod_qs_range. lia. }
    cbn [negb]. split; [done|]. split; [done|]. split; [cbn; rewrite length_alter; lia|]. split; [done|].
    intros t' p' H. cbn in H. destruct (decide (t = t')) as [<-|Hne].
    + rewrite list_lookup_alter_eq, E in H. cbn in H. injection H as <-. right. auto.
    + rewrite list_lookup_alter_ne in H by done. eauto.
  - lia.
  - destruct Hc as (H1 & H2 & H3 & H4 & H5). unfold move_head_start in Hs. rewrite H5, H4 in Hs.
    replace x with (2 ^ 32) in Hs by lia. rewrite Z.land_0_l in Hs.
    replace (2 ^ 32 mod qs lg) with 0 in Hs; [by injection Hs as <-|].
    symmetry. apply Z.mod_divide; [unfold qs; lia|]. exists (2 ^ (32 - lg)). unfold qs. rewrite <- Z.pow_add_r by lia. f_equal. lia.
  - unfold move_head_step in Hs. destruct Hc as (_ & _ & _ & _ & H5). by rewrite H5 in Hs.
Qed.

(** A call that runs alone on a queue with everything served, followed by the controller. *)
Section alone.
Context (lg : Z) (Hlg : 2 <= lg <= 16) (n : Z) (Hn : 0 <= n < 2 ^ 32).

Lemma slot_next (k : Z) : 0 < k < qs lg -> (n + k) mod qs lg <> n mod qs lg.
Proof.
  intros Hk E. pose proof (qs_range lg Hlg). assert (n + k = n); [|lia]. apply (mod_inj_near (qs lg)); lia.
Qed.

Lemma ticket_of : get_id n lg = 2 * (n / qs lg).
Proof.
  unfold get_id. rewrite Z.shiftr_div_pow2 by lia. fold (qs lg). pose proof (qs_range lg Hlg).
  assert (0 <= n / qs lg <= n) by (split; [apply Z.div_pos; lia|apply Z.div_le_upper_bound; nia]).
  rewrite u64_id by (unfold is_word; lia). lia.
Qed.

Lemma ticket_small : 0 <= 2 * (n / qs lg) < 2 ^ 32 - 2.
Proof.
  pose proof (qs_range lg Hlg). assert (0 <= n / qs lg) by (apply Z.div_pos; lia).
  assert (n / qs lg < 2 ^ 30) by (apply Z.div_lt_upper_bound; lia). lia.
Qed.

(** The counter of a slot after [n] and after [n + 1] calls. *)
Lemma slot_count : (n + (qs lg - 1 - n mod qs lg)) / qs lg = n / qs lg.
Proof.
  pose proof (qs_range lg Hlg). pose proof (mod_qs_range lg Hlg n). pose proof (slot_decomp lg Hlg n).
  symmetry. apply (Z.div_unique_pos _ _ _ (qs lg - 1)); lia.
Qed.

Lemma slot_count_next pos :
  0 <= pos < qs lg -> (n + 1 + (qs lg - 1 - pos)) / qs lg = (n + (qs lg - 1 - pos)) / qs lg + (if decide (pos = n mod qs lg) then 1 else 0).
Proof.
  intros Hp. pose proof (qs_range lg Hlg). pose proof (mod_qs_range lg Hlg n). pose proof (slot_decomp lg Hlg n) as D.
  case_decide as E.
  - subst pos. rewrite slot_count. symmetry. apply (Z.div_unique_pos _ _ _ 0); lia.
  - rewrite Z.add_0_r. destruct (Z.lt_ge_cases pos (n mod qs lg)).
    + transitivity (n / qs lg + 1); [symmetry; apply (Z.div_unique_pos _ _ _ (n mod qs lg - pos)); lia|].
      apply (Z.div_unique_pos _ _ _ (n mod qs lg - pos - 1)); lia.
    + transitivity (n / qs lg); [symmetry; apply (Z.div_unique_pos _ _ _ (n mod qs lg + qs lg - pos)); lia|].
      apply (Z.div_unique_pos _ _ _ (n mod qs lg + qs lg - pos - 1)); lia.
Qed.

(** Some run ends in a state with [P]. *)
Context (P : sq_state -> Prop).
Definition leads (s : sq_state) : Prop := exists s', rtc (sq_step lg) s s' /\ P s'.

Lemma leads_l s s1 : sq_step lg s s1 -> leads s1 -> leads s.
Proof. intros H (s' & Hr & HP). exists s'. split; [by eapply rtc_l|done]. Qed.

Lemma alter_last {A} (f : A -> A) l x : alter f (length l) (l ++ [x]) = l ++ [f x].
Proof. rewrite (alter_app_r_alt f l) by lia. by rewrite Nat.sub_diag. Qed.

Lemma lookup_last_proc (l : list sq_proc) x : (l ++ [x]) !! length l = Some x.
Proof. by rewrite lookup_app_r, Nat.sub_diag by lia. Qed.

Ltac access := eapply leads_l; [eapply (sq_access _ _ (length _)); unfold sq_enqueue_step, move_tail_step, ring_doorbell;
  cbn [procs tickets tail_mark slots sq_head sq_tail tail_lock head_lock mover dev_tail fetched g_cleared g_retired in_ticket
       set_pc set_tickets set_mark set_slots set_tail_lock set_head_lock set_sq_tail set_dev_tail set_cleared];
  rewrite lookup_last_proc; cbn [p_pc p_ticket p_cmd]; reflexivity|];
  unfold set_pc, set_tickets, set_mark, set_slots, set_tail_lock, set_head_lock, set_sq_tail, set_dev_tail, set_cleared;
  cbn [procs tickets tail_mark slots sq_head sq_tail tail_lock head_lock mover dev_tail fetched g_cleared g_retired in_ticket];
  rewrite ?alter_last; cbn [p_ticket p_cmd].

Lemma alone_submits T M S hl ps F gc gr cmd :
  T (n mod qs lg) = 2 * (n / qs lg) -> (forall pos, 0 <= pos < qs lg -> M pos = UNLOCKED) ->
  (forall M' S' hl' gc', (forall pos, 0 <= pos < qs lg -> M' pos = UNLOCKED) ->
    leads (MkSq (u32 (n + 1)) (fupd T (n mod qs lg) (2 * (n / qs lg) + 1)) M' S' n (u32 (n + 1)) UNLOCKED hl'
        (ps ++ [MkProc n cmd SDone]) None (n + 1) F gc' gr)) ->
  leads (MkSq (u32 (n + 1)) T M S n n UNLOCKED hl (ps ++ [MkProc n cmd SWait1]) None n F gc gr).
Proof.
  intros HT HM H. pose proof (qs_range lg Hlg) as Hq. pose proof (mod_qs_range lg Hlg n) as Hm.
  access. rewrite land_qs, ticket_of, HT, Z.eqb_refl by done. cbn [negb].
  access. rewrite land_qs, ticket_of, HT, Z.eqb_refl by done. cbn [negb].
  access. cbn [Nat.add Nat.ltb Nat.leb]. access. cbn [Nat.add Nat.ltb Nat.leb].
  match goal with |- context [MkSq _ _ _ ?f] => generalize f; intros S' end.
  access. rewrite land_qs by done.
  access. rewrite land_qs, fupd_eq, Z.eqb_refl by done.
  access. cbn [Z.eqb UNLOCKED LOCKED].
  access. cbn [Z.eqb UNLOCKED LOCKED Z.lor].
  access.
  access. rewrite Z.add_0_r, (u32_id n), land_qs_u32, land_qs by (done || unfold is_word; lia).
  rewrite (proj2 (Z.eqb_neq _ _) (slot_next 1 ltac:(lia))). cbn [negb].
  access. rewrite Z.add_0_r, (u32_id n), land_qs, fupd_eq by (done || unfold is_word; lia). cbn [Z.eqb LOCKED Pos.eqb].
  access. change (u32 (0 + 1)) with 1.
  set (M1 := fupd (fupd M _ _) _ UNLOCKED).
  assert (HM1 : forall pos, 0 <= pos < qs lg -> M1 pos = UNLOCKED).
  { intros pos Hp. unfold M1. destruct (decide (pos = n mod qs lg)) as [->|]; [apply fupd_eq|rewrite !fupd_ne by done; by apply HM]. }
  assert (E2 : Z.land (u32 (u32 (n + 1) + 1)) (qs_minus_1 lg) = (n + 2) mod qs lg).
  { change (u32 (u32 (n + 1) + 1)) with (wrap 32 (wrap 32 (n + 1) + 1)). rewrite wrap_add_l. fold (u32 (n + 1 + 1)).
    rewrite land_qs_u32 by done. f_equal. lia. }
  rewrite E2, land_qs, (proj2 (Z.eqb_neq _ _) (slot_next 2 ltac:(lia))) by done. cbn [negb].
  access. rewrite land_qs_u32, HM1 by (done || by apply mod_qs_range). cbn [Z.eqb UNLOCKED LOCKED].
  access. cbn [Z.eqb negb].
  set (M2 := fupd M1 _ UNLOCKED).
  assert (HM2 : forall pos, 0 <= pos < qs lg -> M2 pos = UNLOCKED).
  { intros pos Hp. unfold M2. destruct (decide (pos = (n + 1) mod qs lg)) as [->|]; [apply fupd_eq|rewrite fupd_ne by done; by apply HM1]. }
  access. rewrite land_qs_u32 by done.
  replace (n + ((n + 1) mod qs lg - n) mod qs lg) with (n + 1).
  2:{ rewrite Zminus_mod_idemp_l. replace (n + 1 - n) with 1 by lia. rewrite Z.mod_small by lia. lia. }
  access. access. access. rewrite land_qs, HM2 by done. cbn [Z.eqb UNLOCKED LOCKED].
  access. pose proof ticket_small. rewrite land_qs by done. rewrite HT. rewrite (u32_id (2 * (n / qs lg) + 1)) by (unfold is_word; lia). by apply H.
Qed.

(** The controller fetches the command, reports it, and the head moves over its slot. *)
Lemma alone_retires T M S hl ps F gc cmd :
  Z.of_nat (length F) = n -> T (n mod qs lg) = 2 * (n / qs lg) + 1 ->
  (forall x, leads (MkSq (u32 (n + 1)) (fupd T (n mod qs lg) (2 * (n / qs lg) + 2)) M S (u32 (n + 1)) (u32 (n + 1)) UNLOCKED hl
      (ps ++ [MkProc n cmd SDone]) None (n + 1) (F ++ [x]) gc (n + 1))) ->
  leads (MkSq (u32 (n + 1)) T M S n (u32 (n + 1)) UNLOCKED hl (ps ++ [MkProc n cmd SDone]) None (n + 1) F gc n).
Proof.
  intros HF HT H. pose proof (qs_range lg Hlg) as Hq. pose proof (mod_qs_range lg Hlg n) as Hm.
  eapply leads_l; [apply sq_fetch; cbn; lia|]. cbn.
  eapply leads_l; [eapply (sq_report _ _ (n + 1)); [cbn; rewrite length_app; cbn; lia|]|].
  { unfold move_head_start. cbn. rewrite land_qs by done. pose proof (slot_next 1 ltac:(lia)).
    rewrite (proj2 (Z.eqb_neq (n mod qs lg) ((n + 1) mod qs lg))) by auto. reflexivity. }
  eapply leads_l; [apply sq_move|].
  { unfold move_head_step. cbn. pose proof (slot_next 1 ltac:(lia)).
    rewrite (proj2 (Z.eqb_neq (n mod qs lg) ((n + 1) mod qs lg))) by auto. reflexivity. }
  unfold set_mover, set_tickets. cbn. eapply leads_l; [apply sq_move|].
  { unfold move_head_step. cbn. rewrite land_qs_u32 by done.
    rewrite Zplus_mod_idemp_l, Z.eqb_refl. reflexivity. }
  unfold set_mover. cbn. change (u32 (0 + 1)) with 1. rewrite HT, (u32_id (2 * (n / qs lg) + 1 + 1)) by (pose proof ticket_small; unfold is_word; lia).
  replace (2 * (n / qs lg) + 1 + 1) with (2 * (n / qs lg) + 2) by lia. apply H.
Qed.

End alone.

Lemma alone_serves lg n s (cmd : list Z) :
  2 <= lg <= 16 -> 0 <= n < 2 ^ 32 -> length cmd = 16%nat -> served lg n s ->
  exists s', rtc (sq_step lg) s s' /\ served lg (n + 1) s'.
Proof.
  intros Hlg Hn Hcmd [H1 H2 H3 (H4 & H5 & H6 & H7) (H8 & H9 & H10 & H11) H12].
  rewrite u32_id in H1, H4, H5 by (unfold is_word; lia). pose proof (mod_qs_range lg Hlg n) as Hm.
  apply (leads_l lg _ s (sq_enqueue_call s cmd)); [by constructor|].
  unfold sq_enqueue_call. rewrite H1, H4, H5, H6, H7, H8, H10.
  assert (HT : tickets s (n mod qs lg) = 2 * (n / qs lg)) by (by rewrite H2, slot_count).
  apply alone_submits; [done..|]. intros M S hl gc HM. apply alone_retires; [done..|by rewrite fupd_eq|]. intros x.
  eexists. split; [apply rtc_refl|]. split; cbn; rewrite ?length_app; cbn; try done.
  - intros pos Hp. rewrite slot_count_next by done. case_decide as E.
    + subst pos. rewrite fupd_eq, slot_count by done. lia.
    + rewrite !fupd_ne, H2 by done. lia.
  - lia.
  - intros t c Hc. apply pc_of_Some in Hc as (p & Hp & <-). cbn in Hp. apply lookup_snoc_Some in Hp as [[_ Hp]|[_ <-]]; [|done].
    apply (H12 t), pc_of_Some. eauto.
Qed.

Lemma served_all lg s0 n :
  2 <= lg <= 16 -> sq_init s0 -> 0 <= n <= 2 ^ 32 -> exists s, rtc (sq_step lg) s0 s /\ served lg n s.
Proof.
  intros Hlg Hi [H0 Hn]. revert Hn. pattern n. apply natlike_ind; [| |done]; clear n H0.
  - intros _. exists s0. split; [done|]. destruct Hi as (E1&E2&E3&E4&E5&E6&E7&E8&E9&E10&E11&E12&E13&_). pose proof (qs_range lg Hlg).
    split; rewrite ?E1, ?E4, ?E5, ?E6, ?E8, ?E9, ?E10, ?E11, ?E13; try done.
    + intros pos Hp. rewrite E2, Z.div_small by lia. done.
    + intros t c. unfold pc_of. by rewrite E8.
  - intros n Hn IH Hle. destruct IH as (s & Hr & Hs); [lia|].
    destruct (alone_serves lg n s (replicate 16 0) Hlg ltac:(lia) ltac:(done) Hs) as (s' & Hr' & Hs').
    exists s'. split; [by etransitivity|done].
Qed.

Lemma served_wrapped lg s : 2 <= lg <= 16 -> served lg (2 ^ 32) s -> wrapped lg (length (procs s)) s.
Proof.
  intros Hlg [H1 H2 H3 (H4 & H5 & H6 & H7) (H8 & H9 & H10 & H11) H12]. pose proof (qs_range lg Hlg).
  split; [by rewrite H1; apply u32_range|]. split; [|split; [done|]; split; [by rewrite H4|]].
  - intros pos Hp. rewrite H2 by done. f_equal. assert (Hd : 2 ^ 32 = 2 ^ (32 - lg) * qs lg) by (unfold qs; rewrite <- Z.pow_add_r by lia; f_equal; lia).
    rewrite Hd, Z.div_mul by lia. symmetry. apply (Z.div_unique_pos _ _ _ (qs lg - 1 - pos)); lia.
  - intros t p Hp. left. split; [by eapply lookup_lt_Some|]. apply (H12 t), pc_of_Some. eauto.
Qed.

(** C39: 2^32 calls can be made one after the other, each served to the end; after them the
    ticket counter has wrapped to zero while the slots' counters have not, and every later
    call waits forever at its first wait, whatever threads and controller do. *)
Theorem sq_ticket_wrap_stuck lg s0 :
  2 <= lg <= 16 -> sq_init s0 ->
  exists s, rtc (sq_step lg) s0 s /\ Z.of_nat (length (procs s)) = 2 ^ 32 /\ idle s /\ Z.of_nat (length (fetched s)) = 2 ^ 32 /\
    forall s' t c, rtc (sq_step lg) s s' -> (length (procs s) <= t)%nat -> pc_of s' t = Some c -> c = SWait1.
Proof.
  intros Hlg Hi. destruct (served_all lg s0 (2 ^ 32) Hlg Hi ltac:(lia)) as (s & Hr & Hs). exists s.
  destruct (sv_counts _ _ _ Hs) as (_ & Hf & _ & Hp). split; [done|]. split; [done|]. split; [apply (sv_idle _ _ _ Hs)|]. split; [done|].
  intros s' t c Hr' Hge Hc. apply served_wrapped in Hs as Hw; [|done].
  assert (Hw' : wrapped lg (length (procs s)) s').
  { clear -Hlg Hw Hr'. revert Hw. generalize (length (procs s)). intros k. induction Hr' as [|x y z Hxy _ IH]; [done|]. intros Hw. apply IH. by eapply wrapped_step. }
  destruct Hw' as (_ & _ & _ & _ & Hp'). apply pc_of_Some in Hc as (p & H & <-).
  destruct (Hp' t p H) as [[? _]|(_ & ? & _)]; [lia|done].
Qed.

(** ** Witnesses *)

Definition example_empty : sq_state :=
  MkSq 0 (fun _ => 0) (fun _ => 0) (fun _ => replicate 16 0) 0 0 0 0 [] None 0 [] 0 0.

(** Two calls on a queue of four; the first call moves the tail for both. *)
Definition example_schedule : list sq_act :=
  [ACall (replicate 16 7); ACall (replicate 16 8)] ++
  concat (replicate 5 [AStep 0; AStep 1]) ++ replicate 12 (AStep 0) ++ [AFetch; AFetch].

Definition example_run : sq_state := default example_empty (exec 2 example_schedule example_empty).

Lemma example_empty_init : sq_init example_empty.
Proof. repeat split; intros; reflexivity. Qed.

Lemma sq_fetches_in_order_witness :
  fetched example_run `prefix_of` (p_cmd <$> procs example_run) /\
  fetched example_run = [replicate 16 7; replicate 16 8].
Proof.
  split; [|vm_compute; reflexivity].
  apply (sq_fetches_in_order 2 example_empty example_run);
    [lia|apply example_empty_init| |vm_compute; reflexivity].
  apply (exec_rtc 2 example_schedule). vm_compute. reflexivity.
Defined.

Definition example_locked : sq_state :=
  default example_empty (exec 2 (take 18 example_schedule) example_empty).

Lemma sq_lock_and_room_witness :
  (forall t1 t2 c1 c2, pc_of example_locked t1 = Some c1 -> pc_of example_locked t2 = Some c2 -> holds c1 = true -> holds c2 = true -> t1 = t2) /\
  dev_tail example_locked - sq_head example_locked <= 3.
Proof.
  destruct (sq_lock_and_room 2 example_empty example_locked) as (H1 & H2 & _); [lia|apply example_empty_init| |vm_compute; reflexivity|].
  - apply (exec_rtc 2 (take 18 example_schedule)). vm_compute. reflexivity.
  - exact (conj H1 H2).
Defined.

Lemma sq_ticket_wrap_stuck_witness :
  exists s, rtc (sq_step 2) example_empty s /\ pc_of (sq_enqueue_call s (replicate 16 0)) (length (procs s)) = Some SWait1 /\
    forall s' c, rtc (sq_step 2) (sq_enqueue_call s (replicate 16 0)) s' -> pc_of s' (length (procs s)) = Some c -> c = SWait1.
Proof.
  destruct (sq_ticket_wrap_stuck 2 example_empty ltac:(lia) example_empty_init) as (s & Hr & _ & _ & _ & H). exists s. split; [exact Hr|]. split.
  - unfold pc_of. cbn. rewrite lookup_last_proc. reflexivity.
  - intros s' c Hr' Hc. apply (H s' (length (procs s)) c); [|lia|exact Hc]. eapply rtc_l; [|exact Hr']. constructor. reflexivity.
Defined.
End Sq.
