(* ===== verification/ParallelCq.v ===== *)
(** The GPU completion queue: [get_cid], [put_cid], [cq_poll], [cq_dequeue] and the
    completion half of [move_head_cq] of [src/include/nvm_parallel_queue.h], as the I/O
    requests of [src/include/page_cache.h] call them, run by any number of concurrent
    threads.

    Every request is a process; a step is one atomic access of the source.  The controller
    posts one completion for each submitted command, in any order, as long as the doorbell
    leaves room.  The submission half of a request is [ParallelSq]. *)
From Stdlib Require Import ZArith Lia List.
From stdpp Require Import base list numbers relations.
From S2P Require Import Prelude NvmUtil NvmCmd ParallelSq.

Import ListNotations.
Local Open Scope Z_scope.

Module Cq.
Import Sq(LOCKED, UNLOCKED).

(** ** State *)

(** What a request asks for: blocks to read or write, or ranges to manage. *)
Inductive io_args := Rw (lba n_blocks : Z) | Dsm (nr attr : Z).

(** A request; [r_junk] is what the stack held before the command was built. *)
Record io_req := MkReq { r_opcode : Z; r_ns : Z; r_prp1 : Z; r_prp2 : Z; r_args : io_args; r_junk : list Z }.

(** The command a request builds. *)
Definition io_command (r : io_req) (cid : Z) : list Z :=
  let cmd := nvm_cmd_data_ptr (nvm_cmd_header (r_junk r) cid (r_opcode r) (r_ns r)) (r_prp1 r) (r_prp2 r) in
  match r_args r with Rw lba n_blocks => nvm_cmd_rw_blks cmd lba n_blocks | Dsm nr attr => nvm_cmd_dsm cmd nr attr end.

(** The PRP entries of the page cache, by page. *)
Record prp_table := MkPrps { prp1_of : Z -> Z; prp2_of : Z -> Z; prps : bool }.

(** The requests of [page_cache.h]. *)
Definition submit_io_no_second (pc : prp_table) (ns starting_lba n_blocks pc_entry opcode : Z) (junk : list Z) : io_req :=
  let prp1 := prp1_of pc pc_entry in
  let prp2 := if prps pc then prp2_of pc pc_entry else 0 in
  MkReq opcode ns prp1 prp2 (Rw starting_lba n_blocks) junk.

Definition submit_read_no_second (pc : prp_table) (ns starting_lba n_blocks pc_entry : Z) (junk : list Z) : io_req :=
  submit_io_no_second pc ns starting_lba n_blocks pc_entry NVM_IO_READ junk.

Definition submit_write_no_second (pc : prp_table) (ns starting_lba n_blocks pc_entry : Z) (junk : list Z) : io_req :=
  submit_io_no_second pc ns starting_lba n_blocks pc_entry NVM_IO_WRITE junk.

Definition read_data_no_second (pc : prp_table) (ns starting_lba n_blocks pc_entry : Z) (junk : list Z) : io_req :=
  let prp1 := prp1_of pc pc_entry in
  let prp2 := if prps pc then prp2_of pc pc_entry else 0 in
  MkReq NVM_IO_READ ns prp1 prp2 (Rw starting_lba n_blocks) junk.

Definition write_data_no_second (pc : prp_table) (ns starting_lba n_blocks pc_entry : Z) (junk : list Z) : io_req :=
  let prp1 := prp1_of pc pc_entry in
  let prp2 := if prps pc then prp2_of pc pc_entry else 0 in
  MkReq NVM_IO_WRITE ns prp1 prp2 (Rw starting_lba n_blocks) junk.

Definition access_data_no_second (pc : prp_table) (ns starting_lba n_blocks pc_entry opcode : Z) (junk : list Z) : io_req :=
  if opcode =? NVM_IO_WRITE then write_data_no_second pc ns starting_lba n_blocks pc_entry junk
  else read_data_no_second pc ns starting_lba n_blocks pc_entry junk.

Definition read_data_merged_no_second (ns starting_lba n_blocks prp1 prp2 : Z) (junk : list Z) : io_req :=
  MkReq NVM_IO_READ ns prp1 prp2 (Rw starting_lba n_blocks) junk.

Definition write_data_merged_no_second (ns starting_lba n_blocks prp1 prp2 : Z) (junk : list Z) : io_req :=
  MkReq NVM_IO_WRITE ns prp1 prp2 (Rw starting_lba n_blocks) junk.

Definition access_data_merged_no_second (ns starting_lba n_blocks prp1 prp2 opcode : Z) (junk : list Z) : io_req :=
  if opcode =? NVM_IO_WRITE then write_data_merged_no_second ns starting_lba n_blocks prp1 prp2 junk
  else read_data_merged_no_second ns starting_lba n_blocks prp1 prp2 junk.

(** [trim_data]: the range it leaves in the page, as words of memory, and its request. *)
Definition NVM_IO_DATASET_MGMT : Z := NVM_CMD_OPCODE 0 2 1.
Definition NVM_DSM_ATTR_DEALLOCATE : Z := 0x1.
Definition trim_range (starting_lba n_blocks : Z) : list Z :=
  let slba := u64 starting_lba in let nlb := u32 (n_blocks - 1) in let attr := 0 in
  [slba mod 2 ^ 32; slba / 2 ^ 32; nlb; attr].
Definition trim_data (pc : prp_table) (ns pc_entry : Z) (junk : list Z) : io_req :=
  let prp1 := prp1_of pc pc_entry in
  let prp2 := if prps pc then prp2_of pc pc_entry else 0 in
  MkReq NVM_IO_DATASET_MGMT ns prp1 prp2 (Dsm 0 NVM_DSM_ATTR_DEALLOCATE) junk.

(** The identifier the controller reads in a command. *)
Definition cmd_cid (cmd : list Z) : Z := RB (dword cmd 0) 31 16.

(** Program points of a request, with the locals alive there. *)
Inductive cq_pc :=
  | GTicket                        (** [get_cid]: draw a ticket *)
  | GTry (id : Z)                  (** [get_cid]: [fetch_or] on [cid[id]] *)
  | Submit                         (** [sq_enqueue] *)
  | PHead                          (** [cq_poll]: load the head *)
  | PEntry (head i : Z)            (** [cq_poll]: read an entry *)
  | Bump                           (** [cq.tail.fetch_add] of the request *)
  | DTail                          (** [cq_dequeue]: [cq->tail.fetch_add] *)
  | DWait                          (** wait for [pos_locks[pos]] *)
  | DLock                          (** [fetch_or] on [pos_locks[pos]] *)
  | DMark                          (** set [head_mark[pos]] *)
  | DCheck                         (** is [head_mark[pos]] still set *)
  | DTry                           (** [fetch_or] on [head_lock] *)
  | DHead
  | DMove (cur_head count : Z)     (** [move_head_cq]: exchange a mark *)
  | DBell (cur_head count : Z)
  | DStore (cur_head count : Z)
  | DUnlock
  | DFinal                         (** wait for the head to pass the entry *)
  | DRelease                       (** unlock [pos_locks[pos]] *)
  | Put                            (** [put_cid] *)
  | Done.

Record cq_proc := MkCall { c_req : io_req; c_cid : Z; c_pos : Z; c_loc : Z; c_head : Z; c_pc : cq_pc }.

Record cq_state := MkCq {
  cid_ticket : Z;
  cids : Z -> Z;
  cpl : Z -> Z;                    (** word 3 of each completion entry *)
  cq_head : Z;
  cq_tail : Z;
  head_mark : Z -> Z;
  cq_lock : Z;                     (** [head_lock] *)
  pos_locks : Z -> Z;
  calls : list cq_proc;
  dev_head : Z;                    (** controller: completions freed by the doorbell *)
  comps : list (nat * Z);          (** controller: completions posted, by request, and their identifiers *)
  g_passed : Z                     (** ghost: marks cleared by [move_head_cq] *)
}.

Definition set_call (s : cq_state) (t : nat) (p : cq_proc) : cq_state :=
  MkCq (cid_ticket s) (cids s) (cpl s) (cq_head s) (cq_tail s) (head_mark s) (cq_lock s) (pos_locks s)
    (<[t := p]> (calls s)) (dev_head s) (comps s) (g_passed s).
Definition set_cids (s : cq_state) v : cq_state :=
  MkCq (cid_ticket s) v (cpl s) (cq_head s) (cq_tail s) (head_mark s) (cq_lock s) (pos_locks s)
    (calls s) (dev_head s) (comps s) (g_passed s).
Definition set_cid_ticket (s : cq_state) v : cq_state :=
  MkCq v (cids s) (cpl s) (cq_head s) (cq_tail s) (head_mark s) (cq_lock s) (pos_locks s)
    (calls s) (dev_head s) (comps s) (g_passed s).
Definition set_cq_head (s : cq_state) v : cq_state :=
  MkCq (cid_ticket s) (cids s) (cpl s) v (cq_tail s) (head_mark s) (cq_lock s) (pos_locks s)
    (calls s) (dev_head s) (comps s) (g_passed s).
Definition set_cq_tail (s : cq_state) v : cq_state :=
  MkCq (cid_ticket s) (cids s) (cpl s) (cq_head s) v (head_mark s) (cq_lock s) (pos_locks s)
    (calls s) (dev_head s) (comps s) (g_passed s).
Definition set_marks (s : cq_state) v c : cq_state :=
  MkCq (cid_ticket s) (cids s) (cpl s) (cq_head s) (cq_tail s) v (cq_lock s) (pos_locks s)
    (calls s) (dev_head s) (comps s) c.
Definition set_cq_lock (s : cq_state) v : cq_state :=
  MkCq (cid_ticket s) (cids s) (cpl s) (cq_head s) (cq_tail s) (head_mark s) v (pos_locks s)
    (calls s) (dev_head s) (comps s) (g_passed s).
Definition set_pos_locks (s : cq_state) v : cq_state :=
  MkCq (cid_ticket s) (cids s) (cpl s) (cq_head s) (cq_tail s) (head_mark s) (cq_lock s) v
    (calls s) (dev_head s) (comps s) (g_passed s).
Definition set_dev_head (s : cq_state) v : cq_state :=
  MkCq (cid_ticket s) (cids s) (cpl s) (cq_head s) (cq_tail s) (head_mark s) (cq_lock s) (pos_locks s)
    (calls s) v (comps s) (g_passed s).

Definition with_pc (p : cq_proc) (c : cq_pc) : cq_proc :=
  MkCall (c_req p) (c_cid p) (c_pos p) (c_loc p) (c_head p) c.

(** ** Steps *)

Section steps.
Context (qs_log2 : Z).

Definition qs : Z := 2 ^ qs_log2.
Definition qs_minus_1 : Z := qs - 1.

(** One round of the wait at the end of [cq_dequeue]: has the head passed the entry. *)
Definition head_passed (new_head cur_head loc : Z) : bool :=
  if new_head >? cur_head then (loc >=? cur_head) && (loc <? new_head)
  else if new_head <? cur_head then (loc >=? cur_head) || (loc <? new_head)
  else false.

(** [cq_poll]: one entry. *)
Definition cq_poll_step (s : cq_state) (p : cq_proc) (head i : Z) : cq_proc :=
  if i <? qs_minus_1 then
    let cur_head := u32 (head + i) in
    let search_phase := Z.land (Z.lnot (Z.shiftr cur_head qs_log2)) 1 in
    let loc := Z.land cur_head qs_minus_1 in
    let cpl_entry := cpl s loc in
    let cid := Z.land cpl_entry 0x0000ffff in
    let phase := Z.shiftr (Z.land cpl_entry 0x00010000) 16 in
    if (cid =? c_cid p) && (phase =? search_phase)
    then MkCall (c_req p) (c_cid p) (u16 loc) cur_head head Bump
    else if negb (phase =? search_phase) then with_pc p PHead else with_pc p (PEntry head (i + 1))
  else with_pc p PHead.

(** The doorbell tells the controller the new head modulo the queue size. *)
Definition ring_cq_doorbell (s : cq_state) (new_db : Z) : cq_state :=
  set_dev_head s (dev_head s + (new_db - dev_head s) mod qs).

(** [move_head_cq]: one exchange; [cur_head + count++] is the entry. *)
Definition move_head_cq_step (s : cq_state) (t : nat) (p : cq_proc) (cur_head count : Z) : cq_state :=
  let loc := Z.land (u32 (cur_head + count)) qs_minus_1 in
  let pass := head_mark s loc =? LOCKED in
  let marks := fupd (head_mark s) loc UNLOCKED in
  if pass then set_call (set_marks s marks (g_passed s + 1)) t (with_pc p (DMove cur_head (u32 (count + 1))))
  else set_call (set_marks s marks (g_passed s)) t
         (with_pc p (if negb (count =? 0) then DBell cur_head count else DUnlock)).

(** [get_cid]: the ticket, and the attempt to take an identifier; [put_cid]. *)
Definition get_cid_ticket (s : cq_state) : Z * cq_state :=
  (Z.land (cid_ticket s) 65535, set_cid_ticket s (u32 (cid_ticket s + 1))).
Definition get_cid_try (s : cq_state) (id : Z) : bool * cq_state :=
  (cids s id =? LOCKED, set_cids s (fupd (cids s) id (Z.lor (cids s id) LOCKED))).
Definition put_cid (s : cq_state) (id : Z) : cq_state := set_cids s (fupd (cids s) id UNLOCKED).

(** The next access of request [t]. *)
Definition cq_access (s : cq_state) (t : nat) : option cq_state :=
  match calls s !! t with
  | None => None
  | Some p =>
      let goto s c := Some (set_call s t (with_pc p c)) in
      let pos := c_pos p in
      match c_pc p with
      | GTicket => let (id, s') := get_cid_ticket s in goto s' (GTry id)
      | GTry id =>
          let (not_found, s') := get_cid_try s id in
          if not_found then goto s' GTicket
          else Some (set_call s' t (MkCall (c_req p) id (c_pos p) (c_loc p) (c_head p) Submit))
      | Submit => goto s PHead
      | PHead => goto s (PEntry (cq_head s) 0)
      | PEntry head i => Some (set_call s t (cq_poll_step s p head i))
      | Bump => goto (set_cq_tail s (u32 (cq_tail s + 1))) DTail
      | DTail => goto (set_cq_tail s (u32 (cq_tail s + 1))) DWait
      | DWait => goto s (if negb (pos_locks s pos =? 0) then DWait else DLock)
      | DLock =>
          goto (set_pos_locks s (fupd (pos_locks s) pos (Z.lor (pos_locks s pos) 1)))
            (if negb (pos_locks s pos =? 0) then DLock else DMark)
      | DMark => goto (set_marks s (fupd (head_mark s) pos LOCKED) (g_passed s)) DCheck
      | DCheck => goto s (if head_mark s pos =? LOCKED then DTry else DFinal)
      | DTry => goto (set_cq_lock s (Z.lor (cq_lock s) LOCKED)) (if cq_lock s =? LOCKED then DCheck else DHead)
      | DHead => goto s (DMove (cq_head s) 0)
      | DMove cur_head count => Some (move_head_cq_step s t p cur_head count)
      | DBell cur_head count =>
          goto (ring_cq_doorbell s (Z.land (u32 (cur_head + count)) qs_minus_1)) (DStore cur_head count)
      | DStore cur_head count => goto (set_cq_head s (u32 (cur_head + count))) DUnlock
      | DUnlock => goto (set_cq_lock s UNLOCKED) DCheck
      | DFinal => goto s (if head_passed (cq_head s) (c_head p) (c_loc p) then DRelease else DFinal)
      | DRelease => goto (set_pos_locks s (fupd (pos_locks s) pos 0)) Put
      | Put => goto (put_cid s (c_cid p)) Done
      | Done => None
      end
  end.

Definition n_comps (s : cq_state) : Z := Z.of_nat (length (comps s)).

Definition submitted (c : cq_pc) : bool := match c with GTicket | GTry _ | Submit => false | _ => true end.

(** The phase of the [k]-th completion. *)
Definition phase_of (k : Z) : Z := 1 - k / qs mod 2.

(** The controller posts the completion of request [t]. *)
Definition cq_post (s : cq_state) (t : nat) (status : Z) : option cq_state :=
  match calls s !! t with
  | None => None
  | Some p =>
      if submitted (c_pc p) && forallb (fun c => negb (fst c =? t)%nat) (comps s) &&
         negb ((n_comps s + 1) mod qs =? dev_head s mod qs)
      then
        let cid := cmd_cid (io_command (c_req p) (c_cid p)) in
        let entry := cid + phase_of (n_comps s) * 2 ^ 16 + status * 2 ^ 17 in
        Some (MkCq (cid_ticket s) (cids s) (fupd (cpl s) (n_comps s mod qs) entry) (cq_head s) (cq_tail s)
                (head_mark s) (cq_lock s) (pos_locks s) (calls s) (dev_head s) (comps s ++ [(t, cid)]) (g_passed s))
      else None
  end.

Definition req_ok (r : io_req) : Prop := length (r_junk r) = 16%nat /\ Forall (is_word 32) (r_junk r) /\ 0 <= r_opcode r < 256.

Definition cq_call (s : cq_state) (r : io_req) : cq_state :=
  MkCq (cid_ticket s) (cids s) (cpl s) (cq_head s) (cq_tail s) (head_mark s) (cq_lock s) (pos_locks s)
    (calls s ++ [MkCall r 0 0 0 0 GTicket]) (dev_head s) (comps s) (g_passed s).

Inductive cq_act := CCall (r : io_req) | CStep (t : nat) | CPost (t : nat) (status : Z).

Definition cq_exec_act (a : cq_act) (s : cq_state) : option cq_state :=
  match a with CCall r => Some (cq_call s r) | CStep t => cq_access s t | CPost t status => cq_post s t status end.

Inductive cq_step : cq_state -> cq_state -> Prop :=
  | cq_do a s s' :
      match a with CCall r => req_ok r | CStep _ => True | CPost _ status => 0 <= status < 2 ^ 15 end ->
      cq_exec_act a s = Some s' -> cq_step s s'.

(** What the theorems assume of a run, and the code does not check: no pass of [cq_poll]
    over the queue is overtaken by two laps of completions, and fewer than 2^32 completions
    are posted. *)
Definition timely (s : cq_state) : Prop :=
  n_comps s + qs < 2 ^ 32 /\
  forall t p h i, calls s !! t = Some p -> c_pc p = PEntry h i -> n_comps s <= h + 2 * qs.

Definition timely_step (s s' : cq_state) : Prop := cq_step s s' /\ timely s'.

(** A fresh queue pair: cleared memory, counters, marks and locks. *)
Definition cq_init (s : cq_state) : Prop :=
  (forall i, cids s i = 0) /\ (forall i, cpl s i = 0) /\ cq_head s = 0 /\ (forall i, head_mark s i = 0) /\
  cq_lock s = 0 /\ (forall i, pos_locks s i = 0) /\ calls s = [] /\ dev_head s = 0 /\ comps s = [] /\ g_passed s = 0.

(** Every request the entry points build is one the steps cover, and the entry points that
    wait, those that do not and those that take PRP entries send the same commands. *)
Lemma access_data_req_ok pc ns lba n e opcode junk :
  length junk = 16%nat -> Forall (is_word 32) junk ->
  req_ok (access_data_no_second pc ns lba n e opcode junk) /\ req_ok (trim_data pc ns e junk).
Proof.
  intros L F. unfold access_data_no_second.
  destruct (opcode =? NVM_IO_WRITE); (split; (split; [done|split; [done|vm_compute; split; congruence]])).
Qed.

Lemma access_data_same pc ns lba n e opcode junk :
  opcode = NVM_IO_READ \/ opcode = NVM_IO_WRITE ->
  submit_io_no_second pc ns lba n e opcode junk = access_data_no_second pc ns lba n e opcode junk /\
  access_data_no_second pc ns lba n e opcode junk =
  access_data_merged_no_second ns lba n (prp1_of pc e) (if prps pc then prp2_of pc e else 0) opcode junk.
Proof. by intros [-> | ->]. Qed.

(** How a controller reads a range and a dataset management command: attributes, length and
    start of the range, and the deallocate bit of word 11. *)
Definition dsm_length (range : list Z) : Z := dword range 1.
Definition dsm_start (range : list Z) : Z := dword range 2 + dword range 3 * 2 ^ 32.
Definition dsm_deallocate (cmd : list Z) : bool := Z.testbit (dword cmd 11) 2.

(** ** Invariant *)

(** Where a request stands: between [get_cid] and [put_cid]; past [cq_poll]; past its mark;
    inside the position lock; inside the head lock; sure that the head has passed. *)
Definition holding (c : cq_pc) : bool := match c with GTicket | GTry _ | Done => false | _ => true end.
Definition polled (c : cq_pc) : bool :=
  match c with GTicket | GTry _ | Submit | PHead | PEntry _ _ => false | _ => true end.
Definition marked (c : cq_pc) : bool :=
  match c with
  | DCheck | DTry | DHead | DMove _ _ | DBell _ _ | DStore _ _ | DUnlock | DFinal | DRelease | Put | Done => true
  | _ => false
  end.
Definition in_pos (c : cq_pc) : bool :=
  match c with
  | DMark | DCheck | DTry | DHead | DMove _ _ | DBell _ _ | DStore _ _ | DUnlock | DFinal | DRelease => true
  | _ => false
  end.
Definition holds (c : cq_pc) : bool :=
  match c with DHead | DMove _ _ | DBell _ _ | DStore _ _ | DUnlock => true | _ => false end.
Definition settled (c : cq_pc) : bool := match c with DRelease | Put | Done => true | _ => false end.

(** The [k]-th completion is that of request [t] and carries [c]. *)
Definition posted (s : cq_state) (k : Z) (t : nat) (c : Z) : Prop := 0 <= k /\ comps s !! Z.to_nat k = Some (t, c).

(** What the holder of the head lock knows. *)
Definition holder_ok (s : cq_state) (c : cq_pc) : Prop :=
  match c with
  | DHead | DUnlock => dev_head s = cq_head s /\ g_passed s = cq_head s
  | DMove cur n => cur = cq_head s /\ dev_head s = cq_head s /\ g_passed s = cur + n /\ 0 <= n
  | DBell cur n => cur = cq_head s /\ dev_head s = cq_head s /\ g_passed s = cur + n /\ 0 < n
  | DStore cur n => cur = cq_head s /\ dev_head s = cur + n /\ g_passed s = cur + n /\ 0 < n
  | _ => True
  end.

(** What request [t] knows of its completion [k]. *)
Record comp_ok (s : cq_state) (p : cq_proc) (k : Z) : Prop := {
  cm_submitted : submitted (c_pc p) = true;
  cm_ahead : marked (c_pc p) = false -> g_passed s <= k;
  cm_mark : g_passed s <= k -> head_mark s (k mod qs) = if marked (c_pc p) then LOCKED else UNLOCKED;
  cm_final : c_pc p = DFinal -> k < g_passed s;
  cm_settled : settled (c_pc p) = true -> k < cq_head s;
  cm_polled : polled (c_pc p) = true -> c_loc p = k
}.

Record call_ok (s : cq_state) (t : nat) (p : cq_proc) : Prop := {
  co_req : req_ok (c_req p);
  co_cid : holding (c_pc p) = true -> is_word 16 (c_cid p) /\ cids s (c_cid p) = LOCKED;
  co_try id : c_pc p = GTry id -> is_word 16 id;
  co_comp k c : posted s k t c -> c = c_cid p /\ comp_ok s p k;
  co_poll h i : c_pc p = PEntry h i ->
    0 <= h <= cq_head s /\ 0 <= i /\ forall k t', h <= k -> posted s k t' (c_cid p) -> t' = t;
  co_polled : polled (c_pc p) = true ->
    posted s (c_loc p) t (c_cid p) /\ c_pos p = c_loc p mod qs /\ 0 <= c_head p <= cq_head s /\ c_head p <= c_loc p;
  co_holder : holds (c_pc p) = true -> cq_lock s = LOCKED /\ holder_ok s (c_pc p);
  co_pos : in_pos (c_pc p) = true -> pos_locks s (c_pos p) = 1
}.

(** Two requests never hold the same identifier, position or the head lock. *)
Record pair_ok (p q : cq_proc) : Prop := {
  pr_cid : holding (c_pc p) = true -> holding (c_pc q) = true -> c_cid p <> c_cid q;
  pr_pos : in_pos (c_pc p) = true -> in_pos (c_pc q) = true -> c_pos p <> c_pos q;
  pr_lock : holds (c_pc p) = true -> holds (c_pc q) = true -> False
}.

Definition entry_ok (e cid phase : Z) : Prop := Z.land e 0xffff = cid /\ Z.shiftr (Z.land e 0x10000) 16 = phase.

Record glob (s : cq_state) : Prop := {
  gl_bounds : 0 <= cq_head s <= dev_head s /\ dev_head s <= g_passed s <= n_comps s /\ n_comps s <= dev_head s + qs - 1;
  gl_small : n_comps s + qs < 2 ^ 32;
  gl_entry k t c : posted s k t c -> n_comps s <= k + qs -> entry_ok (cpl s (k mod qs)) c (phase_of k);
  gl_fresh j : n_comps s <= j < qs -> Z.shiftr (Z.land (cpl s j) 0x10000) 16 = 0;
  gl_clear k : n_comps s <= k < g_passed s + qs -> head_mark s (k mod qs) = UNLOCKED;
  gl_owner k t c : posted s k t c -> is_Some (calls s !! t);
  gl_unique k k' t c c' : posted s k t c -> posted s k' t c' -> k = k';
  gl_free : cq_lock s <> LOCKED -> dev_head s = cq_head s /\ g_passed s = cq_head s;
  gl_lock : cq_lock s = LOCKED \/ cq_lock s = UNLOCKED;
  gl_cids i : cids s i = LOCKED \/ cids s i = UNLOCKED;
  gl_pos i : pos_locks s i = 0 \/ pos_locks s i = 1
}.

Record cq_inv (s : cq_state) : Prop := {
  ci_glob : glob s;
  ci_call t p : calls s !! t = Some p -> call_ok s t p;
  ci_pair t t' p q : t <> t' -> calls s !! t = Some p -> calls s !! t' = Some q -> pair_ok p q
}.

Context (Hlog : 1 <= qs_log2 <= 16).

Lemma cq_qs_range : 2 <= qs <= 65536.
Proof.
  unfold qs. split.
  - change 2 with (2 ^ 1) at 1. apply Z.pow_le_mono_r; lia.
  - change 65536 with (2 ^ 16). apply Z.pow_le_mono_r; lia.
Qed.

Lemma cq_land_qs x : Z.land x qs_minus_1 = x mod qs.
Proof. unfold qs_minus_1, qs. apply land_ones_mod. lia. Qed.

Lemma u32_mod_qs x : u32 x mod qs = x mod qs.
Proof. rewrite <- !cq_land_qs. rewrite !cq_land_qs. unfold qs_minus_1, u32, qs. rewrite <- !(land_ones_mod _ qs_log2) by lia. rewrite land_mask_wrap by lia. by rewrite land_ones_mod by lia. Qed.

Lemma cq_mod_range x : 0 <= x mod qs < qs.
Proof. apply Z.mod_pos_bound. pose proof cq_qs_range. lia. Qed.

Lemma posted_fun s k t t' c c' : posted s k t c -> posted s k t' c' -> t = t' /\ c = c'.
Proof. intros [_ E] [_ E']. rewrite E in E'. by injection E'. Qed.

Lemma posted_lt s k t c : posted s k t c -> 0 <= k < n_comps s.
Proof. intros [Hk E]. apply lookup_lt_Some in E. unfold n_comps. lia. Qed.

Lemma posted_at s k : 0 <= k < n_comps s -> exists t c, posted s k t c.
Proof.
  intros Hk. destruct (lookup_lt_is_Some_2 (comps s) (Z.to_nat k)) as [[t c] E]; [unfold n_comps in Hk; lia|].
  exists t, c. split; [lia|done].
Qed.

(** ** Framing *)

Lemma cq_inv_move s s' t p p' :
  cq_inv s -> calls s !! t = Some p -> calls s' = <[t := p']> (calls s) -> glob s' -> call_ok s' t p' ->
  (forall t' q, t' <> t -> calls s !! t' = Some q -> call_ok s' t' q) ->
  (forall t' q, t' <> t -> calls s !! t' = Some q -> pair_ok p' q) -> cq_inv s'.
Proof.
  intros [G C Pr] Hp E G' C' Hc Hpr. split; [done|..].
  - intros t1 q1. rewrite E, list_lookup_insert_Some. intros [(<- & -> & _)|[Hne Hq]]; [done|by apply Hc].
  - intros t1 t2 q1 q2 Hne. rewrite E, !list_lookup_insert_Some.
    intros [(<- & -> & _)|[H1 Hq1]] [(<- & -> & _)|[H2 Hq2]]; [done|apply (Hpr t2); congruence| |by eapply (Pr t1 t2)].
    assert (Hs : pair_ok q2 q1) by (apply (Hpr t1); congruence). destruct Hs as [S1 S2 S3].
    split; intros; [by apply not_eq_sym, S1|by apply not_eq_sym, S2|by apply S3].
Qed.

Definition flags (c : cq_pc) := (submitted c, holding c, polled c, marked c, in_pos c, holds c, settled c).

(** A request stands where it stood as far as others can see, and the state changes in
    what it does not rely on. *)
Lemma call_update s s' t p c :
  call_ok s t p -> flags c = flags (c_pc p) ->
  (holding c = true -> cids s (c_cid p) = LOCKED -> cids s' (c_cid p) = LOCKED) ->
  comps s' = comps s -> g_passed s <= g_passed s' -> cq_head s <= cq_head s' ->
  (forall k x, posted s k t x -> marked c = false -> g_passed s' <= k) ->
  (forall k x, posted s k t x -> g_passed s' <= k -> head_mark s' (k mod qs) = head_mark s (k mod qs)) ->
  (holds c = true -> cq_lock s' = LOCKED /\ holder_ok s' c) ->
  (in_pos c = true -> pos_locks s' (c_pos p) = 1) ->
  (forall id, c = GTry id -> is_word 16 id) ->
  (forall h i, c = PEntry h i -> 0 <= h <= cq_head s' /\ 0 <= i /\ forall k t', h <= k -> posted s k t' (c_cid p) -> t' = t) ->
  (c = DFinal -> forall k x, posted s k t x -> k < g_passed s') ->
  call_ok s' t (with_pc p c).
Proof.
  intros [K1 K2 K3 K4 K5 K6 K7 K8] Ef Hc Ec Hg Hh Hu Hm Hl Hp H1 H2 H3.
  unfold flags in Ef. injection Ef as F1 F2 F3 F4 F5 F6 F7. unfold posted in *. split; unfold posted; rewrite ?Ec; try done;
    cbn [c_pc c_cid c_pos c_loc c_head with_pc].
  - rewrite F2. intros H. destruct (K2 H). split; [done|apply Hc; [by rewrite F2|done]].
  - intros k x H. destruct (K4 k x H) as [-> [M1 M2 M3 M4 M5 M6]]. split; [done|].
    split; cbn [c_pc c_loc with_pc]; rewrite ?F1, ?F3, ?F4, ?F7; try done.
    + intros Hmk. eapply Hu; [done|by rewrite F4].
    + intros Hk. rewrite (Hm k _ H Hk). apply M3. lia.
    + intros Hf. by eapply H3.
    + intros Hf. specialize (M5 Hf). lia.
  - rewrite F3. intros H. destruct (K6 H) as ([? ?] & ? & ? & ?). split_and!; [done|done|done|lia|lia|done].
Qed.

(** What a step of another request may change. *)
Lemma call_rely s s' t q :
  call_ok s t q ->
  (holding (c_pc q) = true -> cids s (c_cid q) = LOCKED -> cids s' (c_cid q) = LOCKED) ->
  comps s' = comps s -> g_passed s <= g_passed s' -> cq_head s <= cq_head s' ->
  (forall k c, posted s k t c -> marked (c_pc q) = false -> g_passed s' <= k) ->
  (forall k c, posted s k t c -> g_passed s' <= k -> head_mark s' (k mod qs) = head_mark s (k mod qs)) ->
  (holds (c_pc q) = true -> cq_lock s' = LOCKED /\ holder_ok s' (c_pc q)) ->
  (in_pos (c_pc q) = true -> pos_locks s' (c_pos q) = 1) -> call_ok s' t q.
Proof.
  intros K. intros. replace q with (with_pc q (c_pc q)) by (by destruct q). apply (call_update s); try done.
  - apply (co_try _ _ _ K).
  - intros h i E. destruct (co_poll _ _ _ K h i E) as (? & ? & ?). split_and!; [lia|lia|done|done].
  - intros E k x Hk. pose proof (cm_final _ _ _ (proj2 (co_comp _ _ _ K k x Hk)) E). lia.
Qed.

(** One that leaves completions and marks alone. *)
Lemma call_keep s s' t q :
  call_ok s t q -> comps s' = comps s -> g_passed s' = g_passed s -> head_mark s' = head_mark s -> cq_head s <= cq_head s' ->
  (holding (c_pc q) = true -> cids s (c_cid q) = LOCKED -> cids s' (c_cid q) = LOCKED) ->
  (holds (c_pc q) = true -> cq_lock s' = LOCKED /\ holder_ok s' (c_pc q)) ->
  (in_pos (c_pc q) = true -> pos_locks s' (c_pos q) = 1) -> call_ok s' t q.
Proof.
  intros K Ec Eg Em Hh Hc Hl Hp. apply (call_rely s); try done; rewrite ?Eg, ?Em; try done.
  intros k c H Hm. by apply (cm_ahead _ _ _ (proj2 (co_comp _ _ _ K k c H))).
Qed.

(** A step that changes only where one request stands. *)
Lemma glob_same s s' :
  cq_head s' = cq_head s -> dev_head s' = dev_head s -> g_passed s' = g_passed s -> comps s' = comps s -> cpl s' = cpl s ->
  head_mark s' = head_mark s -> cq_lock s' = cq_lock s -> (forall t, is_Some (calls s !! t) -> is_Some (calls s' !! t)) ->
  (forall i, cids s' i = LOCKED \/ cids s' i = UNLOCKED) -> (forall i, pos_locks s' i = 0 \/ pos_locks s' i = 1) ->
  glob s -> glob s'.
Proof.
  intros E1 E2 E3 E4 E5 E6 E7 Hc Hi Hp [G1 G2 G3 G4 G5 G6 G7 G8 G9 _ _].
  split; unfold n_comps, posted in *; rewrite ?E1, ?E2, ?E3, ?E4, ?E5, ?E6, ?E7; try done. intros k t c H. eapply Hc, G6, H.
Qed.

Lemma is_Some_set_call s t p t' : is_Some (calls s !! t') -> is_Some (<[t := p]> (calls s) !! t').
Proof. rewrite !lookup_lt_is_Some. by rewrite length_insert. Qed.

Ltac cq_proj := cbn [cid_ticket cids cpl cq_head cq_tail head_mark cq_lock pos_locks calls dev_head comps g_passed
  set_call set_cids set_cid_ticket set_cq_head set_cq_tail set_marks set_cq_lock set_pos_locks set_dev_head
  c_req c_cid c_pos c_loc c_head c_pc with_pc].

Lemma call_set s t p t' q : call_ok s t' q -> call_ok (set_call s t p) t' q.
Proof.
  intros K. eapply (call_keep s); [done|done|done|done|cq_proj; lia|done|..]; [apply (co_holder _ _ _ K)|apply (co_pos _ _ _ K)].
Qed.

Lemma glob_set s t p : glob s -> glob (set_call s t p).
Proof. intros G. apply (glob_same s); try done; [intros t'; apply is_Some_set_call|apply G|apply G]. Qed.

Lemma pair_flags p c q : flags c = flags (c_pc p) -> pair_ok p q -> pair_ok (with_pc p c) q.
Proof.
  unfold flags. intros Ef [P1 P2 P3]. injection Ef as F1 F2 F3 F4 F5 F6 F7.
  split; cbn [c_pc c_cid c_pos with_pc]; rewrite ?F2, ?F5, ?F6; done.
Qed.

(** A request moves on without changing what others see of it. *)
Lemma cq_inv_goto s t p c :
  cq_inv s -> calls s !! t = Some p -> flags c = flags (c_pc p) ->
  (forall id, c = GTry id -> is_word 16 id) ->
  (forall h i, c = PEntry h i -> 0 <= h <= cq_head s /\ 0 <= i /\ forall k t', h <= k -> posted s k t' (c_cid p) -> t' = t) ->
  (c = DFinal -> forall k x, posted s k t x -> k < g_passed s) ->
  (holds c = true -> holder_ok s c) -> cq_inv (set_call s t (with_pc p c)).
Proof.
  intros [G C Pr] Hp Ef H1 H2 H3 H4. pose proof (C t p Hp) as K.
  eapply (cq_inv_move s _ t p (with_pc p c)); [done|done|done|by apply glob_set| | |].
  - apply call_set. pose proof Ef as Ef'. unfold flags in Ef'. injection Ef' as F1 F2 F3 F4 F5 F6 F7.
    eapply (call_update s s t p c K Ef); try done; try lia.
    + intros k x H. rewrite F4. apply (cm_ahead _ _ _ (proj2 (co_comp _ _ _ K k x H))).
    + intros Hh. split; [|by apply H4]. rewrite F6 in Hh. by apply (co_holder _ _ _ K).
    + rewrite F5. apply (co_pos _ _ _ K).
  - intros t' q Hne Hq. apply call_set. by apply C.
  - intros t' q Hne Hq. apply (pair_flags p); [done|]. by apply (Pr t t').
Qed.

(** Changes no one sees. *)
Lemma inv_same s s' :
  (forall i, cids s' i = cids s i) -> (forall i, head_mark s' i = head_mark s i) -> (forall i, pos_locks s' i = pos_locks s i) ->
  cpl s' = cpl s -> cq_head s' = cq_head s -> cq_lock s' = cq_lock s -> calls s' = calls s -> dev_head s' = dev_head s ->
  comps s' = comps s -> g_passed s' = g_passed s -> cq_inv s -> cq_inv s'.
Proof.
  intros Ec Em Ep Epl Eh El Eca Ed Eco Eg [G C Pr]. split; rewrite ?Eca; [|intros t p Hp|done].
  - destruct G as [G1 G2 G3 G4 G5 G6 G7 G8 G9 G10 G11]. split; unfold n_comps, posted in *;
      rewrite ?Eco, ?Eh, ?Ed, ?Eg, ?Epl, ?El, ?Eca; try done; intros; rewrite ?Em, ?Ec, ?Ep; eauto.
  - pose proof (C t p Hp) as K. eapply (call_rely s); [done|by rewrite Ec|done|lia|lia|..].
    + intros k c H Hm. rewrite Eg. by apply (cm_ahead _ _ _ (proj2 (co_comp _ _ _ K k c H))).
    + intros. apply Em.
    + intros H. destruct (co_holder _ _ _ K H) as [? Ho]. rewrite El. split; [done|]. destruct (c_pc p); cbn in *; rewrite ?Eh, ?Ed, ?Eg; done.
    + intros H. rewrite Ep. by apply (co_pos _ _ _ K).
Qed.

(** ** Identifiers *)

Lemma inv_get_cid s t p id :
  cq_inv s -> calls s !! t = Some p -> c_pc p = GTry id -> cids s id <> LOCKED ->
  cq_inv (set_call (set_cids s (fupd (cids s) id (Z.lor (cids s id) LOCKED))) t (MkCall (c_req p) id (c_pos p) (c_loc p) (c_head p) Submit)).
Proof.
  intros [G C Pr] Hp Hpc Hid. pose proof (C t p Hp) as K. destruct (gl_cids s G id) as [|E0]; [done|]. rewrite E0. change (Z.lor UNLOCKED LOCKED) with LOCKED.
  assert (Hc : forall i, fupd (cids s) id LOCKED i = LOCKED \/ fupd (cids s) id LOCKED i = cids s i)
    by (intros i; unfold fupd; destruct (i =? id); auto).
  eapply (cq_inv_move s _ t p); [done|done|done|..].
  - apply glob_set. apply (glob_same s); try done; [|apply G]. intros i. cq_proj. destruct (Hc i) as [->| ->]; [by left|apply G].
  - apply call_set. destruct K as [K1 K2 K3 K4 K5 K6 K7 K8]. split; cq_proj; try done.
    + intros _. split; [by apply K3|]. apply fupd_eq.
    + intros k c H. destruct (K4 k c H) as [_ [M1 _ _ _ _ _]]. by rewrite Hpc in M1.
  - intros t' q Hne Hq. apply call_set. pose proof (C t' q Hq) as Kq. eapply (call_keep s); [done|done|done|done|cq_proj; lia| |..].
    + intros _ El. cq_proj. destruct (Hc (c_cid q)) as [->| ->]; done.
    + apply (co_holder _ _ _ Kq).
    + apply (co_pos _ _ _ Kq).
  - intros t' q Hne Hq. pose proof (C t' q Hq) as Kq. split; cq_proj; try done. intros _ Hh ->. by destruct (co_cid _ _ _ Kq Hh).
Qed.

Lemma cq_inv_submit s t p : cq_inv s -> calls s !! t = Some p -> c_pc p = Submit -> cq_inv (set_call s t (with_pc p PHead)).
Proof.
  intros [G C Pr] Hp Hpc. pose proof (C t p Hp) as [K1 K2 K3 K4 K5 K6 K7 K8]. rewrite Hpc in *.
  eapply (cq_inv_move s _ t p); [done|done|done|by apply glob_set| | |].
  - apply call_set. split; cq_proj; try done. intros k c H. destruct (K4 k c H) as [_ [M1 _ _ _ _ _]]. by rewrite Hpc in M1.
  - intros t' q Hne Hq. apply call_set. by apply C.
  - intros t' q Hne Hq. destruct (Pr t t' p q) as [P1 P2 P3]; [congruence|done|done|]. rewrite Hpc in *. by split.
Qed.

Lemma inv_put_cid s t p :
  cq_inv s -> calls s !! t = Some p -> c_pc p = Put ->
  cq_inv (set_call (set_cids s (fupd (cids s) (c_cid p) UNLOCKED)) t (with_pc p Done)).
Proof.
  intros [G C Pr] Hp Hpc. pose proof (C t p Hp) as K.
  eapply (cq_inv_move s _ t p); [done|done|done|..].
  - apply glob_set. apply (glob_same s); try done; [|apply G]. intros i. cq_proj. unfold fupd. destruct (i =? c_cid p); [by right|apply G].
  - apply call_set. destruct K as [K1 K2 K3 K4 K5 K6 K7 K8]. rewrite Hpc in *. split; cq_proj; try done.
    intros k c H. destruct (K4 k c H) as [-> [M1 M2 M3 M4 M5 M6]]. rewrite Hpc in *. split; [done|]. by split.
  - intros t' q Hne Hq. apply call_set. pose proof (C t' q Hq) as Kq. eapply (call_keep s); [done|done|done|done|cq_proj; lia| |..].
    + intros Hh El. cq_proj. rewrite fupd_ne; [done|]. destruct (Pr t t' p q) as [P1 _ _]; [congruence|done|done|].
      rewrite Hpc in P1. by apply not_eq_sym, P1.
    + apply (co_holder _ _ _ Kq).
    + apply (co_pos _ _ _ Kq).
  - intros t' q Hne Hq. by split.
Qed.

(** ** Polling *)

Lemma search_phase_eq k : 0 <= k -> Z.land (Z.lnot (Z.shiftr k qs_log2)) 1 = phase_of k.
Proof.
  intros Hk. unfold phase_of. change 1 with (2 ^ 1 - 1) at 1. rewrite land_ones_mod by lia.
  rewrite Z.shiftr_div_pow2 by lia. fold qs. unfold Z.lnot. set (x := k / qs). clearbody x. change (2 ^ 1) with 2. unfold Z.pred. Z.to_euclidean_division_equations. lia.
Qed.

Lemma phase_next k : phase_of (k + qs) <> phase_of k.
Proof.
  pose proof cq_qs_range. unfold phase_of. replace (k + qs) with (k + 1 * qs) by lia. rewrite Z.div_add by lia.
  set (x := k / qs). clearbody x. Z.to_euclidean_division_equations. lia.
Qed.

Lemma mod_qs_add k : (k + qs) mod qs = k mod qs.
Proof. pose proof cq_qs_range. replace (k + qs) with (k + 1 * qs) by lia. apply Z.mod_add. lia. Qed.

(** An entry of the phase looked for is the completion looked for. *)
Lemma entry_current s h i :
  glob s -> 0 <= h <= cq_head s -> 0 <= i < qs_minus_1 -> n_comps s <= h + 2 * qs ->
  Z.shiftr (Z.land (cpl s ((h + i) mod qs)) 0x10000) 16 = phase_of (h + i) -> h + i < n_comps s <= h + i + qs.
Proof.
  intros G Hh Hi Ht Hp. pose proof cq_qs_range. pose proof (gl_bounds s G) as (B1 & B2 & B3). unfold qs_minus_1 in *.
  set (k := h + i) in *. destruct (decide (k < n_comps s)) as [Hk|Hk].
  - split; [done|]. apply Z.nlt_ge. intros Hgt. destruct (posted_at s (k + qs)) as (t & c & Hpo); [lia|].
    destruct (gl_entry s G (k + qs) t c Hpo) as [_ E]; [lia|]. rewrite mod_qs_add in E. by apply (phase_next k); congruence.
  - exfalso. destruct (decide (k < qs)) as [Hq|Hq].
    + rewrite Z.mod_small in Hp by lia. rewrite (gl_fresh s G k) in Hp by lia. unfold phase_of in Hp.
      rewrite Z.div_small in Hp by lia. discriminate.
    + destruct (posted_at s (k - qs)) as (t & c & Hpo); [lia|]. destruct (gl_entry s G (k - qs) t c Hpo) as [_ E]; [lia|].
      apply (phase_next (k - qs)). rewrite <- E. replace (k - qs + qs) with k by lia. rewrite <- Hp.
      do 3 f_equal. rewrite <- (mod_qs_add (k - qs)). f_equal. lia.
Qed.

Lemma inv_polled s t p h i :
  cq_inv s -> calls s !! t = Some p -> c_pc p = PEntry h i -> i < qs_minus_1 -> n_comps s <= h + 2 * qs ->
  let k := h + i in
  Z.land (cpl s (k mod qs)) 0xffff = c_cid p -> Z.shiftr (Z.land (cpl s (k mod qs)) 0x10000) 16 = phase_of k ->
  cq_inv (set_call s t (MkCall (c_req p) (c_cid p) (k mod qs) k h Bump)).
Proof.
  intros [G C Pr] Hp Hpc Hi Ht k Hcid Hph. pose proof (C t p Hp) as [K1 K2 K3 K4 K5 K6 K7 K8].
  destruct (K5 h i Hpc) as (Hh & Hi0 & Hown). rewrite Hpc in *.
  pose proof (entry_current s h i G Hh ltac:(lia) Ht Hph) as Hk. fold k in Hk.
  destruct (posted_at s k) as (t' & c & Hpo); [lia|]. destruct (gl_entry s G k t' c Hpo) as [Ec _]; [lia|].
  rewrite Hcid in Ec. subst c. assert (t' = t) as -> by (apply (Hown k); [lia|done]).
  eapply (cq_inv_move s _ t p); [done|done|done|by apply glob_set| | |].
  - apply call_set. split; cq_proj; try done.
    + intros k' c H. destruct (K4 k' c H) as [-> [M1 M2 M3 M4 M5 M6]]. rewrite Hpc in *. split; [done|].
      split; cq_proj; try done. intros _. by apply (gl_unique s G k k' t _ _ Hpo H).
    + intros _. split_and!; [exact Hpo|done|lia|lia|lia].
  - intros t' q Hne Hq. apply call_set. by apply C.
  - intros t' q Hne Hq. destruct (Pr t t' p q) as [P1 P2 P3]; [congruence|done|done|]. rewrite Hpc in *. by split.
Qed.

(** The head a pass starts from: whoever else's completion lies ahead holds another
    identifier. *)
Lemma own_ahead s t p :
  cq_inv s -> calls s !! t = Some p -> holding (c_pc p) = true ->
  forall k t', cq_head s <= k -> posted s k t' (c_cid p) -> t' = t.
Proof.
  intros [G C Pr] Hp Hh k t' Hk Hpo. destruct (gl_owner s G _ _ _ Hpo) as [q Hq].
  destruct (co_comp _ _ _ (C t' q Hq) k _ Hpo) as [E [M1 _ _ _ M5 _]].
  destruct (decide (t' = t)) as [|Hne]; [done|]. exfalso. destruct (Pr t' t q p Hne Hq Hp) as [P1 _ _].
  apply P1; [|done|done]. destruct (c_pc q); try done. specialize (M5 eq_refl). lia.
Qed.

(** ** Position locks and marks *)

Lemma inv_pos_lock s t p :
  cq_inv s -> calls s !! t = Some p -> c_pc p = DLock -> pos_locks s (c_pos p) = 0 ->
  cq_inv (set_call (set_pos_locks s (fupd (pos_locks s) (c_pos p) (Z.lor 0 1))) t (with_pc p DMark)).
Proof.
  intros [G C Pr] Hp Hpc H0. pose proof (C t p Hp) as [K1 K2 K3 K4 K5 K6 K7 K8]. rewrite Hpc in *. change (Z.lor 0 1) with 1.
  assert (Hpl : forall j, pos_locks s j = 1 -> fupd (pos_locks s) (c_pos p) 1 j = 1) by (intros j ?; unfold fupd; by destruct (j =? c_pos p)).
  eapply (cq_inv_move s _ t p); [done|done|done|..].
  - apply glob_set. apply (glob_same s); try done; [apply G|]. intros j. cq_proj. unfold fupd. destruct (j =? c_pos p); [by right|apply G].
  - apply call_set. split; cq_proj; try done.
    + intros k c H. destruct (K4 k c H) as [-> [M1 M2 M3 M4 M5 M6]]. rewrite Hpc in *. split; [done|]. by split.
    + intros _. apply fupd_eq.
  - intros t' q Hne Hq. apply call_set. pose proof (C t' q Hq) as Kq. eapply (call_keep s); [done|done|done|done|cq_proj; lia|done|..].
    + apply (co_holder _ _ _ Kq).
    + intros H. by apply Hpl, (co_pos _ _ _ Kq).
  - intros t' q Hne Hq. destruct (Pr t t' p q) as [P1 P2 P3]; [congruence|done|done|]. rewrite Hpc in *. split; cq_proj; try done.
    intros _ Hi E. pose proof (co_pos _ _ _ (C t' q Hq) Hi). congruence.
Qed.

Lemma inv_pos_unlock s t p :
  cq_inv s -> calls s !! t = Some p -> c_pc p = DRelease ->
  cq_inv (set_call (set_pos_locks s (fupd (pos_locks s) (c_pos p) 0)) t (with_pc p Put)).
Proof.
  intros [G C Pr] Hp Hpc. pose proof (C t p Hp) as [K1 K2 K3 K4 K5 K6 K7 K8]. rewrite Hpc in *.
  eapply (cq_inv_move s _ t p); [done|done|done|..].
  - apply glob_set. apply (glob_same s); try done; [apply G|]. intros j. cq_proj. unfold fupd. destruct (j =? c_pos p); [by left|apply G].
  - apply call_set. split; cq_proj; try done.
    intros k c H. destruct (K4 k c H) as [-> [M1 M2 M3 M4 M5 M6]]. rewrite Hpc in *. split; [done|]. by split.
  - intros t' q Hne Hq. apply call_set. pose proof (C t' q Hq) as Kq. eapply (call_keep s); [done|done|done|done|cq_proj; lia|done|..].
    + apply (co_holder _ _ _ Kq).
    + intros H. cq_proj. rewrite fupd_ne; [by apply (co_pos _ _ _ Kq)|]. destruct (Pr t' t q p) as [_ P2 _]; [congruence|done|done|].
      rewrite Hpc in P2. by apply P2.
  - intros t' q Hne Hq. destruct (Pr t t' p q) as [P1 P2 P3]; [congruence|done|done|]. rewrite Hpc in *. by split.
Qed.

(** Entries of the window have slots of their own. *)
Lemma window_slots s k k' :
  glob s -> g_passed s <= k -> g_passed s <= k' -> k < n_comps s -> k' < g_passed s + qs -> k mod qs = k' mod qs -> k = k'.
Proof.
  intros G H1 H2 H3 H4 E. pose proof (gl_bounds s G) as (B1 & B2 & B3). pose proof cq_qs_range.
  apply (mod_inj_near qs); [lia|done|lia].
Qed.

Lemma inv_mark s t p :
  cq_inv s -> calls s !! t = Some p -> c_pc p = DMark ->
  cq_inv (set_call (set_marks s (fupd (head_mark s) (c_pos p) LOCKED) (g_passed s)) t (with_pc p DCheck)).
Proof.
  intros [G C Pr] Hp Hpc. pose proof (C t p Hp) as [K1 K2 K3 K4 K5 K6 K7 K8]. rewrite Hpc in *.
  destruct (K6 eq_refl) as (Hpo & Epos & Hh & Hl). pose proof (posted_lt _ _ _ _ Hpo) as HN.
  destruct (K4 _ _ Hpo) as [_ [M1 M2 M3 M4 M5 M6]]. rewrite Hpc in *. specialize (M2 eq_refl). set (loc := c_loc p) in *. rewrite Epos.
  pose proof (gl_bounds s G) as (B1 & B2 & B3).
  assert (Hoth : forall k, g_passed s <= k < g_passed s + qs -> k <> loc -> fupd (head_mark s) (loc mod qs) LOCKED (k mod qs) = head_mark s (k mod qs)).
  { intros k Hk Hne. apply fupd_ne. intros E. apply Hne. symmetry. eapply (window_slots s loc k G); lia. }
  eapply (cq_inv_move s _ t p); [done|done|done|..].
  - apply glob_set. destruct G as [G1 G2 G3 G4 G5 G6 G7 G8 G9 G10 G11]. split; try done. cq_proj. intros k Hk. rewrite Hoth; [by apply G5| |]; unfold n_comps in *; cbn in *; lia.
  - apply call_set. split; cq_proj; try done.
    intros k c H. destruct (K4 k c H) as [-> _]. split; [done|]. assert (k = loc) as -> by (by eapply (gl_unique s G)).
    split; cq_proj; try done. intros _. apply fupd_eq.
  - intros t' q Hne Hq. apply call_set. pose proof (C t' q Hq) as Kq. eapply (call_rely s); [done|done|done|cq_proj; lia|cq_proj; lia|..].
    + intros k c H Hm. by apply (cm_ahead _ _ _ (proj2 (co_comp _ _ _ Kq k c H))).
    + cq_proj. intros k c H Hk. pose proof (posted_lt _ _ _ _ H). apply Hoth; [lia|]. intros ->.
      by destruct (posted_fun _ _ _ _ _ _ H Hpo).
    + apply (co_holder _ _ _ Kq).
    + apply (co_pos _ _ _ Kq).
  - intros t' q Hne Hq. destruct (Pr t t' p q) as [P1 P2 P3]; [congruence|done|done|]. rewrite Hpc in *. by split.
Qed.

(** ** The head lock *)

Lemma inv_head_lock s t p :
  cq_inv s -> calls s !! t = Some p -> c_pc p = DTry -> cq_lock s <> LOCKED ->
  cq_inv (set_call (set_cq_lock s (Z.lor (cq_lock s) LOCKED)) t (with_pc p DHead)).
Proof.
  intros [G C Pr] Hp Hpc Hl. pose proof (C t p Hp) as [K1 K2 K3 K4 K5 K6 K7 K8]. rewrite Hpc in *.
  destruct (gl_lock s G) as [|E0]; [done|]. pose proof (gl_free s G Hl) as Hfr. rewrite E0. change (Z.lor UNLOCKED LOCKED) with LOCKED.
  assert (Hno : forall t' q, calls s !! t' = Some q -> holds (c_pc q) = true -> False).
  { intros t' q Hq Hh. by destruct (co_holder _ _ _ (C t' q Hq) Hh) as [? _]. }
  eapply (cq_inv_move s _ t p); [done|done|done|..].
  - apply glob_set. destruct G as [G1 G2 G3 G4 G5 G6 G7 G8 G9 G10 G11]. split; try done. by left.
  - apply call_set. split; cq_proj; try done.
    intros k c H. destruct (K4 k c H) as [-> [M1 M2 M3 M4 M5 M6]]. rewrite Hpc in *. split; [done|]. by split.
  - intros t' q Hne Hq. apply call_set. pose proof (C t' q Hq) as Kq. eapply (call_keep s); [done|done|done|done|cq_proj; lia|done|..].
    + intros Hh. by destruct (Hno t' q Hq Hh).
    + apply (co_pos _ _ _ Kq).
  - intros t' q Hne Hq. destruct (Pr t t' p q) as [P1 P2 P3]; [congruence|done|done|]. rewrite Hpc in *. split; cq_proj; try done.
    intros _ Hh. by apply (Hno t' q).
Qed.

Lemma inv_head_unlock s t p :
  cq_inv s -> calls s !! t = Some p -> c_pc p = DUnlock -> cq_inv (set_call (set_cq_lock s UNLOCKED) t (with_pc p DCheck)).
Proof.
  intros [G C Pr] Hp Hpc. pose proof (C t p Hp) as [K1 K2 K3 K4 K5 K6 K7 K8]. rewrite Hpc in *. destruct (K7 eq_refl) as [_ Ho].
  eapply (cq_inv_move s _ t p); [done|done|done|..].
  - apply glob_set. destruct G as [G1 G2 G3 G4 G5 G6 G7 G8 G9 G10 G11]. split; try done. by right.
  - apply call_set. split; cq_proj; try done.
    intros k c H. destruct (K4 k c H) as [-> [M1 M2 M3 M4 M5 M6]]. rewrite Hpc in *. split; [done|]. by split.
  - intros t' q Hne Hq. apply call_set. pose proof (C t' q Hq) as Kq. eapply (call_keep s); [done|done|done|done|cq_proj; lia|done|..].
    + intros Hh. destruct (Pr t t' p q) as [_ _ P3]; [congruence|done|done|]. rewrite Hpc in P3. by destruct P3.
    + apply (co_pos _ _ _ Kq).
  - intros t' q Hne Hq. destruct (Pr t t' p q) as [P1 P2 P3]; [congruence|done|done|]. rewrite Hpc in *. by split.
Qed.

(** The lock holder [t] moves on with the head, the doorbell or the cleared marks. *)
Lemma inv_holder s s' t p c :
  cq_inv s -> calls s !! t = Some p -> holds (c_pc p) = true -> flags c = flags (c_pc p) -> holder_ok s' c -> holds c = true ->
  calls s' = <[t := with_pc p c]> (calls s) -> cids s' = cids s -> pos_locks s' = pos_locks s -> comps s' = comps s ->
  cq_lock s' = cq_lock s -> g_passed s <= g_passed s' -> cq_head s <= cq_head s' -> glob s' ->
  (forall k t' x q, posted s k t' x -> calls s !! t' = Some q -> marked (c_pc q) = false -> g_passed s' <= k) ->
  (forall k t' x, posted s k t' x -> g_passed s' <= k -> head_mark s' (k mod qs) = head_mark s (k mod qs)) ->
  cq_inv s'.
Proof.
  intros [G C Pr] Hp Hh Ef Ho Hc Eca Eci Epl Eco Elk Hg Hhd G' Hu Hm. pose proof (C t p Hp) as K.
  destruct (co_holder _ _ _ K Hh) as [Hlk _]. eapply (cq_inv_move s s' t p (with_pc p c)); [done|done|done|done| | |].
  - pose proof Ef as Ef'. unfold flags in Ef'. injection Ef' as F1 F2 F3 F4 F5 F6 F7.
    eapply (call_update s s' t p c K Ef); try done.
    + by rewrite Eci.
    + intros k x H Hmk. eapply Hu; [done|done|by rewrite <- F4].
    + intros k x H. by eapply Hm.
    + intros _. by rewrite Elk.
    + rewrite F5, Epl. apply (co_pos _ _ _ K).
    + intros id ->. done.
    + intros h i ->. done.
    + intros ->. done.
  - intros t' q Hne Hq. pose proof (C t' q Hq) as Kq. eapply (call_rely s); [done|by rewrite Eci|done|done|done|..].
    + intros k x H Hmk. by eapply Hu.
    + intros k x H. by eapply Hm.
    + intros Hhq. destruct (Pr t t' p q) as [_ _ P3]; [congruence|done|done|]. by destruct P3.
    + rewrite Epl. apply (co_pos _ _ _ Kq).
  - intros t' q Hne Hq. apply (pair_flags p); [done|]. apply (Pr t t'); [congruence|done|done].
Qed.

(** ** Moving the head *)

Lemma cq_holder_facts s t p cur n :
  cq_inv s -> calls s !! t = Some p -> c_pc p = DMove cur n ->
  cur = cq_head s /\ dev_head s = cur /\ g_passed s = cur + n /\ 0 <= n < qs /\ cur + n < 2 ^ 32 - qs /\ n < 2 ^ 32 - 1.
Proof.
  intros [G C Pr] Hp Hpc. destruct (co_holder _ _ _ (C t p Hp)) as [_ Ho]; [by rewrite Hpc|]. rewrite Hpc in Ho. cbn in Ho.
  pose proof (gl_bounds s G). pose proof (gl_small s G). pose proof cq_qs_range. lia.
Qed.

Lemma inv_move_pass s t p cur n :
  cq_inv s -> calls s !! t = Some p -> c_pc p = DMove cur n -> head_mark s ((cur + n) mod qs) = LOCKED ->
  cq_inv (set_call (set_marks s (fupd (head_mark s) ((cur + n) mod qs) UNLOCKED) (g_passed s + 1)) t (with_pc p (DMove cur (n + 1)))).
Proof.
  intros I Hp Hpc Hm. destruct (cq_holder_facts s t p cur n I Hp Hpc) as (E1 & E2 & E3 & Hn & _). rewrite <- E3 in Hm |- *.
  pose proof I as [G C Pr]. pose proof (gl_bounds s G) as (B1 & B2 & B3). pose proof cq_qs_range. set (g := g_passed s) in *.
  assert (Hg : g < n_comps s) by (apply Z.nle_gt; intros Hge; pose proof (gl_clear s G g); rewrite Hm in *; unfold UNLOCKED, LOCKED in *; lia).
  destruct (posted_at s g) as (tg & cg & Hpg); [lia|]. destruct (gl_owner s G _ _ _ Hpg) as [qg Hqg].
  destruct (co_comp _ _ _ (C tg qg Hqg) g cg Hpg) as [_ Mg].
  assert (Hmk : marked (c_pc qg) = true).
  { pose proof (cm_mark _ _ _ Mg) as M. rewrite Hm in M. destruct (marked (c_pc qg)); [done|]. by specialize (M ltac:(lia)). }
  assert (Hoth : forall k, g < k < g + qs -> fupd (head_mark s) (g mod qs) UNLOCKED (k mod qs) = head_mark s (k mod qs)).
  { intros k Hk. apply fupd_ne. intros E. assert (g = k); [|lia]. eapply (window_slots s g k G); lia. }
  eapply (inv_holder s _ t p (DMove cur (n + 1))); try done; try (by rewrite Hpc); cq_proj; try lia.
  - cbn. lia.
  - apply glob_set. destruct G as [G1 G2 G3 G4 G5 G6 G7 G8 G9 G10 G11]. split; try done; cq_proj.
    + change (n_comps (set_marks _ _ _)) with (n_comps s). lia.
    + change (n_comps (set_marks _ _ _)) with (n_comps s). intros k Hk. destruct (decide (k = g + qs)) as [->|].
      * rewrite mod_qs_add. apply fupd_eq.
      * rewrite Hoth by lia. apply G5. lia.
    + intros Hl. destruct (co_holder _ _ _ (C t p Hp)) as [? _]; [by rewrite Hpc|done].
  - intros k t' x q Hpo Hq Hmq. pose proof (cm_ahead _ _ _ (proj2 (co_comp _ _ _ (C t' q Hq) k x Hpo)) Hmq).
    assert (k <> g); [|lia]. intros ->. destruct (posted_fun _ _ _ _ _ _ Hpo Hpg) as [-> _]. congruence.
  - intros k t' x Hpo Hk. pose proof (posted_lt _ _ _ _ Hpo). apply Hoth. lia.
Qed.

Lemma inv_move_stop s t p cur n :
  cq_inv s -> calls s !! t = Some p -> c_pc p = DMove cur n -> head_mark s ((cur + n) mod qs) <> LOCKED ->
  cq_inv (set_call (set_marks s (fupd (head_mark s) ((cur + n) mod qs) UNLOCKED) (g_passed s)) t
            (with_pc p (if negb (n =? 0) then DBell cur n else DUnlock))).
Proof.
  intros I Hp Hpc Hm. destruct (cq_holder_facts s t p cur n I Hp Hpc) as (E1 & E2 & E3 & Hn & _). rewrite <- E3 in Hm |- *.
  pose proof I as [G C Pr]. pose proof (gl_bounds s G) as (B1 & B2 & B3). pose proof cq_qs_range. set (g := g_passed s) in *.
  assert (H0 : head_mark s (g mod qs) = UNLOCKED).
  { destruct (decide (g < n_comps s)) as [Hg|Hg]; [|apply (gl_clear s G g); lia].
    destruct (posted_at s g) as (tg & cg & Hpg); [lia|]. destruct (gl_owner s G _ _ _ Hpg) as [qg Hqg].
    pose proof (cm_mark _ _ _ (proj2 (co_comp _ _ _ (C tg qg Hqg) g cg Hpg))) as M. rewrite M in * by lia. by destruct (marked (c_pc qg)). }
  eapply (inv_same (set_call s t (with_pc p (if negb (n =? 0) then DBell cur n else DUnlock)))); try done.
  - intros i. cq_proj. unfold fupd. destruct (Z.eqb_spec i (g mod qs)) as [->|]; [by rewrite H0|done].
  - apply cq_inv_goto; try done.
    + rewrite Hpc. by destruct (n =? 0).
    + by destruct (n =? 0).
    + by destruct (n =? 0).
    + by destruct (n =? 0).
    + intros _. destruct (Z.eqb_spec n 0); cbn; fold g; lia.
Qed.

Lemma inv_bell s t p cur n :
  cq_inv s -> calls s !! t = Some p -> c_pc p = DBell cur n ->
  cq_inv (set_call (ring_cq_doorbell s (Z.land (u32 (cur + n)) qs_minus_1)) t (with_pc p (DStore cur n))).
Proof.
  intros I Hp Hpc. pose proof I as [G C Pr]. destruct (co_holder _ _ _ (C t p Hp)) as [_ Ho]; [by rewrite Hpc|]. rewrite Hpc in Ho. cbn in Ho.
  pose proof (gl_bounds s G) as (B1 & B2 & B3). pose proof cq_qs_range.
  assert (E : dev_head s + (Z.land (u32 (cur + n)) qs_minus_1 - dev_head s) mod qs = cur + n).
  { rewrite cq_land_qs, u32_mod_qs, Zminus_mod_idemp_l. replace (cur + n - dev_head s) with n by lia. rewrite Z.mod_small by lia. lia. }
  unfold ring_cq_doorbell. rewrite E. eapply (inv_holder s _ t p (DStore cur n)); try done; try (by rewrite Hpc); cq_proj; try lia.
  - cbn. lia.
  - apply glob_set. destruct G as [G1 G2 G3 G4 G5 G6 G7 G8 G9 G10 G11]. split; try done; cq_proj.
    + change (n_comps (set_dev_head _ _)) with (n_comps s). lia.
    + intros Hl. destruct (co_holder _ _ _ (C t p Hp)) as [? _]; [by rewrite Hpc|done].
  - intros k t' x q Hpo Hq Hmq. by apply (cm_ahead _ _ _ (proj2 (co_comp _ _ _ (C t' q Hq) k x Hpo)) Hmq).
Qed.

Lemma inv_store s t p cur n :
  cq_inv s -> calls s !! t = Some p -> c_pc p = DStore cur n ->
  cq_inv (set_call (set_cq_head s (u32 (cur + n))) t (with_pc p DUnlock)).
Proof.
  intros I Hp Hpc. pose proof I as [G C Pr]. destruct (co_holder _ _ _ (C t p Hp)) as [_ Ho]; [by rewrite Hpc|]. rewrite Hpc in Ho. cbn in Ho.
  pose proof (gl_bounds s G) as (B1 & B2 & B3). pose proof (gl_small s G). pose proof cq_qs_range. rewrite u32_id by (unfold is_word; lia).
  eapply (inv_holder s _ t p DUnlock); try done; try (by rewrite Hpc); cq_proj; try lia.
  - cbn. lia.
  - apply glob_set. destruct G as [G1 G2 G3 G4 G5 G6 G7 G8 G9 G10 G11]. split; try done; cq_proj.
    + change (n_comps (set_cq_head _ _)) with (n_comps s). lia.
    + intros Hl. destruct (co_holder _ _ _ (C t p Hp)) as [? _]; [by rewrite Hpc|done].
  - intros k t' x q Hpo Hq Hmq. by apply (cm_ahead _ _ _ (proj2 (co_comp _ _ _ (C t' q Hq) k x Hpo)) Hmq).
Qed.

Lemma check_cleared s t p :
  cq_inv s -> calls s !! t = Some p -> c_pc p = DCheck -> head_mark s (c_pos p) <> LOCKED ->
  forall k x, posted s k t x -> k < g_passed s.
Proof.
  intros [G C Pr] Hp Hpc Hm k x Hpo. pose proof (C t p Hp) as K. destruct (co_polled _ _ _ K) as (Hl & Epos & _); [by rewrite Hpc|].
  assert (c_loc p = k) as <- by (by eapply (gl_unique s G)). apply Z.nle_gt. intros Hk. apply Hm. rewrite Epos.
  rewrite (cm_mark _ _ _ (proj2 (co_comp _ _ _ K _ _ Hl)) Hk). by rewrite Hpc.
Qed.

Lemma inv_final s t p :
  cq_inv s -> calls s !! t = Some p -> c_pc p = DFinal -> head_passed (cq_head s) (c_head p) (c_loc p) = true ->
  cq_inv (set_call s t (with_pc p DRelease)).
Proof.
  intros [G C Pr] Hp Hpc Hh. pose proof (C t p Hp) as [K1 K2 K3 K4 K5 K6 K7 K8]. rewrite Hpc in *.
  destruct (K6 eq_refl) as (Hpo & Epos & Hch & Hcl).
  assert (Hlt : c_loc p < cq_head s).
  { unfold head_passed in Hh. destruct (Z.gtb_spec (cq_head s) (c_head p)); [lia|]. destruct (Z.ltb_spec (cq_head s) (c_head p)); [lia|done]. }
  eapply (cq_inv_move s _ t p); [done|done|done|by apply glob_set| | |].
  - apply call_set. split; cq_proj; try done. intros k c H. destruct (K4 k c H) as [-> [M1 M2 M3 M4 M5 M6]]. rewrite Hpc in *.
    split; [done|]. split; cq_proj; try done. intros _. by rewrite <- (M6 eq_refl).
  - intros t' q Hne Hq. apply call_set. by apply C.
  - intros t' q Hne Hq. destruct (Pr t t' p q) as [P1 P2 P3]; [congruence|done|done|]. rewrite Hpc in *. by split.
Qed.

(** ** The controller *)

Lemma cmd_cid_io_command r cid : req_ok r -> is_word 16 cid -> cmd_cid (io_command r cid) = cid.
Proof.
  intros (Hl & _ & Ho) Hc. unfold cmd_cid, io_command. rewrite RB_spec by lia. change (31 - 16 + 1) with 16.
  set (c0 := nvm_cmd_header (r_junk r) cid (r_opcode r) (r_ns r)).
  assert (Hl0 : length c0 = 16%nat) by (unfold c0, nvm_cmd_header; by rewrite !length_insert).
  destruct (nvm_cmd_header_fields (r_junk r) cid (r_opcode r) (r_ns r) Hl Hc Ho) as (_ & Hd & _). fold c0 in Hd.
  unfold nvm_cmd_rw_blks, nvm_cmd_dsm, nvm_cmd_data_ptr. destruct (r_args r); autorewrite with word;
  rewrite <- Z.shiftr_div_pow2, Z.shiftr_land by lia; rewrite Z.shiftr_div_pow2, Hd by lia;
  change (Z.shiftr (u32 (Z.lnot (Z.lor (Z.shiftl 3 14) (Z.shiftl 3 8)))) 16) with (2 ^ 16 - 1);
  rewrite land_ones_mod, Zmod_mod by lia; apply Z.mod_small; unfold is_word in Hc; lia.
Qed.

Lemma entry_decode cid phase status :
  is_word 16 cid -> 0 <= phase < 2 -> entry_ok (cid + phase * 2 ^ 16 + status * 2 ^ 17) cid phase.
Proof.
  intros Hc Hp. unfold is_word in Hc. split.
  - change 0xffff with (2 ^ 16 - 1). rewrite land_ones_mod by lia.
    replace (cid + phase * 2 ^ 16 + status * 2 ^ 17) with (cid + (phase + status * 2) * 2 ^ 16) by lia.
    rewrite Z.mod_add by lia. apply Z.mod_small. lia.
  - rewrite Z.shiftr_land. change (Z.shiftr 0x10000 16) with (2 ^ 1 - 1). rewrite land_ones_mod, Z.shiftr_div_pow2 by lia.
    replace (cid + phase * 2 ^ 16 + status * 2 ^ 17) with (cid + (phase + status * 2) * 2 ^ 16) by lia.
    rewrite Z.div_add, Z.div_small by lia. replace (0 + (phase + status * 2)) with (phase + status * 2 ^ 1) by lia.
    rewrite Z.mod_add by lia. apply Z.mod_small. lia.
Qed.

Lemma phase_range k : 0 <= phase_of k < 2.
Proof. unfold phase_of. pose proof (Z.mod_pos_bound (k / qs) 2). lia. Qed.

Lemma posted_app s s' x k t c :
  comps s' = comps s ++ [x] -> posted s' k t c <-> posted s k t c \/ (k = n_comps s /\ x = (t, c)).
Proof.
  intros E. unfold posted, n_comps. rewrite E. split.
  - intros [Hk [H|[Hge H]]%lookup_app_Some]; [by left|]. apply list_lookup_singleton_Some in H as [H ->]. right. split; [lia|done].
  - intros [[Hk H]|[-> ->]]; (split; [lia|]); [by apply lookup_app_l_Some|]. rewrite Nat2Z.id, lookup_app_r, Nat.sub_diag by lia. done.
Qed.

Lemma glob_post s s' t c e :
  glob s -> n_comps s' + qs < 2 ^ 32 -> is_Some (calls s !! t) -> (forall k x, ~ posted s k t x) ->
  (n_comps s + 1) mod qs <> dev_head s mod qs -> entry_ok e c (phase_of (n_comps s)) ->
  comps s' = comps s ++ [(t, c)] -> cpl s' = fupd (cpl s) (n_comps s mod qs) e -> cq_head s' = cq_head s -> dev_head s' = dev_head s ->
  g_passed s' = g_passed s -> head_mark s' = head_mark s -> cq_lock s' = cq_lock s -> calls s' = calls s -> cids s' = cids s ->
  pos_locks s' = pos_locks s -> glob s'.
Proof.
  intros [G1 G2 G3 G4 G5 G6 G7 G8 G9 G10 G11] Hs Hc Hno Hroom He Eco Epl Eh Ed Eg Em El Eca Eci Epo. pose proof cq_qs_range.
  assert (EN : n_comps s' = n_comps s + 1) by (unfold n_comps; rewrite Eco, length_app; cbn; lia).
  assert (HN : 0 <= n_comps s) by (unfold n_comps; lia).
  split; rewrite ?EN, ?Eh, ?Ed, ?Eg, ?Em, ?El, ?Eca, ?Eci, ?Epo; try done.
  - assert (n_comps s + 1 <> dev_head s + qs); [|lia]. intros E. apply Hroom. rewrite E. apply mod_qs_add.
  - lia.
  - intros k t' x Hpo Hk. rewrite Epl. apply (posted_app s s' _ k t' x Eco) in Hpo as [Hpo|[-> [= <- <-]]]; [|by rewrite fupd_eq].
    pose proof (posted_lt _ _ _ _ Hpo). rewrite fupd_ne; [by apply (G3 k t' x); [|lia]|].
    intros E. assert (k = n_comps s); [|lia]. apply (mod_inj_near qs); lia.
  - intros j Hj. rewrite Epl, fupd_ne; [apply G4; lia|]. rewrite Z.mod_small; lia.
  - intros k Hk. apply G5. lia.
  - intros k t' x Hpo. apply (posted_app s s' _ k t' x Eco) in Hpo as [Hpo|[_ [= <- _]]]; [by eapply G6|done].
  - intros k k' t' x x' Hpo Hpo'. apply (posted_app s s' _ k t' x Eco) in Hpo. apply (posted_app s s' _ k' t' x' Eco) in Hpo'.
    destruct Hpo as [Hpo|[-> [= <- <-]]], Hpo' as [Hpo'|[-> E]]; [by eapply G7| |by destruct (Hno k' x')|done].
    injection E as <- <-. by destruct (Hno k x).
Qed.

Lemma inv_post s t status s' :
  cq_inv s -> 0 <= status -> cq_post s t status = Some s' -> n_comps s' + qs < 2 ^ 32 -> cq_inv s'.
Proof.
  intros [G C Pr] Hst E Hs. unfold cq_post in E. destruct (calls s !! t) as [p|] eqn:Hp; [|done].
  destruct (submitted (c_pc p) && _ && _) eqn:Hb; [|done]. apply andb_true_iff in Hb as [[Hsub Hnew]%andb_true_iff Hroom].
  injection E as <-. set (cid := cmd_cid _) in *. pose proof (C t p Hp) as K. pose proof (gl_bounds s G) as (B1 & B2 & B3).
  assert (Hno : forall k x, ~ posted s k t x).
  { intros k x [_ H]. apply list_elem_of_lookup_2 in H. rewrite forallb_forall in Hnew. specialize (Hnew (t, x)).
    rewrite <- list_elem_of_In in Hnew. specialize (Hnew H). cbn in Hnew. by rewrite Nat.eqb_refl in Hnew. }
  assert (Hpoll : polled (c_pc p) = false).
  { destruct (polled (c_pc p)) eqn:Hpl; [|done]. destruct (co_polled _ _ _ K Hpl) as [H _]. by destruct (Hno _ _ H). }
  assert (Hpcs : c_pc p = PHead \/ exists h i, c_pc p = PEntry h i) by (destruct (c_pc p); try done; eauto).
  assert (Hh : holding (c_pc p) = true) by (by destruct Hpcs as [->|(? & ? & ->)]).
  destruct (co_cid _ _ _ K Hh) as [Hw _]. assert (Ecid : cid = c_cid p) by (apply cmd_cid_io_command; [apply K|done]).
  set (s' := MkCq _ _ _ _ _ _ _ _ _ _ _ _) in *. assert (Eco : comps s' = comps s ++ [(t, cid)]) by done.
  split; [|intros t' q Hq; pose proof (C t' q Hq) as Kq; change (calls s !! t' = Some q) in Hq|done].
  - eapply (glob_post s s' t cid); try done; [by apply Z.eqb_neq, negb_true_iff|].
    apply entry_decode; [by rewrite Ecid|apply phase_range].
  - destruct Kq as [K1 K2 K3 K4 K5 K6 K7 K8]. split; try done.
    + intros k x Hpo. apply (posted_app s s' _ k t' x Eco) in Hpo as [Hpo|[-> [= <- <-]]].
      * destruct (K4 k x Hpo) as [-> [M1 M2 M3 M4 M5 M6]]. split; [done|]. by split.
      * rewrite Hp in Hq. injection Hq as <-. split; [done|].
        assert (Hm : marked (c_pc p) = false) by (by destruct Hpcs as [->|(? & ? & ->)]).
        split; rewrite ?Hm, ?Hpoll; try done.
        -- intros _. unfold s'. cq_proj. lia.
        -- intros _. apply (gl_clear s G). lia.
        -- intros Hf. rewrite Hf in Hm. done.
        -- intros Hf. by destruct Hpcs as [Hx|(? & ? & Hx)]; rewrite Hx in Hf.
    + intros h i Hpc. destruct (K5 h i Hpc) as (Hh' & Hi & Hown). split_and!; [apply Hh'|apply Hh'|done|].
      intros k t1 Hk Hpo. apply (posted_app s s' _ k t1 _ Eco) in Hpo as [Hpo|[-> [= <- Hx]]]; [by eapply Hown|].
      destruct (decide (t = t')) as [->|Hne]; [done|]. destruct (Pr t t' p q Hne Hp Hq) as [P1 _ _].
      destruct P1; [done|by rewrite Hpc|congruence].
    + intros Hpl. destruct (K6 Hpl) as (Hpo & ? & ? & ?). split; [|done]. apply (posted_app s s' _ _ _ _ Eco). by left.
Qed.

Lemma inv_new_call s r : cq_inv s -> req_ok r -> cq_inv (cq_call s r).
Proof.
  intros [G C Pr] Hr. set (p0 := MkCall r 0 0 0 0 GTicket).
  assert (Hlk : forall t q, calls (cq_call s r) !! t = Some q -> calls s !! t = Some q \/ (t = length (calls s) /\ q = p0)).
  { intros t q. cbn. rewrite lookup_app_Some. intros [?|[Hge [? <-]%list_lookup_singleton_Some]]; [by left|]. right. split; [lia|done]. }
  assert (Hpos : forall k t x, posted s k t x -> t <> length (calls s)).
  { intros k t x H ->. destruct (gl_owner s G _ _ _ H) as [q Hq]. apply lookup_lt_Some in Hq. lia. }
  split.
  - apply (glob_same s); try done; [|apply G|apply G]. intros t [q Hq]. exists q. cbn. by apply lookup_app_l_Some.
  - intros t q [Hq|[-> ->]]%Hlk.
    + pose proof (C t q Hq) as Kq. eapply (call_keep s); [done|done|done|done|cbn; lia|done|apply (co_holder _ _ _ Kq)|apply (co_pos _ _ _ Kq)].
    + split; cbn; try done. intros k c H. by destruct (Hpos k _ c H).
  - intros t t' p q Hne [Hq|[-> ->]]%Hlk [Hq'|[-> ->]]%Hlk; [by eapply Pr|by split|by split|done].
Qed.

Lemma cq_inv_access s t s' : cq_inv s -> timely s -> cq_access s t = Some s' -> cq_inv s'.
Proof.
  intros I [Hsm Htm] E. unfold cq_access, get_cid_ticket, get_cid_try, put_cid in E. destruct (calls s !! t) as [p|] eqn:Hp; [|done].
  pose proof (ci_call _ I t p Hp) as K. pose proof (ci_glob _ I) as G.
  destruct (c_pc p) as [|id| | |h i| | | | | | | | |cur n|cur n|cur n| | | | |] eqn:Hpc; try injection E as <-.
  - eapply (inv_same (set_call s t (with_pc p (GTry (Z.land (cid_ticket s) 65535))))); try done.
    apply cq_inv_goto; try done; [by rewrite Hpc|]. intros id [= <-]. change 65535 with (2 ^ 16 - 1). rewrite land_ones_mod by lia.
    apply Z.mod_pos_bound. lia.
  - destruct (Z.eqb_spec (cids s id) LOCKED) as [El|El]; injection E as <-; [|by apply inv_get_cid].
    eapply (inv_same (set_call s t (with_pc p GTicket))); try done.
    + intros j. cq_proj. unfold fupd. destruct (Z.eqb_spec j id) as [->|]; [by rewrite El|done].
    + apply cq_inv_goto; try done. by rewrite Hpc.
  - by apply cq_inv_submit.
  - apply cq_inv_goto; try done; [by rewrite Hpc|]. intros h i [= <- <-]. pose proof (gl_bounds s G). split_and!; [lia|lia|lia|].
    apply (own_ahead s t p I Hp). by rewrite Hpc.
  - unfold cq_poll_step. destruct (co_poll _ _ _ K h i Hpc) as (Hh & Hi & Hown).
    pose proof (gl_bounds s G) as (B1 & B2 & B3). pose proof cq_qs_range.
    destruct (Z.ltb_spec i qs_minus_1) as [Hlt|]; [|by apply cq_inv_goto; try done; rewrite Hpc].
    unfold qs_minus_1 in Hlt. rewrite (u32_id (h + i)) by (unfold is_word; lia). rewrite search_phase_eq, cq_land_qs by lia.
    rewrite u16_id by (pose proof (cq_mod_range (h + i)); unfold is_word; lia).
    destruct (Z.eqb_spec (Z.shiftr (Z.land (cpl s ((h + i) mod qs)) 0x10000) 16) (phase_of (h + i))) as [Eph|]; cbn [negb]; rewrite ?andb_false_r.
    + destruct (Z.eqb_spec (Z.land (cpl s ((h + i) mod qs)) 0xffff) (c_cid p)) as [Ec|]; cbn [andb].
      * apply (inv_polled s t p h i); try done. by eapply Htm.
      * apply cq_inv_goto; try done; [by rewrite Hpc|]. intros h' i' [= <- <-]. split_and!; [lia|lia|lia|done].
    + apply cq_inv_goto; try done. by rewrite Hpc.
  - eapply (inv_same (set_call s t (with_pc p DTail))); try done. apply cq_inv_goto; try done. by rewrite Hpc.
  - eapply (inv_same (set_call s t (with_pc p DWait))); try done. apply cq_inv_goto; try done. by rewrite Hpc.
  - apply cq_inv_goto; try done; by (destruct (pos_locks s (c_pos p) =? 0); rewrite ?Hpc).
  - destruct (Z.eqb_spec (pos_locks s (c_pos p)) 0) as [El|El]; cbn [negb]; [rewrite El; by apply inv_pos_lock|].
    destruct (gl_pos s G (c_pos p)) as [|E1]; [done|].
    eapply (inv_same (set_call s t (with_pc p DLock))); try done; [|by apply cq_inv_goto; try done; rewrite Hpc].
    intros j. cq_proj. unfold fupd. destruct (Z.eqb_spec j (c_pos p)) as [->|]; [by rewrite E1|done].
  - by apply inv_mark.
  - destruct (Z.eqb_spec (head_mark s (c_pos p)) LOCKED) as [El|El]; apply cq_inv_goto; try done; try (by rewrite Hpc).
    intros _. by apply (check_cleared s t p).
  - destruct (Z.eqb_spec (cq_lock s) LOCKED) as [El|El]; [|by apply inv_head_lock].
    eapply (inv_same (set_call s t (with_pc p DCheck))); try done; [by cq_proj; rewrite El|]. apply cq_inv_goto; try done. by rewrite Hpc.
  - apply cq_inv_goto; try done; [by rewrite Hpc|]. intros _. destruct (co_holder _ _ _ K) as [_ Ho]; [by rewrite Hpc|]. rewrite Hpc in Ho. cbn in *. lia.
  - destruct (cq_holder_facts s t p cur n I Hp Hpc) as (_ & _ & _ & Hn & Hc & Hn'). pose proof cq_qs_range.
    unfold move_head_cq_step. rewrite cq_land_qs, u32_mod_qs, (u32_id (n + 1)) by (unfold is_word; lia).
    destruct (Z.eqb_spec (head_mark s ((cur + n) mod qs)) LOCKED) as [El|El]; [by apply inv_move_pass|by apply inv_move_stop].
  - by apply inv_bell.
  - by apply inv_store.
  - by apply inv_head_unlock.
  - destruct (head_passed (cq_head s) (c_head p) (c_loc p)) eqn:Eh; [by apply inv_final|]. apply cq_inv_goto; try done; [by rewrite Hpc|].
    intros _ k x H. by apply (cm_final _ _ _ (proj2 (co_comp _ _ _ K k x H))).
  - by apply inv_pos_unlock.
  - by apply inv_put_cid.
  - done.
Qed.

Lemma cq_initial_inv s : cq_init s -> cq_inv s /\ timely s.
Proof.
  intros (Ec & Ee & Eh & Em & El & Ep & Eca & Ed & Eco & Eg). pose proof cq_qs_range.
  assert (EN : n_comps s = 0) by (unfold n_comps; by rewrite Eco).
  assert (Hno : forall k t c, ~ posted s k t c) by (intros k t c [_ H']; by rewrite Eco in H').
  split; [split|split].
  - split; rewrite ?EN, ?Eh, ?Ed, ?Eg; try done; try lia.
    + intros k t c H'. by destruct (Hno k t c).
    + intros j _. by rewrite Ee.
    + intros k t c H'. by destruct (Hno k t c).
    + intros k k' t c c' H'. by destruct (Hno k t c).
    + by right.
    + intros i. right. apply Ec.
    + intros i. left. apply Ep.
  - intros t p. by rewrite Eca.
  - intros t t' p q _. by rewrite Eca.
  - rewrite EN. lia.
  - intros t p h i. by rewrite Eca.
Qed.

Lemma cq_reachable s0 s : cq_init s0 -> rtc timely_step s0 s -> cq_inv s /\ timely s.
Proof.
  intros H0%cq_initial_inv. induction 1 as [|s1 s2 s3 [[a s s' Ha E] Ht] _ IH]; [done|]. apply IH. split; [|done]. destruct H0 as [I T].
  destruct a as [r|t|t st]; cbn in E.
  - injection E as <-. by apply inv_new_call.
  - by eapply cq_inv_access.
  - eapply inv_post; [done| |done|apply Ht]. lia.
Qed.

(** ** What the requests get *)

(** C7: In every timely run (no pass of [cq_poll] is overtaken by two laps of completions,
    fewer than 2^32 completions in all) [cq_poll] returns the place of the request's own
    completion, the only one posted for it, and the entry stays there until the request has
    marked it. *)
Theorem cq_poll_finds_own s0 s t p :
  cq_init s0 -> rtc timely_step s0 s -> calls s !! t = Some p -> polled (c_pc p) = true ->
  posted s (c_loc p) t (c_cid p) /\ c_pos p = c_loc p mod qs /\ (forall k c, posted s k t c -> k = c_loc p) /\
  (marked (c_pc p) = false -> entry_ok (cpl s (c_pos p)) (c_cid p) (phase_of (c_loc p))).
Proof.
  intros H0 Hr Hp Hpl. destruct (cq_reachable s0 s H0 Hr) as [[G C Pr] _]. pose proof (C t p Hp) as K.
  destruct (co_polled _ _ _ K Hpl) as (Hpo & Epos & _). split_and!; [exact Hpo|done|..].
  - intros k c H. by eapply (gl_unique s G).
  - intros Hm. rewrite Epos. apply (gl_entry s G _ t); [done|]. pose proof (gl_bounds s G).
    pose proof (cm_ahead _ _ _ (proj2 (co_comp _ _ _ K _ _ Hpo)) Hm). lia.
Qed.

(** C16: In every timely run, requests between [get_cid] and [put_cid] have different identifiers, requests between
    lock and release of a position have different positions, and one request at a time
    moves the head. *)
Theorem cq_exclusive s0 s t t' p q :
  cq_init s0 -> rtc timely_step s0 s -> t <> t' -> calls s !! t = Some p -> calls s !! t' = Some q ->
  (holding (c_pc p) = true -> holding (c_pc q) = true -> c_cid p <> c_cid q) /\
  (in_pos (c_pc p) = true -> in_pos (c_pc q) = true -> c_pos p <> c_pos q) /\
  ~ (holds (c_pc p) = true /\ holds (c_pc q) = true).
Proof.
  intros H0 Hr Hne Hp Hq. destruct (cq_reachable s0 s H0 Hr) as [[G C Pr] _]. destruct (Pr t t' p q Hne Hp Hq) as [P1 P2 P3].
  split_and!; [done|done|]. intros [? ?]. by apply P3.
Qed.

(** C15: In every timely run the doorbell and the head stay behind the completions posted, less than one lap; what
    they have passed was consumed by the requests it belongs to, and a request that is done
    is behind the head. *)
Theorem cq_head_consumed s0 s :
  cq_init s0 -> rtc timely_step s0 s ->
  cq_head s <= dev_head s <= n_comps s /\ n_comps s <= dev_head s + qs - 1 /\
  (forall k t c, posted s k t c -> k < dev_head s -> exists p, calls s !! t = Some p /\ marked (c_pc p) = true /\ c_loc p = k) /\
  (forall t p, calls s !! t = Some p -> c_pc p = Done -> posted s (c_loc p) t (c_cid p) /\ c_loc p < cq_head s).
Proof.
  intros H0 Hr. destruct (cq_reachable s0 s H0 Hr) as [[G C Pr] _]. pose proof (gl_bounds s G) as (B1 & B2 & B3).
  split_and!; [lia|lia|lia|..].
  - intros k t c Hpo Hk. destruct (gl_owner s G _ _ _ Hpo) as [p Hp]. exists p.
    destruct (co_comp _ _ _ (C t p Hp) k c Hpo) as [_ [M1 M2 M3 M4 M5 M6]].
    assert (Hm : marked (c_pc p) = true) by (destruct (marked (c_pc p)); [done|specialize (M2 eq_refl); lia]).
    split_and!; [done|done|]. apply M6. by destruct (c_pc p).
  - intros t p Hp Hpc. pose proof (C t p Hp) as K. destruct (co_polled _ _ _ K) as (Hpo & _); [by rewrite Hpc|]. split; [exact Hpo|].
    apply (cm_settled _ _ _ (proj2 (co_comp _ _ _ K _ _ Hpo))). by rewrite Hpc.
Qed.

(** ** A request that runs alone finishes *)

Definition alone (t : nat) (s s' : cq_state) : Prop := cq_access s t = Some s'.

(** Request [t] stands at [p] in [s]. *)
Definition stands (t : nat) (s : cq_state) (p : cq_proc) : Prop := cq_inv s /\ timely s /\ calls s !! t = Some p.

Lemma stands_step t s p s' c :
  stands t s p -> cq_access s t = Some s' -> calls s' = <[t := with_pc p c]> (calls s) -> comps s' = comps s -> polled c = true ->
  stands t s' (with_pc p c).
Proof.
  intros (I & [T1 T2] & Hp) E Ec Eco Hc. split_and!; [by eapply cq_inv_access|split|].
  - unfold n_comps in *. by rewrite Eco.
  - intros t' q h i Hq Hpc. unfold n_comps in *. rewrite Eco. rewrite Ec in Hq.
    apply list_lookup_insert_Some in Hq as [(<- & <- & _)|[_ Hq]]; [|by eapply T2]. cbn in Hpc. by rewrite Hpc in Hc.
  - rewrite Ec. apply list_lookup_insert_eq. by eapply lookup_lt_Some.
Qed.

(** [t] runs from [p] to [c]; the others and the completions stay. *)
Definition runs (t : nat) (s : cq_state) (p : cq_proc) (s' : cq_state) (c : cq_pc) : Prop :=
  rtc (alone t) s s' /\ stands t s' (with_pc p c) /\ comps s' = comps s /\ forall t', t' <> t -> calls s' !! t' = calls s !! t'.

Lemma runs_refl t s p : stands t s p -> runs t s p s (c_pc p).
Proof. intros H. split_and!; [done|..]; try done. by replace (with_pc p (c_pc p)) with p by (by destruct p). Qed.

Lemma cq_runs_step t s p s1 c s2 c' :
  runs t s p s1 c -> cq_access s1 t = Some s2 -> calls s2 = <[t := with_pc p c']> (calls s1) -> comps s2 = comps s1 -> polled c' = true ->
  runs t s p s2 c'.
Proof.
  intros (R & St & Eco & Eo) E Ec Eco2 Hc. split_and!.
  - by eapply rtc_r.
  - apply (stands_step t s1 (with_pc p c) s2 c' St E); [|done|done]. done.
  - congruence.
  - intros t' Hne. rewrite Ec, list_lookup_insert_ne by congruence. by apply Eo.
Qed.

Lemma cleared_mark t s p :
  stands t s p -> in_pos (c_pc p) = true -> c_loc p < g_passed s -> head_mark s (c_pos p) = UNLOCKED.
Proof.
  intros ([G C Pr] & _ & Hp) Hi Hl. pose proof (C t p Hp) as K. pose proof (gl_bounds s G) as (B1 & B2 & B3). pose proof cq_qs_range.
  destruct (co_polled _ _ _ K) as (Hpo & Epos & _); [by destruct (c_pc p)|].
  pose proof (cq_mod_range (c_loc p - g_passed s)) as Hr. set (k := g_passed s + (c_loc p - g_passed s) mod qs).
  assert (Ek : k mod qs = c_pos p) by (unfold k; rewrite Zplus_mod_idemp_r, Epos; f_equal; lia). rewrite <- Ek.
  destruct (decide (k < n_comps s)) as [Hk|Hk]; [|apply (gl_clear s G); unfold k in *; lia].
  destruct (posted_at s k) as (t' & c & Hpk); [unfold k in *; lia|]. destruct (gl_owner s G _ _ _ Hpk) as [q Hq].
  pose proof (C t' q Hq) as Kq. destruct (co_comp _ _ _ Kq k c Hpk) as [_ [M1 M2 M3 M4 M5 M6]].
  rewrite M3 by (unfold k; lia). destruct (marked (c_pc q)) eqn:Hm; [|done]. exfalso.
  assert (Hst : settled (c_pc q) = false) by (destruct (settled (c_pc q)); [specialize (M5 eq_refl); unfold k in *; lia|done]).
  assert (Hiq : in_pos (c_pc q) = true) by (by destruct (c_pc q)).
  destruct (co_polled _ _ _ Kq) as (_ & Eposq & _); [by destruct (c_pc q)|]. rewrite (M6 ltac:(by destruct (c_pc q))) in Eposq.
  destruct (decide (t = t')) as [->|Hne].
  - pose proof (gl_unique s G _ _ _ _ _ Hpo Hpk). unfold k in *. lia.
  - destruct (Pr t t' p q Hne Hp Hq) as [_ P2 _]. apply P2; [done|done|congruence].
Qed.

Lemma finish_cleared t s p :
  stands t s p -> c_pc p = DCheck -> cq_lock s <> LOCKED -> c_loc p < g_passed s -> exists s', runs t s p s' Done.
Proof.
  intros St Hpc Hlk Hl. pose proof St as (I & _ & Hp). pose proof (cleared_mark t s p St ltac:(by rewrite Hpc) Hl) as Hm.
  pose proof (runs_refl t s p St) as R0. rewrite Hpc in R0.
  assert (R1 : runs t s p (set_call s t (with_pc p DFinal)) DFinal).
  { eapply cq_runs_step; [exact R0|unfold cq_access; rewrite Hp, Hpc; cq_proj; rewrite Hm|..]; done. }
  set (s1 := set_call _ _ _) in R1. pose proof R1 as (_ & (I1 & _ & Hp1) & _ & _).
  pose proof (gl_free s (ci_glob _ I) Hlk) as [_ Eg]. destruct (co_polled _ _ _ (ci_call _ I t p Hp)) as (_ & _ & Hch & Hcl); [by rewrite Hpc|].
  assert (Hpass : head_passed (cq_head s) (c_head p) (c_loc p) = true).
  { unfold head_passed. rewrite (proj2 (Z.gtb_lt _ _)) by lia. apply andb_true_iff. split; [apply Z.geb_le; lia|apply Z.ltb_lt; lia]. }
  assert (R2 : runs t s p (set_call s1 t (with_pc p DRelease)) DRelease).
  { eapply cq_runs_step; [exact R1|unfold cq_access; rewrite Hp1; cq_proj; change (cq_head s1) with (cq_head s); rewrite Hpass|..]; done. }
  set (s2 := set_call s1 _ _) in R2. pose proof R2 as (_ & (_ & _ & Hp2) & _ & _).
  assert (R3 : runs t s p (set_call (set_pos_locks s2 (fupd (pos_locks s2) (c_pos p) 0)) t (with_pc p Put)) Put).
  { eapply cq_runs_step; [exact R2|unfold cq_access; rewrite Hp2; reflexivity|..]; done. }
  set (s3 := set_call (set_pos_locks _ _) _ _) in R3. pose proof R3 as (_ & (_ & _ & Hp3) & _ & _).
  eexists. eapply cq_runs_step; [exact R3|unfold cq_access; rewrite Hp3; reflexivity|..]; done.
Qed.

(** Clearing marks ends at one that is not set. *)
Lemma move_alone m : forall t s p s1 cur n,
  runs t s p s1 (DMove cur n) -> n_comps s1 - g_passed s1 <= Z.of_nat m ->
  exists s2 n', runs t s p s2 (if negb (n' =? 0) then DBell cur n' else DUnlock) /\ g_passed s1 <= g_passed s2 /\
    head_mark s2 (g_passed s2 mod qs) <> LOCKED.
Proof.
  induction m as [|m IH]; intros t s p s1 cur n R Hm; pose proof R as (_ & (I & T & Hp) & _ & _);
    destruct (cq_holder_facts s1 t _ cur n I Hp eq_refl) as (E1 & E2 & E3 & Hn & Hc & Hn'); pose proof cq_qs_range;
    (destruct (Z.eqb_spec (head_mark s1 ((cur + n) mod qs)) LOCKED) as [El|El];
     [|eexists _, n; split_and!; [eapply cq_runs_step; [exact R|unfold cq_access; rewrite Hp; cq_proj; unfold move_head_cq_step;
         rewrite cq_land_qs, u32_mod_qs, (proj2 (Z.eqb_neq _ _) El); reflexivity|done|done|by destruct (n =? 0)]|cq_proj; lia|
       cq_proj; rewrite E3, fupd_eq; done]]).
  - exfalso. assert (Hg : n_comps s1 <= cur + n < g_passed s1 + qs) by lia.
    pose proof (gl_clear s1 (ci_glob _ I) (cur + n) Hg) as Hcl. rewrite El in Hcl. done.
  - edestruct (IH t s p) as (s2 & n' & R2 & Hg2 & Hmk).
    + eapply cq_runs_step; [exact R|unfold cq_access; rewrite Hp; cq_proj; unfold move_head_cq_step;
        rewrite cq_land_qs, u32_mod_qs, El, Z.eqb_refl, (u32_id (n + 1)) by (unfold is_word; lia); reflexivity|done|done|done].
    + cq_proj. change (n_comps (set_call _ _ _)) with (n_comps s1). lia.
    + exists s2, n'. split_and!; [done|cbn in Hg2; lia|done].
Qed.

Lemma unlock_alone t s p s1 cur n :
  runs t s p s1 (if negb (n =? 0) then DBell cur n else DUnlock) -> head_mark s1 (g_passed s1 mod qs) <> LOCKED ->
  exists s2, runs t s p s2 DCheck /\ cq_lock s2 <> LOCKED /\ g_passed s2 = g_passed s1 /\ head_mark s2 (g_passed s2 mod qs) <> LOCKED.
Proof.
  intros R Hm.
  assert (exists s2, runs t s p s2 DUnlock /\ g_passed s2 = g_passed s1 /\ head_mark s2 = head_mark s1) as (s2 & R2 & Eg & Em).
  { destruct (n =? 0); cbn [negb] in R; [by exists s1|]. pose proof R as (_ & (_ & _ & Hp) & _ & _).
    eassert (R1 : runs t s p _ (DStore cur n)) by (eapply cq_runs_step; [exact R|unfold cq_access; rewrite Hp; reflexivity|..]; done).
    pose proof R1 as (_ & (_ & _ & Hp1) & _ & _).
    eexists. split; [eapply cq_runs_step; [exact R1|unfold cq_access; rewrite Hp1; reflexivity|..]; done|done]. }
  pose proof R2 as (_ & (_ & _ & Hp2) & _ & _).
  eexists. split; [eapply cq_runs_step; [exact R2|unfold cq_access; rewrite Hp2; reflexivity|..]; done|].
  cq_proj. rewrite Eg, Em. done.
Qed.

(** C17: In a state of a timely run, a request whose completion has been marked, as have those before it, finishes when it
    runs alone and the head lock is free. *)
Theorem cq_dequeue_finishes s0 s t p :
  cq_init s0 -> rtc timely_step s0 s -> calls s !! t = Some p -> c_pc p = DCheck -> cq_lock s = UNLOCKED ->
  (forall k t' c q, g_passed s <= k <= c_loc p -> posted s k t' c -> calls s !! t' = Some q -> marked (c_pc q) = true) ->
  exists s' p', rtc (alone t) s s' /\ calls s' !! t = Some p' /\ c_pc p' = Done.
Proof.
  intros H0 Hr Hp Hpc Hlk Hall. destruct (cq_reachable s0 s H0 Hr) as [I T]. assert (St : stands t s p) by done.
  assert (Fin : forall s1, runs t s p s1 DCheck -> cq_lock s1 <> LOCKED -> c_loc p < g_passed s1 -> 
    exists s' p', rtc (alone t) s s' /\ calls s' !! t = Some p' /\ c_pc p' = Done).
  { intros s1 (R & St1 & _ & _) Hl Hg. destruct (finish_cleared t s1 (with_pc p DCheck) St1 eq_refl Hl Hg) as (s2 & R2 & (_ & _ & Hp2) & _).
    exists s2. eexists. split; [by etransitivity|]. split; [exact Hp2|done]. }
  pose proof (runs_refl t s p St) as R0. rewrite Hpc in R0.
  destruct (decide (c_loc p < g_passed s)) as [Hg|Hg]; [apply (Fin s R0); [by rewrite Hlk|done]|].
  pose proof (ci_call _ I t p Hp) as K. destruct (co_polled _ _ _ K) as (Hpo & Epos & _); [by rewrite Hpc|].
  assert (Hm : head_mark s (c_pos p) = LOCKED).
  { rewrite Epos, (cm_mark _ _ _ (proj2 (co_comp _ _ _ K _ _ Hpo))) by lia. by rewrite Hpc. }
  eassert (R1 : runs t s p _ DTry) by (eapply cq_runs_step; [exact R0|unfold cq_access; rewrite Hp, Hpc, Hm; reflexivity|..]; done).
  pose proof R1 as (_ & (_ & _ & Hp1) & _ & _).
  eassert (R2 : runs t s p _ DHead) by (eapply cq_runs_step; [exact R1|unfold cq_access; rewrite Hp1; cq_proj; rewrite Hlk; reflexivity|..]; done).
  pose proof R2 as (_ & (_ & _ & Hp2) & _ & _).
  eassert (R3 : runs t s p _ (DMove _ 0)) by (eapply cq_runs_step; [exact R2|unfold cq_access; rewrite Hp2; reflexivity|..]; done).
  edestruct (move_alone (Z.to_nat (n_comps s)) _ _ _ _ _ _ R3) as (s4 & n & R4 & Hg4 & Hm4).
  { pose proof (gl_bounds s (ci_glob _ I)). cq_proj. change (n_comps (set_call _ _ _)) with (n_comps s). lia. }
  destruct (unlock_alone t s p s4 _ n R4 Hm4) as (s5 & R5 & Hlk5 & Eg5 & Hm5). apply (Fin s5 R5 Hlk5). apply Z.nle_gt. intros Hle.
  cbn in Hg4. destruct R5 as (_ & ([G5 C5 _] & _ & Hp5) & Eco & Eo).
  destruct (posted_at s5 (g_passed s5)) as (t' & c & Hpk).
  { pose proof (gl_bounds s5 G5). pose proof (posted_lt _ _ _ _ Hpo). unfold n_comps in *. rewrite Eco. lia. }
  destruct (gl_owner s5 G5 _ _ _ Hpk) as [q Hq]. apply Hm5.
  rewrite (cm_mark _ _ _ (proj2 (co_comp _ _ _ (C5 t' q Hq) _ _ Hpk))) by lia.
  assert (marked (c_pc q) = true) as ->; [|done]. destruct (decide (t' = t)) as [->|Hne].
  - rewrite Hp5 in Hq. by injection Hq as <-.
  - rewrite Eo in Hq by done. eapply Hall; [|unfold posted in *; rewrite <- Eco; exact Hpk|exact Hq]. lia.
Qed.
End steps.

(** C40: A trim never reaches the blocks it is given: the fields of the range are in the wrong
    order, so the controller takes the upper half of the first block's address for the
    length and the number of blocks minus one for the start; and the bit that asks for
    deallocation is not set. *)
Theorem trim_data_misread pc ns lba n e junk cid :
  length junk = 16%nat ->
  dsm_length (trim_range lba n) = u64 lba / 2 ^ 32 /\ dsm_start (trim_range lba n) = u32 (n - 1) /\
  dsm_deallocate (io_command (trim_data pc ns e junk) cid) = false.
Proof.
  intros L. split_and!; [done|unfold dsm_start, trim_range, dword; cbn; lia|].
  unfold dsm_deallocate, io_command, trim_data, nvm_cmd_dsm, dword. cbn [r_args].
  rewrite (nth_lookup_Some _ 11 0 NVM_DSM_ATTR_DEALLOCATE); [done|]. apply list_lookup_insert_eq.
  unfold nvm_cmd_data_ptr, nvm_cmd_header. rewrite !length_insert. cbn. lia.
Qed.

(** ** Witnesses *)

Definition timelyb (lg : Z) (s : cq_state) : bool :=
  (n_comps s + qs lg <? 2 ^ 32) &&
  forallb (fun p => match c_pc p with PEntry h _ => n_comps s <=? h + 2 * qs lg | _ => true end) (calls s).

Definition act_okb (a : cq_act) : bool :=
  match a with
  | CCall r => (length (r_junk r) =? 16)%nat && forallb (fun x => (0 <=? x) && (x <? 2 ^ 32)) (r_junk r) && (0 <=? r_opcode r) && (r_opcode r <? 256)
  | CStep _ => true
  | CPost _ st => (0 <=? st) && (st <? 2 ^ 15)
  end.

Fixpoint cq_exec (lg : Z) (acts : list cq_act) (s : cq_state) : option cq_state :=
  match acts with
  | [] => Some s
  | a :: acts =>
      match cq_exec_act lg a s with
      | Some s' => if act_okb a && timelyb lg s' then cq_exec lg acts s' else None
      | None => None
      end
  end.

Lemma cq_exec_rtc lg acts s : rtc (timely_step lg) s (default s (cq_exec lg acts s)).
Proof.
  assert (H : forall s', cq_exec lg acts s = Some s' -> rtc (timely_step lg) s s'); [|destruct (cq_exec lg acts s); [by apply H|done]].
  revert s. induction acts as [|a acts IH]; intros s s' E; cbn in E; [by injection E as <-|].
  destruct (cq_exec_act lg a s) as [s1|] eqn:E1; [|done]. destruct (act_okb a) eqn:Ea; [|done]. destruct (timelyb lg s1) eqn:Et; [|done].
  cbn in E. eapply rtc_l; [|by eapply IH]. split; [apply (cq_do lg a); [|done]|].
  - destruct a as [r| |]; cbn in Ea; [|done|lia]. rewrite !andb_true_iff, forallb_forall in Ea. destruct Ea as [[[E2 E3] E4] E5].
    split; [by apply Nat.eqb_eq|split; [|lia]]. apply list.Forall_forall. intros x Hx%list_elem_of_In. specialize (E3 x Hx). unfold is_word. lia.
  - unfold timelyb in Et. apply andb_true_iff in Et as [Et1 Et2]. split; [lia|]. intros t p h i Hp Hpc.
    rewrite forallb_forall in Et2. specialize (Et2 p). rewrite Hpc in Et2. rewrite <- list_elem_of_In in Et2.
    specialize (Et2 ltac:(by eapply list_elem_of_lookup_2)). lia.
Qed.

Definition example_queue : cq_state := MkCq 0 (fun _ => 0) (fun _ => 0) 0 0 (fun _ => 0) 0 (fun _ => 0) [] 0 [] 0.

Lemma example_queue_init : cq_init example_queue.
Proof. by split_and!. Qed.

(** Two reads; the second one's completion comes first. *)
Definition example_read : io_req := read_data_merged_no_second 1 100 8 4096 0 (repeat 0 16).

Definition example_acts : list cq_act :=
  [CCall example_read; CCall example_read] ++ repeat (CStep 0) 3 ++ repeat (CStep 1) 3 ++ [CPost 1 0; CPost 0 0] ++
  repeat (CStep 1) 2 ++ repeat (CStep 0) 3 ++ repeat (CStep 1) 5 ++ repeat (CStep 0) 18.

Definition example_cq (n : nat) : cq_state := default example_queue (cq_exec 2 (take n example_acts) example_queue).

Lemma trim_data_misread_witness :
  dsm_length (trim_range 4096 8) = 0 /\ dsm_start (trim_range 4096 8) = 7 /\
  dsm_deallocate (io_command (trim_data (MkPrps (fun _ => 8192) (fun _ => 0) false) 1 0 (repeat 0 16)) 5) = false.
Proof. exact (trim_data_misread (MkPrps (fun _ => 8192) (fun _ => 0) false) 1 4096 8 0 (repeat 0 16) 5 eq_refl). Defined.

Lemma cq_poll_finds_own_witness :
  posted (example_cq 15) 1 0 0 /\ 1 = 1 mod qs 2 /\ (forall k c, posted (example_cq 15) k 0 c -> k = 1) /\
  (false = false -> entry_ok (cpl (example_cq 15) 1) 0 (phase_of 2 1)).
Proof.
  apply (cq_poll_finds_own 2 ltac:(lia) example_queue (example_cq 15) 0 (MkCall example_read 0 1 1 0 Bump));
    [apply example_queue_init|apply cq_exec_rtc|vm_compute; reflexivity|reflexivity].
Defined.

Lemma cq_exclusive_witness :
  (true = true -> true = true -> 0 <> 1) /\ (true = true -> true = true -> 1 <> 0) /\ ~ (false = true /\ false = true).
Proof.
  apply (cq_exclusive 2 ltac:(lia) example_queue (example_cq 25) 0 1 (MkCall example_read 0 1 1 0 DCheck) (MkCall example_read 1 0 0 0 DCheck));
    [apply example_queue_init|apply cq_exec_rtc|lia|vm_compute; reflexivity|vm_compute; reflexivity].
Defined.

Lemma cq_head_consumed_witness :
  (cq_head (example_cq 38) <= dev_head (example_cq 38) <= n_comps (example_cq 38)) /\ cq_head (example_cq 38) = 2 /\ n_comps (example_cq 38) = 2.
Proof.
  split; [|split; vm_compute; reflexivity].
  exact (proj1 (cq_head_consumed 2 ltac:(lia) example_queue (example_cq 38) example_queue_init (cq_exec_rtc _ _ _))).
Defined.

Lemma cq_dequeue_finishes_witness :
  exists s' p', rtc (alone 2 0) (example_cq 25) s' /\ calls s' !! 0%nat = Some p' /\ c_pc p' = Done.
Proof.
  apply (cq_dequeue_finishes 2 ltac:(lia) example_queue (example_cq 25) 0 (MkCall example_read 0 1 1 0 DCheck));
    [apply example_queue_init|apply cq_exec_rtc|vm_compute; reflexivity|reflexivity|vm_compute; reflexivity|].
  intros k t c q Hk [_ Hpo] Hq. assert (Hc : calls (example_cq 25) = [MkCall example_read 0 1 1 0 DCheck; MkCall example_read 1 0 0 0 DCheck])
    by (vm_compute; reflexivity).
  rewrite Hc in Hq. apply list_elem_of_lookup_2 in Hq. rewrite !elem_of_cons, elem_of_nil in Hq.
  destruct Hq as [-> |[-> |[]]]; reflexivity.
Defined.
End Cq.
