(* ===== verification/BatchIo.v ===== *)
(** Batched I/O of [src/include/page_cache.h]: [read_data_batch], [write_data_batch], their
    large variants, the scheduler's [sched_batch_rw] and [sched_batch_merged_rw], and
    [read_data_batch_warp32].  The owner of a queue pair builds a batch of commands in the
    submission queue, rings the doorbell once, waits for the completion entry of the last
    command and moves both heads over the batch.

    The owner runs any sequence of batches; each of its accesses is a step, interleaved
    with a controller that fetches commands in order and completes them in any order. *)
From Stdlib Require Import ZArith Lia List.
From stdpp Require Import base list numbers relations.
From S2P Require Import Prelude NvmUtil NvmCmd ParallelSq ParallelCq.

Import ListNotations.
Local Open Scope Z_scope.

Module Batch.
Import Sq(UNLOCKED).
Import Cq(io_req, io_command, Rw, MkReq, prp_table, submit_io_no_second, cmd_cid, r_args).

(** ** Batches *)

(** The commands of a batch.  [b_warp]: built by the lanes of a warp instead of one
    thread; [b_blocks]: the blocks added to the write counters; [b_puts]: the identifiers
    are released at the end. *)
Record batch := MkBatch { b_reqs : list io_req; b_warp : bool; b_blocks : option Z; b_puts : bool }.

Definition b_count (b : batch) : Z := Z.of_nat (length (b_reqs b)).

Definition READ_DATA_BATCH_MAX : Z := 32.

Definition sum_blocks (l : list Z) : Z := foldr (fun n t => u64 (n + t)) 0 l.

Section batches.
Context (pc : prp_table) (ns : Z) (junk : nat -> list Z).

(** Command [i] of an array of requests; reading past an array is undefined. *)
Definition batch_req (opcode : Z) (starting_lbas : list Z) (n_blocks : nat -> option Z) (pc_entries : list Z) (i : nat) : option io_req :=
  lba ← starting_lbas !! i; n ← n_blocks i; entry ← pc_entries !! i;
  Some (submit_io_no_second pc ns lba n entry opcode (junk i)).

(** The identifiers are kept in an array of [READ_DATA_BATCH_MAX]. *)
Definition read_data_batch (starting_lbas n_blocks_array pc_entries : list Z) (batch_size : nat) : option batch :=
  if READ_DATA_BATCH_MAX <? Z.of_nat batch_size then None
  else
    reqs ← mapM (batch_req NVM_IO_READ starting_lbas (fun i => n_blocks_array !! i) pc_entries) (seq 0 batch_size);
    Some (MkBatch reqs false None true).

Definition write_data_batch (starting_lbas n_blocks_array pc_entries : list Z) (batch_size : nat) : option batch :=
  if READ_DATA_BATCH_MAX <? Z.of_nat batch_size then None
  else
    reqs ← mapM (batch_req NVM_IO_WRITE starting_lbas (fun i => n_blocks_array !! i) pc_entries) (seq 0 batch_size);
    Some (MkBatch reqs false (Some (sum_blocks (take batch_size n_blocks_array))) true).

Definition write_data_batch_large (starting_lbas : list Z) (n_blocks : Z) (pc_entries : list Z) (batch_size : nat) : option batch :=
  reqs ← mapM (batch_req NVM_IO_WRITE starting_lbas (fun _ => Some n_blocks) pc_entries) (seq 0 batch_size);
  Some (MkBatch reqs false (Some (u64 (n_blocks * Z.of_nat batch_size))) true).

Definition read_data_batch_large (starting_lbas : list Z) (n_blocks : Z) (pc_entries : list Z) (batch_size : nat) : option batch :=
  reqs ← mapM (batch_req NVM_IO_READ starting_lbas (fun _ => Some n_blocks) pc_entries) (seq 0 batch_size);
  Some (MkBatch reqs false None true).

(** An empty batch returns at once: [Some None]. *)
Definition sched_batch_rw (opcode : Z) (starting_lbas n_blocks_array pc_entries : list Z) (count : nat) : option (option batch) :=
  if (count =? 0)%nat then Some None
  else
    reqs ← mapM (batch_req opcode starting_lbas (fun i => n_blocks_array !! i) pc_entries) (seq 0 count);
    Some (Some (MkBatch reqs false
      (if opcode =? NVM_IO_WRITE then Some (sum_blocks (take count n_blocks_array)) else None) true)).

Definition sched_write_batch := sched_batch_rw NVM_IO_WRITE.
Definition sched_read_batch := sched_batch_rw NVM_IO_READ.

(** Commands with data pointers of the caller. *)
Definition merged_req (opcode : Z) (starting_lbas n_blocks_array prp1_array prp2_array : list Z) (i : nat) : option io_req :=
  lba ← starting_lbas !! i; n ← n_blocks_array !! i; prp1 ← prp1_array !! i; prp2 ← prp2_array !! i;
  Some (MkReq opcode ns prp1 prp2 (Rw lba n) (junk i)).

Definition sched_batch_merged_rw (opcode : Z) (starting_lbas n_blocks_array prp1_array prp2_array : list Z) (count : nat)
    : option (option batch) :=
  if (count =? 0)%nat then Some None
  else
    reqs ← mapM (merged_req opcode starting_lbas n_blocks_array prp1_array prp2_array) (seq 0 count);
    Some (Some (MkBatch reqs false
      (if opcode =? NVM_IO_WRITE then Some (sum_blocks (take count n_blocks_array)) else None) true)).

Definition sched_write_batch_merged := sched_batch_merged_rw NVM_IO_WRITE.
Definition sched_read_batch_merged := sched_batch_merged_rw NVM_IO_READ.

(** The arguments of the 32 lanes; the identifiers are not released.  The function
    assumes that all lanes are active. *)
Definition read_data_batch_warp32 (starting_lba n_blocks pc_entry : list Z) : option batch :=
  reqs ← mapM (batch_req NVM_IO_READ starting_lba (fun i => n_blocks !! i) pc_entry) (seq 0 32);
  Some (MkBatch reqs true None false).
End batches.

(** ** The queue pair and its owner *)

Record bq_state := MkBq {
  cid_ticket : Z;
  cids : Z -> Z;
  sq_mem : Z -> nat -> list Z;     (** entries of the submission queue, in halves of 32 bytes *)
  sq_tail : Z;
  sq_head : Z;
  sq_db : Z;                       (** the doorbells *)
  cq_head : Z;
  cq_db : Z;
  cpl : Z -> Z;                    (** word 3 of each completion entry *)
  write_io_cmd_cnt : Z;
  write_io_block_cnt : Z;
  fetched : list (list Z);         (** controller: commands fetched *)
  posted : list nat                (** controller: which of them were completed, in order *)
}.

Definition set_ticket (s : bq_state) v := MkBq v (cids s) (sq_mem s) (sq_tail s) (sq_head s) (sq_db s) (cq_head s) (cq_db s) (cpl s) (write_io_cmd_cnt s) (write_io_block_cnt s) (fetched s) (posted s).
Definition set_bcids (s : bq_state) v := MkBq (cid_ticket s) v (sq_mem s) (sq_tail s) (sq_head s) (sq_db s) (cq_head s) (cq_db s) (cpl s) (write_io_cmd_cnt s) (write_io_block_cnt s) (fetched s) (posted s).
Definition set_sq_mem (s : bq_state) v := MkBq (cid_ticket s) (cids s) v (sq_tail s) (sq_head s) (sq_db s) (cq_head s) (cq_db s) (cpl s) (write_io_cmd_cnt s) (write_io_block_cnt s) (fetched s) (posted s).
Definition set_sq_tail (s : bq_state) v := MkBq (cid_ticket s) (cids s) (sq_mem s) v (sq_head s) (sq_db s) (cq_head s) (cq_db s) (cpl s) (write_io_cmd_cnt s) (write_io_block_cnt s) (fetched s) (posted s).
Definition set_sq_head (s : bq_state) v := MkBq (cid_ticket s) (cids s) (sq_mem s) (sq_tail s) v (sq_db s) (cq_head s) (cq_db s) (cpl s) (write_io_cmd_cnt s) (write_io_block_cnt s) (fetched s) (posted s).
Definition set_sq_db (s : bq_state) v := MkBq (cid_ticket s) (cids s) (sq_mem s) (sq_tail s) (sq_head s) v (cq_head s) (cq_db s) (cpl s) (write_io_cmd_cnt s) (write_io_block_cnt s) (fetched s) (posted s).
Definition set_cq_head (s : bq_state) v := MkBq (cid_ticket s) (cids s) (sq_mem s) (sq_tail s) (sq_head s) (sq_db s) v (cq_db s) (cpl s) (write_io_cmd_cnt s) (write_io_block_cnt s) (fetched s) (posted s).
Definition set_cq_db (s : bq_state) v := MkBq (cid_ticket s) (cids s) (sq_mem s) (sq_tail s) (sq_head s) (sq_db s) (cq_head s) v (cpl s) (write_io_cmd_cnt s) (write_io_block_cnt s) (fetched s) (posted s).
Definition set_counts (s : bq_state) v w := MkBq (cid_ticket s) (cids s) (sq_mem s) (sq_tail s) (sq_head s) (sq_db s) (cq_head s) (cq_db s) (cpl s) v w (fetched s) (posted s).

(** Program points; a batch starts at the identifiers or, in a warp, at the tail. *)
Inductive batch_pc :=
  | BTicket                        (** [cid_ticket.fetch_add] *)
  | BTail                          (** load the tail *)
  | BCopy                          (** build the commands and copy them to the queue *)
  | BCmds                          (** count the commands of a write *)
  | BBlocks                        (** count its blocks *)
  | BRing                          (** submission doorbell *)
  | BTailStore
  | BHead                          (** load the completion head *)
  | BPoll                          (** read the last completion entry *)
  | BHeadStore
  | BRingCq                        (** completion doorbell *)
  | BSqHead
  | BPut (i : nat)                 (** [put_cid] *)
  | BDone.

#[export] Instance batch_pc_eq_dec : EqDecision batch_pc.
Proof. solve_decision. Defined.

(** The owner's locals; [o_prog]: halves copied of each command. *)
Record owner := MkOwner {
  o_batch : batch; o_cid : Z; o_tail : Z; o_head : Z; o_prog : list nat; o_pc : batch_pc
}.

Definition start_batch (b : batch) : owner :=
  MkOwner b 0 0 0 (replicate (length (b_reqs b)) O) (if b_warp b then BTail else BTicket).

Definition goto (o : owner) (c : batch_pc) : owner := MkOwner (o_batch o) (o_cid o) (o_tail o) (o_head o) (o_prog o) c.

Definition batch_cid (o : owner) (i : nat) : Z := Z.land (o_cid o + Z.of_nat i) 0xffff.
Definition batch_cmd (o : owner) (i : nat) (r : io_req) : list Z := io_command r (batch_cid o i).
Definition batch_cmds (o : owner) : list (list Z) := imap (batch_cmd o) (b_reqs (o_batch o)).

Definition half (cmd : list Z) (j : nat) : list Z := take 8 (drop (8 * j) cmd).
#[global] Arguments half : simpl never.
#[global] Arguments batch_cmd : simpl never.

Section steps.
Context (sq_log2 cq_log2 : Z).

Definition sq_qs : Z := 2 ^ sq_log2.
Definition cq_qs : Z := 2 ^ cq_log2.

(** After the loop over the commands. *)
Definition after_copy (b : batch) : batch_pc := match b_blocks b with Some _ => BCmds | None => BRing end.
Definition copied (prog : list nat) : bool := forallb (fun n => (n =? 2)%nat) prog.
Definition enter_copy (o : owner) : batch_pc := if copied (o_prog o) then after_copy (o_batch o) else BCopy.

(** One half of command [i]: the next one in order, or of any lane of a warp. *)
Definition copy_step (s : bq_state) (o : owner) (i : nat) : option (bq_state * owner) :=
  if negb (b_warp (o_batch o) || copied (take i (o_prog o))) then None
  else
    match b_reqs (o_batch o) !! i, o_prog o !! i with
    | Some r, Some j =>
        if (j <? 2)%nat then
          let pos := Z.land (u32 (o_tail o + Z.of_nat i)) (sq_qs - 1) in
          let mem := fupd (sq_mem s) pos (fun k => if (k =? j)%nat then half (batch_cmd o i r) j else sq_mem s pos k) in
          let o := MkOwner (o_batch o) (o_cid o) (o_tail o) (o_head o) (<[i := S j]> (o_prog o)) (o_pc o) in
          Some (set_sq_mem s mem, goto o (enter_copy o))
        else None
    | _, _ => None
    end.

(** One read of the entry of the last command. *)
Definition poll_hit (s : bq_state) (o : owner) : bool :=
  let target := u32 (u32 (o_head o + b_count (o_batch o)) - 1) in
  let target_loc := Z.land target (cq_qs - 1) in
  let expected_phase := Z.land (Z.lnot (Z.shiftr target cq_log2)) 1 in
  let phase := Z.shiftr (Z.land (cpl s target_loc) 0x00010000) 16 in
  phase =? expected_phase.

(** The next access of the owner; [i] is the lane that copies. *)
Definition owner_step (s : bq_state) (o : owner) (i : nat) : option (bq_state * owner) :=
  let b := o_batch o in
  let n := b_count b in
  match o_pc o with
  | BTicket =>
      let o := MkOwner b (Z.land (cid_ticket s) 0xffff) (o_tail o) (o_head o) (o_prog o) (o_pc o) in
      Some (set_ticket s (u32 (cid_ticket s + n)), goto o (if b_warp b then enter_copy o else BTail))
  | BTail =>
      let o := MkOwner b (o_cid o) (sq_tail s) (o_head o) (o_prog o) (o_pc o) in
      Some (s, goto o (if b_warp b then BTicket else enter_copy o))
  | BCopy => copy_step s o i
  | BCmds => Some (set_counts s (u64 (write_io_cmd_cnt s + n)) (write_io_block_cnt s), goto o BBlocks)
  | BBlocks => Some (set_counts s (write_io_cmd_cnt s) (u64 (write_io_block_cnt s + default 0 (b_blocks b))), goto o BRing)
  | BRing => Some (set_sq_db s (Z.land (u32 (o_tail o + n)) (sq_qs - 1)), goto o BTailStore)
  | BTailStore => Some (set_sq_tail s (u32 (o_tail o + n)), goto o BHead)
  | BHead => Some (s, goto (MkOwner b (o_cid o) (o_tail o) (cq_head s) (o_prog o) (o_pc o)) BPoll)
  | BPoll => Some (s, goto o (if poll_hit s o then BHeadStore else BPoll))
  | BHeadStore => Some (set_cq_head s (u32 (o_head o + n)), goto o BRingCq)
  | BRingCq => Some (set_cq_db s (Z.land (u32 (o_head o + n)) (cq_qs - 1)), goto o BSqHead)
  | BSqHead => Some (set_sq_head s (u32 (o_tail o + n)), goto o (if b_puts b && negb (n =? 0) then BPut 0 else BDone))
  | BPut i =>
      Some (set_bcids s (fupd (cids s) (batch_cid o i) UNLOCKED), goto o (if (S i <? length (b_reqs b))%nat then BPut (S i) else BDone))
  | BDone => None
  end.

(** The controller fetches the next command below the doorbell. *)
Definition dev_fetch (s : bq_state) : option bq_state :=
  let pos := Z.of_nat (length (fetched s)) mod sq_qs in
  if pos =? sq_db s then None
  else Some (MkBq (cid_ticket s) (cids s) (sq_mem s) (sq_tail s) (sq_head s) (sq_db s) (cq_head s) (cq_db s) (cpl s)
               (write_io_cmd_cnt s) (write_io_block_cnt s) (fetched s ++ [sq_mem s pos 0%nat ++ sq_mem s pos 1%nat]) (posted s)).

(** It completes one of the commands it has fetched, with any status, when the queue has room. *)
Definition dev_post (s : bq_state) (k : nat) (status : Z) : option bq_state :=
  match fetched s !! k with
  | None => None
  | Some cmd =>
      let n := Z.of_nat (length (posted s)) in
      if bool_decide (k ∈ posted s) || ((n + 1) mod cq_qs =? cq_db s) then None
      else
        let entry := cmd_cid cmd + Cq.phase_of cq_log2 n * 2 ^ 16 + status * 2 ^ 17 in
        Some (MkBq (cid_ticket s) (cids s) (sq_mem s) (sq_tail s) (sq_head s) (sq_db s) (cq_head s) (cq_db s)
                (fupd (cpl s) (n mod cq_qs) entry) (write_io_cmd_cnt s) (write_io_block_cnt s) (fetched s) (posted s ++ [k]))
  end.

(** A batch leaves one entry of each queue free; a command is a structure of 16 words. *)
Definition fits (b : batch) : Prop :=
  b_count b < sq_qs /\ b_count b < cq_qs /\ Forall (fun r => length (Cq.r_junk r) = 16%nat) (b_reqs b).

(** The system: queue pair, owner, and the commands of the batches before the current one. *)
Record sys := MkSys { sy_q : bq_state; sy_owner : owner; sy_hist : list (list Z) }.

Inductive step : sys -> sys -> Prop :=
  | step_owner q o h i q' o' : owner_step q o i = Some (q', o') -> step (MkSys q o h) (MkSys q' o' h)
  | step_fetch q o h q' : dev_fetch q = Some q' -> step (MkSys q o h) (MkSys q' o h)
  | step_post q o h k st q' : 0 <= st -> dev_post q k st = Some q' -> step (MkSys q o h) (MkSys q' o h)
  | step_start q o h b :
      o_pc o = BDone -> fits b -> step (MkSys q o h) (MkSys q (start_batch b) (h ++ batch_cmds o)).

(** A new queue pair: cleared queues and counters. *)
Definition fresh_bq (ticket : Z) (locks : Z -> Z) (cmds blocks : Z) : bq_state :=
  MkBq ticket locks (fun _ _ => repeat 0 8) 0 0 0 0 0 (fun _ => 0) cmds blocks [] [].
Definition no_batch : owner := MkOwner (MkBatch [] false None false) 0 0 0 [] BDone.

Definition batch_reachable (s : sys) : Prop :=
  exists ticket locks cmds blocks, is_word 32 ticket /\ rtc step (MkSys (fresh_bq ticket locks cmds blocks) no_batch []) s.

(** ** Invariant *)

Definition stage (c : batch_pc) : nat :=
  match c with
  | BTicket | BTail | BCopy | BCmds | BBlocks | BRing => 0
  | BTailStore => 1 | BHead => 2 | BPoll => 3 | BHeadStore => 4 | BRingCq => 5 | BSqHead => 6 | BPut _ | BDone => 7
  end.

(** The size of the batch once stage [k] is reached. *)
Definition past (k : nat) (o : owner) : Z := if (k <=? stage (o_pc o))%nat then b_count (o_batch o) else 0.

Definition tail_known (o : owner) : bool :=
  match o_pc o with BTail => false | BTicket => b_warp (o_batch o) | _ => true end.
Definition building (o : owner) : bool := match o_pc o with BTicket | BTail => true | _ => false end.

Definition phase_bit (entry : Z) : Z := Z.shiftr (Z.land entry 0x00010000) 16.

Record batch_inv (s : sys) : Prop := {
  bi_fits : fits (o_batch (sy_owner s));
  bi_tail : sq_tail (sy_q s) = u32 (Z.of_nat (length (sy_hist s)) + past 2 (sy_owner s));
  bi_db : sq_db (sy_q s) = (Z.of_nat (length (sy_hist s)) + past 1 (sy_owner s)) mod sq_qs;
  bi_head : cq_head (sy_q s) = u32 (Z.of_nat (length (sy_hist s)) + past 5 (sy_owner s));
  bi_cq_db : cq_db (sy_q s) = (Z.of_nat (length (sy_hist s)) + past 6 (sy_owner s)) mod cq_qs;
  bi_sq_head : sq_head (sy_q s) = u32 (Z.of_nat (length (sy_hist s)) + past 7 (sy_owner s));
  bi_otail : tail_known (sy_owner s) = true -> o_tail (sy_owner s) = u32 (Z.of_nat (length (sy_hist s)));
  bi_ohead : (3 <= stage (o_pc (sy_owner s)))%nat -> o_head (sy_owner s) = u32 (Z.of_nat (length (sy_hist s)));
  bi_fetched : exists f, fetched (sy_q s) = sy_hist s ++ take f (batch_cmds (sy_owner s)) /\ Z.of_nat f <= past 1 (sy_owner s);
  bi_posted : NoDup (posted (sy_q s)) /\ Forall (fun k => k < length (fetched (sy_q s)))%nat (posted (sy_q s)) /\
    (length (sy_hist s) <= length (posted (sy_q s)))%nat;
  bi_polled : (4 <= stage (o_pc (sy_owner s)))%nat ->
    length (posted (sy_q s)) = (length (sy_hist s) + length (b_reqs (o_batch (sy_owner s))))%nat;
  bi_cpl p : 0 <= p -> Z.of_nat (length (posted (sy_q s))) - cq_qs <= p < Z.of_nat (length (posted (sy_q s))) ->
    phase_bit (cpl (sy_q s) (p mod cq_qs)) = Cq.phase_of cq_log2 p;
  bi_unused p : Z.of_nat (length (posted (sy_q s))) <= p < cq_qs -> phase_bit (cpl (sy_q s) p) = 0;
  bi_prog : length (o_prog (sy_owner s)) = length (b_reqs (o_batch (sy_owner s)));
  bi_building : building (sy_owner s) = true -> Forall (eq O) (o_prog (sy_owner s));
  bi_copied : building (sy_owner s) = false -> o_pc (sy_owner s) <> BCopy -> copied (o_prog (sy_owner s)) = true;
  bi_copying : o_pc (sy_owner s) = BCopy -> copied (o_prog (sy_owner s)) = false;
  bi_halves : Forall (fun j => j <= 2)%nat (o_prog (sy_owner s));
  bi_mem i r j k : b_reqs (o_batch (sy_owner s)) !! i = Some r -> o_prog (sy_owner s) !! i = Some j -> (k < j)%nat ->
    sq_mem (sy_q s) ((Z.of_nat (length (sy_hist s)) + Z.of_nat i) mod sq_qs) k = half (batch_cmd (sy_owner s) i r) k
}.

(** ** Words, phases, commands *)

Context (Hsq : 1 <= sq_log2 <= 16) (Hcq : 1 <= cq_log2 <= 16).

Lemma sq_pos z : Z.land (u32 z) (sq_qs - 1) = z mod sq_qs.
Proof. apply land_mask_wrap. lia. Qed.
Lemma sq_pos_add a b : Z.land (u32 (u32 a + b)) (sq_qs - 1) = (a + b) mod sq_qs.
Proof. unfold u32. rewrite wrap_add_l. apply sq_pos. Qed.
Lemma u32_add a b : u32 (u32 a + b) = u32 (a + b).
Proof. apply wrap_add_l. Qed.
Lemma cq_pos z : Z.land (u32 z) (cq_qs - 1) = z mod cq_qs.
Proof. apply land_mask_wrap. lia. Qed.

Lemma pow_bounds k : 1 <= k <= 16 -> 2 <= 2 ^ k <= 65536.
Proof.
  intros H. pose proof (Z.pow_le_mono_r 2 1 k ltac:(lia) ltac:(lia)). pose proof (Z.pow_le_mono_r 2 k 16 ltac:(lia) ltac:(lia)). lia.
Qed.

Lemma qs_bounds : 2 <= sq_qs <= 65536 /\ 2 <= cq_qs <= 65536.
Proof. split; by apply pow_bounds. Qed.

Lemma phase_testbit k : Cq.phase_of cq_log2 k = 1 - Z.b2z (Z.testbit k cq_log2).
Proof. unfold Cq.phase_of, Cq.qs. by rewrite Z.testbit_spec' by lia. Qed.

Lemma expected_phase_of t : Z.land (Z.lnot (Z.shiftr (u32 t) cq_log2)) 1 = Cq.phase_of cq_log2 t.
Proof.
  rewrite (Cq.search_phase_eq cq_log2 ltac:(lia)) by apply u32_range. rewrite !phase_testbit. unfold u32, wrap.
  by rewrite Z.mod_pow2_bits_low by lia.
Qed.

Lemma batch_phase_next k : Cq.phase_of cq_log2 (k + cq_qs) <> Cq.phase_of cq_log2 k.
Proof. by apply Cq.phase_next. Qed.

Lemma io_command_length r cid : length (io_command r cid) = length (Cq.r_junk r).
Proof.
  unfold io_command. destruct (r_args r); unfold nvm_cmd_rw_blks, nvm_cmd_dsm, nvm_cmd_data_ptr, nvm_cmd_header; by rewrite !length_insert.
Qed.

Lemma halves cmd : length cmd = 16%nat -> half cmd 0 ++ half cmd 1 = cmd.
Proof.
  intros H. unfold half. change (8 * 0)%nat with 0%nat. change (8 * 1)%nat with 8%nat. rewrite drop_0, (take_ge (drop 8 cmd)) by (rewrite length_drop; lia).
  apply take_drop.
Qed.

Lemma batch_cmds_lookup o i : batch_cmds o !! i = batch_cmd o i <$> b_reqs (o_batch o) !! i.
Proof. apply list_lookup_imap. Qed.

Lemma batch_cmds_length o : length (batch_cmds o) = length (b_reqs (o_batch o)).
Proof. apply length_imap. Qed.

Lemma copied_lookup prog i : copied prog = true -> (i < length prog)%nat -> prog !! i = Some 2%nat.
Proof.
  intros H Hi. destruct (lookup_lt_is_Some_2 _ _ Hi) as [j Hj]. rewrite Hj. f_equal.
  unfold copied in H. rewrite forallb_forall in H. apply Nat.eqb_eq, H. apply list_elem_of_In. by eapply list_elem_of_lookup_2.
Qed.

(** A list of distinct numbers below [m] that is as long as [m] has all of them. *)
Lemma all_below (l : list nat) m : NoDup l -> Forall (fun k => k < m)%nat l -> length l = m -> l ≡ₚ seq 0 m.
Proof.
  intros N F E. apply submseteq_length_Permutation; [|rewrite length_seq; lia]. apply NoDup_submseteq; [done|].
  intros k Hk. apply elem_of_seq. rewrite list.Forall_forall in F. specialize (F k Hk). lia.
Qed.

Lemma below_length (l : list nat) m : NoDup l -> Forall (fun k => k < m)%nat l -> (length l <= m)%nat.
Proof.
  intros N F. rewrite <- (length_seq m 0). apply submseteq_length, NoDup_submseteq; [done|].
  intros k Hk. apply elem_of_seq. rewrite list.Forall_forall in F. specialize (F k Hk). lia.
Qed.

(** ** The controller keeps the invariant *)

Definition count_of (s : sys) : nat := length (b_reqs (o_batch (sy_owner s))).
Definition n_hist (s : sys) : nat := length (sy_hist s).
Definition n_posted (s : sys) : nat := length (posted (sy_q s)).

Lemma past_range k o : 0 <= past k o <= b_count (o_batch o).
Proof. unfold past, b_count. destruct (k <=? stage (o_pc o))%nat; lia. Qed.

(** How far the controller is. *)
Lemma dev_bounds s : batch_inv s ->
  (n_hist s <= n_posted s <= length (fetched (sy_q s)))%nat /\
  Z.of_nat (length (fetched (sy_q s))) <= Z.of_nat (n_hist s) + past 1 (sy_owner s).
Proof.
  intros I. destruct (bi_posted _ I) as (N & F & L). destruct (bi_fetched _ I) as (f & Ef & Hf).
  split; [split; [done|by apply below_length]|]. rewrite Ef, length_app, length_take. unfold n_hist. lia.
Qed.

Lemma fetch_inv q o h q' : batch_inv (MkSys q o h) -> dev_fetch q = Some q' -> batch_inv (MkSys q' o h).
Proof.
  intros I E. unfold dev_fetch in E. destruct (Z.eqb_spec (Z.of_nat (length (fetched q)) mod sq_qs) (sq_db q)) as [|Hne]; [done|]. injection E as <-.
  pose proof (bi_fits _ I) as (F1 & F2 & F3). destruct (bi_fetched _ I) as (f & Ef & Hf). cbn in Ef, Hf. destruct qs_bounds as [Q1 Q2].
  assert (Hf' : Z.of_nat f < past 1 o).
  { pose proof (bi_db _ I) as Ed. cbn in Ed. destruct (decide (Z.of_nat f = past 1 o)) as [Heq|]; [|lia]. destruct Hne. rewrite Ed, Ef, length_app, length_take.
    rewrite batch_cmds_length, Nat.min_l by (pose proof (past_range 1 o); unfold b_count in *; lia). f_equal. lia. }
  assert (Hlt : (f < length (b_reqs (o_batch o)))%nat) by (pose proof (past_range 1 o); unfold b_count in *; lia).
  assert (Hlen : length (fetched q) = (length h + f)%nat) by (rewrite Ef, length_app, length_take, batch_cmds_length; lia).
  destruct (lookup_lt_is_Some_2 _ _ Hlt) as [r Hr].
  assert (Hpc : building o = false /\ o_pc o <> BCopy /\ copied (o_prog o) = true).
  { assert (building o = false /\ o_pc o <> BCopy) as [B1 B2] by (unfold past in Hf'; unfold building; destruct (o_pc o); cbn in *; try lia; done).
    split_and!; [done..|]. by apply (bi_copied _ I). }
  destruct Hpc as (_ & _ & Hcop). pose proof (bi_prog _ I) as Hpr. cbn in Hpr.
  pose proof (copied_lookup _ f Hcop ltac:(rewrite Hpr; done)) as Hj.
  assert (Ecmd : sq_mem q (Z.of_nat (length (fetched q)) mod sq_qs) 0%nat ++ sq_mem q (Z.of_nat (length (fetched q)) mod sq_qs) 1%nat = batch_cmd o f r).
  { rewrite Hlen, Nat2Z.inj_add. pose proof (bi_mem _ I f r 2%nat) as Hm. cbn in Hm. rewrite !Hm by (done || lia).
    apply halves. unfold batch_cmd. rewrite io_command_length. by eapply (Forall_lookup_1 _ _ _ _ F3). }
  destruct I; split; cbn in *; try done.
  - exists (S f). split; [|lia]. rewrite Ecmd, Ef, (take_S_r _ _ (batch_cmd o f r)) by (by rewrite batch_cmds_lookup, Hr). by rewrite app_assoc.
  - destruct bi_posted0 as (? & Fp & ?). split_and!; try done. eapply list.Forall_impl; [exact Fp|]. intros k. cbn. rewrite length_app. lia.
Qed.

Lemma entry_phase cmd n st : 0 <= st -> phase_bit (cmd_cid cmd + Cq.phase_of cq_log2 n * 2 ^ 16 + st * 2 ^ 17) = Cq.phase_of cq_log2 n.
Proof.
  intros Hst. apply (Cq.entry_decode (cmd_cid cmd)); [|apply Cq.phase_range].
  unfold cmd_cid. rewrite RB_spec by lia. apply Z.mod_pos_bound. lia.
Qed.

Lemma post_inv q o h k st q' : batch_inv (MkSys q o h) -> 0 <= st -> dev_post q k st = Some q' -> batch_inv (MkSys q' o h).
Proof.
  intros I Hst E. unfold dev_post in E. destruct (fetched q !! k) as [cmd|] eqn:Ek; [|done]. pose proof (lookup_lt_Some _ _ _ Ek) as Hk.
  case_bool_decide as Hin; [done|]. destruct (_ =? _) eqn:Efull; [done|]. injection E as <-. apply Z.eqb_neq in Efull.
  destruct (bi_posted _ I) as (N & F & L). cbn in N, F, L. destruct (dev_bounds _ I) as [B1 B2]. cbn in B1, B2. destruct qs_bounds as [_ Q2].
  assert (HP : (length (posted q) < length (fetched q))%nat).
  { destruct (decide (length (posted q) = length (fetched q))) as [Heq|]; [|unfold n_posted in B1; cbn in B1; lia].
    destruct Hin. rewrite (all_below _ _ N F Heq). apply elem_of_seq. lia. }
  set (P := Z.of_nat (length (posted q))) in *. destruct I; split; cbn in *; try done.
  - split_and!; [|apply Forall_app; split; [done|by repeat constructor]|rewrite length_app; cbn; lia].
    apply NoDup_app. split_and!; [done| |apply NoDup_singleton]. by intros x Hx ->%list_elem_of_singleton.
  - intros Hs. exfalso. specialize (bi_polled0 Hs). pose proof (past_range 1 o). unfold n_hist, b_count in *. cbn in *. lia.
  - intros p Hp0. rewrite length_app. cbn [length]. intros Hp. destruct (decide (p = P)) as [->|].
    + rewrite fupd_eq. by apply entry_phase.
    + rewrite fupd_ne; [apply bi_cpl0; lia|]. intros Heq%mod_inj_near; lia.
  - intros p. rewrite length_app. cbn [length]. intros Hp. rewrite fupd_ne; [apply bi_unused0; lia|].
    rewrite Z.mod_small by lia. lia.
Qed.

(** ** The owner keeps the invariant *)

(** The entry the owner waits for has the phase of its lap exactly when the controller has
    completed the whole batch. *)
Lemma poll_phase s : batch_inv s -> (3 <= stage (o_pc (sy_owner s)))%nat ->
  let t := Z.of_nat (n_hist s) + b_count (o_batch (sy_owner s)) - 1 in
  phase_bit (cpl (sy_q s) (t mod cq_qs)) = Cq.phase_of cq_log2 t <-> n_posted s = (n_hist s + count_of s)%nat.
Proof.
  intros I Hs t. destruct (dev_bounds _ I) as [B1 B2]. pose proof (past_range 1 (sy_owner s)). destruct qs_bounds as [_ Q2].
  pose proof (bi_fits _ I) as (_ & F2 & _). set (P := Z.of_nat (n_posted s)). set (n := b_count (o_batch (sy_owner s))) in *.
  assert (En : n = Z.of_nat (count_of s)) by done. assert (Hbit : forall p, 0 <= p -> P - cq_qs <= p < P -> phase_bit (cpl (sy_q s) (p mod cq_qs)) = Cq.phase_of cq_log2 p)
    by apply (bi_cpl _ I).
  split.
  - intros Hp. destruct (decide (n = 0)) as [Hn|Hn]; [lia|]. destruct (decide (P = t + 1)) as [|HP]; [lia|]. exfalso.
    destruct (decide (t < cq_qs)) as [Ht|Ht].
    + rewrite Z.mod_small in Hp by lia. rewrite (bi_unused _ I) in Hp by (unfold P in *; unfold n_posted in *; lia).
      unfold Cq.phase_of, Cq.qs in Hp. rewrite Z.div_small in Hp by (unfold cq_qs in Ht; lia). done.
    + specialize (Hbit (t - cq_qs) ltac:(lia) ltac:(lia)). apply (batch_phase_next (t - cq_qs)). rewrite <- Hbit, Z.sub_add, <- Hp.
      do 2 f_equal. rewrite <- (Z.mod_add (t - cq_qs) 1) by lia. f_equal. lia.
  - intros HP. destruct (decide (0 <= t)) as [Ht|Ht]; [apply Hbit; lia|].
    assert (length (posted (sy_q s)) = 0%nat) as H0 by (unfold n_posted in HP; lia).
    assert (t = -1) as -> by lia. rewrite <- (Z.mod_add (-1) 1), Z.mod_small, (bi_unused _ I) by lia.
    unfold Cq.phase_of, Cq.qs. pose proof (pow_bounds cq_log2 Hcq). rewrite <- (Z.div_unique (-1) (2 ^ cq_log2) (-1) (2 ^ cq_log2 - 1)) by lia. done.
Qed.

Lemma poll_hit_iff s : batch_inv s -> (3 <= stage (o_pc (sy_owner s)))%nat ->
  poll_hit (sy_q s) (sy_owner s) = true <-> n_posted s = (n_hist s + count_of s)%nat.
Proof.
  intros I Hs. rewrite <- (poll_phase s I Hs). unfold poll_hit. rewrite Z.eqb_eq, (bi_ohead _ I Hs), u32_add. fold (n_hist s).
  replace (u32 (u32 (Z.of_nat (n_hist s) + b_count (o_batch (sy_owner s))) - 1)) with (u32 (Z.of_nat (n_hist s) + b_count (o_batch (sy_owner s)) - 1))
    by (symmetry; apply wrap_sub_l).
  rewrite cq_pos, expected_phase_of. done.
Qed.

(** Before the doorbell the owner changes nothing the controller sees. *)
Definition unseen (q q' : bq_state) : Prop :=
  sq_tail q' = sq_tail q /\ sq_head q' = sq_head q /\ sq_db q' = sq_db q /\ cq_head q' = cq_head q /\ cq_db q' = cq_db q /\
  cpl q' = cpl q /\ fetched q' = fetched q /\ posted q' = posted q.

Lemma past_0 k o : stage (o_pc o) = 0%nat -> (0 < k)%nat -> past k o = 0.
Proof. intros E Hk. unfold past. rewrite E. destruct (Nat.leb_spec k 0); [lia|done]. Qed.

Lemma stage0_inv q o h q' o' :
  batch_inv (MkSys q o h) -> stage (o_pc o) = 0%nat -> stage (o_pc o') = 0%nat -> o_batch o' = o_batch o -> unseen q q' ->
  (tail_known o' = true -> o_tail o' = u32 (Z.of_nat (length h))) -> length (o_prog o') = length (b_reqs (o_batch o)) ->
  (building o' = true -> Forall (eq O) (o_prog o')) -> (building o' = false -> o_pc o' <> BCopy -> copied (o_prog o') = true) ->
  (o_pc o' = BCopy -> copied (o_prog o') = false) -> Forall (fun j => j <= 2)%nat (o_prog o') ->
  (forall i r j k, b_reqs (o_batch o) !! i = Some r -> o_prog o' !! i = Some j -> (k < j)%nat ->
     sq_mem q' ((Z.of_nat (length h) + Z.of_nat i) mod sq_qs) k = half (batch_cmd o' i r) k) ->
  batch_inv (MkSys q' o' h).
Proof.
  intros I S S' Eb (E1 & E2 & E3 & E4 & E5 & E6 & E7 & E8) Ht Hp Hb Hc Hcp Hh Hm.
  destruct I as [J1 J2 J3 J4 J5 J6 J7 J8 (f & Ef & Hf) J10 J11 J12 J13 J14 J15 J16 J17 J18 J19]. cbn in *.
  rewrite !past_0 in * by (done || lia). split; cbn; rewrite ?past_0, ?Eb, ?E1, ?E2, ?E3, ?E4, ?E5, ?E6, ?E7, ?E8 by (done || lia); try done.
  - rewrite S'. lia.
  - exists 0%nat. split; [|lia]. rewrite Ef. replace f with 0%nat by lia. by rewrite !take_0.
  - rewrite S'. lia.
Qed.

Lemma zero_prog prog i j : Forall (eq O) prog -> prog !! i = Some j -> j = O.
Proof. intros F H. symmetry. by eapply (Forall_lookup_1 _ _ _ _ F). Qed.

Lemma enter_copy_stage o : stage (enter_copy o) = 0%nat /\ enter_copy o <> BTicket /\ enter_copy o <> BTail /\
  (enter_copy o <> BCopy -> copied (o_prog o) = true) /\ (enter_copy o = BCopy -> copied (o_prog o) = false).
Proof. unfold enter_copy, after_copy. destruct (copied (o_prog o)), (b_blocks (o_batch o)); done. Qed.

Lemma goto_building o c : c <> BTicket -> c <> BTail -> building (goto o c) = false /\ tail_known (goto o c) = true.
Proof. by destruct c. Qed.

Lemma unseen_refl q : unseen q q.
Proof. by repeat split. Qed.

(** Drawing identifiers and loading the tail. *)
Lemma prepare_inv q o h i q' o' :
  batch_inv (MkSys q o h) -> building o = true -> owner_step q o i = Some (q', o') -> batch_inv (MkSys q' o' h).
Proof.
  intros I B E. pose proof (bi_building _ I B) as Hz. pose proof (bi_prog _ I) as Hp. pose proof (bi_tail _ I) as Et. pose proof (bi_otail _ I) as Eo. pose proof (bi_halves _ I) as Hh. cbn in Hz, Hp, Et, Eo, Hh.
  assert (S : stage (o_pc o) = 0%nat) by (unfold building in B; by destruct (o_pc o)). rewrite past_0, Z.add_0_r in Et by (done || lia).
  unfold owner_step in E. unfold building in B. destruct (o_pc o) eqn:Epc; try done; injection E as <- <-.
  - destruct (enter_copy_stage (MkOwner (o_batch o) (Z.land (cid_ticket q) 65535) (o_tail o) (o_head o) (o_prog o) BTicket)) as (S1 & N1 & N2 & C1 & C2).
    destruct (b_warp (o_batch o)) eqn:Ew.
    + destruct (goto_building (MkOwner (o_batch o) (Z.land (cid_ticket q) 65535) (o_tail o) (o_head o) (o_prog o) BTicket) _ N1 N2) as [G1 G2].
      eapply stage0_inv; [exact I|by rewrite Epc|done|done|by repeat split| |done|by rewrite G1|done|done|done|].
      * intros _. apply Eo. unfold tail_known. by rewrite Epc.
      * intros i0 r j k _ Hj Hk. apply (zero_prog _ _ _ Hz) in Hj. lia.
    + eapply stage0_inv; [exact I|by rewrite Epc|done|done|by repeat split|done|done|done|done|done|done|].
      intros i0 r j k _ Hj Hk. apply (zero_prog _ _ _ Hz) in Hj. lia.
  - destruct (enter_copy_stage (MkOwner (o_batch o) (o_cid o) (sq_tail q) (o_head o) (o_prog o) BTail)) as (S1 & N1 & N2 & C1 & C2).
    destruct (b_warp (o_batch o)) eqn:Ew.
    + eapply stage0_inv; [exact I|by rewrite Epc|done|done|apply unseen_refl|done|done|done|done|done|done|].
      intros i0 r j k _ Hj Hk. apply (zero_prog _ _ _ Hz) in Hj. lia.
    + destruct (goto_building (MkOwner (o_batch o) (o_cid o) (sq_tail q) (o_head o) (o_prog o) BTail) _ N1 N2) as [G1 G2].
      eapply stage0_inv; [exact I|by rewrite Epc|done|done|apply unseen_refl|done|done|by rewrite G1|done|done|done|].
      intros i0 r j k _ Hj Hk. apply (zero_prog _ _ _ Hz) in Hj. lia.
Qed.

(** Copying half a command. *)
Lemma copy_inv q o h i q' o' :
  batch_inv (MkSys q o h) -> o_pc o = BCopy -> copy_step q o i = Some (q', o') -> batch_inv (MkSys q' o' h).
Proof.
  intros I Epc E. unfold copy_step in E. destruct (negb _); [done|].
  destruct (b_reqs (o_batch o) !! i) as [r|] eqn:Hr; [|done]. destruct (o_prog o !! i) as [j|] eqn:Hj; [|done].
  destruct (Nat.ltb_spec j 2) as [Hlt|]; [|done]. injection E as <- <-. pose proof (lookup_lt_Some _ _ _ Hj) as Hi.
  set (o1 := MkOwner _ _ _ _ (<[i := S j]> (o_prog o)) _). destruct (enter_copy_stage o1) as (S1 & N1 & N2 & C1 & C2).
  destruct (goto_building o1 _ N1 N2) as [G1 G2]. pose proof (bi_prog _ I) as Hp. pose proof (bi_fits _ I) as (F1 & _ & _). cbn in Hp, F1.
  assert (Et : o_tail o = u32 (Z.of_nat (length h))) by (apply (bi_otail _ I); unfold tail_known; cbn; by rewrite Epc).
  assert (Epos : Z.land (u32 (o_tail o + Z.of_nat i)) (sq_qs - 1) = (Z.of_nat (length h) + Z.of_nat i) mod sq_qs).
  { rewrite Et. apply sq_pos_add. }
  eapply stage0_inv; [exact I|by cbn; rewrite Epc|done|done|by repeat split|done|by cbn; rewrite length_insert|by rewrite G1|done|done| |].
  { apply Forall_insert; [exact (bi_halves _ I)|lia]. }
  intros i0 r0 j0 k Hr0 Hj0 Hk. cbn in Hj0 |- *. rewrite Epos.
  destruct (decide (i0 = i)) as [->|Hne].
  - rewrite list_lookup_insert_eq in Hj0 by done. injection Hj0 as <-. rewrite fupd_eq. rewrite Hr in Hr0. injection Hr0 as <-.
    destruct (Nat.eqb_spec k j) as [->|]; [done|]. apply (bi_mem _ I i r j); [done|done|lia].
  - rewrite list_lookup_insert_ne in Hj0 by done. rewrite fupd_ne; [by apply (bi_mem _ I i0 r0 j0)|].
    pose proof (lookup_lt_Some _ _ _ Hj0). intros Heq%mod_inj_near; unfold b_count in *; lia.
Qed.

(** The write counters. *)
Lemma count_inv q o h i q' o' :
  batch_inv (MkSys q o h) -> o_pc o = BCmds \/ o_pc o = BBlocks -> owner_step q o i = Some (q', o') -> batch_inv (MkSys q' o' h).
Proof.
  intros I Epc E. pose proof (bi_prog _ I). pose proof (bi_otail _ I) as Et. pose proof (bi_copied _ I) as Hc. pose proof (bi_mem _ I) as Hm. pose proof (bi_halves _ I) as Hh. cbn in Et, Hc, Hm, Hh.
  unfold owner_step, building, tail_known in *.
  destruct Epc as [Epc|Epc]; rewrite Epc in *; injection E as <- <-;
    (eapply stage0_inv; [exact I|by cbn; rewrite Epc|done|done|by repeat split|intros _; by apply Et|done|done|intros _ _; by apply Hc|done|done|exact Hm]).
Qed.

(** From the doorbell on. *)
Lemma submit_inv q o h i q' o' :
  batch_inv (MkSys q o h) -> o_pc o = BRing \/ o_pc o = BTailStore \/ o_pc o = BHead -> owner_step q o i = Some (q', o') -> batch_inv (MkSys q' o' h).
Proof.
  intros I Epc E. destruct o as [b cid tail head prog pc0]. cbn [o_pc] in Epc. destruct qs_bounds as [Q1 Q2].
  destruct Epc as [-> | [-> | ->]]; cbn in E; injection E as <- <-; pose proof (bi_otail _ I eq_refl) as Et; cbn in Et; subst tail.
  - destruct I as [J1 J2 J3 J4 J5 J6 J7 J8 (f & Ef & Hf) J10 J11 J12 J13 J14 J15 J16 J17 J18 J19]; split; cbn in *; try done; try lia; try (intros _ _; by apply J16).
    + apply sq_pos_add.
    + exists f. split; [done|]. unfold b_count. lia.
  - destruct I as [J1 J2 J3 J4 J5 J6 J7 J8 J9 J10 J11 J12 J13 J14 J15 J16 J17 J18 J19]; split; cbn in *; try done; try lia; try (intros _ _; by apply J16).
    apply u32_add.
  - destruct I as [J1 J2 J3 J4 J5 J6 J7 J8 J9 J10 J11 J12 J13 J14 J15 J16 J17 J18 J19]; split; cbn in *; try done; try lia; try (intros _ _; by apply J16).
    intros _. by rewrite J4, Z.add_0_r.
Qed.

Lemma poll_inv q o h i q' o' :
  batch_inv (MkSys q o h) -> o_pc o = BPoll -> owner_step q o i = Some (q', o') -> batch_inv (MkSys q' o' h).
Proof.
  intros I Epc E. pose proof (poll_hit_iff _ I ltac:(cbn; rewrite Epc; cbn; lia)) as Hp. unfold owner_step in E. rewrite Epc in E. cbn [sy_q sy_owner] in Hp.
  destruct o as [b cid tail head prog pc0]. cbn [o_pc] in Epc. subst pc0. destruct (poll_hit q _); injection E as <- <-; [|done].
  destruct I as [J1 J2 J3 J4 J5 J6 J7 J8 J9 J10 J11 J12 J13 J14 J15 J16 J17 J18 J19]; split; cbn in *; try done; try lia; try (intros _ _; by apply J16).
  intros _. by apply Hp.
Qed.

Lemma release_inv q o h i q' o' :
  batch_inv (MkSys q o h) -> (4 <= stage (o_pc o))%nat -> owner_step q o i = Some (q', o') -> batch_inv (MkSys q' o' h).
Proof.
  intros I S E. destruct o as [b cid tail head prog pc0]. cbn [o_pc] in S.
  pose proof (bi_otail _ I ltac:(destruct pc0; cbn in *; lia || done)) as Et. pose proof (bi_ohead _ I ltac:(cbn; lia)) as Eh. cbn in Et, Eh. subst tail head.
  destruct pc0; cbn in S; try lia; cbn in E; try done; injection E as <- <-.
  all: try match goal with |- context [if ?c then BPut _ else BDone] => destruct c end.
  all: destruct I as [J1 J2 J3 J4 J5 J6 J7 J8 J9 J10 J11 J12 J13 J14 J15 J16 J17 J18 J19]; split; cbn in *; try done; try lia; try (intros _ _; by apply J16).
  all: try apply u32_add; try (intros _; apply J11; lia). all: try (unfold u32; rewrite wrap_add_l; apply cq_pos).
Qed.

Lemma owner_inv q o h i q' o' : batch_inv (MkSys q o h) -> owner_step q o i = Some (q', o') -> batch_inv (MkSys q' o' h).
Proof.
  intros I E. destruct (o_pc o) eqn:Epc; try by (eapply release_inv; [exact I|rewrite Epc; cbn; lia|exact E]).
  1, 2: eapply prepare_inv; [exact I|unfold building; by rewrite Epc|exact E].
  - unfold owner_step in E. rewrite Epc in E. by eapply copy_inv.
  - eapply count_inv; [exact I|by left|exact E].
  - eapply count_inv; [exact I|by right|exact E].
  - eapply submit_inv; [exact I|by left|exact E].
  - eapply submit_inv; [exact I|by right; left|exact E].
  - eapply submit_inv; [exact I|by right; right|exact E].
  - by eapply poll_inv.
Qed.

Lemma fetched_all s : batch_inv s -> (4 <= stage (o_pc (sy_owner s)))%nat ->
  fetched (sy_q s) = sy_hist s ++ batch_cmds (sy_owner s) /\ posted (sy_q s) ≡ₚ seq 0 (length (fetched (sy_q s))).
Proof.
  intros I Hs. pose proof (bi_polled _ I Hs) as HP. destruct (dev_bounds _ I) as [B1 B2]. destruct (bi_posted _ I) as (N & F & _).
  destruct (bi_fetched _ I) as (f & Ef & Hf). pose proof (past_range 1 (sy_owner s)). unfold n_posted, n_hist, b_count in *.
  assert (E : fetched (sy_q s) = sy_hist s ++ batch_cmds (sy_owner s)).
  { rewrite Ef. f_equal. apply take_ge. rewrite batch_cmds_length. rewrite Ef, length_app, length_take in B1. lia. }
  split; [done|]. apply all_below; [done..|]. rewrite HP, E, length_app, batch_cmds_length. done.
Qed.

Lemma start_inv q o h b : batch_inv (MkSys q o h) -> o_pc o = BDone -> fits b -> batch_inv (MkSys q (start_batch b) (h ++ batch_cmds o)).
Proof.
  intros I Epc Fb. destruct (fetched_all _ I ltac:(cbn; rewrite Epc; cbn; lia)) as [Ef _]. pose proof (bi_polled _ I ltac:(cbn; rewrite Epc; cbn; lia)) as HP. cbn in Ef, HP.
  assert (Hl : Z.of_nat (length (h ++ batch_cmds o)) = Z.of_nat (length h) + b_count (o_batch o)).
  { rewrite length_app, batch_cmds_length. unfold b_count. lia. }
  assert (Hp : forall k, (k <= 7)%nat -> past k o = b_count (o_batch o)).
  { intros k Hk. unfold past. rewrite Epc. cbn. by rewrite (proj2 (Nat.leb_le k 7) Hk). }
  destruct I as [J1 J2 J3 J4 J5 J6 J7 J8 J9 J10 J11 J12 J13 J14 J15 J16 J17 J18 J19]. cbn in *. rewrite !Hp in * by lia.
  assert (Es : stage (o_pc (start_batch b)) = 0%nat) by (unfold start_batch; cbn; by destruct (b_warp b)).
  split; cbn [sy_q sy_owner sy_hist]; rewrite ?past_0, ?Hl, ?Z.add_0_r by (done || lia); try done.
  - unfold tail_known, start_batch. cbn. by destruct (b_warp b).
  - rewrite Es. lia.
  - exists 0%nat. split; [by rewrite take_0, app_nil_r|lia].
  - destruct J10 as (? & ? & ?). split_and!; try done. rewrite length_app, batch_cmds_length. lia.
  - rewrite Es. lia.
  - by apply length_replicate.
  - intros _. by apply Forall_replicate.
  - unfold building, start_batch. cbn. by destruct (b_warp b).
  - unfold start_batch. cbn. by destruct (b_warp b).
  - apply Forall_replicate. lia.
  - intros i r j k _ Hj. apply lookup_replicate in Hj as [-> _]. lia.
Qed.

Lemma step_inv s s' : batch_inv s -> step s s' -> batch_inv s'.
Proof.
  intros I H. destruct H; [by eapply owner_inv|by eapply fetch_inv|by eapply post_inv|by apply start_inv].
Qed.

Lemma fresh_inv ticket locks cmds blocks : batch_inv (MkSys (fresh_bq ticket locks cmds blocks) no_batch []).
Proof.
  destruct qs_bounds as [Q1 Q2]. split; cbn; try done; try lia.
  - split_and!; [unfold b_count; cbn; lia..|constructor].
  - by exists 0%nat.
  - split_and!; [constructor|constructor|lia].
Qed.

Lemma batch_reachable_inv s : batch_reachable s -> batch_inv s.
Proof.
  intros (ticket & locks & cmds & blocks & _ & H). remember (MkSys _ no_batch []) as s0 eqn:E0. assert (I0 : batch_inv s0) by (subst; apply fresh_inv).
  clear E0. induction H as [|x y z Hxy _ IH]; [done|]. apply IH. by eapply step_inv.
Qed.

(** ** Progress *)

(** Accesses left to the owner, and fetches and completions left to the controller. *)
Definition to_copy (prog : list nat) : nat := foldr (fun j n => 2 - j + n)%nat 0%nat prog.
Definition owner_left (o : owner) : nat :=
  let n := length (b_reqs (o_batch o)) in
  match o_pc o with
  | BTicket => (if b_warp (o_batch o) then 13 else 14) + to_copy (o_prog o) + n
  | BTail => (if b_warp (o_batch o) then 14 else 13) + to_copy (o_prog o) + n
  | BCopy => 12 + to_copy (o_prog o) + n
  | BCmds => 11 + n | BBlocks => 10 + n | BRing => 9 + n | BTailStore => 8 + n | BHead => 7 + n | BPoll => 6 + n
  | BHeadStore => 5 + n | BRingCq => 4 + n | BSqHead => 3 + n
  | BPut i => 1 + (n - i)
  | BDone => 0
  end.
Definition dev_left (s : sys) : nat :=
  2 * (n_hist s + count_of s - length (fetched (sy_q s))) + (length (fetched (sy_q s)) - n_posted s).
Definition left (s : sys) : nat := owner_left (sy_owner s) + dev_left s.

#[local] Arguments Nat.sub : simpl never.

Lemma to_copy_insert prog i j : prog !! i = Some j -> (j < 2)%nat -> (to_copy (<[i := S j]> prog) < to_copy prog)%nat.
Proof.
  revert i. induction prog as [|a prog IH]; intros [|i] H Hj; [done..| |]; cbn in *.
  - injection H as ->. fold (to_copy prog). lia.
  - apply Nat.add_lt_mono_l. exact (IH i H Hj).
Qed.

#[local] Arguments to_copy : simpl never.

Lemma enter_copy_left o o' : o_prog o' = o_prog o -> o_batch o' = o_batch o ->
  (owner_left (goto o' (enter_copy o)) <= 12 + to_copy (o_prog o) + length (b_reqs (o_batch o)))%nat.
Proof.
  intros Ep Eb. unfold owner_left, enter_copy, after_copy. destruct (copied (o_prog o)), (b_blocks (o_batch o)); cbn; rewrite ?Ep, Eb; lia.
Qed.

Lemma owner_step_left q o i q' o' : owner_step q o i = Some (q', o') ->
  o_pc o = BPoll /\ (q', o') = (q, o) \/ (owner_left o' < owner_left o)%nat.
Proof.
  intros E. unfold owner_step in E. destruct (o_pc o) eqn:Epc; try done.
  1, 2: injection E as <- <-; right; match goal with |- context [enter_copy ?x] => pose proof (enter_copy_left x x eq_refl eq_refl) as L end;
    destruct (b_warp (o_batch o)) eqn:Ew; unfold owner_left at 2; rewrite Epc, Ew; cbn in *; rewrite ?Ew; lia.
  { right. unfold copy_step in E. destruct (negb _); [done|]. destruct (b_reqs (o_batch o) !! i); [|done]. destruct (o_prog o !! i) as [j|] eqn:Hj; [|done].
    destruct (Nat.ltb_spec j 2) as [Hlt|]; [|done]. injection E as <- <-. pose proof (to_copy_insert _ _ _ Hj Hlt).
    match goal with |- context [enter_copy ?x] => pose proof (enter_copy_left x x eq_refl eq_refl) as L end. cbn [o_prog o_batch] in L. unfold owner_left at 2. rewrite Epc in *. lia. }
  all: injection E as <- <-; unfold owner_left; rewrite Epc.
  all: try (right; cbn; lia).
  - destruct (poll_hit q o); [right; cbn; lia|]. left. split; [done|]. f_equal. destruct o. cbn in *. by subst.
  - right. unfold b_count. destruct (b_puts (o_batch o)); cbn; [|lia]. destruct (Z.eqb_spec (Z.of_nat (length (b_reqs (o_batch o)))) 0); cbn; lia.
  - right. destruct (Nat.ltb_spec (S i0) (length (b_reqs (o_batch o)))); cbn [goto o_pc o_batch]; lia.
Qed.

Lemma owner_step_batch q o i q' o' : owner_step q o i = Some (q', o') ->
  o_batch o' = o_batch o /\ fetched q' = fetched q /\ posted q' = posted q.
Proof.
  intros E. unfold owner_step, copy_step in E.
  repeat match type of E with context [match ?x with _ => _ end] => destruct x end; first [discriminate E|by injection E as <- <-].
Qed.

Lemma step_left s s' : batch_inv s -> step s s' -> o_pc (sy_owner s) <> BDone -> s' = s \/ (left s' < left s)%nat.
Proof.
  intros I H Hpc. pose proof (step_inv _ _ I H) as I'. destruct (dev_bounds _ I') as [B1 B2]. pose proof (past_range 1 (sy_owner s')) as Pr.
  unfold left, dev_left, n_hist, n_posted, count_of, b_count in *. destruct H as [q o h i q' o' E|q o h q' E|q o h k st q' Hst E|]; cbn in *; [| | |done].
  - destruct (owner_step_batch _ _ _ _ _ E) as (Eb & Ef & Ep). destruct (owner_step_left _ _ _ _ _ E) as [[_ [= -> ->]]|Hlt]; [by left|].
    right. rewrite Eb, Ef, Ep. lia.
  - right. unfold dev_fetch in E. destruct (_ =? _); [done|]. injection E as <-. cbn in *. rewrite length_app in *. cbn in *. lia.
  - right. unfold dev_post in E. destruct (fetched q !! k); [|done]. destruct (_ || _); [done|]. injection E as <-. cbn in *. rewrite length_app in *. cbn in *. lia.
Qed.

(** The first command that is not copied yet. *)
Lemma next_copy prog : copied prog = false -> Forall (fun j => j <= 2)%nat prog ->
  exists i j, prog !! i = Some j /\ (j < 2)%nat /\ copied (take i prog) = true.
Proof.
  induction prog as [|j prog IH]; [done|]. cbn [copied forallb]. intros H [Hj F]%list.Forall_cons.
  destruct (Nat.eqb_spec j 2) as [->|].
  - destruct (IH H F) as (i & j' & Hi & Hj' & Hc). exists (S i), j'. by split_and!.
  - exists 0%nat, j. split_and!; [done|lia|done].
Qed.

Lemma copy_enabled s : batch_inv s -> o_pc (sy_owner s) = BCopy -> exists i x, owner_step (sy_q s) (sy_owner s) i = Some x.
Proof.
  intros I Epc. destruct (next_copy _ (bi_copying _ I Epc) (bi_halves _ I)) as (i & j & Hi & Hj & Hc). exists i.
  pose proof (lookup_lt_Some _ _ _ Hi) as Hl. rewrite (bi_prog _ I) in Hl. destruct (lookup_lt_is_Some_2 _ _ Hl) as [r Hr].
  unfold owner_step. rewrite Epc. unfold copy_step. rewrite Hc, orb_true_r, Hr, Hi. cbn [negb]. rewrite (proj2 (Nat.ltb_lt j 2) Hj). eauto.
Qed.

(** While the owner waits, the controller can fetch or complete a command. *)
Lemma dev_enabled s : batch_inv s -> stage (o_pc (sy_owner s)) = 3%nat -> n_posted s <> (n_hist s + count_of s)%nat ->
  (exists q', dev_fetch (sy_q s) = Some q') \/ (exists k q', dev_post (sy_q s) k 0 = Some q').
Proof.
  intros I Hs HP. destruct (dev_bounds _ I) as [B1 B2]. pose proof (bi_fits _ I) as (F1 & F2 & _). destruct qs_bounds as [Q1 Q2].
  assert (E1 : past 1 (sy_owner s) = Z.of_nat (count_of s)) by (unfold past; by rewrite Hs).
  assert (E6 : past 6 (sy_owner s) = 0) by (unfold past; by rewrite Hs). rewrite E1 in B2. unfold b_count in F1, F2. fold (count_of s) in F1, F2.
  destruct (decide (n_posted s = length (fetched (sy_q s)))) as [Heq|Hne].
  - left. unfold dev_fetch. destruct (Z.eqb_spec (Z.of_nat (length (fetched (sy_q s))) mod sq_qs) (sq_db (sy_q s))) as [Hdb|]; [|by eauto]. exfalso.
    rewrite (bi_db _ I), E1 in Hdb. fold (n_hist s) in Hdb. apply mod_inj_near in Hdb; lia.
  - right. destruct (bi_posted _ I) as (N & F & _). destruct (decide (Forall (fun k => k ∈ posted (sy_q s)) (seq 0 (length (fetched (sy_q s)))))) as [Hall|Hall].
    + exfalso. assert (seq 0 (length (fetched (sy_q s))) ⊆+ posted (sy_q s)) as Hsub%submseteq_length.
      { apply NoDup_submseteq; [apply NoDup_seq|]. intros k Hk. rewrite list.Forall_forall in Hall. by apply Hall. }
      rewrite length_seq in Hsub. unfold n_posted in *. lia.
    + apply not_Forall_Exists in Hall; [|apply _]. apply Exists_exists in Hall as (k & Hk%elem_of_seq & Hin).
      exists k. destruct (lookup_lt_is_Some_2 (fetched (sy_q s)) k) as [cmd Hc]; [lia|]. unfold dev_post. rewrite Hc, bool_decide_false by done.
      destruct (Z.eqb_spec ((Z.of_nat (length (posted (sy_q s))) + 1) mod cq_qs) (cq_db (sy_q s))) as [Hdb|]; [|by eauto]. exfalso.
      rewrite (bi_cq_db _ I), E6 in Hdb. fold (n_hist s) (n_posted s) in Hdb. apply mod_inj_near in Hdb; lia.
Qed.

Lemma batch_progress s : batch_inv s -> o_pc (sy_owner s) <> BDone -> exists s', step s s' /\ (left s' < left s)%nat.
Proof.
  intros I Hpc. assert (forall s', step s s' -> s' <> s -> exists s', step s s' /\ (left s' < left s)%nat) as Hex.
  { intros s' Hs Hne. destruct (step_left _ _ I Hs Hpc); [done|by exists s']. }
  assert (Hown : forall i q' o', owner_step (sy_q s) (sy_owner s) i = Some (q', o') -> (owner_left o' < owner_left (sy_owner s))%nat -> exists s', step s s' /\ (left s' < left s)%nat).
  { intros i q' o' E Hl. destruct s as [q o h]. cbn in *. apply (Hex (MkSys q' o' h)); [by eapply step_owner|]. intros [= -> ->]. lia. }
  destruct (decide (o_pc (sy_owner s) = BPoll)) as [Ep|Np].
  - destruct (poll_hit (sy_q s) (sy_owner s)) eqn:Eh.
    + apply (Hown 0%nat (sy_q s) (goto (sy_owner s) BHeadStore)); [unfold owner_step; by rewrite Ep, Eh|]. unfold owner_left. rewrite Ep. cbn. lia.
    + destruct (dev_enabled s I) as [[q' E]|(k & q' & E)]; [by rewrite Ep| | |].
      { intros HP. apply (poll_hit_iff s I ltac:(rewrite Ep; cbn; lia)) in HP. congruence. }
      * destruct s as [q o h]. cbn in *. apply (Hex (MkSys q' o h)); [by apply step_fetch|]. intros [= ->]. unfold dev_fetch in E. destruct (_ =? _); [done|].
        injection E as E%(f_equal (fun q => length (fetched q))). cbn in E. rewrite length_app in E. cbn in E. lia.
      * destruct s as [q o h]. cbn in *. apply (Hex (MkSys q' o h)); [by eapply (step_post _ _ _ k 0)|]. intros [= ->]. unfold dev_post in E. destruct (fetched q !! k); [|done].
        destruct (_ || _); [done|]. injection E as E%(f_equal (fun q => length (posted q))). cbn in E. rewrite length_app in E. cbn in E. lia.
  - assert (exists i x, owner_step (sy_q s) (sy_owner s) i = Some x) as (i & [q' o'] & E).
    { destruct (decide (o_pc (sy_owner s) = BCopy)) as [Ec|Nc]; [by apply copy_enabled|]. exists 0%nat. unfold owner_step. destruct (o_pc (sy_owner s)); try done; eauto. }
    apply (Hown i q' o' E). by destruct (owner_step_left _ _ _ _ _ E) as [[? _]|].
Qed.

(** ** Theorems *)

(** C20: A batch (of fewer commands than the queues have entries, as are those before it)
    that has returned was served: the controller has fetched the commands of all
    batches so far exactly as they were built, each once and in order, and has completed
    every one of them; both queues are empty again.  This holds for single threads and
    warps, for any order of completions, and for any number of batches, including past the
    wrap-around of the 32-bit counters. *)
Theorem batch_served s :
  batch_reachable s -> o_pc (sy_owner s) = BDone ->
  fetched (sy_q s) = sy_hist s ++ batch_cmds (sy_owner s) /\
  posted (sy_q s) ≡ₚ seq 0 (length (fetched (sy_q s))) /\
  sq_head (sy_q s) = sq_tail (sy_q s) /\ sq_tail (sy_q s) = u32 (Z.of_nat (length (fetched (sy_q s)))) /\
  cq_head (sy_q s) = u32 (Z.of_nat (length (posted (sy_q s)))).
Proof.
  intros I%batch_reachable_inv Epc. destruct (fetched_all s I ltac:(rewrite Epc; cbn; lia)) as [E P]. split; [done|]. split; [done|].
  assert (Hl : Z.of_nat (length (fetched (sy_q s))) = Z.of_nat (length (sy_hist s)) + b_count (o_batch (sy_owner s))).
  { rewrite E, length_app, batch_cmds_length. unfold b_count. lia. }
  assert (Hp : length (posted (sy_q s)) = length (fetched (sy_q s))) by (by rewrite P, length_seq).
  rewrite (bi_sq_head _ I), (bi_tail _ I), (bi_head _ I), Hp, Hl. unfold past. rewrite Epc. done.
Qed.

Lemma step_same s s' : step s s' -> o_pc (sy_owner s) <> BDone -> sy_hist s' = sy_hist s /\ o_batch (sy_owner s') = o_batch (sy_owner s).
Proof. intros H Hpc. destruct H as [q o h i q' o' E| | |]; cbn in *; try done. split; [done|]. by eapply owner_step_batch. Qed.

(** C21: A batch of at least one command and fewer commands than the queues have entries
    ([fits], the limit the code documents and does not check) returns.  Every step of the system, except a read of the entry that does not
    find the completion yet, brings the call nearer to its end; until it has returned some
    such step is possible, in particular the controller can always go on while the owner
    waits; so the call can return, with its own batch. *)
Theorem batch_returns s :
  batch_reachable s ->
  (forall s', step s s' -> o_pc (sy_owner s) <> BDone -> s' = s \/ (left s' < left s)%nat) /\
  (o_pc (sy_owner s) <> BDone -> exists s', step s s' /\ (left s' < left s)%nat) /\
  exists s', rtc step s s' /\ o_pc (sy_owner s') = BDone /\ sy_hist s' = sy_hist s /\ o_batch (sy_owner s') = o_batch (sy_owner s).
Proof.
  intros I%batch_reachable_inv. split; [intros; by eapply step_left|]. split; [by apply batch_progress|].
  remember (left s) as n eqn:En. revert s En I. induction (lt_wf n) as [n _ IH]. intros s -> I.
  destruct (decide (o_pc (sy_owner s) = BDone)) as [|Hpc]; [by exists s|]. destruct (batch_progress s I Hpc) as (s1 & Hs & Hl).
  destruct (step_same _ _ Hs Hpc) as [Eh Eb]. destruct (IH _ Hl s1 eq_refl (step_inv _ _ I Hs)) as (s2 & R & E2 & Eh2 & Eb2).
  exists s2. split_and!; [by eapply rtc_l|done|congruence..].
Qed.

(** A batch that fills the submission queue. *)
Record overfull (s : sys) : Prop := {
  of_count : b_count (o_batch (sy_owner s)) = sq_qs;
  of_stage : (stage (o_pc (sy_owner s)) <= 3)%nat;
  of_db : sq_db (sy_q s) = 0;
  of_tail : (stage (o_pc (sy_owner s)) < 2)%nat -> sq_tail (sy_q s) = 0;
  of_otail : tail_known (sy_owner s) = true -> o_tail (sy_owner s) = 0;
  of_head : cq_head (sy_q s) = 0;
  of_ohead : stage (o_pc (sy_owner s)) = 3%nat -> o_head (sy_owner s) = 0;
  of_fetched : fetched (sy_q s) = [];
  of_cpl x : cpl (sy_q s) x = 0
}.

Lemma overfull_miss s : sq_qs <= cq_qs -> overfull s -> stage (o_pc (sy_owner s)) = 3%nat -> poll_hit (sy_q s) (sy_owner s) = false.
Proof.
  intros Hle O Hs. destruct qs_bounds as [Q1 Q2]. unfold poll_hit. rewrite (of_cpl _ O), (of_ohead _ O Hs), (of_count _ O). apply Z.eqb_neq.
  rewrite (u32_id (0 + sq_qs)) by word_lia. rewrite expected_phase_of. unfold Cq.phase_of, Cq.qs.
  rewrite Z.div_small by (unfold cq_qs in *; lia). done.
Qed.

Lemma overfull_owner q o h i q' o' :
  sq_qs <= cq_qs -> overfull (MkSys q o h) -> owner_step q o i = Some (q', o') -> overfull (MkSys q' o' h).
Proof.
  intros Hle O E. pose proof (overfull_miss _ Hle O) as Miss. destruct qs_bounds as [Q1 Q2].
  destruct O as [O1 O2 O3 O4 O5 O6 O7 O8 O9]. cbn [sy_q sy_owner] in *. unfold owner_step, tail_known in *.
  destruct (o_pc o) eqn:Epc; cbn [stage] in O2; try lia.
  1, 2: match type of E with context [enter_copy ?x] => destruct (enter_copy_stage x) as (S1 & N1 & N2 & _) end;
    injection E as <- <-; destruct (b_warp (o_batch o)) eqn:Ew; split; cbn [goto o_pc o_batch o_tail o_head sy_q sy_owner]; rewrite ?S1; try done; try lia;
    try (intros _; apply O4; cbn; lia); unfold tail_known; cbn [goto o_pc o_batch o_tail]; rewrite ?Ew; try done; destruct (enter_copy _); try done; intros _; first [by apply O5|apply O4; cbn; lia].
  - unfold copy_step in E. destruct (negb _); [done|]. destruct (b_reqs (o_batch o) !! i); [|done]. destruct (o_prog o !! i) as [j|]; [|done].
    destruct (j <? 2)%nat; [|done]. injection E as <- <-. match goal with |- context [enter_copy ?x] => destruct (enter_copy_stage x) as (S1 & N1 & N2 & _) end.
    split; cbn [goto o_pc o_batch o_tail o_head sy_q sy_owner set_sq_mem sq_db sq_tail cq_head fetched cpl]; rewrite ?S1; try done; try lia; try (intros _; apply O4; cbn; lia); intros _; by apply O5.
  - injection E as <- <-. split; try done; try (intros _; apply O4; cbn; lia); try lia; intros _; by apply O5.
  - injection E as <- <-. split; try done; try (intros _; apply O4; cbn; lia); try lia; intros _; by apply O5.
  - injection E as <- <-. split; cbn; try done; try lia; try (intros _; apply O4; cbn; lia); try (intros _; by apply O5).
    rewrite O1, (O5 eq_refl), sq_pos. cbn. apply Z.mod_same. lia.
  - injection E as <- <-. split; cbn; try done; try lia; intros _; by apply O5.
  - injection E as <- <-. split; cbn; try done; try lia; intros _; by apply O5.
  - rewrite (Miss eq_refl) in E. injection E as <- <-. split; cbn; try done; try lia; intros _; first [by apply O5|by apply O7].
Qed.

Lemma overfull_step s s' : sq_qs <= cq_qs -> overfull s -> step s s' -> overfull s'.
Proof.
  intros Hle O H. destruct H as [q o h i q' o' E|q o h q' E|q o h k st q' Hst E|q o h b Epc]; [by eapply overfull_owner|..];
    destruct O as [O1 O2 O3 O4 O5 O6 O7 O8 O9]; cbn [sy_q sy_owner] in *.
  - unfold dev_fetch in E. by rewrite O8, O3 in E.
  - unfold dev_post in E. by rewrite O8 in E.
  - rewrite Epc in O2. cbn in O2. lia.
Qed.

(** A batch of exactly [qs] commands never returns: the doorbell's value is the old one, so
    the controller sees an empty queue and fetches nothing.  [read_data_batch_warp32] on a
    queue of 32 entries is such a batch. *)
Theorem batch_full_hangs ticket locks cmds blocks b s :
  sq_qs <= cq_qs -> b_count b = sq_qs ->
  rtc step (MkSys (fresh_bq ticket locks cmds blocks) (start_batch b) []) s ->
  o_pc (sy_owner s) <> BDone /\ fetched (sy_q s) = [].
Proof.
  intros Hle Hb R. assert (O : overfull s).
  { remember (MkSys _ (start_batch b) []) as s0 eqn:E0. assert (O0 : overfull s0).
    { subst s0. unfold start_batch. split; cbn; unfold tail_known; cbn; destruct (b_warp b); cbn; try done; lia. }
    clear E0. induction R as [|x y z Hxy _ IH]; [done|]. apply IH. by eapply overfull_step. }
  split; [|apply O]. intros Epc. pose proof (of_stage _ O) as Hs. rewrite Epc in Hs. cbn in Hs. lia.
Qed.
End steps.

(** ** The commands *)

Lemma rw_command_fields op ns prp1 prp2 lba n junk cid :
  length junk = 16%nat -> is_word 16 cid -> 0 <= op < 128 -> is_word 64 prp1 -> is_word 64 prp2 -> is_word 64 lba -> 1 <= n <= 65536 ->
  let cmd := io_command (MkReq op ns prp1 prp2 (Rw lba n) junk) cid in
  cmd_opcode cmd = op /\ dword cmd 1 = ns /\ cmd_prp1 cmd = prp1 /\ cmd_prp2 cmd = prp2 /\ cmd_slba cmd = lba /\ cmd_nlb cmd = n.
Proof.
  intros Hl Hc Ho H1 H2 Hs Hn cmd. set (c0 := nvm_cmd_header junk cid op ns). set (c1 := nvm_cmd_data_ptr c0 prp1 prp2).
  assert (L0 : length c0 = 16%nat) by (unfold c0, nvm_cmd_header; by rewrite !length_insert).
  assert (L1 : length c1 = 16%nat) by (unfold c1, nvm_cmd_data_ptr; by rewrite !length_insert).
  destruct (nvm_cmd_header_fields junk cid op ns Hl Hc ltac:(lia)) as (E1 & _ & E2 & _). fold c0 in E1, E2.
  destruct (nvm_cmd_data_ptr_prps c0 prp1 prp2 L0 H1 H2) as [E3 E4]. fold c1 in E3, E4.
  destruct (nvm_cmd_rw_blks_fields c1 lba n L1 Hs Hn) as (E5 & E6 & E7). change cmd with (nvm_cmd_rw_blks c1 lba n).
  split_and!; try done.
  - unfold cmd_opcode. rewrite E7 by lia. unfold cmd_opcode in E1. rewrite Z.mod_small in E1 by lia. rewrite <- E1. unfold c1, nvm_cmd_data_ptr. autorewrite with word.
    change (7 - 0 + 1) with 8. rewrite !Z.div_1_r, <- !land_ones_mod, <- Z.land_assoc by lia. done.
  - rewrite E7 by lia. unfold c1, nvm_cmd_data_ptr. by autorewrite with word.
  - unfold cmd_prp1. rewrite !E7 by lia. done.
  - unfold cmd_prp2. rewrite !E7 by lia. done.
Qed.
Lemma batch_cid_word o i : is_word 16 (batch_cid o i).
Proof. unfold batch_cid, is_word. change 0xffff with (2 ^ 16 - 1). rewrite land_ones_mod by lia. apply Z.mod_pos_bound. lia. Qed.

Lemma batch_cid_inj o i j :
  Z.of_nat i < 65536 -> Z.of_nat j < 65536 -> batch_cid o i = batch_cid o j -> i = j.
Proof.
  intros Hi Hj. unfold batch_cid. change 0xffff with (2 ^ 16 - 1). rewrite !land_ones_mod by lia. intros E.
  pose proof (Z.div_mod (o_cid o + Z.of_nat i) (2 ^ 16)). pose proof (Z.div_mod (o_cid o + Z.of_nat j) (2 ^ 16)). lia.
Qed.

Lemma batch_cids_distinct o :
  Forall Cq.req_ok (b_reqs (o_batch o)) -> b_count (o_batch o) <= 65536 -> NoDup (cmd_cid <$> batch_cmds o).
Proof.
  intros F Hn. unfold b_count in Hn. apply NoDup_alt. intros i j x.
  rewrite !list_lookup_fmap, !batch_cmds_lookup.
  destruct (b_reqs (o_batch o) !! i) as [r|] eqn:Ei; [|done]. destruct (b_reqs (o_batch o) !! j) as [r'|] eqn:Ej; [|done].
  pose proof (lookup_lt_Some _ _ _ Ei). pose proof (lookup_lt_Some _ _ _ Ej).
  cbn. unfold batch_cmd. rewrite !Cq.cmd_cid_io_command by (apply batch_cid_word || by eapply (Forall_lookup_1 _ _ _ _ F)).
  intros E1 E2. apply (batch_cid_inj o); [lia..|congruence].
Qed.

(** C37: A batch of [count] requests is the requests of the arrays: its commands carry opcode,
    namespace, start block, block count and the PRP entries of the cache page of their
    array index, and identifiers that are pairwise distinct. *)
Theorem batch_commands pc ns junk opcode starting_lbas n_blocks_array pc_entries count :
  (forall i, length (junk i) = 16%nat /\ Forall (is_word 32) (junk i)) ->
  (forall e, is_word 64 (Cq.prp1_of pc e) /\ is_word 64 (Cq.prp2_of pc e)) ->
  0 <= opcode < 128 -> (0 < count)%nat -> Z.of_nat count <= 65536 ->
  (count <= length starting_lbas)%nat -> (count <= length n_blocks_array)%nat -> (count <= length pc_entries)%nat ->
  Forall (is_word 64) starting_lbas -> Forall (fun n => 1 <= n <= 65536) n_blocks_array ->
  exists b, sched_batch_rw pc ns junk opcode starting_lbas n_blocks_array pc_entries count = Some (Some b) /\
  forall o, o_batch o = b ->
    length (batch_cmds o) = count /\ NoDup (cmd_cid <$> batch_cmds o) /\
    forall i cmd, batch_cmds o !! i = Some cmd ->
      cmd_opcode cmd = opcode /\ dword cmd 1 = ns /\
      starting_lbas !! i = Some (cmd_slba cmd) /\ n_blocks_array !! i = Some (cmd_nlb cmd) /\
      exists e, pc_entries !! i = Some e /\ cmd_prp1 cmd = Cq.prp1_of pc e /\
        cmd_prp2 cmd = if Cq.prps pc then Cq.prp2_of pc e else 0.
Proof.
  intros Hj Hp Ho H0 Hc L1 L2 L3 F1 F2. set (f := batch_req pc ns junk opcode starting_lbas (fun i => n_blocks_array !! i) pc_entries).
  destruct (mapM_seq f count) as (reqs & E & El & Hr).
  { intros i Hi. unfold f, batch_req. destruct (lookup_lt_is_Some_2 starting_lbas i) as [? ->]; [lia|].
    destruct (lookup_lt_is_Some_2 n_blocks_array i) as [? ->]; [lia|]. destruct (lookup_lt_is_Some_2 pc_entries i) as [? ->]; [lia|]. cbn. eauto. }
  eexists. split. { unfold sched_batch_rw. destruct (Nat.eqb_spec count 0); [lia|]. fold f. rewrite E. reflexivity. }
  intros o Eo. assert (Ereq : b_reqs (o_batch o) = reqs) by (by rewrite Eo). rewrite batch_cmds_length, Ereq. split; [done|].
  assert (Hreq : forall i r, reqs !! i = Some r -> exists lba n e, starting_lbas !! i = Some lba /\ n_blocks_array !! i = Some n /\
    pc_entries !! i = Some e /\ r = submit_io_no_second pc ns lba n e opcode (junk i)).
  { intros i r Hi. apply Hr in Hi. unfold f, batch_req in Hi. destruct (starting_lbas !! i) as [lba|]; [|done]. cbn in Hi.
    destruct (n_blocks_array !! i) as [n|]; [|done]. cbn in Hi. destruct (pc_entries !! i) as [e|]; [|done]. injection Hi as <-. eauto 10. }
  split.
  - apply batch_cids_distinct; unfold b_count; rewrite Ereq; [|lia]. apply Forall_lookup_2. intros i r Hi.
    destruct (Hreq i r Hi) as (lba & n & e & _ & _ & _ & ->). destruct (Hj i). split; [done|]. split; [done|]. cbn. lia.
  - intros i cmd. rewrite batch_cmds_lookup, Ereq. destruct (reqs !! i) as [r|] eqn:Ei; [|done]. intros [= <-].
    destruct (Hreq i r Ei) as (lba & n & e & E1 & E2 & E3 & ->). destruct (Hp e).
    pose proof (Forall_lookup_1 _ _ _ _ F1 E1). pose proof (Forall_lookup_1 _ _ _ _ F2 E2). unfold batch_cmd, submit_io_no_second.
    edestruct (rw_command_fields opcode ns (Cq.prp1_of pc e) (if Cq.prps pc then Cq.prp2_of pc e else 0) lba n (junk i) (batch_cid o i))
      as (-> & -> & -> & -> & -> & ->); try done; [apply Hj|apply batch_cid_word|destruct (Cq.prps pc); [done|split; lia]|].
    eauto 10.
Qed.
(** ** Examples *)

(** Schedules of the system. *)
Inductive action := AOwner (i : nat) | AFetch | APost (k : nat) | AStart (b : batch).

Definition act (sq_log2 cq_log2 : Z) (s : sys) (a : action) : option sys :=
  let q := sy_q s in let o := sy_owner s in
  match a with
  | AOwner i => x ← owner_step sq_log2 cq_log2 q o i; Some (MkSys x.1 x.2 (sy_hist s))
  | AFetch => q' ← dev_fetch sq_log2 q; Some (MkSys q' o (sy_hist s))
  | APost k => q' ← dev_post cq_log2 q k 0; Some (MkSys q' o (sy_hist s))
  | AStart b =>
      if bool_decide (o_pc o = BDone) && (b_count b <? sq_qs sq_log2) && (b_count b <? cq_qs cq_log2) &&
         forallb (fun r => length (Cq.r_junk r) =? 16)%nat (b_reqs b)
      then Some (MkSys q (start_batch b) (sy_hist s ++ batch_cmds o)) else None
  end.

Definition run (sq_log2 cq_log2 : Z) (s : sys) (l : list action) : option sys := foldl (fun s a => s ← s; act sq_log2 cq_log2 s a) (Some s) l.

Lemma act_step sq_log2 cq_log2 s a s' : act sq_log2 cq_log2 s a = Some s' -> step sq_log2 cq_log2 s s'.
Proof.
  destruct s as [q o h], a as [i| |k|b]; unfold act; cbn.
  - destruct (owner_step _ _ _ _ _) as [[q' o']|] eqn:E; [|done]. intros [= <-]. by eapply step_owner.
  - destruct (dev_fetch _ _) as [q'|] eqn:E; [|done]. intros [= <-]. by apply step_fetch.
  - destruct (dev_post _ _ _ _) as [q'|] eqn:E; [|done]. intros [= <-]. by eapply (step_post _ _ _ _ _ k 0).
  - destruct (bool_decide (o_pc o = BDone)) eqn:E1; [|done]. destruct (Z.ltb_spec (b_count b) (sq_qs sq_log2)); [|done].
    destruct (Z.ltb_spec (b_count b) (cq_qs cq_log2)); [|done]. destruct (forallb _ _) eqn:E2; [|done]. intros [= <-].
    apply bool_decide_eq_true in E1. apply step_start; [done|]. split; [done|]. split; [done|].
    apply list.Forall_forall. intros r Hr. rewrite forallb_forall in E2. by apply Nat.eqb_eq, E2, list_elem_of_In.
Qed.

Lemma run_steps sq_log2 cq_log2 l s s' : run sq_log2 cq_log2 s l = Some s' -> rtc (step sq_log2 cq_log2) s s'.
Proof.
  revert s. induction l as [|a l IH]; intros s; [intros [= <-]; apply rtc_refl|]. unfold run. cbn.
  destruct (act sq_log2 cq_log2 s a) as [s1|] eqn:E; [intros H; eapply rtc_l; [by eapply act_step|by apply IH]|].
  intros H. exfalso. clear -H. induction l as [|b l IH]; [done|]. by apply IH.
Qed.

Definition example_prps : prp_table := Cq.MkPrps (fun e => 4096 * (e mod 16)) (fun e => 0) false.
Definition example_reads (n : nat) : batch :=
  match sched_read_batch example_prps 1 (fun _ => repeat 0 16) [8; 72; 640] [8; 16; 8] [3; 0; 5] n with
  | Some (Some b) => b
  | _ => MkBatch [] false None false
  end.

(** Two batches, of two and of three reads, on queues of four entries; the commands
    complete out of order and the second batch wraps around. *)
Definition example_start (ticket : Z) : sys := MkSys (fresh_bq ticket (fun _ => 0) 0 0) no_batch [].
Definition call_of (n : nat) : list action := (fun i => AOwner (Nat.div2 i)) <$> seq 0 (2 * n).
Definition steps_of (n : nat) : list action := replicate n (AOwner 0).
Definition example_run : list action :=
  [AStart (example_reads 2)] ++ steps_of 2 ++ call_of 2 ++ steps_of 3 ++
  [AFetch; AFetch; APost 1; AOwner 0; APost 0] ++ steps_of 6 ++
  [AStart (example_reads 3)] ++ steps_of 2 ++ call_of 3 ++ steps_of 3 ++
  [AFetch; AFetch; AFetch; APost 3; APost 4; APost 2] ++ steps_of 7.
Definition example_end : sys := default (example_start 0) (run 2 2 (example_start 65534) example_run).
Definition example_wait : sys := default (example_start 0) (run 2 2 (example_start 65534) (take 11 example_run)).

Lemma batch_example_reachable n :
  is_Some (run 2 2 (example_start 65534) (take n example_run)) ->
  batch_reachable 2 2 (default (example_start 0) (run 2 2 (example_start 65534) (take n example_run))).
Proof.
  intros [s E]. rewrite E. exists 65534, (fun _ => 0), 0, 0. split; [unfold is_word; lia|]. by eapply run_steps.
Qed.

Lemma batch_served_witness :
  fetched (sy_q example_end) = sy_hist example_end ++ batch_cmds (sy_owner example_end) /\
  posted (sy_q example_end) ≡ₚ seq 0 (length (fetched (sy_q example_end))) /\
  sq_head (sy_q example_end) = sq_tail (sy_q example_end) /\
  sq_tail (sy_q example_end) = u32 (Z.of_nat (length (fetched (sy_q example_end)))) /\
  cq_head (sy_q example_end) = u32 (Z.of_nat (length (posted (sy_q example_end)))).
Proof.
  apply (batch_served 2 2); [lia|lia| |vm_compute; reflexivity].
  apply (batch_example_reachable 46). vm_compute. eexists. reflexivity.
Defined.

Lemma batch_returns_witness :
  exists s', rtc (step 2 2) example_wait s' /\ o_pc (sy_owner s') = BDone /\ sy_hist s' = sy_hist example_wait /\
    o_batch (sy_owner s') = o_batch (sy_owner example_wait).
Proof.
  apply (batch_returns 2 2); [lia|lia|]. apply (batch_example_reachable 11). vm_compute. eexists. reflexivity.
Defined.

(** Two reads on a queue of two entries. *)
Definition example_stuck : sys :=
  default (example_start 0) (run 1 2 (MkSys (fresh_bq 0 (fun _ => 0) 0 0) (start_batch (example_reads 2)) []) (steps_of 2 ++ call_of 2 ++ steps_of 9)).

Lemma example_stuck_run :
  rtc (step 1 2) (MkSys (fresh_bq 0 (fun _ => 0) 0 0) (start_batch (example_reads 2)) []) example_stuck.
Proof. apply (run_steps _ _ (steps_of 2 ++ call_of 2 ++ steps_of 9)). vm_compute. reflexivity. Qed.

Lemma batch_full_hangs_witness : o_pc (sy_owner example_stuck) <> BDone /\ fetched (sy_q example_stuck) = [].
Proof.
  apply (batch_full_hangs 1 2 ltac:(lia) ltac:(lia) 0 (fun _ => 0) 0 0 (example_reads 2)); [done|reflexivity|apply example_stuck_run].
Defined.

Ltac forall_lia := repeat (apply Forall_cons_2; [unfold is_word; lia|]); apply Forall_nil_2.

Lemma batch_commands_witness :
  exists b, sched_batch_rw example_prps 1 (fun _ => repeat 0 16) NVM_IO_WRITE [8; 72; 640] [8; 65536; 8] [3; 0; 5] 3 = Some (Some b) /\
  length (batch_cmds (start_batch b)) = 3%nat /\ NoDup (cmd_cid <$> batch_cmds (start_batch b)).
Proof.
  edestruct (batch_commands example_prps 1 (fun _ => repeat 0 16) NVM_IO_WRITE [8; 72; 640] [8; 65536; 8] [3; 0; 5] 3) as (b & E & H);
    [..|exists b; split; [exact E|]; destruct (H (start_batch b) eq_refl) as (H1 & H2 & _); split; [exact H1|exact H2]]; try (cbn [length]; lia).
  - intros _. split; [reflexivity|]. forall_lia.
  - intros e. unfold is_word, example_prps. cbn [Cq.prp1_of Cq.prp2_of]. pose proof (Z.mod_pos_bound e 16). lia.
  - by vm_compute.
  - forall_lia.
  - forall_lia.
Defined.
End Batch.
