(* ===== verification/SchedQueue.v ===== *)
(** The request ring of the I/O scheduler: [src/include/io_scheduler.cuh]
    (request and key encodings, [io_sched_enqueue], [io_sched_scan_ready], the
    waiting calls) and the drain and notify phases of the scheduler kernel
    [src/benchmarks/io_scheduler/io_scheduler_impl.cuh].

    Producers are processes, one per call; the scheduler drains published slots,
    notifies them in any order and advances the consumer head.  All counters are
    32 bits wide and wrap; the proofs relate them to unbounded counts. *)
From Stdlib Require Import ZArith Lia List Permutation.
From stdpp Require Import base list numbers relations.
From S2P Require Import Prelude NvmCmd.

Import ListNotations.
Local Open Scope Z_scope.

Module Ring.

(** ** Encodings *)

Definition kSchedThreads : Z := 128.
Definition kSchedMaxBatch : Z := 512.
Definition kSchedMergeTarget : Z := 2 * 1024 * 1024.
Definition kSchedKneeLimit : Z := 32.

Definition kSortKeyIndexBits : Z :=
  if kSchedMaxBatch <=? 128 then 7 else if kSchedMaxBatch <=? 256 then 8
  else if kSchedMaxBatch <=? 512 then 9 else 10.
Definition kSortKeyIndexMask : Z := Z.shiftl 1 kSortKeyIndexBits - 1.

Definition io_sched_make_sort_key (byte_offset batch_index : Z) : Z :=
  Z.lor (u64 (Z.shiftl byte_offset kSortKeyIndexBits)) (Z.land batch_index kSortKeyIndexMask).

Definition io_sched_key_byte_offset (key : Z) : Z := Z.shiftr key kSortKeyIndexBits.

Definition io_sched_key_batch_index (key : Z) : Z := u32 (Z.land key kSortKeyIndexMask).

(** [__ffsll]: one plus the index of the lowest set bit, zero for zero. *)
Fixpoint ffs_pos (p : positive) : Z :=
  match p with
  | xO p => 1 + ffs_pos p
  | _ => 1
  end.
Definition ffsll (z : Z) : Z :=
  match u64 z with Zpos p => ffs_pos p | _ => 0 end.

Definition io_sched_encode_nbytes (n_bytes : Z) : Z := u8 (ffsll n_bytes - 1).
Definition io_sched_decode_nbytes (n_bytes_log2 : Z) : Z := u64 (Z.shiftl 1 n_bytes_log2).

(** ** Requests and ring *)

Record io_request_t := MkReq {
  r_byte_offset : Z; r_pc_entry : Z; r_opcode : Z; r_n_bytes_log2 : Z
}.

(** What a caller does after its slot is published. *)
Inductive call_kind :=
  | KSync      (** [io_sched_read], [_write], [_access]: wait on [done_seq] *)
  | KForget    (** [io_sched_enqueue_forget]: return *)
  | KAsync.    (** [io_sched_submit] then [io_sched_wait] on the done flag *)

Inductive prod_pc :=
  | PSpin      (** wait for room *)
  | PClear     (** clear the done flag *)
  | PWrite     (** write the entry *)
  | PPublish   (** store [prod_seq] *)
  | PWaitSeq   (** synchronous wait *)
  | PWaitFlag  (** asynchronous wait: see the flag *)
  | PRelease   (** asynchronous wait: clear the flag *)
  | PReturned.

Record producer := MkProd { pr_slot : Z; pr_req : io_request_t; pr_kind : call_kind; pr_pc : prod_pc }.

Inductive sched_pc :=
  | SDrain (tail ready : Z)        (** [tail] loaded, [ready] slots seen published *)
  | SNotify (order : list nat)     (** batch indices still to be notified *)
  | SCheck                         (** empty queue, [shutdown] seen: look again *)
  | SLast (tail : Z)               (** the last look: [tail] loaded *)
  | SExited.                       (** the kernel has returned *)

Record io_queue_t := MkIoq {
  prod_tail : Z;
  cons_head : Z;
  entries : Z -> io_request_t;
  prod_seq : Z -> Z;
  done_seq : Z -> Z;
  done_flags : Z -> Z;
  shutdown : Z;
  producers : list producer;       (** one per claimed slot, in slot order *)
  sched : sched_pc;
  batch : list io_request_t;       (** entries accumulated by the scheduler *)
  g_cons : nat;                    (** ghost: slots consumed *)
  g_taken : list io_request_t;     (** ghost: all entries read, in order *)
  g_notified : list nat            (** ghost: slots notified *)
}.

Definition set_prod (s : io_queue_t) (t : nat) (c : prod_pc) : io_queue_t :=
  MkIoq (prod_tail s) (cons_head s) (entries s) (prod_seq s) (done_seq s) (done_flags s)
    (shutdown s) (alter (fun p => MkProd (pr_slot p) (pr_req p) (pr_kind p) c) t (producers s))
    (sched s) (batch s) (g_cons s) (g_taken s) (g_notified s).
Definition set_entries (s : io_queue_t) v : io_queue_t :=
  MkIoq (prod_tail s) (cons_head s) v (prod_seq s) (done_seq s) (done_flags s)
    (shutdown s) (producers s) (sched s) (batch s) (g_cons s) (g_taken s) (g_notified s).
Definition set_prod_seq (s : io_queue_t) v : io_queue_t :=
  MkIoq (prod_tail s) (cons_head s) (entries s) v (done_seq s) (done_flags s)
    (shutdown s) (producers s) (sched s) (batch s) (g_cons s) (g_taken s) (g_notified s).
Definition set_flags (s : io_queue_t) v : io_queue_t :=
  MkIoq (prod_tail s) (cons_head s) (entries s) (prod_seq s) (done_seq s) v
    (shutdown s) (producers s) (sched s) (batch s) (g_cons s) (g_taken s) (g_notified s).
Definition set_sched (s : io_queue_t) v : io_queue_t :=
  MkIoq (prod_tail s) (cons_head s) (entries s) (prod_seq s) (done_seq s) (done_flags s)
    (shutdown s) (producers s) v (batch s) (g_cons s) (g_taken s) (g_notified s).

Section ring.
  Context (lg : Z).

Definition capacity : Z := 2 ^ lg.
Definition capacity_mask : Z := capacity - 1.

(** ** Producers *)

(** Claiming a slot: [q->prod_tail.fetch_add(1)]. *)
Definition io_sched_claim (s : io_queue_t) (byte_offset n_bytes pc_entry opcode : Z)
    (kind : call_kind) : io_queue_t :=
  let e := MkReq byte_offset pc_entry opcode (io_sched_encode_nbytes n_bytes) in
  MkIoq (u32 (prod_tail s + 1)) (cons_head s) (entries s) (prod_seq s) (done_seq s)
    (done_flags s) (shutdown s) (producers s ++ [MkProd (prod_tail s) e kind PSpin])
    (sched s) (batch s) (g_cons s) (g_taken s) (g_notified s).

(** The entry points, which differ in the opcode and in what they wait for. *)
Definition io_sched_read (s : io_queue_t) (byte_offset n_bytes pc_entry : Z) : io_queue_t :=
  io_sched_claim s byte_offset n_bytes pc_entry NVM_IO_READ KSync.
Definition io_sched_write (s : io_queue_t) (byte_offset n_bytes pc_entry : Z) : io_queue_t :=
  io_sched_claim s byte_offset n_bytes pc_entry NVM_IO_WRITE KSync.
Definition io_sched_access (s : io_queue_t) (byte_offset n_bytes pc_entry opcode : Z) : io_queue_t :=
  io_sched_claim s byte_offset n_bytes pc_entry opcode KSync.
Definition io_sched_enqueue_forget (s : io_queue_t) (byte_offset n_bytes pc_entry : Z) : io_queue_t :=
  io_sched_claim s byte_offset n_bytes pc_entry NVM_IO_WRITE KForget.
Definition io_sched_submit_read (s : io_queue_t) (byte_offset n_bytes pc_entry : Z) : io_queue_t :=
  io_sched_claim s byte_offset n_bytes pc_entry NVM_IO_READ KAsync.
Definition io_sched_submit_write (s : io_queue_t) (byte_offset n_bytes pc_entry : Z) : io_queue_t :=
  io_sched_claim s byte_offset n_bytes pc_entry NVM_IO_WRITE KAsync.
Definition io_sched_submit (s : io_queue_t) (byte_offset n_bytes pc_entry opcode : Z) : io_queue_t :=
  io_sched_claim s byte_offset n_bytes pc_entry opcode KAsync.

(** The next access of the call that claimed slot number [t]:
    [io_sched_enqueue] up to [PPublish], then the caller's wait. *)
Definition producer_step (s : io_queue_t) (t : nat) : option io_queue_t :=
  match producers s !! t with
  | None => None
  | Some p =>
      let slot := pr_slot p in
      let idx := Z.land slot capacity_mask in
      let ticket := u32 (slot + 1) in
      match pr_pc p with
      | PSpin =>
          Some (set_prod s t (if u32 (slot - cons_head s) >=? capacity then PSpin else PClear))
      | PClear => Some (set_prod (set_flags s (fupd (done_flags s) idx 0)) t PWrite)
      | PWrite => Some (set_prod (set_entries s (fupd (entries s) idx (pr_req p))) t PPublish)
      | PPublish =>
          Some (set_prod (set_prod_seq s (fupd (prod_seq s) idx ticket)) t
                  match pr_kind p with
                  | KSync => PWaitSeq | KForget => PReturned | KAsync => PWaitFlag
                  end)
      | PWaitSeq => Some (set_prod s t (if done_seq s idx <? ticket then PWaitSeq else PReturned))
      | PWaitFlag => Some (set_prod s t (if done_flags s idx =? 0 then PWaitFlag else PRelease))
      | PRelease => Some (set_prod (set_flags s (fupd (done_flags s) idx 0)) t PReturned)
      | PReturned => None
      end
  end.

Definition io_sched_shutdown (s : io_queue_t) : io_queue_t :=
  MkIoq (prod_tail s) (cons_head s) (entries s) (prod_seq s) (done_seq s) (done_flags s)
    1 (producers s) (sched s) (batch s) (g_cons s) (g_taken s) (g_notified s).

(** ** Scanning, on a snapshot *)

(** The [for] loop of [io_sched_scan_ready], from index [i] with [n] left. *)
Fixpoint scan_loop (n : nat) (seq : Z -> Z) (start i : Z) : Z :=
  match n with
  | O => i
  | S n =>
      if negb (seq (Z.land (u32 (start + i)) capacity_mask) =? u32 (u32 (start + i) + 1)) then i
      else scan_loop n seq start (i + 1)
  end.

Definition io_sched_scan_ready (seq : Z -> Z) (tail start max_count : Z) : Z :=
  let pending := u32 (tail - start) in
  let pending := if pending >? max_count then max_count else pending in
  scan_loop (Z.to_nat pending) seq start 0.

(** The loop's test: slot [start + i] is published. *)
Definition slot_ready (seq : Z -> Z) (start i : Z) : bool :=
  seq (Z.land (u32 (start + i)) capacity_mask) =? u32 (u32 (start + i) + 1).

(** ** Scheduler *)

Definition acc (s : io_queue_t) : Z := Z.of_nat (length (batch s)).

(** One access of the scheduler; [submit] is the order in which the batch is
    notified once its I/O is complete.  With an empty queue it looks at [shutdown]; if that
    is set it scans once more and returns when the scan finds nothing, which its first slot
    decides. *)
Inductive sched_act := ALoadTail | AScan | ARead | ASubmit (order : list nat) | ANotify | AAdvance | AShutdown.

Definition sched_step (s : io_queue_t) (a : sched_act) : option io_queue_t :=
  match sched s, a with
  | SDrain _ ready, ALoadTail => Some (set_sched s (SDrain (prod_tail s) ready))
  | SDrain tail ready, AScan =>
      let start := u32 (cons_head s + acc s) in
      let pending := u32 (tail - start) in
      let room := u32 (capacity - acc s) in
      let slot := u32 (start + ready) in
      if (ready <? pending) && (ready <? room) &&
         (prod_seq s (Z.land slot capacity_mask) =? u32 (slot + 1))
      then Some (set_sched s (SDrain tail (ready + 1))) else None
  | SDrain tail ready, ARead =>
      if 0 <? ready then
        let e := entries s (Z.land (u32 (cons_head s + acc s)) capacity_mask) in
        Some (MkIoq (prod_tail s) (cons_head s) (entries s) (prod_seq s) (done_seq s)
                (done_flags s) (shutdown s) (producers s) (SDrain tail (ready - 1))
                (batch s ++ [e]) (g_cons s) (g_taken s ++ [e]) (g_notified s))
      else None
  | SDrain _ _, ASubmit order =>
      if (0 <? acc s) && bool_decide (Permutation order (seq 0 (length (batch s))))
      then Some (set_sched s (SNotify order)) else None
  | SNotify (i :: order), ANotify =>
      let slot := u32 (cons_head s + Z.of_nat i) in
      let idx := Z.land slot capacity_mask in
      Some (MkIoq (prod_tail s) (cons_head s) (entries s) (prod_seq s)
              (fupd (done_seq s) idx (u32 (slot + 1))) (fupd (done_flags s) idx 1)
              (shutdown s) (producers s) (SNotify order) (batch s) (g_cons s) (g_taken s)
              (g_notified s ++ [(g_cons s + i)%nat]))
  | SNotify [], AAdvance =>
      Some (MkIoq (prod_tail s) (u32 (cons_head s + acc s)) (entries s) (prod_seq s) (done_seq s)
              (done_flags s) (shutdown s) (producers s) (SDrain (u32 (cons_head s + acc s)) 0) []
              (g_cons s + length (batch s)) (g_taken s) (g_notified s))
  | SDrain _ ready, AShutdown =>
      if (ready =? 0) && (acc s =? 0) && negb (shutdown s =? 0) then Some (set_sched s SCheck) else None
  | SCheck, ALoadTail => Some (set_sched s (SLast (prod_tail s)))
  | SLast tail, AScan =>
      Some (set_sched s (if (0 <? u32 (tail - cons_head s)) && slot_ready (prod_seq s) (cons_head s) 0
                         then SDrain tail 0 else SExited))
  | _, _ => None
  end.

(** Fewer than 2^32 claimed slots are ever unconsumed: a claim is made by a
    thread, and each waits for room. *)
Inductive ring_step : io_queue_t -> io_queue_t -> Prop :=
  | ring_claim s off n pe op k :
      Z.of_nat (length (producers s)) - Z.of_nat (g_cons s) < 2 ^ 32 - 1 ->
      ring_step s (io_sched_claim s off n pe op k)
  | ring_produce s t s' : producer_step s t = Some s' -> ring_step s s'
  | ring_sched s a s' : sched_step s a = Some s' -> ring_step s s'
  | ring_shutdown s : ring_step s (io_sched_shutdown s).

(** [io_sched_create]: zeroed counters and arrays. *)
Definition ring_init (s : io_queue_t) : Prop :=
  prod_tail s = 0 /\ cons_head s = 0 /\ (forall i, prod_seq s i = 0) /\
  (forall i, done_seq s i = 0) /\ (forall i, done_flags s i = 0) /\
  shutdown s = 0 /\ producers s = [] /\ sched s = SDrain 0 0 /\ batch s = [] /\
  g_cons s = 0%nat /\ g_taken s = [] /\ g_notified s = [].

(** ** Running a schedule *)

Inductive ring_act :=
  | RClaim (off n pe op : Z) (k : call_kind) | RProd (t : nat) | RSched (a : sched_act) | RShutdown.

Definition ring_exec_act (a : ring_act) (s : io_queue_t) : option io_queue_t :=
  match a with
  | RClaim off n pe op k =>
      if decide (Z.of_nat (length (producers s)) - Z.of_nat (g_cons s) < 2 ^ 32 - 1)
      then Some (io_sched_claim s off n pe op k) else None
  | RProd t => producer_step s t
  | RSched a => sched_step s a
  | RShutdown => Some (io_sched_shutdown s)
  end.

Fixpoint ring_exec (acts : list ring_act) (s : io_queue_t) : option io_queue_t :=
  match acts with
  | [] => Some s
  | a :: acts => match ring_exec_act a s with Some s => ring_exec acts s | None => None end
  end.

(** ** Invariant *)

Definition pcof (s : io_queue_t) (t : nat) : option prod_pc := pr_pc <$> producers s !! t.

Definition passed (c : prod_pc) : bool := match c with PSpin => false | _ => true end.
Definition written (c : prod_pc) : bool :=
  match c with PSpin | PClear | PWrite => false | _ => true end.
Definition published (c : prod_pc) : bool :=
  match c with PSpin | PClear | PWrite | PPublish => false | _ => true end.

Definition waits_flag (c : prod_pc) : bool :=
  match c with PWaitFlag | PRelease => true | _ => false end.

Definition is_published (s : io_queue_t) (t : nat) : Prop :=
  exists c, pcof s t = Some c /\ published c = true.

Definition ready_count (s : io_queue_t) : nat :=
  match sched s with SDrain _ r => Z.to_nat r | _ => 0 end.

(** Slots known to be published: consumed, accumulated or scanned. *)
Definition seen (s : io_queue_t) : nat := (g_cons s + length (batch s) + ready_count s)%nat.

Definition inv_slots (s : io_queue_t) : Prop :=
  prod_tail s = u32 (Z.of_nat (length (producers s))) /\
  cons_head s = u32 (Z.of_nat (g_cons s)) /\
  Z.of_nat (length (producers s)) - Z.of_nat (g_cons s) < 2 ^ 32 /\
  forall t p, producers s !! t = Some p -> pr_slot p = u32 (Z.of_nat t).

Definition inv_window (s : io_queue_t) : Prop :=
  (seen s <= length (producers s))%nat /\
  Z.of_nat (length (batch s)) + Z.of_nat (ready_count s) <= capacity /\
  (match sched s with
   | SDrain tail ready => 0 <= ready /\ exists T0 : nat, tail = u32 (Z.of_nat T0) /\
       (seen s <= T0 <= length (producers s))%nat
   | SNotify order => NoDup order /\ (forall i, i ∈ order -> (i < length (batch s))%nat)
   | SLast tail => batch s = [] /\ exists T0 : nat, tail = u32 (Z.of_nat T0) /\
       (g_cons s <= T0 <= length (producers s))%nat
   | SCheck | SExited => batch s = []
   end).

Definition inv_passed (s : io_queue_t) : Prop :=
  forall t c, pcof s t = Some c -> passed c = true ->
    Z.of_nat t < Z.of_nat (g_cons s) + capacity.

Definition inv_seen (s : io_queue_t) : Prop :=
  forall t, (t < seen s)%nat -> is_published s t.

Definition inv_entries (s : io_queue_t) : Prop :=
  forall t p, producers s !! t = Some p -> (g_cons s <= t)%nat -> written (pr_pc p) = true ->
    entries s (Z.of_nat t mod capacity) = pr_req p.

(** A sequence array holds the number after the latest slot of each position. *)
Definition latest (P : nat -> Prop) (f : Z -> Z) : Prop :=
  forall pos, 0 <= pos < capacity ->
    (f pos = 0 /\ forall t, Z.of_nat t mod capacity = pos -> ~ P t) \/
    (exists q, Z.of_nat q mod capacity = pos /\ P q /\ f pos = u32 (Z.of_nat q + 1) /\
       forall t, Z.of_nat t mod capacity = pos -> P t -> (t <= q)%nat).

Definition inv_taken (s : io_queue_t) : Prop :=
  length (g_taken s) = (g_cons s + length (batch s))%nat /\
  g_taken s = take (length (g_taken s)) (pr_req <$> producers s).

Definition inv_notified (s : io_queue_t) : Prop :=
  forall t, t ∈ g_notified s <->
    (t < g_cons s)%nat \/
    (exists order i, sched s = SNotify order /\ (i < length (batch s))%nat /\
       t = (g_cons s + i)%nat /\ i ∉ order).

(** A synchronous call returns only after its request was notified, as long as
    the 32-bit sequence numbers have not wrapped. *)
Definition inv_sync (s : io_queue_t) : Prop :=
  (forall t p, producers s !! t = Some p -> waits_flag (pr_pc p) = true -> pr_kind p = KAsync) /\
  (Z.of_nat (length (producers s)) < 2 ^ 32 ->
   forall t p, producers s !! t = Some p -> pr_kind p = KSync -> pr_pc p = PReturned ->
     t ∈ g_notified s).

Record ring_inv (s : io_queue_t) : Prop := {
  r_slots : inv_slots s; r_window : inv_window s; r_passed : inv_passed s;
  r_seen : inv_seen s; r_entries : inv_entries s;
  r_seq : latest (is_published s) (prod_seq s); r_taken : inv_taken s;
  r_notified : inv_notified s; r_done : latest (fun t => t ∈ g_notified s) (done_seq s);
  r_sync : inv_sync s
}.

Context (Hlg : 0 <= lg <= 31).

Lemma capacity_range : 1 <= capacity <= 2 ^ 31.
Proof. unfold capacity. split; [lia|]. apply Z.pow_le_mono_r; lia. Qed.

Lemma land_cap z : Z.land (u32 z) capacity_mask = z mod capacity.
Proof. apply land_mask_wrap. lia. Qed.

Lemma mod_cap_range z : 0 <= z mod capacity < capacity.
Proof. apply Z.mod_pos_bound. pose proof capacity_range. lia. Qed.

Lemma near_eq (a b : nat) :
  Z.of_nat a mod capacity = Z.of_nat b mod capacity ->
  Z.abs (Z.of_nat a - Z.of_nat b) < capacity -> a = b.
Proof.
  intros H1 H2. pose proof capacity_range. apply mod_inj_near in H1; lia.
Qed.

Lemma pcof_Some s t c :
  pcof s t = Some c <-> exists p, producers s !! t = Some p /\ pr_pc p = c.
Proof.
  unfold pcof. rewrite fmap_Some. split; intros (p & H1 & H2); exists p; split; congruence.
Qed.

Lemma pcof_lt s t c : pcof s t = Some c -> (t < length (producers s))%nat.
Proof. intros H. apply pcof_Some in H as (p & H & _). now apply lookup_lt_Some in H. Qed.

Lemma ring_init_inv s : ring_init s -> ring_inv s.
Proof.
  intros (E1&E2&E3&E4&E5&_&E6&E7&E8&E9&E10&E11). pose proof capacity_range.
  assert (Hpc : forall t, pcof s t = None) by (intros; unfold pcof; now rewrite E6).
  assert (Hseen : seen s = 0%nat) by (unfold seen, ready_count; now rewrite E7, E8, E9).
  split.
  - unfold inv_slots. rewrite E1, E2, E6, E9. cbn. repeat split; lia || done.
  - unfold inv_window. rewrite Hseen, E6, E7, E8. unfold ready_count. rewrite E7. cbn.
    repeat split; try lia. exists 0%nat. split; [done|lia].
  - intros t c. now rewrite Hpc.
  - intros t. rewrite Hseen. lia.
  - intros t p. now rewrite E6.
  - intros pos Hp. left. split; [done|]. intros t _ (c & Hc & _). now rewrite Hpc in Hc.
  - unfold inv_taken. now rewrite E8, E9, E10.
  - intros t. rewrite E11, E9, E7. split; [now intros ?%not_elem_of_nil|].
    intros [?|(o & i & ? & _)]; [lia|done].
  - intros pos Hp. left. split; [done|]. intros t _. rewrite E11. apply not_elem_of_nil.
  - split; [|intros _]; intros t p; now rewrite E6.
Qed.

(** ** Steps of producers *)

(** Call [t] moves from [c] to [c']; the scheduler's state is unchanged. *)
Definition prod_move (s s' : io_queue_t) (t : nat) (c c' : prod_pc) : Prop :=
  pcof s t = Some c /\
  (forall t', pcof s' t' = if decide (t = t') then Some c' else pcof s t') /\
  (forall t' p, producers s' !! t' = Some p -> exists p0, producers s !! t' = Some p0 /\
     pr_slot p = pr_slot p0 /\ pr_req p = pr_req p0 /\ pr_kind p = pr_kind p0 /\
     pr_pc p = if decide (t = t') then c' else pr_pc p0) /\
  length (producers s') = length (producers s) /\
  pr_req <$> producers s' = pr_req <$> producers s /\
  (prod_tail s' = prod_tail s /\ cons_head s' = cons_head s /\ sched s' = sched s /\
   batch s' = batch s /\ g_cons s' = g_cons s /\ g_taken s' = g_taken s /\
   g_notified s' = g_notified s /\ done_seq s' = done_seq s).

Lemma prod_move_set s s0 t c c' :
  pcof s t = Some c -> producers s0 = producers s ->
  (prod_tail s0 = prod_tail s /\ cons_head s0 = cons_head s /\ sched s0 = sched s /\
   batch s0 = batch s /\ g_cons s0 = g_cons s /\ g_taken s0 = g_taken s /\
   g_notified s0 = g_notified s /\ done_seq s0 = done_seq s) ->
  prod_move s (set_prod s0 t c') t c c'.
Proof.
  intros Hc E Hrest. pose proof Hc as (p & Hp & _)%pcof_Some.
  split; [done|]. unfold pcof; cbn. rewrite E. split; [|split; [|split; [|split; [|done]]]].
  - intros t'. destruct (decide (t = t')) as [<-|].
    + now rewrite list_lookup_alter_eq, Hp.
    + now rewrite list_lookup_alter_ne.
  - intros t' q. destruct (decide (t = t')) as [<-|].
    + rewrite list_lookup_alter_eq, Hp. intros [= <-]. eauto 10.
    + rewrite list_lookup_alter_ne by done. eauto 10.
  - now rewrite length_alter.
  - apply list_eq. intros i. rewrite !list_lookup_fmap.
    destruct (decide (t = i)) as [<-|].
    + now rewrite list_lookup_alter_eq, Hp.
    + now rewrite list_lookup_alter_ne.
Qed.

Section producer_frames.
  Context (s s' : io_queue_t) (t : nat) (c c' : prod_pc) (Hmv : prod_move s s' t c c').

Lemma move_seen : seen s' = seen s /\ ready_count s' = ready_count s.
Proof.
  destruct Hmv as (_ & _ & _ & _ & _ & (_ & _ & Es & Eb & Eg & _)).
  unfold seen, ready_count. now rewrite Es, Eb, Eg.
Qed.

Lemma move_slots : inv_slots s -> inv_slots s'.
Proof.
  destruct Hmv as (_ & _ & Hp & El & _ & (E1 & E2 & _ & _ & E5 & _)).
  intros (H1 & H2 & H3 & H4). unfold inv_slots. rewrite E1, E2, E5, El. repeat split; auto.
  intros t' p H. destruct (Hp t' p H) as (p0 & H0 & -> & _). auto.
Qed.

Lemma move_window : inv_window s -> inv_window s'.
Proof.
  destruct move_seen as [E1 E2]. destruct Hmv as (_ & _ & _ & El & _ & (_ & _ & Es & Eb & Eg & _)).
  unfold inv_window. now rewrite E1, E2, Es, Eb, El, Eg.
Qed.

Lemma move_passed :
  (passed c' = true -> passed c = true \/ Z.of_nat t < Z.of_nat (g_cons s) + capacity) ->
  inv_passed s -> inv_passed s'.
Proof.
  destruct Hmv as (Hc & Hpc & _ & _ & _ & (_ & _ & _ & _ & Eg & _)).
  intros Hps H t' c0 H0 H1. rewrite Eg. rewrite Hpc in H0.
  case_decide; simplify_eq; [|eauto]. destruct (Hps H1); eauto.
Qed.

Lemma move_published : (published c = true -> published c' = true) ->
  forall t', is_published s t' -> is_published s' t'.
Proof.
  destruct Hmv as (Hc & Hpc & _). intros Hpb t' (c0 & H0 & H1).
  unfold is_published. rewrite Hpc. case_decide; [|eauto]. subst. exists c'.
  split; [done|]. apply Hpb. congruence.
Qed.

Lemma move_published_inv : published c' = published c ->
  forall t', is_published s' t' -> is_published s t'.
Proof.
  destruct Hmv as (Hc & Hpc & _). intros Hpb t' (c0 & H0 & H1).
  unfold is_published. rewrite Hpc in H0. case_decide; simplify_eq; [|eauto].
  exists c. split; congruence.
Qed.

Lemma move_inv_seen : (published c = true -> published c' = true) -> inv_seen s -> inv_seen s'.
Proof.
  destruct move_seen as [E _]. intros Hpb H t' Ht. rewrite E in Ht.
  apply (move_published Hpb). auto.
Qed.

Lemma move_entries :
  entries s' = entries s -> (written c' = true -> written c = true) ->
  inv_entries s -> inv_entries s'.
Proof.
  destruct Hmv as (Hc & _ & Hp & _ & _ & (_ & _ & _ & _ & Eg & _)).
  intros E Hw H t' p Hpp Hge Hwr. destruct (Hp t' p Hpp) as (p0 & H0 & _ & -> & _ & Epc).
  rewrite E. apply H; [done|congruence|]. rewrite Epc in Hwr. case_decide; [|done]. subst.
  apply pcof_Some in Hc as (p1 & H1 & <-). replace p0 with p1 by congruence. auto.
Qed.

Lemma move_seq :
  prod_seq s' = prod_seq s -> published c' = published c ->
  latest (is_published s) (prod_seq s) -> latest (is_published s') (prod_seq s').
Proof.
  intros E Hpb H pos Hpos. rewrite E.
  assert (Hpb' : published c = true -> published c' = true) by congruence.
  destruct (H pos Hpos) as [[H1 H2]|(q & H1 & H2 & H3 & H4)]; [left|right].
  - split; [done|]. intros t' Ht Hp. eapply H2; eauto using move_published_inv.
  - exists q. repeat split; auto using move_published.
    intros t' Ht Hp. eapply H4; eauto using move_published_inv.
Qed.

Lemma move_taken : inv_taken s -> inv_taken s'.
Proof.
  destruct Hmv as (_ & _ & _ & _ & Er & (_ & _ & _ & Eb & Eg & Et & _)).
  unfold inv_taken. now rewrite Er, Eb, Eg, Et.
Qed.

Lemma move_notified : inv_notified s -> inv_notified s'.
Proof.
  destruct Hmv as (_ & _ & _ & _ & _ & (_ & _ & Es & Eb & Eg & _ & En & _)).
  unfold inv_notified. now rewrite Es, Eb, Eg, En.
Qed.

Lemma move_done :
  latest (fun t => t ∈ g_notified s) (done_seq s) ->
  latest (fun t => t ∈ g_notified s') (done_seq s').
Proof.
  destruct Hmv as (_ & _ & _ & _ & _ & (_ & _ & _ & _ & _ & _ & En & Ed)). now rewrite En, Ed.
Qed.

Lemma move_sync :
  (waits_flag c' = true -> waits_flag c = true \/
     forall p, producers s !! t = Some p -> pr_kind p = KAsync) ->
  (Z.of_nat (length (producers s)) < 2 ^ 32 -> c' = PReturned ->
   forall p, producers s !! t = Some p -> pr_kind p = KSync -> t ∈ g_notified s) ->
  inv_sync s -> inv_sync s'.
Proof.
  destruct Hmv as (Hc & _ & Hp & El & _ & (_ & _ & _ & _ & _ & _ & En & _)).
  intros Hfl Hret [Ha H]. split.
  - intros t' p Hpp Hw. destruct (Hp t' p Hpp) as (p0 & H0 & _ & _ & -> & Epc).
    rewrite Epc in Hw. case_decide; [subst|eauto].
    destruct (Hfl Hw) as [Hw'|Hk]; [|auto]. apply (Ha t'); [done|].
    apply pcof_Some in Hc as (p1 & H1 & E1). congruence.
  - intros HT t' p Hpp Hk Hr. rewrite El in HT. rewrite En.
    destruct (Hp t' p Hpp) as (p0 & H0 & _ & _ & Ek & Epc). rewrite Epc in Hr.
    case_decide; [subst|]; [|eapply H; eauto; congruence].
    eapply Hret; eauto. congruence.
Qed.
End producer_frames.

Ltac ring_frames Hmv :=
  split;
  [ solve [eapply move_slots; eauto] | solve [eapply move_window; eauto]
  | try solve [eapply move_passed; eauto] | try solve [eapply move_inv_seen; eauto]
  | try solve [eapply move_entries; eauto] | try solve [eapply move_seq; eauto]
  | solve [eapply move_taken; eauto] | solve [eapply move_notified; eauto]
  | solve [eapply move_done; eauto] | try solve [eapply move_sync; eauto; done] ].

Lemma unpublished_ge s t c :
  ring_inv s -> pcof s t = Some c -> published c = false -> (seen s <= t)%nat.
Proof.
  intros Hinv Hc Hp. destruct (le_lt_dec (seen s) t) as [|Hlt]; [done|].
  destruct (r_seen s Hinv t Hlt) as (c0 & H0 & H1). congruence.
Qed.

Lemma producer_facts s t p :
  ring_inv s -> producers s !! t = Some p ->
  pcof s t = Some (pr_pc p) /\ pr_slot p = u32 (Z.of_nat t) /\
  Z.land (pr_slot p) capacity_mask = Z.of_nat t mod capacity /\
  u32 (pr_slot p + 1) = u32 (Z.of_nat t + 1).
Proof.
  intros Hinv Hp. destruct (r_slots s Hinv) as (_ & _ & _ & H). rewrite (H t p Hp).
  unfold pcof. rewrite Hp, land_cap. repeat split. apply wrap_add_l.
Qed.

Lemma seen_ge s : (g_cons s + length (batch s) <= seen s)%nat.
Proof. unfold seen. lia. Qed.

(** Leaving the spin loop: the slot is inside the window. *)
Lemma spin_exit s t p :
  ring_inv s -> producers s !! t = Some p -> pr_pc p = PSpin ->
  u32 (pr_slot p - cons_head s) < capacity ->
  Z.of_nat t < Z.of_nat (g_cons s) + capacity.
Proof.
  intros Hinv Hp Hpc Hlt. destruct (producer_facts s t p Hinv Hp) as (Hc & Es & _).
  destruct (r_slots s Hinv) as (_ & Eh & Hw & _). rewrite Hpc in Hc.
  pose proof (unpublished_ge s t _ Hinv Hc eq_refl). pose proof (seen_ge s).
  pose proof (pcof_lt s t _ Hc). rewrite Es, Eh in Hlt. unfold u32 in Hlt.
  rewrite wrap_dist in Hlt; lia.
Qed.

(** Two calls past the spin loop on one position, neither consumed, are equal. *)
Lemma window_unique s t t' c c' :
  ring_inv s -> pcof s t = Some c -> passed c = true -> (g_cons s <= t)%nat ->
  pcof s t' = Some c' -> passed c' = true -> (g_cons s <= t')%nat ->
  Z.of_nat t mod capacity = Z.of_nat t' mod capacity -> t = t'.
Proof.
  intros Hinv Hc Hp Hge Hc' Hp' Hge' E.
  pose proof (r_passed s Hinv t c Hc Hp). pose proof (r_passed s Hinv t' c' Hc' Hp').
  apply near_eq; [done|lia].
Qed.

Lemma inv_write s t p :
  ring_inv s -> producers s !! t = Some p -> pr_pc p = PWrite ->
  ring_inv (set_prod (set_entries s (fupd (entries s) (Z.of_nat t mod capacity) (pr_req p))) t PPublish).
Proof.
  intros Hinv Hp Hpc. destruct (producer_facts s t p Hinv Hp) as (Hc & _). rewrite Hpc in Hc.
  pose proof (unpublished_ge s t _ Hinv Hc eq_refl) as Hge. pose proof (seen_ge s) as Hsg.
  pose proof Hinv as [].
  pose proof (prod_move_set s (set_entries s (fupd (entries s) (Z.of_nat t mod capacity) (pr_req p)))
                t _ PPublish Hc eq_refl ltac:(repeat split)) as Hmv.
  ring_frames Hmv. destruct Hmv as (_ & _ & Hpr & _).
  intros t' q Hq Hge' Hw. apply Hpr in Hq as (q0 & Hq0 & _ & -> & _ & Epc). cbn.
  destruct (decide (t = t')) as [<-|Hne].
  - rewrite fupd_eq. congruence.
  - rewrite fupd_ne; [apply r_entries0; [done|done|congruence]|]. intros E. apply Hne. symmetry.
    destruct (producer_facts s t' q0 Hinv Hq0) as (Hc0 & _).
    eapply (window_unique s t' t); eauto; [|cbn in Hge'; lia]. rewrite Epc in Hw.
    destruct (pr_pc q0); done.
Qed.

(** A position's newest published slot, after one more is published. *)
Lemma inv_publish s t p c' :
  ring_inv s -> producers s !! t = Some p -> pr_pc p = PPublish -> published c' = true ->
  (c' = PReturned -> pr_kind p <> KSync) -> (waits_flag c' = true -> pr_kind p = KAsync) ->
  ring_inv (set_prod (set_prod_seq s (fupd (prod_seq s) (Z.of_nat t mod capacity)
                                       (u32 (Z.of_nat t + 1)))) t c').
Proof.
  intros Hinv Hp Hpc Hpb Hret Hfl. destruct (producer_facts s t p Hinv Hp) as (Hc & _).
  rewrite Hpc in Hc.
  pose proof (unpublished_ge s t _ Hinv Hc eq_refl) as Hge. pose proof (seen_ge s) as Hsg.
  pose proof Hinv as [].
  pose proof (prod_move_set s (set_prod_seq s (fupd (prod_seq s) (Z.of_nat t mod capacity)
                (u32 (Z.of_nat t + 1)))) t _ c' Hc eq_refl ltac:(repeat split)) as Hmv.
  assert (Hmono : forall t', is_published s t' -> is_published (set_prod (set_prod_seq s
            (fupd (prod_seq s) (Z.of_nat t mod capacity) (u32 (Z.of_nat t + 1)))) t c') t')
    by (apply (move_published _ _ _ _ _ Hmv); done).
  ring_frames Hmv.
  - intros pos Hpos. pose proof Hmv as (_ & Hpc' & _). cbn.
    destruct (decide (pos = Z.of_nat t mod capacity)) as [->|Hne].
    + right. exists t. rewrite fupd_eq. split; [done|].
      split; [exists c'; rewrite Hpc', decide_True by done; done|]. split; [done|].
      intros t' Et (c0 & H0 & H1). rewrite Hpc' in H0.
      destruct (decide (t = t')) as [<-|Hne]; [done|].
      destruct (le_lt_dec t' t) as [|Hlt]; [done|]. exfalso. apply Hne.
      eapply (window_unique s t t'); eauto; try lia. destruct c0; done.
    + rewrite fupd_ne by done. destruct (r_seq0 pos Hpos) as [[H1 H2]|(q & H1 & H2 & H3 & H4)].
      * left. split; [done|]. intros t' Et (c0 & H0 & H5). rewrite Hpc' in H0.
        case_decide; [subst; done|]. apply (H2 t' Et). exists c0. done.
      * right. exists q. repeat split; auto. intros t' Et (c0 & H0 & H5). rewrite Hpc' in H0.
        case_decide; [subst; done|]. apply (H4 t' Et). exists c0. done.
  - eapply move_sync; eauto.
    + intros Hw. right. intros q Hq. replace q with p by congruence. auto.
    + intros _ -> q Hq Hk. exfalso. apply (Hret eq_refl). congruence.
Qed.

Lemma sync_returns s t p :
  ring_inv s -> Z.of_nat (length (producers s)) < 2 ^ 32 ->
  producers s !! t = Some p -> pr_pc p = PWaitSeq ->
  ~ done_seq s (Z.of_nat t mod capacity) < u32 (Z.of_nat t + 1) -> t ∈ g_notified s.
Proof.
  intros Hinv HT Hp Hpc Hlt. destruct (producer_facts s t p Hinv Hp) as (Hc & _).
  rewrite Hpc in Hc. pose proof (pcof_lt s t _ Hc) as Htl.
  rewrite u32_id in Hlt by (unfold is_word; lia).
  destruct (r_done s Hinv _ (mod_cap_range (Z.of_nat t))) as [[E _]|(q & Hq & Hn & E & _)]; [lia|].
  assert (Hqn : (q < g_cons s + length (batch s))%nat).
  { apply (r_notified s Hinv) in Hn as [?|(o & i & _ & ? & -> & _)]; lia. }
  pose proof (r_window s Hinv) as (Hsl & Hcap & _). pose proof (seen_ge s).
  rewrite E, u32_id in Hlt by (unfold is_word; lia).
  destruct (decide (q = t)) as [<-|Hne]; [done|]. apply (r_notified s Hinv). left.
  destruct (le_lt_dec (g_cons s) t) as [Hge|]; [|done]. exfalso. apply Hne, near_eq; lia.
Qed.

Lemma inv_set_flags s f : ring_inv s -> ring_inv (set_flags s f).
Proof. intros []. split; auto. Qed.

Lemma inv_produce s t s' : ring_inv s -> producer_step s t = Some s' -> ring_inv s'.
Proof.
  intros Hinv Hs. unfold producer_step in Hs.
  destruct (producers s !! t) as [p|] eqn:Hp; [|done].
  destruct (producer_facts s t p Hinv Hp) as (Hc & _ & Ei & Et). rewrite Ei, Et in Hs.
  assert (Hsame : forall s0 c c', ring_inv s0 -> pcof s0 t = Some c -> published c' = published c ->
            written c' = written c -> (passed c' = true -> passed c = true \/
              Z.of_nat t < Z.of_nat (g_cons s0) + capacity) -> c' <> PReturned ->
            (waits_flag c' = true -> waits_flag c = true) ->
            ring_inv (set_prod s0 t c')).
  { intros s0 c c' Hi0 Hc0 H1 H2 H3 H4 H5. pose proof Hi0 as [].
    pose proof (prod_move_set s0 s0 t c c' Hc0 eq_refl ltac:(repeat split)) as Hmv.
    ring_frames Hmv. }
  destruct (pr_pc p) eqn:Epc; try (injection Hs as <-); try done.
  - destruct (_ >=? _) eqn:E; b2p; eapply Hsame; eauto; try done.
    intros _. right. eapply spin_exit; eauto.
  - eapply Hsame; eauto using inv_set_flags; done.
  - now apply inv_write.
  - apply (inv_publish s t p); auto; destruct (pr_kind p); done.
  - destruct (_ <? _) eqn:E; b2p; [eapply Hsame; eauto; done|]. pose proof Hinv as [].
    pose proof (prod_move_set s s t PWaitSeq PReturned Hc eq_refl ltac:(repeat split)) as Hmv.
    ring_frames Hmv. eapply move_sync; [exact Hmv|done| |done]. intros HT _ q Hq _.
    apply (sync_returns s t p); auto. lia.
  - destruct (_ =? _); eapply Hsame; eauto; done.
  - pose proof (inv_set_flags s (fupd (done_flags s) (Z.of_nat t mod capacity) 0) Hinv) as Hinv'.
    set (s1 := set_flags s _) in *. pose proof Hinv' as [].
    pose proof (prod_move_set s1 s1 t PRelease PReturned Hc eq_refl ltac:(repeat split)) as Hmv.
    ring_frames Hmv. destruct r_sync0 as [Ha ?]. eapply move_sync; [exact Hmv|done| |split; done].
    intros _ _ q Hq Hk. rewrite (Ha t q Hq) in Hk; [done|].
    cbn in Hq. replace q with p by congruence. now rewrite Epc.
Qed.

(** ** Steps of the scheduler *)

(** Scanning: a matching sequence number means the slot was published. *)
Lemma scan_published s x :
  ring_inv s -> (g_cons s <= x < length (producers s))%nat ->
  Z.of_nat x < Z.of_nat (g_cons s) + capacity ->
  prod_seq s (Z.of_nat x mod capacity) = u32 (Z.of_nat x + 1) -> is_published s x.
Proof.
  intros Hinv Hx Hw E. pose proof capacity_range as Hcap.
  destruct (r_slots s Hinv) as (_ & _ & Hwin & _). pose proof (seen_ge s) as Hsg.
  assert (Hprev : forall y : nat, Z.of_nat y = Z.of_nat x - capacity -> is_published s y).
  { intros y Hy. apply (r_seen s Hinv). lia. }
  destruct (r_seq s Hinv _ (mod_cap_range (Z.of_nat x))) as [[E0 Hno]|(q & Hq & Hp & Eq & Hmax)].
  - exfalso. destruct (Z.lt_ge_cases (Z.of_nat x) capacity).
    + rewrite E0, u32_id in E by (unfold is_word; lia). lia.
    + apply (Hno (Z.to_nat (Z.of_nat x - capacity))); [|apply Hprev; lia].
      rewrite Z2Nat.id by lia. replace (Z.of_nat x - capacity) with (Z.of_nat x + (-1) * capacity) by lia.
      now rewrite Z_mod_plus_full.
  - assert (Hqx : q = x); [|congruence]. pose proof Hp as (c & Hc & Hpc). pose proof (pcof_lt _ _ _ Hc).
    assert (Hnear : Z.abs (Z.of_nat q + 1 - (Z.of_nat x + 1)) < 2 ^ 32 -> q = x).
    { intros Hd. assert (Z.of_nat q + 1 = Z.of_nat x + 1); [|lia].
      apply (wrap_inj_near 32); [lia| |done]. unfold u32 in *. congruence. }
    destruct (Nat.lt_trichotomy q x) as [Hlt|[?|Hgt]]; [|done|apply Hnear; lia].
    apply Hnear. destruct (Z.lt_ge_cases (Z.of_nat x) capacity); [lia|].
    assert (Z.to_nat (Z.of_nat x - capacity) <= q)%nat; [|lia].
    apply Hmax; [|apply Hprev; lia]. rewrite Z2Nat.id by lia.
    replace (Z.of_nat x - capacity) with (Z.of_nat x + (-1) * capacity) by lia.
    now rewrite Z_mod_plus_full.
Qed.

Lemma inv_load_tail s tail ready :
  ring_inv s -> sched s = SDrain tail ready -> ring_inv (set_sched s (SDrain (prod_tail s) ready)).
Proof.
  intros [] Es. pose proof r_slots0 as (Et & _). pose proof r_window0 as (H1 & H2 & H3).
  assert (Er : ready_count (set_sched s (SDrain (prod_tail s) ready)) = ready_count s)
    by (unfold ready_count; cbn; now rewrite Es).
  assert (Esn : seen (set_sched s (SDrain (prod_tail s) ready)) = seen s)
    by (unfold seen; now rewrite Er).
  split; auto.
  - unfold inv_window. rewrite Esn, Er. cbn. rewrite Es in H3. destruct H3 as [Hr _].
    repeat split; auto. exists (length (producers s)). split; [done|]. split; [done|lia].
  - intros t. rewrite Esn. apply r_seen0.
  - intros t. rewrite (r_notified0 t). cbn. rewrite Es.
    split; (intros [?|(o & i & ? & _)]; [now left|done]).
Qed.

Lemma inv_scan s tail ready s' :
  ring_inv s -> sched s = SDrain tail ready -> sched_step s AScan = Some s' -> ring_inv s'.
Proof.
  intros Hinv Es Hs. unfold sched_step in Hs. rewrite Es in Hs. pose proof capacity_range as Hcap.
  pose proof Hinv as []. pose proof r_slots0 as (Et & Eh & Hwin & _).
  pose proof r_window0 as (H1 & H2 & H3). rewrite Es in H3. destruct H3 as (Hr & T0 & -> & HT0).
  assert (Erc : ready_count s = Z.to_nat ready) by (unfold ready_count; now rewrite Es).
  assert (Eseen : Z.of_nat (seen s) = Z.of_nat (g_cons s) + acc s + ready)
    by (unfold seen, acc; rewrite Erc; lia).
  assert (Hacc : acc s = Z.of_nat (length (batch s))) by done.
  assert (E1 : u32 (cons_head s + acc s) = u32 (Z.of_nat (g_cons s) + acc s))
    by (rewrite Eh; apply wrap_add_l).
  assert (E2 : u32 (u32 (Z.of_nat T0) - u32 (Z.of_nat (g_cons s) + acc s)) =
               Z.of_nat T0 - (Z.of_nat (g_cons s) + acc s)) by (apply wrap_dist; lia).
  assert (E3 : u32 (u32 (Z.of_nat (g_cons s) + acc s) + ready) = u32 (Z.of_nat (seen s)))
    by (rewrite Eseen; apply wrap_add_l).
  assert (E4 : u32 (u32 (Z.of_nat (seen s)) + 1) = u32 (Z.of_nat (seen s) + 1))
    by apply wrap_add_l.
  rewrite E1, E2, E3, E4, land_cap, (u32_id (capacity - acc s)) in Hs by (unfold is_word; lia).
  destruct (_ && _ && _) eqn:Hb; [|done]. injection Hs as <-. b2p. set (x := seen s) in *.
  assert (Hx : is_published s x).
  { apply scan_published; [done|lia|lia|]. assumption. }
  set (s' := set_sched s _). 
  assert (Er' : ready_count s' = S (ready_count s)) by (unfold ready_count; cbn; rewrite Es; lia).
  assert (Esn' : seen s' = S x) by (unfold seen; rewrite Er'; unfold x, seen; cbn; lia).
  split; auto.
  - unfold inv_window. rewrite Esn', Er'. cbn. repeat split; try lia.
    exists T0. split; [done|lia].
  - intros t. rewrite Esn'. intros Ht. destruct (decide (t = x)) as [->|]; [done|].
    apply r_seen0. lia.
  - intros t. unfold s'. cbn. rewrite (r_notified0 t), Es.
    split; (intros [?|(o & i & ? & _)]; [now left|done]).
Qed.

Lemma inv_read s tail ready s' :
  ring_inv s -> sched s = SDrain tail ready -> sched_step s ARead = Some s' -> ring_inv s'.
Proof.
  intros Hinv Es Hs. unfold sched_step in Hs. rewrite Es in Hs.
  pose proof Hinv as []. pose proof r_slots0 as (_ & Eh & _).
  pose proof r_window0 as (H1 & H2 & H3). rewrite Es in H3. destruct H3 as (Hr & T0 & -> & HT0).
  destruct (0 <? ready) eqn:Hb; [|done]. b2p. unfold acc in Hs.
  set (x := (g_cons s + length (batch s))%nat).
  assert (E1 : u32 (cons_head s + Z.of_nat (length (batch s))) = u32 (Z.of_nat x))
    by (rewrite Eh; unfold u32; rewrite wrap_add_l; f_equal; lia).
  rewrite E1, land_cap in Hs. injection Hs as <-.
  assert (Erc : ready_count s = Z.to_nat ready) by (unfold ready_count; now rewrite Es).
  assert (Hxs : (x < seen s)%nat) by (unfold seen, x; lia).
  destruct (r_seen0 x Hxs) as (c & Hc & Hpb).
  apply pcof_Some in Hc as (p & Hp & Epc).
  assert (Hent : entries s (Z.of_nat x mod capacity) = pr_req p).
  { apply r_entries0; [done|lia|]. rewrite Epc. destruct c; done. }
  rewrite Hent. set (s' := MkIoq _ _ _ _ _ _ _ _ _ _ _ _ _).
  assert (Er' : ready_count s' = Z.to_nat (ready - 1)) by done.
  assert (Hlb : length (batch s') = S (length (batch s))) by (cbn; rewrite length_app; cbn; lia).
  assert (Esn' : seen s' = seen s) by (unfold seen; rewrite Er', Hlb, Erc; cbn; lia).
  split; auto.
  - unfold inv_window. rewrite Esn', Er', Hlb. cbn. repeat split; try lia. exists T0. done.
  - intros t. rewrite Esn'. apply r_seen0.
  - destruct r_taken0 as [Hl Htk]. split; [rewrite Hlb; cbn; rewrite length_app; cbn; lia|].
    cbn. rewrite length_app. cbn. rewrite Nat.add_1_r. erewrite take_S_r; [now rewrite <- Htk|].
    rewrite list_lookup_fmap, Hl. fold x. now rewrite Hp.
  - intros t. unfold s'. cbn. rewrite (r_notified0 t), Es.
    split; (intros [?|(o & i & ? & _)]; [now left|done]).
Qed.

Lemma inv_submit s tail ready order s' :
  ring_inv s -> sched s = SDrain tail ready -> sched_step s (ASubmit order) = Some s' -> ring_inv s'.
Proof.
  intros Hinv Es Hs. unfold sched_step in Hs. rewrite Es in Hs. pose proof Hinv as [].
  destruct (_ && _) eqn:Hb; [|done]. injection Hs as <-. b2p.
  apply bool_decide_eq_true in H0 as Hperm.
  assert (Hin : forall i, i ∈ order <-> (i < length (batch s))%nat).
  { intros i. rewrite Hperm, elem_of_seq. lia. }
  assert (Hle : (seen (set_sched s (SNotify order)) <= seen s)%nat)
    by (unfold seen, ready_count; cbn; lia).
  destruct r_window0 as (H1 & H2 & _). split; auto.
  - split; [etrans; [exact Hle|exact H1]|]. split; [cbn in *; lia|]. cbn.
    split; [|intros; now apply Hin].
    rewrite Hperm. apply NoDup_seq.
  - intros t Ht. apply r_seen0. lia.
  - intros t. cbn. rewrite (r_notified0 t), Es. split.
    + intros [?|(o & i & ? & _)]; [now left|done].
    + intros [?|(o & i & [= <-] & Hi & _ & Hno)]; [now left|]. exfalso. now apply Hno, Hin.
Qed.

Lemma inv_notify s i order :
  ring_inv s -> sched s = SNotify (i :: order) -> forall s', sched_step s ANotify = Some s' ->
  ring_inv s'.
Proof.
  intros Hinv Es s' Hs. unfold sched_step in Hs. rewrite Es in Hs. injection Hs as <-.
  pose proof Hinv as []. pose proof r_slots0 as (_ & Eh & _).
  pose proof r_window0 as (H1 & H2 & H3). rewrite Es in H3. destruct H3 as (Hnd & Hlt).
  apply NoDup_cons in Hnd as [Hni Hnd]. pose proof (Hlt i ltac:(apply list_elem_of_here)) as Hi.
  set (x := (g_cons s + i)%nat).
  assert (E1 : u32 (cons_head s + Z.of_nat i) = u32 (Z.of_nat x))
    by (rewrite Eh; unfold u32; rewrite wrap_add_l; f_equal; lia).
  assert (E2 : u32 (u32 (Z.of_nat x) + 1) = u32 (Z.of_nat x + 1)) by apply wrap_add_l.
  rewrite E1, E2, land_cap.
  assert (Hnx : x ∉ g_notified s).
  { rewrite (r_notified0 x). intros [?|(o & j & Eo & Hj & Ej & Hno)]; [lia|].
    rewrite Es in Eo. injection Eo as <-. assert (j = i) by lia. subst. apply Hno.
    apply list_elem_of_here. }
  assert (Hbound : forall t, t ∈ g_notified s -> (t < g_cons s + length (batch s))%nat).
  { intros t [?|(o & j & _ & ? & -> & _)]%r_notified0; lia. }
  pose proof (Hcapr := capacity_range).
  split; auto.
  - unfold inv_window, seen, ready_count in *. rewrite Es in *. cbn in *. repeat split; try lia; auto.
    intros j Hj. apply Hlt. now apply list_elem_of_further.
  - intros t Ht. apply r_seen0. unfold seen, ready_count in *. rewrite Es. cbn in Ht. lia.
  - intros t. cbn. rewrite elem_of_app, list_elem_of_singleton, (r_notified0 t), Es. split.
    + intros [[?|(o & j & [= <-] & Hj & -> & Hno)]| ->]; [now left| |].
      * right. exists order, j. repeat split; auto. intros ?. apply Hno. now apply list_elem_of_further.
      * right. exists order, i. auto.
    + intros [?|(o & j & [= <-] & Hj & -> & Hno)]; [left; now left|].
      destruct (decide (j = i)) as [->|Hne]; [now right|]. left. right. exists (i :: order), j.
      repeat split; auto. intros [->|?]%elem_of_cons; done.
  - intros pos Hpos. cbn. destruct (decide (pos = Z.of_nat x mod capacity)) as [->|Hne].
    + right. exists x. rewrite fupd_eq. split; [done|].
      split; [apply elem_of_app; right; apply list_elem_of_here|]. split; [done|].
      intros t Et [Ht| ->%list_elem_of_singleton]%elem_of_app; [|done].
      destruct (le_lt_dec t x) as [|Hgt]; [done|]. exfalso. apply Hbound in Ht.
      unfold ready_count in H2. rewrite Es in H2. assert (t = x) by (apply near_eq; lia). lia.
    + rewrite fupd_ne by done. destruct (r_done0 pos Hpos) as [[H4 H5]|(q & H4 & H5 & H6 & H7)].
      * left. split; [done|]. intros t Et [Ht| ->%list_elem_of_singleton]%elem_of_app; [|done].
        now apply (H5 t).
      * right. exists q. split; [done|]. split; [apply elem_of_app; now left|]. split; [done|].
        intros t Et [Ht| ->%list_elem_of_singleton]%elem_of_app; [eauto|done].
  - destruct r_sync0 as [Ha Hb]. split; [done|]. intros HT t p Hp Hk Hr. cbn.
    apply elem_of_app. left. eauto.
Qed.

Lemma inv_advance s s' :
  ring_inv s -> sched s = SNotify [] -> sched_step s AAdvance = Some s' -> ring_inv s'.
Proof.
  intros Hinv Es Hs. unfold sched_step in Hs. rewrite Es in Hs. injection Hs as <-.
  pose proof Hinv as []. pose proof r_slots0 as (Et & Eh & Hw & Hsl).
  pose proof r_window0 as (H1 & H2 & _). unfold seen, ready_count in H1, H2. rewrite Es in H1, H2.
  assert (E1 : u32 (cons_head s + acc s) = u32 (Z.of_nat (g_cons s + length (batch s))))
    by (rewrite Eh; unfold u32, acc; rewrite wrap_add_l; f_equal; lia).
  split; auto.
  - unfold inv_slots. cbn. rewrite E1. repeat split; auto; lia.
  - unfold inv_window, seen, ready_count. cbn. rewrite E1. pose proof capacity_range.
    repeat split; try lia. exists (g_cons s + length (batch s))%nat. split; [done|lia].
  - intros t c Hc Hp. cbn. specialize (r_passed0 t c Hc Hp). lia.
  - intros t. unfold seen, ready_count. cbn. intros Ht. apply r_seen0. unfold seen, ready_count.
    rewrite Es. lia.
  - intros t p Hp Hge. apply r_entries0; [done|]. cbn in Hge. lia.
  - destruct r_taken0 as [Hl Htk]. split; [cbn; lia|done].
  - intros t. cbn. rewrite (r_notified0 t), Es. split.
    + intros [?|(o & i & _ & ? & -> & _)]; left; lia.
    + intros [Hlt|(o & i & ? & _)]; [|done]. destruct (le_lt_dec (g_cons s) t); [|now left].
      right. exists [], (t - g_cons s)%nat. repeat split; try lia. apply not_elem_of_nil.
Qed.

Lemma pcof_claim s off n pe op k t :
  pcof (io_sched_claim s off n pe op k) t =
    if decide (t = length (producers s)) then Some PSpin else pcof s t.
Proof.
  unfold pcof; cbn. case_decide as E.
  - subst. now rewrite lookup_app_r, Nat.sub_diag by lia.
  - destruct (decide (t < length (producers s))%nat).
    + now rewrite lookup_app_l by lia.
    + rewrite lookup_app_r by lia. destruct (t - length (producers s))%nat eqn:Ht; [lia|].
      cbn. now rewrite (lookup_ge_None_2 (producers s)) by lia.
Qed.

Lemma inv_claim s off n pe op k :
  ring_inv s -> Z.of_nat (length (producers s)) - Z.of_nat (g_cons s) < 2 ^ 32 - 1 ->
  ring_inv (io_sched_claim s off n pe op k).
Proof.
  intros Hinv Hroom. pose proof (pcof_claim s off n pe op k) as Hpc.
  set (s' := io_sched_claim s off n pe op k) in *.
  set (e := MkProd (prod_tail s) (MkReq off pe op (io_sched_encode_nbytes n)) k PSpin).
  assert (Hnew : forall t p, producers s' !! t = Some p ->
            producers s !! t = Some p \/ t = length (producers s) /\ p = e).
  { intros t p H. cbn in H. apply lookup_snoc_Some in H as [[_ H]|[-> <-]]; auto. }
  assert (Hpub : forall t, is_published s' t <-> is_published s t).
  { intros t. unfold is_published. rewrite Hpc. case_decide; [|done].
    split; intros (c & Hc & Hp); [by simplify_eq|]. apply pcof_lt in Hc. lia. }
  assert (Hlen : length (producers s') = S (length (producers s)))
    by (cbn; rewrite length_app; cbn; lia).
  pose proof Hinv as []. pose proof r_slots0 as (Et & Eh & Hw & Hsl). split; auto.
  - unfold inv_slots. rewrite Hlen. repeat split; [|done|cbn; lia|].
    + cbn. rewrite Et. unfold u32. rewrite wrap_add_l. f_equal. lia.
    + intros t p H. destruct (Hnew t p H) as [H'|[-> ->]]; [auto|done].
  - destruct r_window0 as (H1 & H2 & H3). unfold inv_window. rewrite Hlen.
    change (seen s') with (seen s). change (sched s') with (sched s). split; [lia|]. split; [done|].
    change (batch s') with (batch s). change (g_cons s') with (g_cons s).
    destruct (sched s); try done; destruct H3 as (? & T0 & ? & ?);
      (split; [done|]; exists T0; split; [done|lia]).
  - intros t c Hc Hp. rewrite Hpc in Hc. case_decide; [by simplify_eq|]. eapply r_passed0; eauto.
  - intros t Ht. apply Hpub. now apply r_seen0.
  - intros t p Hp Hge Hwr. destruct (Hnew t p Hp) as [H'|[-> ->]]; [|done]. now apply r_entries0.
  - intros pos Hpos. destruct (r_seq0 pos Hpos) as [[H4 H5]|(q & H4 & H5 & H6 & H7)]; [left|right].
    + split; [done|]. intros t Ht Hp. apply (H5 t Ht). now apply Hpub.
    + exists q. split; [done|]. split; [now apply Hpub|]. split; [done|].
      intros t Ht Hp. apply (H7 t Ht). now apply Hpub.
  - destruct r_taken0 as [Hl Htk]. split; [done|]. cbn. rewrite fmap_app, take_app_le; [done|].
    rewrite length_fmap, Hl. destruct r_window0 as (H1 & _). unfold seen in H1. lia.
  - destruct r_sync0 as [Ha Hb]. split.
    + intros t p Hp Hf. destruct (Hnew t p Hp) as [H'|[-> ->]]; [eauto|done].
    + rewrite Hlen. intros HT t p Hp Hk Hr. destruct (Hnew t p Hp) as [H'|[-> ->]]; [|done].
      eapply Hb; eauto. lia.
Qed.

(** Entering and leaving the last look change nothing but the program counter. *)
Lemma inv_last s v :
  ring_inv s -> batch s = [] -> ready_count s = 0%nat ->
  match v with
  | SDrain tail ready => ready = 0 /\ exists T0 : nat, tail = u32 (Z.of_nat T0) /\ (g_cons s <= T0 <= length (producers s))%nat
  | SNotify _ => False
  | SLast tail => exists T0 : nat, tail = u32 (Z.of_nat T0) /\ (g_cons s <= T0 <= length (producers s))%nat
  | SCheck | SExited => True
  end -> ring_inv (set_sched s v).
Proof.
  intros [] Eb Er Hv. set (s' := set_sched s v).
  assert (Er' : ready_count s' = 0%nat) by (unfold ready_count; cbn; destruct v; try done; by destruct Hv as [-> _]).
  assert (Esn : seen s = g_cons s) by (unfold seen; rewrite Eb, Er; cbn; lia).
  assert (Esn' : seen s' = g_cons s) by (unfold seen; rewrite Er'; cbn; rewrite Eb; cbn; lia).
  destruct r_window0 as (H1 & H2 & _). pose proof capacity_range. split; auto.
  - unfold inv_window. rewrite Esn', Er'. rewrite Esn in H1. cbn. rewrite Eb. cbn.
    split; [lia|]. split; [lia|]. destruct v; try done. destruct Hv as (-> & Hv). by split.
  - intros t. rewrite Esn', <- Esn. apply r_seen0.
  - intros t. cbn. rewrite (r_notified0 t), Eb. cbn.
    split; (intros [?|(o & i & _ & ? & _)]; [now left|lia]).
Qed.

Lemma inv_sched s a s' : ring_inv s -> sched_step s a = Some s' -> ring_inv s'.
Proof.
  intros Hinv Hs. pose proof (r_window s Hinv) as (_ & _ & Hw). pose proof (r_slots s Hinv) as (Et & _).
  assert (Hsn : (g_cons s <= length (producers s))%nat)
    by (pose proof (r_window s Hinv) as (H & _); unfold seen in H; lia).
  destruct (sched s) as [tail ready|[|i order]| |tail|] eqn:Es; destruct a;
    try (unfold sched_step in Hs; rewrite Es in Hs; done).
  - unfold sched_step in Hs. rewrite Es in Hs. injection Hs as <-. eapply inv_load_tail; eauto.
  - eapply inv_scan; eauto.
  - eapply inv_read; eauto.
  - eapply inv_submit; eauto.
  - unfold sched_step in Hs. rewrite Es in Hs. destruct (_ && _ && _) eqn:Hb; [|done]. injection Hs as <-. b2p.
    apply inv_last; [done| | |done]; [|unfold ready_count; rewrite Es; lia].
    apply nil_length_inv. unfold acc in *. lia.
  - eapply inv_advance; eauto.
  - eapply inv_notify; eauto.
  - unfold sched_step in Hs. rewrite Es in Hs. injection Hs as <-. apply inv_last; [done..|unfold ready_count; by rewrite Es|].
    exists (length (producers s)). split; [done|lia].
  - unfold sched_step in Hs. rewrite Es in Hs. injection Hs as <-. destruct Hw as [Eb HT].
    apply inv_last; [done..|unfold ready_count; by rewrite Es|]. by destruct (_ && _).
Qed.

Lemma ring_inv_rtc s0 s : ring_inv s0 -> rtc ring_step s0 s -> ring_inv s.
Proof.
  intros Hi Hr. induction Hr as [|x y z Hxy _ IH]; [done|].
  apply IH. destruct Hxy; eauto using inv_claim, inv_produce, inv_sched.
  destruct Hi; split; auto.
Qed.

Lemma ring_reachable s0 s : ring_init s0 -> rtc ring_step s0 s -> ring_inv s.
Proof. eauto using ring_init_inv, ring_inv_rtc. Qed.

Lemma ring_exec_rtc acts s s' : ring_exec acts s = Some s' -> rtc ring_step s s'.
Proof.
  revert s. induction acts as [|a acts IH]; intros s; cbn; [by intros [= ->]|].
  destruct (ring_exec_act a s) as [s1|] eqn:E; [|done]. intros H.
  apply (rtc_l _ _ s1); [|by apply IH]. destruct a; cbn in E.
  - case_decide; [|done]. injection E as <-. by apply ring_claim.
  - by eapply ring_produce.
  - by eapply ring_sched.
  - injection E as <-. by apply ring_shutdown.
Qed.

Lemma ring_exec_app acts acts' s :
  ring_exec (acts ++ acts') s = (s' ← ring_exec acts s; ring_exec acts' s').
Proof.
  revert s. induction acts as [|a acts IH]; intros s; cbn; [done|].
  destruct (ring_exec_act a s); [apply IH|done].
Qed.

(** The batch holds the entries taken since the consumer head. *)
Definition inv_batch (s : io_queue_t) : Prop :=
  exists old, g_taken s = old ++ batch s /\ length old = g_cons s.

Lemma batch_step s s' : ring_step s s' -> inv_batch s -> inv_batch s'.
Proof.
  intros Hs (old & E & L). destruct Hs as [|s t s' H|s a s' H|]; [by exists old| | |by exists old].
  - unfold producer_step in H. destruct (producers s !! t) as [p|]; [|done].
    destruct (pr_pc p); simplify_eq; by exists old.
  - unfold sched_step in H. destruct (sched s) as [tail ready|[|i order]| |tail|], a;
      repeat case_match; simplify_eq; try by exists old.
    + exists old. cbn. rewrite E. by rewrite app_assoc.
    + exists (g_taken s). cbn. rewrite app_nil_r. split; [done|]. rewrite E, length_app. lia.
Qed.

Lemma notified_step s s' :
  ring_step s s' -> ring_inv s -> NoDup (g_notified s) -> NoDup (g_notified s').
Proof.
  intros Hs Hinv Hn. destruct Hs as [|s t s' H|s a s' H|]; [done| | |done].
  - unfold producer_step in H. destruct (producers s !! t) as [p|]; [|done].
    destruct (pr_pc p); by simplify_eq.
  - pose proof (r_window s Hinv) as (_ & _ & Hw). pose proof (r_notified s Hinv) as Hnot.
    unfold sched_step in H. destruct (sched s) as [tail ready|[|i order]| |tail|] eqn:Es, a;
      repeat case_match; simplify_eq; try done.
    cbn. apply NoDup_app. split; [done|]. split; [|apply NoDup_singleton].
    intros t Ht ->%list_elem_of_singleton. apply Hnot in Ht as [?|(o & j & Ho & _ & ? & Hj)]; [lia|].
    rewrite Es in Ho. injection Ho as <-. apply Hj. replace j with i by lia. constructor.
Qed.

Lemma ring_reachable_ghosts s0 s :
  ring_init s0 -> rtc ring_step s0 s -> ring_inv s /\ inv_batch s /\ NoDup (g_notified s).
Proof.
  intros Hi. revert s. apply (rtc_ind_r (R := ring_step)).
  - split; [by eapply ring_reachable; [|apply rtc_refl]|].
    destruct Hi as (_&_&_&_&_&_&_&_&E8&E9&E10&E11). unfold inv_batch. rewrite E8, E9, E10, E11.
    split; [by exists []|constructor].
  - intros y z Hxy Hyz (I1 & I2 & I3). split; [|split].
    + eapply ring_reachable; [exact Hi|]. eapply rtc_r; eauto.
    + by eapply batch_step.
    + by eapply notified_step.
Qed.

(** ** Progress *)

(** The scheduler can finish notifying and advance the head over its batch. *)
Lemma notify_all s order :
  sched s = SNotify order ->
  exists acts s', ring_exec (RSched <$> acts) s = Some s' /\ producers s' = producers s /\
    prod_seq s' = prod_seq s /\ g_cons s' = (g_cons s + length (batch s))%nat /\ batch s' = [] /\
    exists tail, sched s' = SDrain tail 0.
Proof.
  revert s. induction order as [|i order IH]; intros s Es.
  - exists [AAdvance]. cbn. unfold sched_step. rewrite Es. eexists. split; [done|]. cbn. eauto 10.
  - destruct (sched_step s ANotify) as [s1|] eqn:E1; [|unfold sched_step in E1; by rewrite Es in E1].
    assert (E0 := E1). unfold sched_step in E0. rewrite Es in E0. injection E0 as E0.
    destruct (IH s1) as (acts & s' & He & H1 & H2 & H3 & H4); [by rewrite <- E0|].
    exists (ANotify :: acts), s'. cbn. rewrite E1. split; [done|]. rewrite H1, H2, H3, <- E0. done.
Qed.

(** A nonempty batch can be submitted and consumed. *)
Lemma submit_all s tail ready :
  sched s = SDrain tail ready -> 0 < acc s ->
  exists acts s', ring_exec (RSched <$> acts) s = Some s' /\ (g_cons s < g_cons s')%nat.
Proof.
  intros Es Ha. set (order := seq 0 (length (batch s))).
  assert (E1 : sched_step s (ASubmit order) = Some (set_sched s (SNotify order))).
  { unfold sched_step. rewrite Es. rewrite (proj2 (Z.ltb_lt _ _) Ha), bool_decide_true; done. }
  destruct (notify_all (set_sched s (SNotify order)) order eq_refl) as (acts & s' & He & _ & _ & Hc & _).
  exists (ASubmit order :: acts), s'. cbn. rewrite E1. split; [done|].
  rewrite Hc. cbn. unfold acc in Ha. lia.
Qed.

(** A slot seen ready can be taken, submitted and consumed. *)
Lemma read_all s tail ready :
  sched s = SDrain tail ready -> 0 < ready ->
  exists acts s', ring_exec (RSched <$> acts) s = Some s' /\ (g_cons s < g_cons s')%nat.
Proof.
  intros Es Hr. destruct (sched_step s ARead) as [s1|] eqn:E1.
  - assert (E0 := E1). unfold sched_step in E0. rewrite Es, (proj2 (Z.ltb_lt _ _) Hr) in E0.
    injection E0 as E0.
    destruct (submit_all s1 tail (ready - 1)) as (acts & s' & He & Hc);
      [by rewrite <- E0|rewrite <- E0; unfold acc; cbn; rewrite length_app; cbn; lia|].
    exists (ARead :: acts), s'. cbn. rewrite E1. split; [done|]. rewrite <- E0 in Hc. done.
  - exfalso. unfold sched_step in E1. by rewrite Es, (proj2 (Z.ltb_lt _ _) Hr) in E1.
Qed.

(** With an empty batch and the oldest slot published, a scan sees it. *)
Lemma oldest_ready s T0 :
  ring_inv s -> is_published s (g_cons s) -> (g_cons s < T0 <= length (producers s))%nat ->
  u32 (u32 (Z.of_nat T0) - cons_head s) = Z.of_nat T0 - Z.of_nat (g_cons s) /\ slot_ready (prod_seq s) (cons_head s) 0 = true.
Proof.
  intros Hinv Hpub HT. pose proof Hinv as []. destruct r_slots0 as (Et & Eh & Hw & _). pose proof capacity_range.
  rewrite Eh. split; [apply wrap_dist; lia|]. unfold slot_ready. rewrite Z.add_0_r, (u32_id (u32 _)), land_cap by apply u32_range.
  destruct (r_seq0 (Z.of_nat (g_cons s) mod capacity) (mod_cap_range _))
    as [[_ H5]|(q & H4 & H5 & H6 & H7)]; [exfalso; by apply (H5 (g_cons s))|].
  assert (q = g_cons s) as ->.
  { specialize (H7 (g_cons s) eq_refl Hpub). apply near_eq; [done|].
    destruct H5 as (c & Hc & Hp). specialize (r_passed0 q c Hc). destruct c; cbn in *; lia || done. }
  rewrite H6. apply Z.eqb_eq. unfold u32. by rewrite wrap_add_l.
Qed.

Lemma scan_oldest s tail :
  ring_inv s -> sched s = SDrain tail 0 -> batch s = [] -> is_published s (g_cons s) ->
  exists s1 tail1, ring_exec [RSched ALoadTail; RSched AScan] s = Some s1 /\
    sched s1 = SDrain tail1 1 /\ g_cons s1 = g_cons s.
Proof.
  intros Hinv Es Eb Hpub. destruct (r_slots s Hinv) as (Et & Eh & Hw & _). pose proof capacity_range. cbn [ring_exec ring_exec_act].
  assert (HL : (g_cons s < length (producers s))%nat)
    by (destruct Hpub as (c & Hc & _); by apply pcof_lt in Hc).
  destruct (oldest_ready s (length (producers s)) Hinv Hpub ltac:(lia)) as [Hd Hr].
  assert (E1 : sched_step s ALoadTail = Some (set_sched s (SDrain (prod_tail s) 0)))
    by (unfold sched_step; by rewrite Es).
  rewrite E1. unfold sched_step. cbn. unfold acc. cbn. rewrite Eb. cbn.
    unfold slot_ready in Hr. rewrite Z.add_0_r in Hr.
  rewrite Z.add_0_r, Z.add_0_r, Z.sub_0_r, (u32_id (cons_head s)) by (rewrite Eh; apply u32_range).
  rewrite (u32_id (cons_head s)) in Hr |- * by (rewrite Eh; apply u32_range).
  rewrite Et, Hd, (u32_id capacity), Hr by (unfold is_word; lia).
  rewrite (proj2 (Z.ltb_lt _ _)) by lia. rewrite (proj2 (Z.ltb_lt _ _)) by lia. cbn. eauto.
Qed.

Lemma drain_oldest s tail ready :
  ring_inv s -> sched s = SDrain tail ready -> is_published s (g_cons s) ->
  exists acts s', ring_exec (RSched <$> acts) s = Some s' /\ (g_cons s < g_cons s')%nat.
Proof.
  intros Hinv Es Hpub. destruct (batch s) as [|e b] eqn:Eb.
  - pose proof (r_window s Hinv) as (_ & _ & Hw). rewrite Es in Hw. destruct Hw as [Hw _].
    destruct (decide (ready = 0)) as [->|]; [|eapply read_all; eauto; lia].
    destruct (scan_oldest s tail Hinv Es Eb Hpub) as (s1 & tail1 & He & Es1 & Ec).
    destruct (read_all s1 tail1 1 Es1) as (acts & s' & He' & Hc); [lia|].
    exists ([ALoadTail; AScan] ++ acts), s'. rewrite fmap_app, ring_exec_app. cbn [fmap list_fmap].
    rewrite He. cbn. split; [done|lia].
  - eapply submit_all; eauto. unfold acc. rewrite Eb. cbn. lia.
Qed.

Lemma check_oldest s :
  ring_inv s -> sched s = SCheck -> is_published s (g_cons s) ->
  exists acts s', ring_exec (RSched <$> acts) s = Some s' /\ (g_cons s < g_cons s')%nat.
Proof.
  intros Hinv Es Hpub. assert (HL : (g_cons s < length (producers s))%nat)
    by (destruct Hpub as (c & Hc & _); by apply pcof_lt in Hc).
  destruct (oldest_ready s (length (producers s)) Hinv Hpub ltac:(lia)) as [Hd Hr]. destruct (r_slots s Hinv) as (Et & _).
  set (s1 := set_sched s (SDrain (prod_tail s) 0)).
  assert (E1 : ring_exec [RSched ALoadTail; RSched AScan] s = Some s1).
  { assert (E0 : sched_step s ALoadTail = Some (set_sched s (SLast (prod_tail s)))) by (unfold sched_step; by rewrite Es).
    cbn [ring_exec ring_exec_act]. rewrite E0. unfold sched_step. cbn.
    rewrite Et, Hd, Hr, (proj2 (Z.ltb_lt _ _)) by lia. cbn. unfold s1. by rewrite Et. }
  destruct (drain_oldest s1 (prod_tail s) 0) as (acts & s' & He & Hc); [|done..|].
  - eapply ring_inv_rtc; [exact Hinv|by eapply ring_exec_rtc].
  - exists ([ALoadTail; AScan] ++ acts), s'. rewrite fmap_app, ring_exec_app. cbn [fmap list_fmap]. rewrite E1. done.
Qed.

(** The scheduler is about to return, or has. *)
Definition leaving (s : io_queue_t) : bool :=
  match sched s with SLast _ | SExited => true | _ => false end.

Lemma consume_oldest s :
  ring_inv s -> leaving s = false -> is_published s (g_cons s) ->
  exists acts s', ring_exec (RSched <$> acts) s = Some s' /\ (g_cons s < g_cons s')%nat.
Proof.
  intros Hinv Hl Hpub. unfold leaving in Hl. destruct (sched s) as [tail ready|order| |tail|] eqn:Es; [by eapply drain_oldest| |by eapply check_oldest|done..].
  destruct (notify_all s order Es) as (acts & s1 & He & Ep & _ & Ec & _ & tail & Es1).
  destruct (decide (batch s = [])) as [Eb|Hb].
  - rewrite Eb, Nat.add_0_r in Ec. destruct (drain_oldest s1 tail 0) as (acts' & s' & He' & Hc').
    + eapply ring_inv_rtc; [done|]. by eapply ring_exec_rtc.
    + done.
    + unfold is_published, pcof in *. by rewrite Ep, Ec.
    + exists (acts ++ acts'), s'. rewrite fmap_app, ring_exec_app, He. cbn. split; [done|lia].
  - exists acts, s1. split; [done|]. destruct (batch s); cbn in *; lia || done.
Qed.

(** The owner of the oldest slot is never held back. *)
Lemma oldest_moves s c :
  ring_inv s -> pcof s (g_cons s) = Some c -> published c = false ->
  exists s', producer_step s (g_cons s) = Some s' /\ pcof s' (g_cons s) <> pcof s (g_cons s).
Proof.
  intros Hinv Hc Hp. pose proof Hc as (p & Hl & Epc)%pcof_Some. pose proof capacity_range.
  destruct (r_slots s Hinv) as (_ & Eh & _ & Hsl).
  rewrite Hc. unfold producer_step. rewrite Hl, Epc. unfold pcof.
  destruct c; try done; eexists; (split; [done|]); cbn; rewrite list_lookup_alter_eq, Hl; cbn; try done.
  - rewrite (Hsl _ _ Hl), Eh, Z.sub_diag. change (u32 0) with 0.
    destruct (Z.geb_spec 0 capacity); [lia|done].
  - by destruct (pr_kind p).
Qed.

(** ** Theorems *)

(** C2: The scheduler takes the requests in slot order, each exactly once and as
    its caller wrote it: what it has read is a prefix of the sequence of claimed
    requests, the batch is the part after the consumer head, and it never exceeds
    the ring.  The ring's counters may wrap any number of times. *)
Theorem ring_takes_in_order s0 s :
  ring_init s0 -> rtc ring_step s0 s ->
  g_taken s `prefix_of` (pr_req <$> producers s) /\
  batch s = drop (g_cons s) (g_taken s) /\
  cons_head s = u32 (Z.of_nat (g_cons s)) /\
  Z.of_nat (length (batch s)) <= capacity.
Proof.
  intros Hi Hr. destruct (ring_reachable_ghosts s0 s Hi Hr) as (Hinv & (old & E & L) & _).
  destruct Hinv. destruct r_taken0 as [_ Htk]. split; [|split; [|split]].
  - rewrite Htk. apply prefix_take.
  - rewrite E, <- L. by rewrite drop_app_length.
  - apply r_slots0.
  - destruct r_window0 as (_ & H & _). lia.
Qed.

(** A slot is notified at most once, only after its request was taken, and
    before the consumer head passes it. *)
Theorem ring_notifies_once s0 s :
  ring_init s0 -> rtc ring_step s0 s ->
  NoDup (g_notified s) /\
  (forall t, t ∈ g_notified s -> (t < length (g_taken s))%nat) /\
  (forall t, (t < g_cons s)%nat -> t ∈ g_notified s).
Proof.
  intros Hi Hr. destruct (ring_reachable_ghosts s0 s Hi Hr) as (Hinv & _ & Hn).
  destruct Hinv. destruct r_taken0 as [L _]. split; [done|]. split; intros t.
  - rewrite (r_notified0 t), L. intros [?|(o & i & _ & ? & -> & _)]; lia.
  - intros Ht. apply r_notified0. by left.
Qed.

(** C14: A synchronous call ([io_sched_read], [io_sched_write], [io_sched_access])
    returns only after the scheduler notified its slot, while fewer than 2^32
    slots have been claimed. *)
Theorem io_sched_sync_waits s0 s t p :
  ring_init s0 -> rtc ring_step s0 s -> Z.of_nat (length (producers s)) < 2 ^ 32 ->
  producers s !! t = Some p -> pr_kind p = KSync -> pr_pc p = PReturned -> t ∈ g_notified s.
Proof.
  intros Hi Hr Hlt Hp Hk Hpc. pose proof (ring_reachable s0 s Hi Hr) as [].
  destruct r_sync0 as [_ H]. eauto.
Qed.

(** C13: The ring never deadlocks while the scheduler runs: if a claimed slot is unconsumed
    and the scheduler has not made its last look for the shutdown, either the scheduler has
    a run that advances the consumer head, or the call that owns the oldest slot has a step
    that is not a spin. *)
Theorem ring_progress s0 s :
  ring_init s0 -> rtc ring_step s0 s -> leaving s = false -> (g_cons s < length (producers s))%nat ->
  (exists acts s', ring_exec (RSched <$> acts) s = Some s' /\ (g_cons s < g_cons s')%nat) \/
  (exists s', producer_step s (g_cons s) = Some s' /\ pcof s' (g_cons s) <> pcof s (g_cons s)).
Proof.
  intros Hi Hr Hl HL. assert (Hinv : ring_inv s) by (by eapply ring_reachable).
  destruct (lookup_lt_is_Some_2 _ _ HL) as [p Hp].
  assert (Hc : pcof s (g_cons s) = Some (pr_pc p)) by (unfold pcof; by rewrite Hp).
  destruct (published (pr_pc p)) eqn:Ep; [left|right; by eapply oldest_moves].
  apply consume_oldest; [done..|]. by exists (pr_pc p).
Qed.

(** ** Shutdown *)

(** The first [N] slots are published; a scheduler that leaves has consumed them. *)
Definition drains (N : nat) (s : io_queue_t) : Prop :=
  (forall t, (t < N)%nat -> is_published s t) /\
  match sched s with
  | SLast tail => exists T0 : nat, tail = u32 (Z.of_nat T0) /\ (N <= T0 <= length (producers s))%nat
  | SExited => (N <= g_cons s)%nat
  | _ => True
  end.

Lemma published_step s s' t : ring_step s s' -> is_published s t -> is_published s' t.
Proof.
  intros Hs (c & Hc & Hp). destruct Hs as [s off n pe op k _|s u s' H|s a s' H|].
  - exists c. rewrite pcof_claim. rewrite decide_False; [done|]. apply pcof_lt in Hc. lia.
  - unfold producer_step in H. destruct (producers s !! u) as [p|] eqn:E; [|done].
    assert (G : exists s0 c', s' = set_prod s0 u c' /\ producers s0 = producers s /\ (published (pr_pc p) = true -> published c' = true)).
    { destruct (pr_pc p) eqn:Epc; simplify_eq; eexists _, _; (split; [done|]); (split; [done|]); try done; by repeat case_match. }
    destruct G as (s0 & c' & -> & E0 & Hpub). unfold is_published, pcof in *. cbn. rewrite E0.
    destruct (decide (u = t)) as [<-|]; [|rewrite list_lookup_alter_ne by done; eauto].
    rewrite E in Hc. injection Hc as <-. rewrite list_lookup_alter_eq, E. eauto.
  - exists c. split; [|done]. rewrite <- Hc. unfold pcof. f_equal. unfold sched_step in H.
    by destruct (sched s) as [? ?|[|? ?]| |?|], a; repeat case_match; simplify_eq.
  - by exists c.
Qed.

Lemma drains_step N s s' : ring_inv s -> ring_step s s' -> drains N s -> drains N s'.
Proof.
  intros Hinv Hs [Hpub Hd]. split; [eauto using published_step|].
  destruct Hs as [s off n pe op k _|s u s' H|s a s' H|].
  - cbn. destruct (sched s); try done. destruct Hd as (T0 & ? & ?). exists T0. rewrite length_app. cbn. split; [done|lia].
  - unfold producer_step in H. destruct (producers s !! u) as [p|]; [|done].
    destruct (pr_pc p); simplify_eq; cbn; by rewrite length_alter.
  - assert (HN : (N <= length (producers s))%nat).
    { destruct N as [|N]; [lia|]. destruct (Hpub N ltac:(lia)) as (c & Hc & _). by apply pcof_lt in Hc. }
    pose proof (r_window s Hinv) as (_ & _ & Hw). destruct (r_slots s Hinv) as (Et & _).
    unfold sched_step in H. destruct (sched s) as [tail ready|[|i order]| |tail|] eqn:Es, a; try done;
      repeat (match type of H with (if ?b then _ else _) = _ => destruct b; [|done] end); injection H as <-; cbn; try done.
    + exists (length (producers s)). split; [done|lia].
    + destruct (_ && _) eqn:Eb; [done|]. destruct (decide (N <= g_cons s)%nat) as [|Hlt]; [done|]. exfalso. destruct Hd as (T0 & -> & HT).
      destruct (oldest_ready s T0 Hinv) as [Hr1 Hr2]; [apply Hpub; lia|lia|].
      rewrite Hr1, Hr2, (proj2 (Z.ltb_lt _ _)) in Eb by lia. done.
  - done.
Qed.

(** A shutdown loses nothing that was published: if the first [N] slots are published and
    the scheduler has not begun to leave, then whenever it has returned it has consumed
    them, whatever is claimed or shut down in between. *)
Theorem shutdown_drains s0 s1 s2 N :
  ring_init s0 -> rtc ring_step s0 s1 -> leaving s1 = false -> (forall t, (t < N)%nat -> is_published s1 t) ->
  rtc ring_step s1 s2 -> sched s2 = SExited ->
  (N <= g_cons s2)%nat /\ forall t, (t < N)%nat -> t ∈ g_notified s2.
Proof.
  intros Hi Hr1 Hl Hpub Hr2 Hex. assert (Hinv1 : ring_inv s1) by (by eapply ring_reachable).
  assert (Hd : drains N s1). { split; [done|]. unfold leaving in Hl. by destruct (sched s1). }
  assert (G : ring_inv s2 /\ drains N s2).
  { clear -Hlg Hinv1 Hd Hr2. induction Hr2 as [|x y z Hxy _ IH]; [done|]. apply IH; [|by eapply drains_step].
    eapply ring_inv_rtc; [exact Hinv1|by apply rtc_once]. }
  destruct G as [Hinv2 [_ Hd2]]. rewrite Hex in Hd2. split; [done|]. intros t Ht. apply (r_notified s2 Hinv2). left. lia.
Qed.

Lemma scan_loop_spec n seq start i :
  let r := scan_loop n seq start i in
  i <= r <= i + Z.of_nat n /\ (forall j, i <= j < r -> slot_ready seq start j = true) /\
  (r < i + Z.of_nat n -> slot_ready seq start r = false).
Proof.
  revert i. induction n as [|n IH]; intros i; cbn [scan_loop].
  - cbn. repeat split; lia.
  - fold (slot_ready seq start i). destruct (slot_ready seq start i) eqn:E; cbn zeta; cbn [negb].
    + destruct (IH (i + 1)) as (H1 & H2 & H3). repeat split; [lia|lia| |intros; apply H3; lia].
      intros j Hj. destruct (decide (j = i)) as [->|]; [done|]. apply H2. lia.
    + repeat split; try lia. done.
Qed.

(** [io_sched_scan_ready] counts the longest run of published slots from
    [start], at most [max_count] and at most the pending slots. *)
Theorem io_sched_scan_ready_spec seq tail start max_count :
  0 <= max_count ->
  let r := io_sched_scan_ready seq tail start max_count in
  let lim := Z.min (u32 (tail - start)) max_count in
  0 <= r <= lim /\ (forall j, 0 <= j < r -> slot_ready seq start j = true) /\
  (r < lim -> slot_ready seq start r = false).
Proof.
  intros Hm. unfold io_sched_scan_ready. pose proof (u32_range (tail - start)).
  set (pend := if _ >? _ then _ else _).
  assert (pend = Z.min (u32 (tail - start)) max_count) as Ep.
  { subst pend. destruct (Z.gtb_spec (u32 (tail - start)) max_count); lia. }
  pose proof (scan_loop_spec (Z.to_nat pend) seq start 0) as (H1 & H2 & H3). cbn zeta.
  rewrite <- Ep. rewrite Z2Nat.id, Z.add_0_l in * by (unfold is_word in *; lia).
  auto.
Qed.

(** The wait of a synchronous call does not survive the wrap of the 32-bit
    slot counter: a call whose slot number [n] follows the wrap by less than the capacity
    returns as soon as it is published when the slot's previous request has been
    completed, and the call with slot 0xffffffff (ticket 0) never waits at all. *)
Theorem io_sched_sync_wrap s t p n :
  producers s !! t = Some p -> pr_pc p = PWaitSeq -> pr_slot p = u32 n ->
  2 ^ 32 - 1 <= n < 2 ^ 32 - 1 + capacity ->
  done_seq s (n mod capacity) = u32 (n - capacity + 1) ->
  producer_step s t = Some (set_prod s t PReturned).
Proof.
  intros Hp Hpc Hs Hn Hd. pose proof capacity_range.
  unfold producer_step. rewrite Hp, Hpc, Hs, land_cap, Hd.
  assert (E : u32 (u32 n + 1) = n + 1 - 2 ^ 32).
  { unfold u32. rewrite wrap_add_l. unfold wrap. symmetry. apply (Z.mod_unique _ _ 1); lia. }
  rewrite E, u32_id by (unfold is_word; lia).
  destruct (Z.ltb_spec (n - capacity + 1) (n + 1 - 2 ^ 32)); [lia|done].
Qed.
End ring.

(** ** Lost completions of asynchronous calls *)

Definition example_empty : io_queue_t :=
  MkIoq 0 0 (fun _ => MkReq 0 0 0 0) (fun _ => 0) (fun _ => 0) (fun _ => 0) 0 [] (SDrain 0 0) []
    0 [] [].

(** One call from claim to publication, and one batch of one request. *)
Definition enqueue_acts (t : nat) (k : call_kind) : list ring_act :=
  RClaim (4096 * Z.of_nat t) 4096 (Z.of_nat t) NVM_IO_WRITE k :: repeat (RProd t) 4.
Definition serve_acts : list ring_act :=
  RSched <$> [ALoadTail; AScan; ARead; ASubmit [0%nat]; ANotify; AAdvance].

(** Two asynchronous calls a lap apart: the second clears the flag the first has
    not looked at yet, and the first then consumes the flag of the second. *)
Definition lost_schedule : list ring_act :=
  enqueue_acts 0 KAsync ++ serve_acts ++ enqueue_acts 1 KForget ++ serve_acts ++
  enqueue_acts 2 KAsync ++ serve_acts ++ [RProd 0; RProd 0].

Definition lost_state : io_queue_t :=
  default example_empty (ring_exec 1 lost_schedule example_empty).

(** Steps of the calls in progress and of the scheduler; no new call. *)
Definition serve_step (lg : Z) (s s' : io_queue_t) : Prop :=
  (exists t, producer_step lg s t = Some s') \/ (exists a, sched_step lg s a = Some s').

Definition lost_inv (s : io_queue_t) : Prop :=
  producers s = producers lost_state /\ done_flags s 0 = 0 /\ prod_tail s = 3 /\
  cons_head s = 3 /\ batch s = [] /\ sched s = SDrain 3 0 /\ g_notified s = [0; 1; 2]%nat /\
  shutdown s = 0.

Lemma lost_producers :
  producers lost_state =
    [MkProd 0 (MkReq 0 0 NVM_IO_WRITE 12) KAsync PReturned;
     MkProd 1 (MkReq 4096 1 NVM_IO_WRITE 12) KForget PReturned;
     MkProd 2 (MkReq 8192 2 NVM_IO_WRITE 12) KAsync PWaitFlag].
Proof. vm_compute. reflexivity. Qed.

Lemma lost_inv_step s s' : lost_inv s -> serve_step 1 s s' -> lost_inv s'.
Proof.
  intros (E1 & E2 & E3 & E4 & E5 & E6 & E7 & E8) [[t H]|[a H]].
  - unfold producer_step in H. rewrite E1, lost_producers in H.
    destruct t as [|[|[|t]]]; try discriminate H.
    cbn -[Z.land] in H. change (Z.land 2 (capacity_mask 1)) with 0 in H.
    rewrite E2 in H. injection H as <-.
    unfold lost_inv. cbn. rewrite E1, lost_producers. repeat split; auto.
  - unfold sched_step, acc in H. rewrite E6, E5, E4, E3 in H.
    destruct a; try discriminate H; [injection H as <-; repeat split; auto|]. by rewrite E8 in H.
Qed.

Lemma lost_inv_rtc s s' : lost_inv s -> rtc (serve_step 1) s s' -> lost_inv s'.
Proof. intros H0 Hr. induction Hr as [|x y z Hxy _ IH]; eauto using lost_inv_step. Qed.

Lemma lost_state_inv : lost_inv lost_state.
Proof. split; [reflexivity|]. vm_compute. auto 10. Qed.

Lemma ring_empty_init : ring_init example_empty.
Proof. repeat split; reflexivity. Qed.

Lemma lost_reachable : rtc (ring_step 1) example_empty lost_state.
Proof. apply (ring_exec_rtc 1 lost_schedule). vm_compute. reflexivity. Qed.

(** [io_sched_wait] can miss its completion: there is a run of a two-entry ring
    in which all three requests are completed and notified, and an asynchronous
    call waits on a cleared flag in every continuation without a new request. *)
Theorem io_sched_wait_lost :
  exists s, rtc (ring_step 1) example_empty s /\ ring_init example_empty /\
    forall s', rtc (serve_step 1) s s' ->
      pcof s' 2 = Some PWaitFlag /\ g_notified s' = [0; 1; 2]%nat.
Proof.
  exists lost_state. split; [exact lost_reachable|split; [exact ring_empty_init|]].
  intros s' Hr. pose proof (lost_inv_rtc _ _ lost_state_inv Hr) as Hl.
  destruct Hl as (E & _ & _ & _ & _ & _ & Hn & _). split; [|exact Hn].
  unfold pcof. rewrite E, lost_producers. reflexivity.
Qed.

(** ** Encodings *)

Lemma key_parts off i :
  0 <= off < 2 ^ 55 -> 0 <= i < 512 -> io_sched_make_sort_key off i = off * 512 + i.
Proof.
  intros Ho Hi. unfold io_sched_make_sort_key. change kSortKeyIndexBits with 9.
  change kSortKeyIndexMask with (2 ^ 9 - 1). rewrite land_ones_mod, (Z.mod_small i) by lia.
  rewrite Z.shiftl_mul_pow2, u64_id by (unfold is_word; lia).
  rewrite <- Z.shiftl_mul_pow2, lor_shiftl_add by lia. reflexivity.
Qed.

(** A sort key carries its offset and batch index, and the order of keys is the
    order of offsets with ties broken by arrival, for offsets below 2^55. *)
Theorem io_sched_sort_key_spec off i off' i' :
  0 <= off < 2 ^ 55 -> 0 <= i < 512 -> 0 <= off' < 2 ^ 55 -> 0 <= i' < 512 ->
  io_sched_key_byte_offset (io_sched_make_sort_key off i) = off /\
  io_sched_key_batch_index (io_sched_make_sort_key off i) = i /\
  (io_sched_make_sort_key off i < io_sched_make_sort_key off' i' <->
     off < off' \/ off = off' /\ i < i').
Proof.
  intros Ho Hi Ho' Hi'. rewrite !key_parts by lia. unfold io_sched_key_byte_offset, io_sched_key_batch_index.
  change kSortKeyIndexBits with 9. change kSortKeyIndexMask with (2 ^ 9 - 1).
  rewrite land_ones_mod, Z.shiftr_div_pow2 by lia. repeat split; try lia.
  - change (2 ^ 9) with 512. symmetry. apply (Z.div_unique _ _ _ i); lia.
  - change (2 ^ 9) with 512. replace ((off * 512 + i) mod 512) with i; [rewrite u32_id; [done|unfold is_word; lia]|].
    apply (Z.mod_unique _ _ off); lia.
Qed.

Lemma ffs_pow2 k : ffs_pos (Pos.iter xO xH k) = Z.pos k + 1.
Proof.
  induction k as [|k IH] using Pos.peano_ind; [done|].
  rewrite Pos.iter_succ. cbn [ffs_pos]. rewrite IH. lia.
Qed.

(** The size field of a request is exact for every power-of-two size: decoding
    the encoded size gives it back. *)
Theorem io_sched_nbytes_roundtrip k :
  0 <= k < 64 -> io_sched_decode_nbytes (io_sched_encode_nbytes (2 ^ k)) = 2 ^ k.
Proof.
  intros Hk. assert (Hp : 0 < 2 ^ k < 2 ^ 64) by (split; [apply Z.pow_pos_nonneg|apply Z.pow_lt_mono_r]; lia).
  unfold io_sched_decode_nbytes, io_sched_encode_nbytes, ffsll.
  rewrite (u64_id (2 ^ k)) by (unfold is_word; lia).
  assert (E : match 2 ^ k with Zpos p => ffs_pos p | _ => 0 end = k + 1).
  { destruct k as [|p|]; [done| |lia]. cbn. rewrite <- (ffs_pow2 p).
    replace (2 ^ Z.pos p) with (Zpos (Pos.iter xO xH p)); [reflexivity|].
    change (2 ^ Z.pos p) with (Z.pow_pos 2 p). unfold Z.pow_pos. clear. induction p as [|p IH] using Pos.peano_ind; [reflexivity|].
    rewrite !Pos.iter_succ, <- IH. reflexivity. }
  rewrite E, Z.add_simpl_r, u8_id by (unfold is_word; lia).
  rewrite Z.shiftl_mul_pow2, Z.mul_1_l, u64_id by (unfold is_word; lia). done.
Qed.

(** ** Witnesses *)

Definition example_schedule : list ring_act :=
  enqueue_acts 0 KSync ++ enqueue_acts 1 KSync ++
  (RSched <$> [ALoadTail; AScan; AScan; ARead; ARead; ASubmit [1; 0]%nat; ANotify; ANotify]) ++
  [RProd 1].

Definition example_run : io_queue_t :=
  default example_empty (ring_exec 2 example_schedule example_empty).

Lemma example_run_reachable : rtc (ring_step 2) example_empty example_run.
Proof. apply (ring_exec_rtc 2 example_schedule). vm_compute. reflexivity. Qed.

Lemma ring_takes_in_order_witness :
  ring_init example_empty /\ rtc (ring_step 2) example_empty example_run /\
  (g_taken example_run `prefix_of` (pr_req <$> producers example_run) /\
   batch example_run = drop (g_cons example_run) (g_taken example_run) /\
   cons_head example_run = u32 (Z.of_nat (g_cons example_run)) /\
   Z.of_nat (length (batch example_run)) <= capacity 2).
Proof.
  split; [exact ring_empty_init|]. split; [exact example_run_reachable|].
  apply (ring_takes_in_order 2 ltac:(lia) example_empty example_run).
  - exact ring_empty_init.
  - exact example_run_reachable.
Defined.

Lemma ring_notifies_once_witness :
  NoDup (g_notified example_run) /\
  (forall t, t ∈ g_notified example_run -> (t < length (g_taken example_run))%nat) /\
  (forall t, (t < g_cons example_run)%nat -> t ∈ g_notified example_run).
Proof.
  apply (ring_notifies_once 2 ltac:(lia) example_empty example_run).
  - exact ring_empty_init.
  - exact example_run_reachable.
Defined.

Lemma io_sched_sync_waits_witness : 1%nat ∈ g_notified example_run.
Proof.
  apply (io_sched_sync_waits 2 ltac:(lia) example_empty example_run 1
           (MkProd 1 (MkReq 4096 1 NVM_IO_WRITE 12) KSync PReturned)).
  - exact ring_empty_init.
  - exact example_run_reachable.
  - vm_compute. reflexivity.
  - vm_compute. reflexivity.
  - reflexivity.
  - reflexivity.
Defined.

Lemma ring_progress_witness :
  (exists acts s', ring_exec 2 (RSched <$> acts) example_run = Some s' /\
     (g_cons example_run < g_cons s')%nat) \/
  (exists s', producer_step 2 example_run (g_cons example_run) = Some s' /\
     pcof s' (g_cons example_run) <> pcof example_run (g_cons example_run)).
Proof.
  apply (ring_progress 2 ltac:(lia) example_empty example_run).
  - exact ring_empty_init.
  - exact example_run_reachable.
  - reflexivity.
  - apply Nat.ltb_lt. vm_compute. reflexivity.
Defined.

(** A served request, a shutdown, and the scheduler's return. *)
Definition example_exit_schedule : list ring_act :=
  RShutdown :: (RSched <$> [AShutdown; ALoadTail; AScan; ALoadTail; AScan; ARead; ASubmit [0%nat]; ANotify; AAdvance; AShutdown; ALoadTail; AScan]).

Definition example_published : io_queue_t := default example_empty (ring_exec 2 (enqueue_acts 0 KSync) example_empty).
Definition example_exit : io_queue_t := default example_empty (ring_exec 2 example_exit_schedule example_published).

Lemma shutdown_drains_witness : sched example_exit = SExited /\ (1 <= g_cons example_exit)%nat /\ 0%nat ∈ g_notified example_exit.
Proof.
  split; [vm_compute; reflexivity|].
  destruct (shutdown_drains 2 ltac:(lia) example_empty example_published example_exit 1) as [H1 H2].
  - exact ring_empty_init.
  - apply (ring_exec_rtc 2 (enqueue_acts 0 KSync)). vm_compute. reflexivity.
  - reflexivity.
  - intros t Ht. replace t with 0%nat by lia. exists PWaitSeq. split; vm_compute; reflexivity.
  - apply (ring_exec_rtc 2 example_exit_schedule). vm_compute. reflexivity.
  - vm_compute. reflexivity.
  - split; [exact H1|]. apply H2. lia.
Defined.

Lemma io_sched_scan_ready_spec_witness :
  let seq := fun i => if i <? 2 then i + 1 else 0 in
  let r := io_sched_scan_ready 2 seq 3 0 4 in
  r = 2 /\ 0 <= r <= Z.min (u32 (3 - 0)) 4 /\
  (forall j, 0 <= j < r -> slot_ready 2 seq 0 j = true) /\
  (r < Z.min (u32 (3 - 0)) 4 -> slot_ready 2 seq 0 r = false).
Proof.
  split; [reflexivity|].
  apply (io_sched_scan_ready_spec 2 (fun i => if i <? 2 then i + 1 else 0) 3 0 4). lia.
Defined.

Lemma io_sched_sort_key_spec_witness :
  io_sched_key_byte_offset (io_sched_make_sort_key 8192 3) = 8192 /\
  io_sched_key_batch_index (io_sched_make_sort_key 8192 3) = 3 /\
  (io_sched_make_sort_key 8192 3 < io_sched_make_sort_key 8192 5 <->
     8192 < 8192 \/ 8192 = 8192 /\ 3 < 5).
Proof. apply (io_sched_sort_key_spec 8192 3 8192 5); lia. Defined.

Lemma io_sched_nbytes_roundtrip_witness :
  io_sched_decode_nbytes (io_sched_encode_nbytes (2 ^ 21)) = 2 ^ 21.
Proof. apply (io_sched_nbytes_roundtrip 21). lia. Defined.

(** Slot number 2^32 + 1 of a ring of four, the slot before it served. *)
Definition example_wrapped : io_queue_t :=
  MkIoq 2 1 (fun _ => MkReq 0 0 0 0) (fun i => if i =? 1 then 2 else 0)
    (fun i => if i =? 1 then 2 ^ 32 - 2 else 0) (fun _ => 0) 0
    [MkProd 1 (MkReq 0 0 NVM_IO_READ 12) KSync PWaitSeq] (SDrain 1 0) [] 0 [] [].

Lemma io_sched_sync_wrap_witness :
  producer_step 2 example_wrapped 0 = Some (set_prod example_wrapped 0 PReturned).
Proof.
  apply (io_sched_sync_wrap 2 ltac:(lia) example_wrapped 0
           (MkProd 1 (MkReq 0 0 NVM_IO_READ 12) KSync PWaitSeq) (2 ^ 32 + 1)).
  - reflexivity.
  - reflexivity.
  - reflexivity.
  - vm_compute. split; [discriminate|reflexivity].
  - reflexivity.
Defined.
End Ring.
