(* ===== verification/PageCache.v ===== *)
(** The software page cache of [src/include/page_cache.h]: state words, backing
    addresses, [range_d_t::acquire_page] and [release_page],
    [page_cache_d_t::find_slot] and [__flush].

    A call of [acquire_page] with the matching [release_page] is a process; each
    atomic access of the source is one step, so the model has every interleaving
    of any number of calls.  Page contents are an abstract type.  [write_data],
    [read_data_no_second], [io_sched_read] and [io_sched_write] are blocking
    commands on a page their caller owns: they appear as their effect on the
    media.  The eviction has the branches of [IO_SCHED_EVICT], which the build
    defines: the scheduler queues, and the victim buffer with pointer swap
    ([IO_SCHED_VICTIM_BUFFER] and [IO_SCHED_VICTIM_SWAP], both 1 by default). *)
From Stdlib Require Import ZArith Lia List Bool.
From stdpp Require Import base list numbers relations functions.
From S2P Require Import Prelude.

Import ListNotations.
Local Open Scope Z_scope.

Module Pc.

(** ** State words *)

Definition ALL_CTRLS : Z := 0xffffffffffffffff.
Definition INVALID : Z := 0x00000000.
Definition VALID : Z := 0x80000000.
Definition BUSY : Z := 0x40000000.
Definition DIRTY : Z := 0x20000000.
Definition CNT_SHIFT : Z := 29.
Definition CNT_MASK : Z := 0x1fffffff.
Definition DISABLE_BUSY_ENABLE_VALID : Z := 0xc0000000.
Definition DISABLE_BUSY_MASK : Z := 0xbfffffff.
Definition NV_NB : Z := 0.
Definition NV_B : Z := 1.
Definition V_NB : Z := 2.
Definition V_B : Z := 3.

(** [page_take_lock] values. *)
Definition UNLOCKED : Z := 0.
Definition LOCKED : Z := 1.
Definition FREE : Z := 2.

(** [VICTIM_*] states of an entry of the victim buffer. *)
Definition VICTIM_FREE : Z := 0.
Definition VICTIM_COPYING : Z := 1.
Definition VICTIM_OCCUPIED : Z := 2.

(** The two state bits tested by [acquire_page]. *)
Definition state_bits (w : Z) : Z := Z.land (Z.shiftr w (CNT_SHIFT + 1)) 0x03.

(** ** Configuration *)

Inductive data_dist_t := REPLICATE | STRIPE.

#[export] Instance data_dist_eq_dec : EqDecision data_dist_t.
Proof. solve_decision. Defined.

(** The fields of [page_cache_d_t] that do not change while kernels run. *)
Record page_cache_d_t := MkPc {
  n_pages : Z;
  n_ranges_bits : Z;
  n_ranges_mask : Z;
  ranges_page_starts : Z -> Z;
  ranges_dists : Z -> data_dist_t;
  n_ctrls : Z;
  n_blocks_per_page : Z;
  read_ctrl_override : Z;
  evict_ctrl_override : Z;
  fake_evict_delay_cycles : Z;
  staging_buffer : bool;           (** whether a staging buffer is set *)
  page_size : Z;
  block_size_log : Z;              (** of the queue pairs of controller 0 *)
  read_queue : bool;               (** whether misses read through the scheduler *)
  evict_queue : bool;              (** whether evictions write through the scheduler *)
  victim : option Z                (** [n_entries_mask] of the victim buffer, if one is set *)
}.

(** A page of a range: range number and page index. *)
Abbreviation key := (Z * Z)%type.

Definition get_backing_page_ (page_start page_offset nctrls : Z) (dist : data_dist_t) : Z :=
  match dist with
  | STRIPE => u64 (page_start + page_offset / nctrls)
  | REPLICATE => u64 (page_start + page_offset)
  end.

Definition get_backing_ctrl_ (page_offset nctrls : Z) (dist : data_dist_t) : Z :=
  match dist with
  | STRIPE => page_offset mod nctrls
  | REPLICATE => ALL_CTRLS
  end.

Definition get_global_address (cfg : page_cache_d_t) (k : key) : Z :=
  Z.lor (u64 (Z.shiftl (snd k) (n_ranges_bits cfg))) (fst k).

(** [previous_range] and [previous_address] of a translation. *)
Definition previous_key (cfg : page_cache_d_t) (ga : Z) : key :=
  (Z.land ga (n_ranges_mask cfg), Z.shiftr ga (n_ranges_bits cfg)).

Definition backing_index (cfg : page_cache_d_t) (k : key) : Z :=
  get_backing_page_ (ranges_page_starts cfg (fst k)) (snd k) (n_ctrls cfg) (ranges_dists cfg (fst k)).

Definition backing_lba (cfg : page_cache_d_t) (k : key) : Z :=
  u64 (backing_index cfg k * n_blocks_per_page cfg).

(** What the scheduler queues get, and the block of controller 0 the scheduler uses for it. *)
Definition byte_offset (cfg : page_cache_d_t) (k : key) : Z :=
  u64 (backing_index cfg k * page_size cfg).
Definition sched_lba (cfg : page_cache_d_t) (k : key) : Z :=
  Z.shiftr (byte_offset cfg k) (block_size_log cfg).

(** ** Element addressing of a range *)

Record range_geom := MkGeom {
  index_start : Z; elem_size : Z; page_start_offset : Z; page_size_log : Z
}.

Definition byte_index (g : range_geom) (i : Z) : Z :=
  u64 (u64 (u64 (i - index_start g) * elem_size g) + page_start_offset g).
Definition get_page (g : range_geom) (i : Z) : Z := Z.shiftr (byte_index g i) (page_size_log g).
Definition get_subindex (g : range_geom) (i : Z) : Z :=
  Z.land (byte_index g i) (2 ^ page_size_log g - 1).

(** ** Processes *)

Inductive pc_pc :=
  | AAdd                              (** [state.fetch_add(count)] *)
  | AOrBusy                           (** invalid: [fetch_or(BUSY)] *)
  | AUndo                             (** somebody loaded it: clear [BUSY] *)
  | ALoad                             (** retry: load the state *)
  | FTicket                           (** [find_slot]: draw a ticket *)
  | FLoad (page : Z)                  (** load [page_take_lock] *)
  | FCas (page v : Z)                 (** [compare_exchange_weak(v, LOCKED)] *)
  | FSetFree (page : Z)               (** free slot: set the translation *)
  | FEvLoad (page : Z)                (** load the state of the previous page *)
  | FEvOr (page : Z) (prev : key)     (** [fetch_or(BUSY)] on it *)
  | FEvUndo (page : Z) (prev : key)   (** referenced meanwhile: clear [BUSY] *)
  | FEvWrite (page : Z) (prev : key)  (** write it back *)
  | FEvTicket (page : Z) (prev : key) (** victim buffer: draw an entry *)
  | FEvClaim (page : Z) (prev : key) (v : Z)  (** [compare_exchange_strong] on its state *)
  | FEvSwap (page : Z) (prev : key) (v : Z)   (** exchange the buffers *)
  | FEvStore (page : Z) (prev : key) (v : Z)  (** [states[v].store(VICTIM_OCCUPIED)] *)
  | FEvForget (page : Z) (prev : key) (v : Z) (** [io_sched_enqueue_forget] *)
  | FEvFull (page : Z) (prev : key)   (** entry in use: write back at once *)
  | FEvAnd (page : Z) (prev : key)    (** [fetch_and(CNT_MASK)] *)
  | FEvSet (page : Z)                 (** set the translation *)
  | FUnlock (page : Z) (ok : bool)    (** [page_take_lock.store(UNLOCKED)] *)
  | AFill (page : Z)                  (** read the page from the media *)
  | ASetOffset (page : Z)             (** [pages[index].offset = page_trans] *)
  | AOrDirty (page : Z)               (** [fetch_or(DIRTY)] *)
  | AXor (page : Z)                   (** [fetch_xor(DISABLE_BUSY_ENABLE_VALID)] *)
  | AHitDirty                         (** hit: [fetch_or(DIRTY)] *)
  | AHitOffset                        (** hit: read the offset *)
  | AHeld (page : Z)                  (** [acquire_page] returned [page] *)
  | ADone.                            (** released *)

#[export] Instance pc_pc_eq_dec : EqDecision pc_pc.
Proof. solve_decision. Defined.

Record proc := MkProc { p_key : key; p_count : Z; p_write : bool; p_pc : pc_pc }.

Section state.
  Context {D : Type}.

(** [victim_buffer_t], with the requests handed to the scheduler for its entries. *)
Record victim_buffer_t := MkVb {
  alloc_ticket : Z;
  v_states : Z -> Z;
  v_offsets : Z -> Z;
  v_data : Z -> D;
  v_forgotten : list (Z * Z)       (** byte offset and entry *)
}.

Record cache_state := MkCs {
  words : key -> Z;                (** [pages[index].state] *)
  offsets : key -> Z;              (** [pages[index].offset] *)
  locks : Z -> Z;                  (** [cache_pages[page].page_take_lock] *)
  trans : Z -> Z;                  (** [cache_pages[page].page_translation] *)
  page_ticket : Z;
  ctrl_counter : Z;
  frames : Z -> D;                 (** contents of the cache pages *)
  staging : Z -> D;                (** contents of the staging buffer *)
  disk : Z -> Z -> D;              (** controller and first block to contents *)
  victims : victim_buffer_t;
  procs : list proc;
  g_mem : key -> D                 (** ghost: last contents written by a client *)
}.

Definition set_words (s : cache_state) v := MkCs v (offsets s) (locks s) (trans s) (page_ticket s)
  (ctrl_counter s) (frames s) (staging s) (disk s) (victims s) (procs s) (g_mem s).
Definition set_offsets (s : cache_state) v := MkCs (words s) v (locks s) (trans s) (page_ticket s)
  (ctrl_counter s) (frames s) (staging s) (disk s) (victims s) (procs s) (g_mem s).
Definition set_locks (s : cache_state) v := MkCs (words s) (offsets s) v (trans s) (page_ticket s)
  (ctrl_counter s) (frames s) (staging s) (disk s) (victims s) (procs s) (g_mem s).
Definition set_trans (s : cache_state) v := MkCs (words s) (offsets s) (locks s) v (page_ticket s)
  (ctrl_counter s) (frames s) (staging s) (disk s) (victims s) (procs s) (g_mem s).
Definition set_ticket (s : cache_state) v := MkCs (words s) (offsets s) (locks s) (trans s) v
  (ctrl_counter s) (frames s) (staging s) (disk s) (victims s) (procs s) (g_mem s).
Definition set_procs (s : cache_state) v := MkCs (words s) (offsets s) (locks s) (trans s)
  (page_ticket s) (ctrl_counter s) (frames s) (staging s) (disk s) (victims s) v (g_mem s).
Definition set_media (s : cache_state) st dk := MkCs (words s) (offsets s) (locks s) (trans s)
  (page_ticket s) (ctrl_counter s) (frames s) st dk (victims s) (procs s) (g_mem s).
Definition set_data (s : cache_state) cc fr m := MkCs (words s) (offsets s) (locks s) (trans s)
  (page_ticket s) cc fr (staging s) (disk s) (victims s) (procs s) m.
Definition set_victims (s : cache_state) v fr := MkCs (words s) (offsets s) (locks s) (trans s)
  (page_ticket s) (ctrl_counter s) fr (staging s) (disk s) v (procs s) (g_mem s).

Definition goto (s : cache_state) (t : nat) (c : pc_pc) : cache_state :=
  set_procs s (alter (fun p => MkProc (p_key p) (p_count p) (p_write p) c) t (procs s)).

(** An atomic update of the state word of a page. *)
Definition upd_word (s : cache_state) (k : key) (f : Z -> Z) : cache_state :=
  set_words s (<[k := f (words s k)]> (words s)).

Context (cfg : page_cache_d_t).

(** ** Write-back *)

(** [write_data] of a cache page, by its effect. *)
Definition write_data (s : cache_state) (page ctrl lba : Z) : cache_state :=
  set_media s (staging s) (<[ctrl := <[lba := frames s page]> (disk s ctrl)]> (disk s)).

(** What an eviction does per controller: copy to the staging buffer, wait, or write. *)
Definition evict_write (s : cache_state) (page ctrl lba : Z) : cache_state :=
  if staging_buffer cfg then set_media s (<[page := frames s page]> (staging s)) (disk s)
  else if 0 <? fake_evict_delay_cycles cfg then s
  else write_data s page ctrl lba.

(** [for (ctrl = 0; ctrl < n_ctrls; ctrl++)], [n] iterations from [ctrl]. *)
Fixpoint write_all (wr : cache_state -> Z -> Z -> Z -> cache_state) (n : nat) (s : cache_state)
    (page ctrl lba : Z) : cache_state :=
  match n with
  | O => s
  | S n => write_all wr n (wr s page ctrl lba) page (ctrl + 1) lba
  end.

Definition write_back (wr : cache_state -> Z -> Z -> Z -> cache_state) (s : cache_state)
    (page : Z) (prev : key) : cache_state :=
  let ctrl := get_backing_ctrl_ (snd prev) (n_ctrls cfg) (ranges_dists cfg (fst prev)) in
  let ctrl := if evict_ctrl_override cfg =? ALL_CTRLS then ctrl
              else evict_ctrl_override cfg mod n_ctrls cfg in
  if ctrl =? ALL_CTRLS then write_all wr (Z.to_nat (n_ctrls cfg)) s page 0 (backing_lba cfg prev)
  else wr s page ctrl (backing_lba cfg prev).

(** The write-back of an eviction without a victim buffer: a blocking write through the
    scheduler, which uses controller 0, or the commands of this thread. *)
Definition evict (s : cache_state) (page : Z) (prev : key) : cache_state :=
  if evict_queue cfg then write_data s page 0 (sched_lba cfg prev)
  else write_back evict_write s page prev.

(** ** The victim buffer *)

(** The write-back when the entry drawn is not free: through the scheduler, or with
    one command at block [index], on one controller. *)
Definition evict_full (s : cache_state) (page : Z) (prev : key) : cache_state :=
  if evict_queue cfg then write_data s page 0 (sched_lba cfg prev)
  else
    let ctrl := get_backing_ctrl_ (snd prev) (n_ctrls cfg) (ranges_dists cfg (fst prev)) in
    let ctrl := if evict_ctrl_override cfg =? ALL_CTRLS then ctrl
                else evict_ctrl_override cfg mod n_ctrls cfg in
    write_data s page (if ctrl =? ALL_CTRLS then 0 else ctrl) (backing_index cfg prev).

(** The accesses of an eviction through the victim buffer: one attempt to claim an entry,
    the exchange of its buffer with that of the cache page, and the request to the
    scheduler where there is one. *)
Definition victim_step (s : cache_state) (t : nat) (p : proc) : option cache_state :=
  let vb := victims s in
  match p_pc p with
  | FEvTicket page prev =>
      let v := Z.land (alloc_ticket vb) (default 0 (victim cfg)) in
      Some (goto (set_victims s (MkVb (u32 (alloc_ticket vb + 1)) (v_states vb) (v_offsets vb)
                                   (v_data vb) (v_forgotten vb)) (frames s)) t (FEvClaim page prev v))
  | FEvClaim page prev v =>
      Some (if v_states vb v =? VICTIM_FREE then
              goto (set_victims s (MkVb (alloc_ticket vb) (<[v := VICTIM_COPYING]> (v_states vb))
                                     (v_offsets vb) (v_data vb) (v_forgotten vb)) (frames s)) t
                (FEvSwap page prev v)
            else goto s t (FEvFull page prev))
  | FEvSwap page prev v =>
      Some (goto (set_victims s (MkVb (alloc_ticket vb) (v_states vb)
                                   (<[v := byte_offset cfg prev]> (v_offsets vb))
                                   (<[v := frames s page]> (v_data vb)) (v_forgotten vb))
                    (<[page := v_data vb v]> (frames s))) t (FEvStore page prev v))
  | FEvStore page prev v =>
      Some (goto (set_victims s (MkVb (alloc_ticket vb) (<[v := VICTIM_OCCUPIED]> (v_states vb))
                                   (v_offsets vb) (v_data vb) (v_forgotten vb)) (frames s)) t
              (if evict_queue cfg then FEvForget page prev v else FEvAnd page prev))
  | FEvForget page prev v =>
      Some (goto (set_victims s (MkVb (alloc_ticket vb) (v_states vb) (v_offsets vb) (v_data vb)
                                   (v_forgotten vb ++ [(byte_offset cfg prev, v)])) (frames s)) t
              (FEvAnd page prev))
  | FEvFull page prev => Some (goto (evict_full s page prev) t (FEvAnd page prev))
  | _ => None
  end.

(** ** Filling *)

(** The controller a miss reads from, and the counter after it. *)
Definition read_ctrl (s : cache_state) (k : key) : Z * Z :=
  let ctrl := get_backing_ctrl_ (snd k) (n_ctrls cfg) (ranges_dists cfg (fst k)) in
  if negb (read_ctrl_override cfg =? ALL_CTRLS)
  then (read_ctrl_override cfg mod n_ctrls cfg, ctrl_counter s)
  else if ctrl =? ALL_CTRLS then (ctrl_counter s mod n_ctrls cfg, u64 (ctrl_counter s + 1))
  else (ctrl, ctrl_counter s).

(** The read of a miss: through the scheduler, which uses controller 0, or with a command
    of this thread. *)
Definition fill (s : cache_state) (page : Z) (k : key) : cache_state :=
  let '(ctrl, counter) := read_ctrl s k in
  let d := if read_queue cfg then disk s 0 (sched_lba cfg k) else disk s ctrl (backing_lba cfg k) in
  set_data s counter (<[page := d]> (frames s)) (g_mem s).

(** ** Steps *)

(** Where the loop of [acquire_page] goes with the state it read. *)
Definition dispatch (write : bool) (read_state : Z) : pc_pc :=
  if state_bits read_state =? NV_NB then AOrBusy
  else if state_bits read_state =? V_NB then
    if write && (Z.land read_state DIRTY =? 0) then AHitDirty else AHitOffset
  else ALoad.

Inductive pc_act :=
  | AGo                (** the next access *)
  | ASpurious          (** [compare_exchange_weak] fails spuriously *)
  | AWrite (d : D)     (** the client writes the page it holds for writing *)
  | ARelease.          (** [release_page] *)

(** The end of a round of [find_slot]: take the page from its previous owner or give it up,
    set the translation, unlock, and leave the loop or start over. *)
Definition find_slot_end (s : cache_state) (t : nat) (p : proc) : option cache_state :=
  match p_pc p with
  | FEvAnd page prev =>
      Some (goto (upd_word s prev (fun w => Z.land w CNT_MASK)) t (FEvSet page))
  | FEvUndo page prev =>
      Some (goto (upd_word s prev (fun w => Z.land w DISABLE_BUSY_MASK)) t (FUnlock page false))
  | FEvSet page =>
      Some (goto (set_trans s (<[page := get_global_address cfg (p_key p)]> (trans s))) t
              (FUnlock page true))
  | FUnlock page ok =>
      Some (goto (set_locks s (<[page := UNLOCKED]> (locks s))) t
              (if ok then AFill page else FTicket))
  | _ => None
  end.

(** One access of [find_slot], for the page of call [t]. *)
Definition find_slot_step (s : cache_state) (t : nat) (p : proc) : option cache_state :=
  match p_pc p with
  | FTicket =>
      Some (goto (set_ticket s (u32 (page_ticket s + 1))) t (FLoad (page_ticket s mod n_pages cfg)))
  | FLoad page =>
      let v := locks s page in
      Some (goto s t (if v =? FREE then FCas page FREE
                      else if v =? UNLOCKED then FCas page UNLOCKED else FTicket))
  | FCas page v =>
      Some (if locks s page =? v then
              goto (set_locks s (<[page := LOCKED]> (locks s))) t
                (if v =? FREE then FSetFree page else FEvLoad page)
            else goto s t FTicket)
  | FSetFree page =>
      Some (goto (set_trans s (<[page := get_global_address cfg (p_key p)]> (trans s))) t
              (FUnlock page true))
  | FEvLoad page =>
      let prev := previous_key cfg (trans s page) in
      let e := words s prev in
      Some (goto s t (if (Z.land e CNT_MASK =? 0) && (Z.land e BUSY =? 0)
                      then FEvOr page prev else FUnlock page false))
  | FEvOr page prev =>
      let e := words s prev in
      Some (goto (upd_word s prev (fun w => Z.lor w BUSY)) t
              (if Z.land e BUSY =? 0 then
                 if Z.land e CNT_MASK =? 0 then
                   if Z.land e DIRTY =? 0 then FEvAnd page prev
                   else match victim cfg with
                        | Some _ => FEvTicket page prev
                        | None => FEvWrite page prev
                        end
                 else FEvUndo page prev
               else FUnlock page false))
  | FEvWrite page prev => Some (goto (evict s page prev) t (FEvAnd page prev))
  | FEvTicket _ _ | FEvClaim _ _ _ | FEvSwap _ _ _ | FEvStore _ _ _ | FEvForget _ _ _
  | FEvFull _ _ => victim_step s t p
  | _ => find_slot_end s t p
  end.

(** The end of a miss: read the page from the media and publish it. *)
Definition acquire_load (s : cache_state) (t : nat) (p : proc) : option cache_state :=
  let k := p_key p in
  match p_pc p with
  | AFill page => Some (goto (fill s page k) t (ASetOffset page))
  | ASetOffset page =>
      Some (goto (set_offsets s (<[k := page]> (offsets s))) t
              (if p_write p then AOrDirty page else AXor page))
  | AOrDirty page => Some (goto (upd_word s k (fun w => Z.lor w DIRTY)) t (AXor page))
  | AXor page =>
      Some (goto (upd_word s k (fun w => Z.lxor w DISABLE_BUSY_ENABLE_VALID)) t (AHeld page))
  | _ => None
  end.

(** A hit: mark the page dirty if this call writes, and read its offset. *)
Definition acquire_hit (s : cache_state) (t : nat) (p : proc) : option cache_state :=
  let k := p_key p in
  match p_pc p with
  | AHitDirty => Some (goto (upd_word s k (fun w => Z.lor w DIRTY)) t AHitOffset)
  | AHitOffset => Some (goto s t (AHeld (offsets s k)))
  | _ => None
  end.

(** One access of a call of [acquire_page]. *)
Definition acquire_step (s : cache_state) (t : nat) (p : proc) : option cache_state :=
  let k := p_key p in
  let w := words s k in
  match p_pc p with
  | AAdd => Some (goto (upd_word s k (fun w => u32 (w + p_count p))) t (dispatch (p_write p) w))
  | AOrBusy =>
      Some (goto (upd_word s k (fun w => Z.lor w BUSY)) t
              (if Z.land w BUSY =? 0 then if state_bits w =? NV_NB then FTicket else AUndo
               else ALoad))
  | AUndo => Some (goto (upd_word s k (fun w => Z.land w DISABLE_BUSY_MASK)) t ALoad)
  | ALoad => Some (goto s t (dispatch (p_write p) w))
  | AFill _ | ASetOffset _ | AOrDirty _ | AXor _ => acquire_load s t p
  | AHitDirty | AHitOffset => acquire_hit s t p
  | AHeld _ | ADone => None
  | _ => find_slot_step s t p
  end.

Definition release_page (s : cache_state) (k : key) (count : Z) : cache_state :=
  upd_word s k (fun w => u32 (w - count)).

Definition proc_step (s : cache_state) (t : nat) (a : pc_act) : option cache_state :=
  match procs s !! t with
  | None => None
  | Some p =>
      match a, p_pc p with
      | AGo, _ => acquire_step s t p
      | ASpurious, FCas _ _ => Some (goto s t FTicket)
      | AWrite d, AHeld page =>
          if p_write p
          then Some (set_data s (ctrl_counter s) (<[page := d]> (frames s)) (<[p_key p := d]> (g_mem s)))
          else None
      | ARelease, AHeld _ => Some (goto (release_page s (p_key p) (p_count p)) t ADone)
      | _, _ => None
      end
  end.

(** ** Flush *)

(** [__flush] for one cache page. *)
Definition flush_page (s : cache_state) (page : Z) : cache_state :=
  let prev := previous_key cfg (trans s page) in
  if Z.land (words s prev) DIRTY =? 0 then s
  else upd_word (write_back write_data s page prev) prev (fun w => Z.land w (u32 (Z.lnot DIRTY))).

(** The grid of [flush_cache]: every cache page, [n] from [page]. *)
Fixpoint flush_loop (n : nat) (s : cache_state) (page : Z) : cache_state :=
  match n with
  | O => s
  | S n => flush_loop n (flush_page s page) (page + 1)
  end.

Definition flush_cache (s : cache_state) : cache_state := flush_loop (Z.to_nat (n_pages cfg)) s 0.
End state.

(** ** Words by fields *)

Definition pack (v b d : bool) (c : Z) : Z :=
  (4 * Z.b2z v + 2 * Z.b2z b + Z.b2z d) * 2 ^ 29 + c.

Definition is_valid (w : Z) : bool := Z.testbit w 31.
Definition is_busy (w : Z) : bool := Z.testbit w 30.
Definition is_dirty (w : Z) : bool := Z.testbit w 29.

#[global] Arguments pack : simpl never.
#[global] Arguments is_valid : simpl never.
#[global] Arguments is_busy : simpl never.
#[global] Arguments is_dirty : simpl never.

Definition cnt_ok (c : Z) : Prop := 0 <= c < 2 ^ 29.

Lemma testbit_split hi c n :
  0 <= hi -> cnt_ok c -> 0 <= n ->
  Z.testbit (hi * 2 ^ 29 + c) n = if n <? 29 then Z.testbit c n else Z.testbit hi (n - 29).
Proof.
  intros Hh Hc Hn. rewrite <- lor_shiftl_add by (unfold cnt_ok in Hc; lia).
  rewrite Z.lor_spec, Z.shiftl_spec by lia. destruct (Z.ltb_spec n 29).
  - rewrite (Z.testbit_neg_r hi) by lia. done.
  - unfold cnt_ok in Hc. rewrite (proj1 (Z.bounded_iff_bits_nonneg 29 c ltac:(lia) ltac:(lia))) by lia.
    by rewrite orb_false_r.
Qed.

(** Bit operations with a constant whose low 29 bits are all clear or all set. *)
Lemma word_op (op : Z -> Z -> Z) (opb : bool -> bool -> bool) hi c m low :
  (forall a b n, 0 <= n -> Z.testbit (op a b) n = opb (Z.testbit a n) (Z.testbit b n)) ->
  0 <= hi -> 0 <= m -> cnt_ok c -> cnt_ok low -> cnt_ok (op c low) -> 0 <= op hi m ->
  op (hi * 2 ^ 29 + c) (m * 2 ^ 29 + low) = op hi m * 2 ^ 29 + op c low.
Proof.
  intros Hop Hh Hm Hc Hl Ho Hhm. apply Z.bits_inj'. intros n Hn.
  rewrite Hop, !testbit_split by (done || lia). destruct (Z.ltb_spec n 29); rewrite Hop by lia; done.
Qed.

Lemma land_cnt c : cnt_ok c -> Z.land c (2 ^ 29 - 1) = c.
Proof. intros Hc. rewrite land_ones_mod by lia. by apply Z.mod_small. Qed.

Ltac word_side :=
  lazymatch goal with
  | |- forall _, _ => intros; first [apply Z.lor_spec | apply Z.land_spec | apply Z.lxor_spec]
  | |- _ =>
      rewrite ?Z.lor_0_r, ?Z.land_0_r, ?Z.lxor_0_r, ?land_cnt by assumption;
      unfold cnt_ok in *; repeat match goal with |- context [Z.b2z ?b] => is_var b; destruct b end;
      first [cbn; lia | vm_compute; discriminate]
  end.

(** [op] applied to a packed word and a constant split as [m] and [low]. *)
Ltac word_op_tac op opb m low :=
  unfold pack;
  match goal with |- _ (_ + _) ?k = _ => change k with (m * 2 ^ 29 + low) end;
  rewrite (word_op op opb) by word_side;
  rewrite ?Z.lor_0_r, ?Z.land_0_r, ?Z.lxor_0_r, ?land_cnt by done;
  repeat match goal with |- context [Z.b2z ?b] => is_var b; destruct b end; reflexivity.

Section words.
  Context (v b d : bool) (c : Z) (Hc : cnt_ok c).

Lemma pack_valid : is_valid (pack v b d c) = v.
Proof. unfold is_valid, pack. rewrite testbit_split by word_side || done. by destruct v, b, d. Qed.
Lemma pack_busy : is_busy (pack v b d c) = b.
Proof. unfold is_busy, pack. rewrite testbit_split by word_side || done. by destruct v, b, d. Qed.
Lemma pack_dirty : is_dirty (pack v b d c) = d.
Proof. unfold is_dirty, pack. rewrite testbit_split by word_side || done. by destruct v, b, d. Qed.

Lemma pack_or_busy : Z.lor (pack v b d c) BUSY = pack v true d c.
Proof. word_op_tac Z.lor orb 2 0. Qed.
Lemma pack_or_dirty : Z.lor (pack v b d c) DIRTY = pack v b true c.
Proof. word_op_tac Z.lor orb 1 0. Qed.
Lemma pack_xor : Z.lxor (pack v b d c) DISABLE_BUSY_ENABLE_VALID = pack (negb v) (negb b) d c.
Proof. word_op_tac Z.lxor xorb 6 0. Qed.
Lemma pack_and_cnt : Z.land (pack v b d c) CNT_MASK = pack false false false c.
Proof. word_op_tac Z.land andb 0 (2 ^ 29 - 1). Qed.
Lemma pack_and_nobusy : Z.land (pack v b d c) DISABLE_BUSY_MASK = pack v false d c.
Proof. word_op_tac Z.land andb 5 (2 ^ 29 - 1). Qed.
Lemma pack_and_clean : Z.land (pack v b d c) (u32 (Z.lnot DIRTY)) = pack v b false c.
Proof. word_op_tac Z.land andb 6 (2 ^ 29 - 1). Qed.
Lemma pack_test_busy : (Z.land (pack v b d c) BUSY =? 0) = negb b.
Proof.
  replace (Z.land (pack v b d c) BUSY) with (pack false b false 0); [by destruct b|].
  symmetry. word_op_tac Z.land andb 2 0.
Qed.
Lemma pack_test_dirty : (Z.land (pack v b d c) DIRTY =? 0) = negb d.
Proof.
  replace (Z.land (pack v b d c) DIRTY) with (pack false false d 0); [by destruct d|].
  symmetry. word_op_tac Z.land andb 1 0.
Qed.
Lemma pack_test_cnt : (Z.land (pack v b d c) CNT_MASK =? 0) = (c =? 0).
Proof. by rewrite pack_and_cnt. Qed.
Lemma pack_bits : state_bits (pack v b d c) = 2 * Z.b2z v + Z.b2z b.
Proof.
  unfold state_bits, pack, CNT_SHIFT. change 3 with (2 ^ 2 - 1).
  rewrite land_ones_mod, Z.shiftr_div_pow2 by lia. unfold cnt_ok in Hc.
  replace (_ / 2 ^ (29 + 1)) with (2 * Z.b2z v + Z.b2z b); [by destruct v, b|].
  apply (Z.div_unique_pos _ _ _ (Z.b2z d * 2 ^ 29 + c)); destruct v, b, d; cbn; lia.
Qed.
Lemma pack_dispatch write :
  dispatch write (pack v b d c) =
    if b then ALoad else if v then if write && negb d then AHitDirty else AHitOffset else AOrBusy.
Proof. unfold dispatch. rewrite pack_bits, pack_test_dirty. by destruct v, b. Qed.
Lemma pack_invalid : (state_bits (pack v b d c) =? NV_NB) = negb v && negb b.
Proof. rewrite pack_bits. by destruct v, b. Qed.
Lemma pack_range : is_word 32 (pack v b d c).
Proof. unfold is_word, pack, cnt_ok in *. destruct v, b, d; cbn; lia. Qed.
Lemma pack_add n : cnt_ok (c + n) -> u32 (pack v b d c + n) = pack v b d (c + n).
Proof.
  intros Hn. unfold cnt_ok, pack in *. rewrite u32_id; [lia|].
  unfold is_word. destruct v, b, d; cbn; lia.
Qed.
Lemma pack_sub n : cnt_ok (c - n) -> u32 (pack v b d c - n) = pack v b d (c - n).
Proof.
  intros Hn. unfold cnt_ok, pack in *. rewrite u32_id; [lia|].
  unfold is_word. destruct v, b, d; cbn; lia.
Qed.
End words.
End Pc.
