(* ===== verification/PageCacheInv.v ===== *)
(** Invariant and theorems of the page cache of [PageCache]: the cache is coherent
    with a flat memory, a held page keeps its frame, and dirty pages reach the
    media before their frame is reused. *)
From Stdlib Require Import ZArith Lia List Bool.
From stdpp Require Import base list numbers relations functions.
From S2P Require Import Prelude PageCache.

Import ListNotations.
Local Open Scope Z_scope.

Module PcInv.
Import Pc.

Lemma fn_ins {A B} `{EqDecision A} (f : A -> B) a b c :
  <[a := b]> f c = if decide (a = c) then b else f c.
Proof. reflexivity. Qed.

Ltac upd :=
  repeat first
    [ match goal with |- context [<[?a := ?b]> ?f ?c] => rewrite (fn_ins f a b c) end
    | match goal with H : context [<[?a := ?b]> ?f ?c] |- _ => rewrite (fn_ins f a b c) in H end
    | case_decide; simplify_eq ].

(** ** Valid configurations *)

Section cfg.
  Context (cfg : page_cache_d_t) (page_count : Z -> Z).

Definition key_ok (k : key) : Prop :=
  0 <= fst k <= n_ranges_mask cfg /\ 0 <= snd k < page_count (fst k).

(** The configurations the theorems are about: the constructor's defaults (no override of
    the controllers, no delay, no staging buffer, no victim buffer), ranges that fit
    64-bit addresses and whose backing pages do not overlap, a mask of the range numbers
    that is [max_range - 1] for a power of two, and scheduler queues only with one
    controller, since the scheduler sends every request to controller 0. *)
Record cfg_ok : Prop := {
  ok_pages : 0 < n_pages cfg;
  ok_ctrls : 0 < n_ctrls cfg < ALL_CTRLS;
  ok_mask : exists m, 0 <= m <= n_ranges_bits cfg /\ n_ranges_mask cfg = 2 ^ m - 1;
  ok_addr : forall k, key_ok k -> (snd k + 1) * 2 ^ n_ranges_bits cfg <= 2 ^ 64;
  ok_blocks : 0 < n_blocks_per_page cfg;
  ok_start : forall k, key_ok k -> 0 <= ranges_page_starts cfg (fst k) /\
    (ranges_page_starts cfg (fst k) + snd k) * n_blocks_per_page cfg < 2 ^ 64;
  ok_disjoint : forall k k', key_ok k -> key_ok k' ->
    backing_index cfg k = backing_index cfg k' -> fst k = fst k';
  ok_read : read_ctrl_override cfg = ALL_CTRLS;
  ok_evict : evict_ctrl_override cfg = ALL_CTRLS;
  ok_delay : fake_evict_delay_cycles cfg = 0;
  ok_staging : staging_buffer cfg = false;
  ok_victim : victim cfg = None;
  ok_queues : read_queue cfg || evict_queue cfg = true ->
    n_ctrls cfg = 1 /\ 0 <= block_size_log cfg /\
    page_size cfg = n_blocks_per_page cfg * 2 ^ block_size_log cfg /\
    forall k, key_ok k -> backing_index cfg k * page_size cfg < 2 ^ 64
}.

(** The controllers that hold a page. *)
Definition ctrls_of (k : key) (c : Z) : Prop :=
  match ranges_dists cfg (fst k) with
  | STRIPE => c = snd k mod n_ctrls cfg
  | REPLICATE => 0 <= c < n_ctrls cfg
  end.

(** Range and page of an address, for masks of one bits. *)
Lemma address_decode m r a :
  0 <= m <= n_ranges_bits cfg -> n_ranges_mask cfg = 2 ^ m - 1 -> 0 <= r < 2 ^ m -> 0 <= a -> (a + 1) * 2 ^ n_ranges_bits cfg <= 2 ^ 64 ->
  previous_key cfg (get_global_address cfg (r, a)) = (r, a).
Proof.
  intros Hm Em Hr Ha0 Ha. unfold previous_key, get_global_address. cbn. rewrite Em.
  assert (Hp : 2 ^ m <= 2 ^ n_ranges_bits cfg) by (apply Z.pow_le_mono_r; lia).
  assert (0 < 2 ^ m) by (apply Z.pow_pos_nonneg; lia).
  rewrite Z.shiftl_mul_pow2, u64_id by (unfold is_word; nia || lia).
  rewrite <- Z.shiftl_mul_pow2, lor_shiftl_add by lia.
  rewrite land_ones_mod, Z.shiftr_div_pow2 by lia. f_equal.
  - replace (n_ranges_bits cfg) with ((n_ranges_bits cfg - m) + m) by lia.
    rewrite Z.pow_add_r, Z.mul_assoc, Z.add_comm, Z.mod_add by lia. apply Z.mod_small. lia.
  - symmetry. apply (Z.div_unique_pos _ _ _ r); lia.
Qed.

Context (Hcfg : cfg_ok).

Lemma global_address_decode k : key_ok k -> previous_key cfg (get_global_address cfg k) = k.
Proof.
  intros Hk. pose proof (ok_addr Hcfg k Hk) as Ha. destruct (ok_mask Hcfg) as (m & Hm & Em).
  destruct k as [r a], Hk as [Hr Ha0]. cbn in *. apply (address_decode m); lia || done.
Qed.

Lemma ga_inj k k' :
  key_ok k -> key_ok k' -> get_global_address cfg k = get_global_address cfg k' -> k = k'.
Proof.
  intros H1 H2 E. rewrite <- (global_address_decode k H1), <- (global_address_decode k' H2).
  by rewrite E.
Qed.

Lemma index_val k : key_ok k -> backing_index cfg k = ranges_page_starts cfg (fst k) +
  match ranges_dists cfg (fst k) with STRIPE => snd k / n_ctrls cfg | REPLICATE => snd k end.
Proof.
  intros Hk. destruct (ok_start Hcfg k Hk) as [H1 H2]. pose proof (ok_blocks Hcfg).
  pose proof (ok_ctrls Hcfg). destruct Hk as [_ Hk].
  assert (0 <= snd k / n_ctrls cfg <= snd k)
    by (split; [apply Z.div_pos; lia|apply Z.div_le_upper_bound; nia]).
  unfold backing_index, get_backing_page_.
  destruct (ranges_dists cfg (fst k)); apply u64_id; unfold is_word; nia.
Qed.

Lemma lba_inj k k' :
  key_ok k -> key_ok k' -> backing_lba cfg k = backing_lba cfg k' ->
  backing_index cfg k = backing_index cfg k'.
Proof.
  intros Hk Hk'. unfold backing_lba. rewrite !index_val by done.
  destruct (ok_start Hcfg k Hk) as [H1 H2], (ok_start Hcfg k' Hk') as [H3 H4].
  pose proof (ok_blocks Hcfg). pose proof (ok_ctrls Hcfg). destruct Hk as [_ Hk], Hk' as [_ Hk'].
  assert (Hd : forall x, 0 <= x -> 0 <= x / n_ctrls cfg <= x)
    by (intros; split; [apply Z.div_pos; lia|apply Z.div_le_upper_bound; nia]).
  pose proof (Hd (snd k) ltac:(lia)). pose proof (Hd (snd k') ltac:(lia)).
  rewrite !u64_id by (unfold is_word; destruct (ranges_dists cfg _); nia).
  destruct (ranges_dists cfg (fst k)), (ranges_dists cfg (fst k')); nia.
Qed.

Lemma backing_inj k k' c :
  key_ok k -> key_ok k' -> backing_lba cfg k = backing_lba cfg k' ->
  ctrls_of k c -> ctrls_of k' c -> k = k'.
Proof.
  intros Hk Hk' E Hc Hc'. apply lba_inj in E; [|done..].
  pose proof (ok_disjoint Hcfg k k' Hk Hk' E) as Er. rewrite !index_val in E by done.
  unfold ctrls_of in *. pose proof (ok_ctrls Hcfg). destruct k as [r a], k' as [r' a']. cbn in *. subst r'.
  f_equal. destruct (ranges_dists cfg r); [lia|].
  rewrite (Z.div_mod a (n_ctrls cfg)), (Z.div_mod a' (n_ctrls cfg)) by lia. nia.
Qed.

(** The scheduler's block is the block of the thread's own commands. *)
Lemma sched_lba_eq k :
  key_ok k -> read_queue cfg || evict_queue cfg = true ->
  sched_lba cfg k = backing_lba cfg k /\ forall c, ctrls_of k c <-> c = 0.
Proof.
  intros Hk Hq. destruct (ok_queues Hcfg Hq) as (Hn & Hb & Hp & Hlt). specialize (Hlt k Hk).
  assert (Hi : 0 <= backing_index cfg k)
    by (unfold backing_index, get_backing_page_; destruct (ranges_dists cfg (fst k)); apply u64_range).
  pose proof (ok_blocks Hcfg). assert (0 < 2 ^ block_size_log cfg) by (apply Z.pow_pos_nonneg; lia).
  split.
  - unfold sched_lba, byte_offset, backing_lba. rewrite !u64_id by (unfold is_word; nia).
    rewrite Z.shiftr_div_pow2, Hp, Z.mul_assoc by lia. apply Z.div_mul. lia.
  - intros c. unfold ctrls_of. rewrite Hn, Z.mod_1_r. destruct (ranges_dists cfg (fst k)); lia.
Qed.

(** ** Media accesses *)

Section media.
  Context {D : Type}.
  Implicit Types s : @cache_state D.

(** The media after the contents of [page] were written for page [k]. *)
Definition media_written (s : @cache_state D) (page : Z) (k : key) (dk : Z -> Z -> D) : Prop :=
  (forall c, ctrls_of k c -> dk c (backing_lba cfg k) = frames s page) /\
  (forall c l, ~ (ctrls_of k c /\ l = backing_lba cfg k) -> dk c l = disk s c l).

Lemma write_data_eq s page ctrl lba :
  write_data s page ctrl lba =
    set_media s (staging s) (<[ctrl := <[lba := frames s page]> (disk s ctrl)]> (disk s)).
Proof. reflexivity. Qed.

Lemma evict_write_eq s page ctrl lba : evict_write cfg s page ctrl lba = write_data s page ctrl lba.
Proof. unfold evict_write. by rewrite (ok_staging Hcfg), (ok_delay Hcfg). Qed.

Lemma write_all_spec wr n s page ctrl lba :
  (forall s c, wr s page c lba = write_data s page c lba) ->
  exists dk, write_all wr n s page ctrl lba = set_media s (staging s) dk /\
    forall c l, dk c l = if decide (ctrl <= c < ctrl + Z.of_nat n /\ l = lba)
                         then frames s page else disk s c l.
Proof.
  intros Hwr. revert s ctrl. induction n as [|n IH]; intros s ctrl.
  - exists (disk s). split; [by destruct s|]. intros c l. case_decide; [lia|done].
  - cbn [write_all]. rewrite Hwr. destruct (IH (write_data s page ctrl lba) (ctrl + 1)) as (dk & E & H).
    exists dk. split; [by rewrite E|]. intros c l. rewrite H. cbn. upd; try lia; done.
Qed.

Lemma ctrl_not_all k : key_ok k -> (snd k mod n_ctrls cfg =? ALL_CTRLS) = false.
Proof.
  intros _. apply Z.eqb_neq. pose proof (ok_ctrls Hcfg).
  pose proof (Z.mod_pos_bound (snd k) (n_ctrls cfg)). lia.
Qed.

Lemma write_back_spec wr s page k :
  key_ok k -> (forall s c l, wr s page c l = write_data s page c l) ->
  exists dk, write_back cfg wr s page k = set_media s (staging s) dk /\ media_written s page k dk.
Proof.
  intros Hk Hwr. unfold write_back. rewrite (ok_evict Hcfg), Z.eqb_refl.
  unfold media_written, ctrls_of, get_backing_ctrl_. destruct (ranges_dists cfg (fst k)).
  - rewrite Z.eqb_refl. pose proof (ok_ctrls Hcfg).
    destruct (write_all_spec wr (Z.to_nat (n_ctrls cfg)) s page 0 (backing_lba cfg k)) as (dk & E & H');
      [auto|].
    exists dk. split; [done|]. split; intros; rewrite H'; case_decide; try done; lia.
  - rewrite ctrl_not_all by done. rewrite Hwr. eexists. split; [reflexivity|].
    split; [intros c ->; by upd|]. intros c l Hn. upd; try done. tauto.
Qed.

(** The write-back of an eviction. *)
Lemma evict_spec s page k :
  key_ok k -> exists dk, evict cfg s page k = set_media s (staging s) dk /\ media_written s page k dk.
Proof.
  intros Hk. unfold evict. destruct (evict_queue cfg) eqn:Eq; cycle 1.
  { apply write_back_spec; [done|]. intros. apply evict_write_eq. }
  destruct (sched_lba_eq k Hk) as [-> Hc]; [by rewrite Eq, orb_true_r|].
  eexists. split; [reflexivity|]. unfold media_written. split.
  - intros c ->%Hc. by upd.
  - intros c l Hn. rewrite Hc in Hn. upd; try done. tauto.
Qed.

Lemma read_ctrl_spec s k : key_ok k -> ctrls_of k (fst (read_ctrl cfg s k)).
Proof.
  intros Hk. unfold read_ctrl, ctrls_of, get_backing_ctrl_. rewrite (ok_read Hcfg), Z.eqb_refl. cbn [negb].
  destruct (ranges_dists cfg (fst k)).
  - rewrite Z.eqb_refl. cbn. apply Z.mod_pos_bound. apply (ok_ctrls Hcfg).
  - by rewrite ctrl_not_all.
Qed.

(** A miss reads what some controller of the page holds. *)
Lemma fill_spec s page k :
  key_ok k -> exists c cc, ctrls_of k c /\
    fill cfg s page k = set_data s cc (<[page := disk s c (backing_lba cfg k)]> (frames s)) (g_mem s).
Proof.
  intros Hk. unfold fill. pose proof (read_ctrl_spec s k Hk) as Hc.
  destruct (read_ctrl cfg s k) as [c cc]. destruct (read_queue cfg) eqn:Eq; [|by exists c, cc].
  destruct (sched_lba_eq k Hk) as [-> H0]; [by rewrite Eq|]. exists 0, cc. split; [by apply H0|done].
Qed.
End media.
End cfg.

(** ** Configurations outside [cfg_ok] *)

(** Two pages of a striped range are on different controllers at the same block; the
    scheduler sends both to that block of controller 0. *)
Lemma sched_stripes_collide cfg r :
  ranges_dists cfg r = STRIPE -> 1 < n_ctrls cfg ->
  sched_lba cfg (r, 0) = sched_lba cfg (r, 1) /\
  get_backing_ctrl_ 0 (n_ctrls cfg) STRIPE <> get_backing_ctrl_ 1 (n_ctrls cfg) STRIPE.
Proof.
  intros Hd Hn. unfold sched_lba, byte_offset, backing_index, get_backing_page_. cbn. rewrite Hd.
  rewrite (Z.div_small 1) by lia. split; [done|]. rewrite (Z.mod_small 1), Z.mod_0_l by lia. done.
Qed.

(** With a victim buffer that is full and no scheduler queue, an eviction writes the page
    at block [index], not at block [index * n_blocks_per_page], where a miss reads it. *)
Lemma evict_full_misplaced {D} cfg (s : @cache_state D) page k c :
  evict_queue cfg = false -> backing_index cfg k <> backing_lba cfg k ->
  disk (evict_full cfg s page k) c (backing_lba cfg k) = disk s c (backing_lba cfg k).
Proof. intros Hq Hne. unfold evict_full. rewrite Hq. cbn. by upd. Qed.

(** ** Ghost state *)

(** Who set [BUSY] on a page, and why. *)
Inductive busy_st := BNone | BLoad (t : nat) | BUndo (t : nat) | BTry (t : nat) | BEvict (t : nat).

(** What a cache page holds: nothing yet, being taken over, claimed by a loading
    call for its page, or a resident page. *)
Inductive frame_st := FFree | FVac (t : nat) | FClaim (t : nat) (k : key) | FRes (k : key).

Record ghost := MkGhost { gb : key -> busy_st; gl : Z -> option nat; gf : Z -> frame_st }.

Definition busyb (b : busy_st) : bool := match b with BNone => false | _ => true end.
Definition owner (b : busy_st) : option nat :=
  match b with BNone => None | BLoad t | BUndo t | BTry t | BEvict t => Some t end.

Definition live (g : ghost) (f : Z) (k : key) : Prop :=
  gf g f = FRes k \/ exists t, gf g f = FClaim t k.

Definition no_evict (g : ghost) (k : key) : Prop := forall t, gb g k <> BEvict t.

(** ** References *)

Definition holds (c : pc_pc) : bool := match c with AAdd | ADone => false | _ => true end.
Definition contrib (k : key) (p : proc) : Z :=
  if holds (p_pc p) && bool_decide (p_key p = k) then p_count p else 0.
Definition refs (ps : list proc) (k : key) : Z := foldr (fun p n => contrib k p + n) 0 ps.
Definition todo (p : proc) : Z := match p_pc p with ADone => 0 | _ => p_count p end.
Definition pending (ps : list proc) : Z := foldr (fun p n => todo p + n) 0 ps.

Definition with_pc (p : proc) (c : pc_pc) : proc := MkProc (p_key p) (p_count p) (p_write p) c.

Lemma sum_alter (m : proc -> Z) ps t p f :
  ps !! t = Some p ->
  foldr (fun p n => m p + n) 0 (alter f t ps) = foldr (fun p n => m p + n) 0 ps - m p + m (f p).
Proof.
  revert t. induction ps as [|q ps IH]; intros [|t] H; try done; cbn in *.
  - injection H as <-. lia.
  - specialize (IH t H). change (alter f (S t) (q :: ps)) with (q :: alter f t ps). cbn. lia.
Qed.

Lemma sum_pos (m : proc -> Z) ps t p :
  (forall t p, ps !! t = Some p -> 0 <= m p) -> ps !! t = Some p ->
  m p <= foldr (fun p n => m p + n) 0 ps.
Proof.
  revert t. induction ps as [|q ps IH]; intros [|t] Hm H; try done; cbn in *.
  - injection H as <-. assert (0 <= foldr (fun p n => m p + n) 0 ps); [|lia].
    clear -Hm. assert (Hm' : forall t p, ps !! t = Some p -> 0 <= m p) by (intros t; apply (Hm (S t))).
    clear Hm. induction ps as [|r ps IH]; cbn; [lia|].
    pose proof (Hm' 0%nat r eq_refl). specialize (IH (fun t => Hm' (S t))). lia.
  - pose proof (Hm 0%nat q eq_refl). specialize (IH t (fun t => Hm (S t)) H). lia.
Qed.

Lemma sum_le (m m' : proc -> Z) ps :
  (forall t p, ps !! t = Some p -> m p <= m' p) ->
  foldr (fun p n => m p + n) 0 ps <= foldr (fun p n => m' p + n) 0 ps.
Proof.
  induction ps as [|q ps IH]; intros H; cbn; [lia|].
  pose proof (H 0%nat q eq_refl). specialize (IH (fun t => H (S t))). lia.
Qed.

(** ** Invariant *)

Section inv.
  Context {D : Type} (cfg : page_cache_d_t) (page_count : Z -> Z).
  Context (Hcfg : cfg_ok cfg page_count).
  Implicit Types s : @cache_state D.

Definition in_cache (f : Z) : Prop := 0 <= f < n_pages cfg.

Definition valid s k : bool := is_valid (words s k).
Definition dirty s k : bool := is_dirty (words s k).

Arguments valid : simpl never.
Arguments dirty : simpl never.

(** The media hold the current contents of a page. *)
Definition disk_ok s (k : key) : Prop :=
  forall c, ctrls_of cfg k c -> disk s c (backing_lba cfg k) = g_mem s k.

(** The cache page a loading call has claimed. *)
Definition claim_of (c : pc_pc) : option Z :=
  match c with
  | FUnlock f true | AFill f | ASetOffset f | AOrDirty f | AXor f => Some f
  | _ => None
  end.

Definition claims_only (g : ghost) (t : nat) (o : option Z) : Prop :=
  forall f k, in_cache f -> gf g f = FClaim t k -> o = Some f.

(** What a call knows at each point. *)
Definition proc_ok s (g : ghost) (t : nat) (p : proc) : Prop :=
  let k := p_key p in
  key_ok cfg page_count k /\ 0 < p_count p /\ claims_only g t (claim_of (p_pc p)) /\
  match p_pc p with
  | AAdd | AOrBusy | ALoad | ADone => True
  | AUndo => gb g k = BUndo t
  | FTicket => gb g k = BLoad t
  | FLoad f => gb g k = BLoad t /\ in_cache f
  | FCas f v => gb g k = BLoad t /\ in_cache f /\ (v = FREE \/ v = UNLOCKED)
  | FSetFree f | FEvSet f => gb g k = BLoad t /\ in_cache f /\ gl g f = Some t /\ gf g f = FVac t
  | FEvLoad f | FUnlock f false =>
      gb g k = BLoad t /\ in_cache f /\ gl g f = Some t /\ exists k', live g f k'
  | FEvOr f prev => gb g k = BLoad t /\ in_cache f /\ gl g f = Some t /\ live g f prev
  | FEvUndo f prev =>
      gb g k = BLoad t /\ in_cache f /\ gl g f = Some t /\ live g f prev /\ gb g prev = BTry t
  | FEvWrite f prev =>
      gb g k = BLoad t /\ in_cache f /\ gl g f = Some t /\ gf g f = FRes prev /\
      gb g prev = BEvict t /\ key_ok cfg page_count prev
  | FEvAnd f prev =>
      gb g k = BLoad t /\ in_cache f /\ gl g f = Some t /\ gf g f = FRes prev /\
      gb g prev = BEvict t /\ key_ok cfg page_count prev /\ disk_ok s prev
  | FEvTicket _ _ | FEvClaim _ _ _ | FEvSwap _ _ _ | FEvStore _ _ _ | FEvForget _ _ _
  | FEvFull _ _ => False                   (* no victim buffer *)
  | FUnlock f true => gb g k = BLoad t /\ in_cache f /\ gl g f = Some t /\ gf g f = FClaim t k
  | AFill f => gb g k = BLoad t /\ in_cache f /\ gf g f = FClaim t k
  | ASetOffset f => gb g k = BLoad t /\ in_cache f /\ gf g f = FClaim t k /\ frames s f = g_mem s k
  | AOrDirty f =>
      gb g k = BLoad t /\ in_cache f /\ gf g f = FClaim t k /\ frames s f = g_mem s k /\ offsets s k = f
  | AXor f =>
      gb g k = BLoad t /\ in_cache f /\ gf g f = FClaim t k /\ frames s f = g_mem s k /\
      offsets s k = f /\ (p_write p = true -> dirty s k = true)
  | AHitDirty => valid s k = true /\ no_evict g k
  | AHitOffset => valid s k = true /\ no_evict g k /\ (p_write p = true -> dirty s k = true)
  | AHeld f =>
      valid s k = true /\ no_evict g k /\ (p_write p = true -> dirty s k = true) /\ offsets s k = f
  end.

Definition frame_ok s (g : ghost) (f : Z) : Prop :=
  match gf g f with
  | FFree => True
  | FVac t => gl g f = Some t
  | FClaim t k => trans s f = get_global_address cfg k /\ key_ok cfg page_count k /\
                  gb g k = BLoad t /\ (t < length (procs s))%nat
  | FRes k => trans s f = get_global_address cfg k /\ key_ok cfg page_count k /\
              valid s k = true /\ offsets s k = f /\ frames s f = g_mem s k
  end.

Definition lock_ok s (g : ghost) (f : Z) : Prop :=
  match gl g f with
  | Some _ => locks s f = LOCKED
  | None => locks s f = FREE /\ gf g f = FFree \/ locks s f = UNLOCKED /\ exists k, live g f k
  end.

Record glob s (g : ghost) : Prop := {
  i_word : forall k, words s k = pack (valid s k) (busyb (gb g k)) (dirty s k) (refs (procs s) k);
  i_lock : forall f, in_cache f -> lock_ok s g f;
  i_frame : forall f, in_cache f -> frame_ok s g f;
  i_res : forall k, valid s k = true ->
    key_ok cfg page_count k /\ in_cache (offsets s k) /\ gf g (offsets s k) = FRes k;
  i_load : forall k t, gb g k = BLoad t -> valid s k = false;
  i_disk : forall k, key_ok cfg page_count k -> valid s k = false \/ dirty s k = false -> disk_ok s k;
  i_dirty : forall k, dirty s k = true -> valid s k = true \/ exists t, gb g k = BLoad t
}.

Record inv s (g : ghost) : Prop := {
  v_glob : glob s g;
  v_pend : pending (procs s) < 2 ^ 29;
  v_procs : forall t p, procs s !! t = Some p -> proc_ok s g t p
}.

(** What a step of another call leaves to call [t]. *)
Record rely s (g : ghost) s' (g' : ghost) (t : nat) : Prop := {
  y_gb : forall k, owner (gb g k) = Some t -> gb g' k = gb g k;
  y_gl : forall f, gl g f = Some t -> gl g' f = Some t;
  y_vac : forall f, gf g f = FVac t -> gf g' f = FVac t;
  y_claim : forall f k, gf g f = FClaim t k -> gf g' f = FClaim t k /\ frames s' f = frames s f;
  y_live : forall f k, gl g f = Some t -> live g f k -> live g' f k;
  y_res : forall f k, gl g f = Some t -> gf g f = FRes k -> gf g' f = FRes k;
  y_mem : forall k, gb g k = BLoad t -> g_mem s' k = g_mem s k /\ offsets s' k = offsets s k /\
    (dirty s k = true -> dirty s' k = true);
  y_disk : forall k, gb g k = BEvict t -> key_ok cfg page_count k -> disk_ok s k -> disk_ok s' k;
  y_noclaim : forall f k, gf g' f = FClaim t k -> gf g f = FClaim t k;
  y_set : forall k, valid s k = true -> no_evict g k -> 0 < refs (procs s) k ->
    valid s' k = true /\ no_evict g' k /\ offsets s' k = offsets s k /\
    (dirty s k = true -> dirty s' k = true)
}.

Lemma refs_pos s g t p :
  (forall t p, procs s !! t = Some p -> proc_ok s g t p) ->
  procs s !! t = Some p -> holds (p_pc p) = true -> 0 < refs (procs s) (p_key p).
Proof.
  intros Hp Ht Hh. assert (Hc : forall t q, procs s !! t = Some q -> 0 <= contrib (p_key p) q).
  { intros t' q Hq. destruct (Hp t' q Hq) as (_ & Hc & _). unfold contrib. case_match; lia. }
  pose proof (sum_pos (contrib (p_key p)) (procs s) t p Hc Ht) as Hs.
  destruct (Hp t p Ht) as (_ & Hc' & _). unfold contrib at 1 in Hs.
  rewrite Hh, bool_decide_true in Hs by done. cbn in Hs. unfold refs. lia.
Qed.

Lemma rely_proc_ok s g s' g' t p :
  rely s g s' g' t -> (forall t p, procs s !! t = Some p -> proc_ok s g t p) ->
  procs s !! t = Some p -> proc_ok s' g' t p.
Proof.
  intros [] Hall Ht. pose proof (refs_pos s g t p Hall Ht) as Hpos.
  pose proof (Hall t p Ht) as (Hk & Hc & Hcl & Hp). unfold proc_ok. split; [done|]. split; [done|].
  split; [intros f k Hin Hf; eapply Hcl; [done|]; by apply y_noclaim0|]. clear Hcl y_noclaim0.
  assert (HL : forall k, gb g k = BLoad t -> gb g' k = BLoad t)
    by (intros k E; rewrite <- E; apply y_gb0; by rewrite E).
  assert (HU : forall k, gb g k = BUndo t -> gb g' k = BUndo t)
    by (intros k E; rewrite <- E; apply y_gb0; by rewrite E).
  assert (HT : forall k, gb g k = BTry t -> gb g' k = BTry t)
    by (intros k E; rewrite <- E; apply y_gb0; by rewrite E).
  assert (HE : forall k, gb g k = BEvict t -> gb g' k = BEvict t)
    by (intros k E; rewrite <- E; apply y_gb0; by rewrite E).
  assert (HF : forall f k, gf g f = FClaim t k -> gb g k = BLoad t -> frames s f = g_mem s k ->
                 frames s' f = g_mem s' k).
  { intros f k E1 E2 E3. destruct (y_claim0 f k E1) as [_ ->]. by destruct (y_mem0 k E2) as [-> _]. }
  assert (HC : forall f k, gf g f = FClaim t k -> gf g' f = FClaim t k)
    by (intros f k E; by apply y_claim0).
  assert (HO : forall f k, gb g k = BLoad t -> offsets s k = f -> offsets s' k = f)
    by (intros f k E1 <-; by apply y_mem0).
  assert (HD : forall k, gb g k = BLoad t -> dirty s k = true -> dirty s' k = true)
    by (intros k E1; by apply y_mem0).
  clear y_gb0 y_claim0 y_mem0.
  destruct (p_pc p) as [| | | | | | | | | | | | | | | | | | | |f []| | | | | | | |]; try done;
    cbn in Hpos; specialize (Hpos eq_refl); try specialize (y_set0 (p_key p)); naive_solver.
Qed.

Lemma rely_refl s g t : rely s g s g t.
Proof. split; auto. Qed.

Lemma refs_goto s t p c k :
  procs s !! t = Some p -> holds c = holds (p_pc p) -> refs (procs (goto s t c)) k = refs (procs s) k.
Proof.
  intros Ht Hh. unfold refs, goto. cbn. rewrite (sum_alter (contrib k) _ _ p) by done.
  change (MkProc _ _ _ c) with (with_pc p c). unfold contrib. cbn. rewrite Hh. lia.
Qed.

Lemma pending_goto s t p c :
  procs s !! t = Some p -> 0 < p_count p -> p_pc p <> ADone -> pending (procs (goto s t c)) <= pending (procs s).
Proof.
  intros Ht Hc Hd. unfold pending, goto. cbn. rewrite (sum_alter todo _ _ p) by done.
  unfold todo. cbn. destruct (p_pc p), c; try done; lia.
Qed.

Lemma glob_procs s g ps :
  glob s g -> (length (procs s) <= length ps)%nat -> (forall k, refs ps k = refs (procs s) k) ->
  glob (set_procs s ps) g.
Proof.
  intros [] Hl Hr. split; auto.
  - intros k. change (procs (set_procs s ps)) with ps. rewrite Hr. apply i_word0.
  - intros f Hf. specialize (i_frame0 f Hf). unfold frame_ok in *. destruct (gf g f); try done.
    destruct i_frame0 as (?&?&?&Hlt). split; [done|]. split; [done|]. split; [done|].
    change (procs (set_procs s ps)) with ps. lia.
Qed.

(** A step of call [t] to [c'] with the shared state going from [s] to [s1]. *)
Lemma cache_move s g s1 g1 t p c' :
  inv s g -> procs s !! t = Some p -> procs s1 = procs s -> glob s1 g1 ->
  (forall t', t' <> t -> rely s g s1 g1 t') ->
  holds (p_pc p) = true -> holds c' = true ->
  proc_ok s1 g1 t (with_pc p c') -> inv (goto s1 t c') g1.
Proof.
  intros [Hg Hpend Hp] Ht Ep Hg1 Hr Hh Hh' Hok. pose proof (Hp t p Ht) as (_ & Hc & _).
  assert (Ht1 : procs s1 !! t = Some p) by (by rewrite Ep). split.
  - apply glob_procs; [done|by rewrite length_alter|]. intros k. apply (refs_goto s1 t p c' k Ht1). by rewrite Hh.
  - eapply Z.le_lt_trans; [|exact Hpend]. rewrite <- Ep. apply (pending_goto s1 t p c' Ht1 Hc).
    intros E. by rewrite E in Hh.
  - intros t' p' H. unfold goto in H. cbn in H. destruct (decide (t' = t)) as [->|Hne].
    + rewrite list_lookup_alter_eq, Ht1 in H. injection H as <-. exact Hok.
    + rewrite list_lookup_alter_ne, Ep in H by done.
      exact (rely_proc_ok s g s1 g1 t' p' (Hr t' Hne) Hp H).
Qed.

(** Moving to another point without a change of the shared state. *)
Lemma inv_goto s g t p c' :
  inv s g -> procs s !! t = Some p -> holds (p_pc p) = true -> holds c' = true ->
  proc_ok s g t (with_pc p c') -> inv (goto s t c') g.
Proof. intros Hi Ht ???. eapply cache_move; eauto using rely_refl. by destruct Hi. Qed.

Definition set_gb (g : ghost) (k : key) (b : busy_st) : ghost :=
  MkGhost (<[k := b]> (gb g)) (gl g) (gf g).
Definition set_gl (g : ghost) (f : Z) (o : option nat) : ghost :=
  MkGhost (gb g) (<[f := o]> (gl g)) (gf g).
Definition set_gf (g : ghost) (f : Z) (x : frame_st) : ghost :=
  MkGhost (gb g) (gl g) (<[f := x]> (gf g)).

Lemma refs_cnt_ok s g k : inv s g -> cnt_ok (refs (procs s) k).
Proof.
  intros [_ Hpend Hp]. assert (Hc : forall t p, procs s !! t = Some p -> 0 < p_count p)
    by (intros t p H; by destruct (Hp t p H) as (_ & ? & _)).
  unfold cnt_ok, refs. split.
  - transitivity (foldr (fun (_ : proc) n => 0 + n) 0 (procs s)).
    + clear. induction (procs s); cbn; lia.
    + apply (sum_le (fun _ => 0)). intros t p H. unfold contrib. specialize (Hc t p H). case_match; lia.
  - eapply Z.le_lt_trans; [|exact Hpend]. apply sum_le. intros t p H. specialize (Hc t p H).
    unfold contrib, todo. destruct (p_pc p); cbn; try lia; case_match; lia.
Qed.

Lemma word_at s g k : inv s g ->
  words s k = pack (valid s k) (busyb (gb g k)) (dirty s k) (refs (procs s) k).
Proof. intros [[] _ _]. apply i_word0. Qed.

Lemma words_set s k w k' :
  words (set_words s (<[k := w]> (words s))) k' = if decide (k = k') then w else words s k'.
Proof. reflexivity. Qed.

(** An update of one word that keeps [VALID]. *)
Lemma glob_word s g k b d :
  inv s g ->
  (forall t, b = BLoad t -> valid s k = false) ->
  (forall f t, in_cache f -> gf g f = FClaim t k -> b = BLoad t) ->
  (valid s k = true -> d = false -> dirty s k = false) ->
  (d = true -> valid s k = true \/ exists t, b = BLoad t) ->
  glob (set_words s (<[k := pack (valid s k) (busyb b) d (refs (procs s) k)]> (words s))) (set_gb g k b).
Proof.
  intros Hi Hb Hcl Hd Hdv. pose proof (refs_cnt_ok s g k Hi) as Hcnt. destruct (v_glob s g Hi).
  set (s1 := set_words s _). assert (Hv : forall k', valid s1 k' = valid s k').
  { intros k'. unfold valid, s1. rewrite words_set. upd; [|done]. by rewrite pack_valid. }
  assert (Hdd : forall k', dirty s1 k' = if decide (k = k') then d else dirty s k').
  { intros k'. unfold dirty, s1. rewrite words_set. upd; [|done]. by rewrite pack_dirty. }
  split.
  - intros k'. rewrite Hv, Hdd. unfold s1. rewrite words_set. cbn. upd; [done|]. apply i_word0.
  - intros f Hf. apply (i_lock0 f Hf).
  - intros f Hf. specialize (i_frame0 f Hf). unfold frame_ok in *. cbn [gf gb set_gb].
    destruct (gf g f) as [|t|t k'|k'] eqn:E; try done.
    + destruct i_frame0 as (? & ? & ? & ?). split; [done|]. split; [done|]. split; [|done].
      upd; [|done]. by eapply Hcl.
    + by rewrite Hv.
  - intros k'. rewrite Hv. apply i_res0.
  - intros k' t. rewrite Hv. cbn. upd; [apply Hb|apply i_load0].
  - intros k' Hk. rewrite Hv, Hdd. case_decide as Ek; [subst|by apply i_disk0].
    intros [?| ->]; [by apply i_disk0; auto|]. destruct (valid s k') eqn:Ev; [|by apply i_disk0; auto].
    apply i_disk0; auto.
  - intros k'. rewrite Hv, Hdd. cbn. upd; [exact Hdv|apply i_dirty0].
Qed.

Lemma valid_set s g k b d k' :
  inv s g ->
  valid (set_words s (<[k := pack (valid s k) b d (refs (procs s) k)]> (words s))) k' = valid s k'.
Proof.
  intros Hi. unfold valid at 1. rewrite words_set. upd; [|done]. apply pack_valid. by eapply refs_cnt_ok.
Qed.

Lemma dirty_set s g k v b d k' :
  inv s g ->
  dirty (set_words s (<[k := pack v b d (refs (procs s) k)]> (words s))) k' =
    if decide (k = k') then d else dirty s k'.
Proof.
  intros Hi. unfold dirty at 1. rewrite words_set. upd; [|done]. apply pack_dirty. by eapply refs_cnt_ok.
Qed.

Lemma rely_word s g k b d t :
  inv s g -> b = gb g k \/ owner (gb g k) <> Some t ->
  (forall t', b = BEvict t' -> b = gb g k \/ refs (procs s) k = 0) ->
  (dirty s k = true -> d = true) ->
  rely s g (set_words s (<[k := pack (valid s k) (busyb b) d (refs (procs s) k)]> (words s)))
    (set_gb g k b) t.
Proof.
  intros Hi Hb He Hd. split; try done.
  - intros k' Ho. cbn. upd; [|done]. by destruct Hb.
  - intros k' H. rewrite (dirty_set s g) by done. split; [done|]. split; [done|]. upd; auto.
  - intros k' Hv Hn Hr. rewrite (valid_set s g), (dirty_set s g) by done. split; [done|].
    split; [|split; [done|upd; auto]]. intros t'. cbn. upd; [|apply Hn].
    intros E. destruct (He _ E) as [E'|]; [|lia]. apply (Hn t'). congruence.
Qed.

(** An update of the word of [k] by call [t] that keeps [VALID]. *)
Lemma inv_word s g t p k f b d c' :
  inv s g -> procs s !! t = Some p -> holds (p_pc p) = true -> holds c' = true ->
  f (words s k) = pack (valid s k) (busyb b) d (refs (procs s) k) ->
  b = gb g k \/ owner (gb g k) = None \/ owner (gb g k) = Some t ->
  (forall t', b = BLoad t' -> valid s k = false) ->
  (forall x t', in_cache x -> gf g x = FClaim t' k -> b = BLoad t') ->
  (forall t', b = BEvict t' -> b = gb g k \/ refs (procs s) k = 0) ->
  (dirty s k = true -> d = true) -> (d = true -> valid s k = true \/ exists t', b = BLoad t') ->
  proc_ok (set_words s (<[k := pack (valid s k) (busyb b) d (refs (procs s) k)]> (words s)))
    (set_gb g k b) t (with_pc p c') ->
  inv (goto (upd_word s k f) t c') (set_gb g k b).
Proof.
  intros Hi Ht Hh Hh' Ew Ho Hl Hcl He Hd Hdv Hok. unfold upd_word. rewrite Ew.
  apply (cache_move s g _ _ t p); auto.
  - apply glob_word; auto. intros _ ->. destruct (dirty s k); [|done]. by specialize (Hd eq_refl).
  - intros t' Hne. apply rely_word; auto. destruct Ho as [?|[?|?]]; [by left|right..]; congruence.
Qed.

Lemma claim_load s g x t k : inv s g -> in_cache x -> gf g x = FClaim t k -> gb g k = BLoad t.
Proof.
  intros Hi Hx E. pose proof (i_frame s g (v_glob s g Hi) x Hx) as H. unfold frame_ok in H.
  rewrite E in H. by destruct H as (_ & _ & ? & _).
Qed.

(** A dirty page that is not being loaded is valid. *)
Lemma dirty_valid s g k b :
  inv s g -> (forall t, gb g k <> BLoad t) -> dirty s k = true -> valid s k = true \/ exists t, b = BLoad t.
Proof. intros Hi Hn Hd. left. by destruct (i_dirty s g (v_glob s g Hi) k Hd) as [?|[t ?%Hn]]. Qed.

(** The same when the owner of [BUSY] does not change. *)
Lemma inv_word_same s g t p k f d c' :
  inv s g -> procs s !! t = Some p -> holds (p_pc p) = true -> holds c' = true ->
  f (words s k) = pack (valid s k) (busyb (gb g k)) d (refs (procs s) k) ->
  (dirty s k = true -> d = true) -> (d = true -> valid s k = true \/ exists t', gb g k = BLoad t') ->
  proc_ok (set_words s (<[k := pack (valid s k) (busyb (gb g k)) d (refs (procs s) k)]> (words s)))
    (set_gb g k (gb g k)) t (with_pc p c') ->
  inv (goto (upd_word s k f) t c') (set_gb g k (gb g k)).
Proof.
  intros Hi Ht Hh Hh' Ew Hd Hdv Hok. apply (inv_word s g t p k f (gb g k) d); auto.
  - intros t' E. by eapply i_load; [apply Hi|].
  - intros x t' Hx Hf. by eapply claim_load.
Qed.

(** The loop of [acquire_page] with the state it read. *)
Lemma dispatch_ok s s1 g t p :
  inv s g -> key_ok cfg page_count (p_key p) -> 0 < p_count p -> claims_only g t None ->
  valid s1 (p_key p) = valid s (p_key p) -> dirty s1 (p_key p) = dirty s (p_key p) ->
  proc_ok s1 g t (with_pc p (dispatch (p_write p) (words s (p_key p)))).
Proof.
  intros Hi Hk Hc Hcl Ev1 Ed1. split; [done|]. split; [done|]. rewrite (word_at s g) by done.
  rewrite pack_dispatch by (by eapply refs_cnt_ok). cbn [p_pc with_pc].
  split; [by repeat case_match|]. cbn [p_key with_pc].
  destruct (gb g (p_key p)) eqn:Eb; cbn; try done.
  assert (Hn : no_evict g (p_key p)) by (intros t'; by rewrite Eb).
  destruct (valid s (p_key p)) eqn:Ev; [|done].
  destruct (p_write p) eqn:Ew, (dirty s (p_key p)) eqn:Ed; cbn; intuition congruence.
Qed.

Lemma holds_dispatch w r : holds (dispatch w r) = true.
Proof. unfold dispatch. by repeat case_match. Qed.

(** ** Steps that only touch a word or move on *)

Section steps.
  Context (s : @cache_state D) (g : ghost) (t : nat) (p : proc).
  Context (Hi : inv s g) (Ht : procs s !! t = Some p).

Let k := p_key p.

Lemma call_facts : proc_ok s g t p.
Proof. by apply (v_procs s g Hi). Qed.

Lemma step_load : p_pc p = ALoad -> exists g', inv (goto s t (dispatch (p_write p) (words s k))) g'.
Proof.
  intros E. destruct call_facts as (Hk & Hc & Hcl & _). rewrite E in Hcl. exists g.
  apply (inv_goto s g t p); auto using holds_dispatch; [by rewrite E|]. by apply dispatch_ok.
Qed.

Lemma step_or_busy :
  p_pc p = AOrBusy ->
  exists g', inv (goto (upd_word s k (fun w => Z.lor w BUSY)) t
    (if Z.land (words s k) BUSY =? 0
     then if state_bits (words s k) =? NV_NB then FTicket else AUndo else ALoad)) g'.
Proof.
  intros E. destruct call_facts as (Hk & Hc & Hno & _). fold k in Hk. rewrite E in Hno.
  pose proof (refs_cnt_ok s g k Hi) as Hcnt. pose proof (word_at s g k Hi) as Ew.
  rewrite Ew, pack_test_busy, pack_invalid by done.
  destruct (busyb (gb g k)) eqn:Eb; cbn [negb].
  - exists (set_gb g k (gb g k)). apply (inv_word_same s g t p k _ (dirty s k)); auto; try (by rewrite E).
    + rewrite Ew, pack_or_busy by done. by rewrite Eb.
    + apply i_dirty, Hi.
    + by split; [|split; [|split]].
  - assert (Hb : gb g k = BNone) by (by destruct (gb g k)).
    assert (Hcl : forall x t' b, in_cache x -> gf g x = FClaim t' k -> b = BLoad t')
      by (intros x t' b Hx Hf; apply (claim_load s g) in Hf; congruence).
    destruct (valid s k) eqn:Ev; cbn [negb andb].
    + exists (set_gb g k (BUndo t)).
      apply (inv_word s g t p k _ (BUndo t) (dirty s k)); eauto; rewrite ?E, ?Hb; try done; auto.
      * by rewrite Ew, pack_or_busy, Ev.
      * split; [done|]. split; [done|]. split; [done|]. cbn. by upd.
    + exists (set_gb g k (BLoad t)).
      apply (inv_word s g t p k _ (BLoad t) (dirty s k)); eauto; rewrite ?E, ?Hb; try done; auto.
      * by rewrite Ew, pack_or_busy, Ev.
      * split; [done|]. split; [done|]. split; [done|]. cbn. by upd.
Qed.

Lemma step_undo :
  p_pc p = AUndo -> exists g', inv (goto (upd_word s k (fun w => Z.land w DISABLE_BUSY_MASK)) t ALoad) g'.
Proof.
  intros E. pose proof call_facts as (Hk & Hc & Hno & Hp). rewrite E in Hp, Hno. fold k in Hp.
  pose proof (refs_cnt_ok s g k Hi) as Hcnt. exists (set_gb g k BNone).
  apply (inv_word s g t p k _ BNone (dirty s k)); rewrite ?E, ?Hp; auto; try done.
  - by rewrite (word_at s g k Hi), pack_and_nobusy.
  - intros x t' Hx Hf. apply (claim_load s g) in Hf; congruence.
  - apply (dirty_valid s g); [done|]. intros t'. by rewrite Hp.
Qed.

Lemma step_hit_dirty :
  p_pc p = AHitDirty -> exists g', inv (goto (upd_word s k (fun w => Z.lor w DIRTY)) t AHitOffset) g'.
Proof.
  intros E. pose proof call_facts as (Hk & Hc & Hno & Hp). rewrite E in Hp, Hno. fold k in Hp.
  pose proof (refs_cnt_ok s g k Hi) as Hcnt. eexists.
  apply (inv_word_same s g t p k _ true); rewrite ?E; auto.
  - by rewrite (word_at s g k Hi), pack_or_dirty.
  - left. by destruct Hp.
  - split; [done|]. split; [done|]. split; [done|]. cbn [p_pc p_key with_pc]. fold k.
    rewrite (valid_set s g), (dirty_set s g) by done. destruct Hp as [Hv Hn].
    split; [done|]. split; [|intros _; by case_decide]. intros t'. cbn. upd; apply Hn.
Qed.

Lemma step_or_dirty f :
  p_pc p = AOrDirty f -> exists g', inv (goto (upd_word s k (fun w => Z.lor w DIRTY)) t (AXor f)) g'.
Proof.
  intros E. pose proof call_facts as (Hk & Hc & Hno & Hp). rewrite E in Hp, Hno. fold k in Hp.
  pose proof (refs_cnt_ok s g k Hi) as Hcnt. eexists.
  apply (inv_word_same s g t p k _ true); rewrite ?E; auto.
  - by rewrite (word_at s g k Hi), pack_or_dirty.
  - right. exists t. by destruct Hp.
  - split; [done|]. split; [done|]. split; [done|]. cbn [p_pc p_key with_pc]. fold k.
    rewrite (dirty_set s g) by done. destruct Hp as (H1 & H2 & H3 & H4 & H5).
    cbn. rewrite fn_ins, !decide_True by done. auto 10.
Qed.

(** *** [find_slot] *)

Lemma step_ticket :
  p_pc p = FTicket ->
  exists g', inv (goto (set_ticket s (u32 (page_ticket s + 1))) t
                    (FLoad (page_ticket s mod n_pages cfg))) g'.
Proof.
  intros E. pose proof call_facts as (Hk & Hc & Hno & Hp). rewrite E in Hp, Hno. exists g.
  apply (cache_move s g _ _ t p); auto; rewrite ?E; auto.
  - destruct (v_glob s g Hi). split; auto.
  - intros t' _. split; auto.
  - split; [done|]. split; [done|]. split; [done|]. split; [done|]. apply Z.mod_pos_bound, (ok_pages _ _ Hcfg).
Qed.

Lemma step_lock_load f :
  p_pc p = FLoad f ->
  exists g', inv (goto s t (if locks s f =? FREE then FCas f FREE
                            else if locks s f =? UNLOCKED then FCas f UNLOCKED else FTicket)) g'.
Proof.
  intros E. pose proof call_facts as (Hk & Hc & Hno & Hp). rewrite E in Hp, Hno. destruct Hp as [Hb Hf].
  exists g. apply (inv_goto s g t p); auto; rewrite ?E; auto; repeat case_match; try done;
    (split; [done|]; split; [done|]; split; [done|]; cbn; auto).
Qed.

Lemma step_cas_fail f v : p_pc p = FCas f v -> exists g', inv (goto s t FTicket) g'.
Proof.
  intros E. pose proof call_facts as (Hk & Hc & Hno & Hp). rewrite E in Hp, Hno. destruct Hp as [Hb Hf].
  exists g. apply (inv_goto s g t p); auto; rewrite ?E; auto. by split; [|split; [|split]].
Qed.

Lemma lock_none f : in_cache f -> locks s f <> LOCKED -> gl g f = None.
Proof.
  intros Hf Hn. pose proof (i_lock s g (v_glob s g Hi) f Hf) as Hl. unfold lock_ok in Hl.
  by destruct (gl g f).
Qed.

Lemma step_cas_free f :
  p_pc p = FCas f FREE -> locks s f = FREE ->
  exists g', inv (goto (set_locks s (<[f := LOCKED]> (locks s))) t (FSetFree f)) g'.
Proof.
  intros E El. pose proof call_facts as (Hk & Hc & Hno & Hp). rewrite E in Hp, Hno.
  destruct Hp as (Hb & Hf & _). assert (Hgl : gl g f = None) by (apply lock_none; [done|by rewrite El]).
  pose proof (v_glob s g Hi) as []. pose proof (i_lock0 f Hf) as Hl. unfold lock_ok in Hl. rewrite Hgl in Hl.
  destruct Hl as [[_ Hff]|[Hu _]]; [|by rewrite El in Hu].
  exists (set_gf (set_gl g f (Some t)) f (FVac t)).
  apply (cache_move s g _ _ t p); auto; rewrite ?E; auto.
  - split; auto.
    + intros f' Hf'. specialize (i_lock0 f' Hf'). unfold lock_ok, live in *. cbn. by upd.
    + intros f' Hf'. specialize (i_frame0 f' Hf'). unfold frame_ok in *. cbn. by upd.
    + intros k' Hv. destruct (i_res0 k' Hv) as (? & ? & ?). cbn. split; [done|]. split; [done|].
      upd; congruence.
  - intros t' Hne. split; auto; unfold live; cbn; intros; upd; auto; try congruence.
  - split; [done|]. split; [done|]. cbn. split; [intros f' k' Hin; cbn; upd; [done|by apply Hno]|].
    split; [done|]. split; [done|]. by upd.
Qed.

Lemma step_cas_unlocked f :
  p_pc p = FCas f UNLOCKED -> locks s f = UNLOCKED ->
  exists g', inv (goto (set_locks s (<[f := LOCKED]> (locks s))) t (FEvLoad f)) g'.
Proof.
  intros E El. pose proof call_facts as (Hk & Hc & Hno & Hp). rewrite E in Hp, Hno.
  destruct Hp as (Hb & Hf & _). assert (Hgl : gl g f = None) by (apply lock_none; [done|by rewrite El]).
  pose proof (v_glob s g Hi) as []. pose proof (i_lock0 f Hf) as Hl. unfold lock_ok in Hl. rewrite Hgl in Hl.
  destruct Hl as [[Hu _]|[_ Hlv]]; [by rewrite El in Hu|].
  exists (set_gl g f (Some t)). apply (cache_move s g _ _ t p); auto; rewrite ?E; auto.
  - split; auto.
    + intros f' Hf'. specialize (i_lock0 f' Hf'). unfold lock_ok, live in *. cbn. by upd.
    + intros f' Hf'. specialize (i_frame0 f' Hf'). unfold frame_ok in *. cbn.
      destruct (gf g f') eqn:Eg; try done. by upd.
  - intros t' Hne. split; auto; cbn; intros; upd; auto; try congruence.
  - split; [done|]. split; [done|]. split; [done|]. cbn. split; [done|]. split; [done|]. by upd.
Qed.

Lemma step_cas f v :
  p_pc p = FCas f v ->
  exists g', inv (if locks s f =? v then
                    goto (set_locks s (<[f := LOCKED]> (locks s))) t
                      (if v =? FREE then FSetFree f else FEvLoad f)
                  else goto s t FTicket) g'.
Proof.
  intros E. pose proof call_facts as (_ & _ & _ & Hp). rewrite E in Hp. destruct Hp as (_ & _ & Hv).
  destruct (Z.eqb_spec (locks s f) v) as [El|]; [|by eapply step_cas_fail].
  destruct Hv as [-> | ->]; [by apply step_cas_free|by apply step_cas_unlocked].
Qed.

(** Taking over a cache page for page [k]. *)
Lemma step_set f :
  p_pc p = FSetFree f \/ p_pc p = FEvSet f ->
  exists g', inv (goto (set_trans s (<[f := get_global_address cfg k]> (trans s))) t (FUnlock f true)) g'.
Proof.
  intros E. pose proof call_facts as (Hk & Hc & Hno & Hp).
  assert (Hp' : gb g k = BLoad t /\ in_cache f /\ gl g f = Some t /\ gf g f = FVac t)
    by (destruct E as [E|E]; by rewrite E in Hp).
  assert (Hno' : claims_only g t None) by (destruct E as [E|E]; by rewrite E in Hno).
  destruct Hp' as (Hb & Hf & Hgl & Hgf). clear Hp Hno. pose proof (v_glob s g Hi) as [].
  assert (Hlt : (t < length (procs s))%nat) by (by eapply lookup_lt_Some).
  exists (set_gf g f (FClaim t k)). apply (cache_move s g _ _ t p); auto; try (by destruct E as [->| ->]).
  - split; auto.
    + intros f' Hf'. specialize (i_lock0 f' Hf'). unfold lock_ok, live in *. cbn. upd; [|done].
      by rewrite Hgl in *.
    + intros f' Hf'. specialize (i_frame0 f' Hf'). unfold frame_ok in *. cbn. upd; [by cbn|done].
    + intros k' Hv. destruct (i_res0 k' Hv) as (? & ? & ?). cbn. split; [done|]. split; [done|].
      upd; congruence.
  - intros t' Hne. split; auto; unfold live; cbn; intros; upd; auto; congruence.
  - split; [done|]. split; [done|]. cbn. split.
    + intros f' k' Hin H. cbn in H. upd; [done|]. by apply Hno' in H.
    + split; [done|]. split; [done|]. split; [done|]. by upd.
Qed.

Lemma live_trans f k' : in_cache f -> live g f k' -> previous_key cfg (trans s f) = k'.
Proof.
  intros Hf Hl. pose proof (i_frame s g (v_glob s g Hi) f Hf) as H. unfold frame_ok in H.
  destruct Hl as [E|[t' E]]; rewrite E in H; destruct H as (-> & Hk & _);
    by apply (global_address_decode _ _ Hcfg).
Qed.

Lemma step_ev_load f :
  p_pc p = FEvLoad f ->
  exists g', inv (goto s t
    (if (Z.land (words s (previous_key cfg (trans s f))) CNT_MASK =? 0) &&
        (Z.land (words s (previous_key cfg (trans s f))) BUSY =? 0)
     then FEvOr f (previous_key cfg (trans s f)) else FUnlock f false)) g'.
Proof.
  intros E. pose proof call_facts as (Hk & Hc & Hno & Hp). rewrite E in Hp, Hno.
  destruct Hp as (Hb & Hf & Hgl & k' & Hl). rewrite (live_trans f k' Hf Hl).
  exists g. apply (inv_goto s g t p); auto; rewrite ?E; auto; case_match; try done;
    (split; [done|]; split; [done|]; split; [done|]; cbn; eauto 10).
Qed.

Lemma step_ev_undo f prev :
  p_pc p = FEvUndo f prev ->
  exists g', inv (goto (upd_word s prev (fun w => Z.land w DISABLE_BUSY_MASK)) t (FUnlock f false)) g'.
Proof.
  intros E. pose proof call_facts as (Hk & Hc & Hno & Hp). rewrite E in Hp, Hno. fold k in Hp.
  destruct Hp as (Hb & Hf & Hgl & Hl & Ht'). pose proof (refs_cnt_ok s g prev Hi) as Hcnt.
  exists (set_gb g prev BNone). apply (inv_word s g t p prev _ BNone (dirty s prev)); rewrite ?E, ?Ht'; auto; try done.
  - by rewrite (word_at s g prev Hi), pack_and_nobusy.
  - intros x t' Hx Hcl. apply (claim_load s g) in Hcl; congruence.
  - apply (dirty_valid s g); [done|]. intros t'. by rewrite Ht'.
  - split; [done|]. split; [done|]. split; [done|]. cbn. upd; [|eauto 10]. unfold k in *. congruence.
Qed.

Lemma step_ev_or f prev :
  p_pc p = FEvOr f prev ->
  exists g', inv (goto (upd_word s prev (fun w => Z.lor w BUSY)) t
    (if Z.land (words s prev) BUSY =? 0 then
       if Z.land (words s prev) CNT_MASK =? 0 then
         if Z.land (words s prev) DIRTY =? 0 then FEvAnd f prev
         else match victim cfg with Some _ => FEvTicket f prev | None => FEvWrite f prev end
       else FEvUndo f prev
     else FUnlock f false)) g'.
Proof.
  intros E. pose proof call_facts as (Hk & Hc & Hno & Hp). rewrite E in Hp, Hno. fold k in Hp.
  destruct Hp as (Hb & Hf & Hgl & Hl). pose proof (refs_cnt_ok s g prev Hi) as Hcnt.
  pose proof (word_at s g prev Hi) as Ew. rewrite (ok_victim _ _ Hcfg).
  rewrite Ew, pack_test_busy, pack_test_cnt, pack_test_dirty by done.
  destruct (busyb (gb g prev)) eqn:Eb; cbn [negb].
  { eexists. apply (inv_word_same s g t p prev _ (dirty s prev)); rewrite ?E; auto.
    - rewrite Ew, pack_or_busy by done. by rewrite Eb.
    - apply i_dirty, Hi.
    - split; [done|]. split; [done|]. split; [done|]. cbn. fold k. rewrite fn_ins.
      split; [by case_decide; subst|]. eauto. }
  assert (Hn : gb g prev = BNone) by (by destruct (gb g prev)).
  assert (Hne : prev <> k) by congruence.
  assert (Hcl : forall x t' b, in_cache x -> gf g x = FClaim t' prev -> b = BLoad t')
    by (intros x t' b Hx Hx'; apply (claim_load s g) in Hx'; congruence).
  destruct (Z.eqb_spec (refs (procs s) prev) 0) as [Er|Er]; cycle 1.
  { exists (set_gb g prev (BTry t)).
    apply (inv_word s g t p prev _ (BTry t) (dirty s prev)); eauto; rewrite ?E, ?Hn; auto; try done.
    - by rewrite Ew, pack_or_busy.
    - apply (dirty_valid s g); [done|]. intros t'. by rewrite Hn.
    - split; [done|]. split; [done|]. split; [done|]. cbn. fold k. by upd. }
  assert (Hres : gf g f = FRes prev).
  { destruct Hl as [?|[t' Hx]]; [done|]. apply (claim_load s g) in Hx; congruence. }
  assert (Hkp : key_ok cfg page_count prev).
  { pose proof (i_frame s g (v_glob s g Hi) f Hf) as H. unfold frame_ok in H. rewrite Hres in H. by destruct H as (_ & ? & _). }
  exists (set_gb g prev (BEvict t)).
  apply (inv_word s g t p prev _ (BEvict t) (dirty s prev)); eauto; rewrite ?E, ?Hn; auto; try done.
  - by case_match.
  - by rewrite Ew, pack_or_busy.
  - apply (dirty_valid s g); [done|]. intros t'. by rewrite Hn.
  - assert (Hd : dirty s prev = false -> disk_ok s prev)
      by (intros; apply (i_disk s g (v_glob s g Hi)); auto).
    split; [done|]. split; [done|]. cbn [p_pc p_key with_pc]. split; [by case_match|]. fold k.
    destruct (dirty s prev); cbn; upd; auto 10.
Qed.

Lemma step_ev_write f prev :
  p_pc p = FEvWrite f prev ->
  exists g', inv (goto (evict cfg s f prev) t (FEvAnd f prev)) g'.
Proof.
  intros E. pose proof call_facts as (Hk & Hc & Hno & Hp). rewrite E in Hp, Hno. fold k in Hp.
  destruct Hp as (Hb & Hf & Hgl & Hres & He & Hkp).
  destruct (evict_spec cfg page_count Hcfg s f prev Hkp) as (dk & Ewb & Hw1 & Hw2).
  pose proof (v_glob s g Hi) as []. pose proof (i_frame0 f Hf) as Hfr. unfold frame_ok in Hfr. rewrite Hres in Hfr.
  destruct Hfr as (_ & _ & Hv & _ & Hd). rewrite Ewb. set (s1 := set_media s (staging s) dk).
  assert (Hprev : disk_ok s1 prev) by (intros c Hcc; cbn; rewrite Hw1; done).
  assert (Hoth : forall k', key_ok cfg page_count k' -> disk_ok s k' -> disk_ok s1 k').
  { intros k' Hk' Hdk c Hcc. destruct (decide (k' = prev)) as [->|Hne]; [by apply Hprev|].
    cbn. rewrite Hw2; [by apply Hdk|]. intros [Hcp El]. apply Hne.
    eapply (backing_inj cfg page_count Hcfg); eauto. }
  exists g. apply (cache_move s g s1 g t p); auto; rewrite ?E; auto.
  - split; auto.
  - intros t' _. split; auto.
  - split; [done|]. split; [done|]. split; [done|]. cbn. auto 10.
Qed.

Lemma step_ev_and f prev :
  p_pc p = FEvAnd f prev ->
  exists g', inv (goto (upd_word s prev (fun w => Z.land w CNT_MASK)) t (FEvSet f)) g'.
Proof.
  intros E. pose proof call_facts as (Hk & Hc & Hno & Hp). rewrite E in Hp, Hno. fold k in Hp.
  destruct Hp as (Hb & Hf & Hgl & Hres & He & Hkp & Hdk). pose proof (refs_cnt_ok s g prev Hi) as Hcnt.
  pose proof (v_glob s g Hi) as []. unfold upd_word. rewrite (i_word0 prev), pack_and_cnt by done.
  set (s1 := set_words s _).
  assert (Hv1 : forall k', valid s1 k' = if decide (prev = k') then false else valid s k').
  { intros k'. unfold valid, s1. rewrite words_set. upd; [by rewrite pack_valid|done]. }
  assert (Hd1 : forall k', dirty s1 k' = if decide (prev = k') then false else dirty s k').
  { intros k'. unfold dirty, s1. rewrite words_set. upd; [by rewrite pack_dirty|done]. }
  assert (Hwd : forall k', words s1 k' = if decide (prev = k')
            then pack false false false (refs (procs s) prev) else words s k') by done.
  pose proof (i_frame0 f Hf) as Hfr. unfold frame_ok in Hfr. rewrite Hres in Hfr.
  destruct Hfr as (Htr & _ & Hv & Hof & _). assert (Hne : prev <> k) by congruence.
  exists (set_gf (set_gb g prev BNone) f (FVac t)).
  apply (cache_move s g s1 _ t p); auto; rewrite ?E; auto.
  - split.
    + intros k'. rewrite Hv1, Hd1, Hwd. cbn. upd; [done|apply i_word0].
    + intros f' Hf'. specialize (i_lock0 f' Hf'). unfold lock_ok, live in *. cbn. upd; [by rewrite Hgl in *|done].
    + intros f' Hf'. specialize (i_frame0 f' Hf'). unfold frame_ok in *. cbn [gf gb set_gf set_gb].
      rewrite fn_ins. case_decide as Ef; [by subst|]. destruct (gf g f') as [| |t' k'|k'] eqn:Eg; try done.
      * destruct i_frame0 as (? & ? & ? & ?). split_and!; try done. rewrite fn_ins. case_decide; congruence.
      * destruct i_frame0 as (? & ? & ? & ? & ?). rewrite Hv1. split_and!; try done. case_decide; [congruence|done].
    + intros k'. rewrite Hv1. case_decide; [done|]. intros Hvk. destruct (i_res0 k' Hvk) as (? & ? & Hg').
      split_and!; try done. cbn. upd; congruence.
    + intros k' t'. rewrite Hv1. cbn. upd; [done|apply i_load0].
    + intros k' Hk'. rewrite Hv1, Hd1. case_decide; [by subst|]. by apply i_disk0.
    + intros k'. rewrite Hv1, Hd1. cbn. upd; [done|apply i_dirty0].
  - assert (Ho : owner (gb g prev) = Some t) by (by rewrite He).
    intros t' Hne'. split; unfold live; cbn; try (intros; upd; auto; congruence).
    + intros k' Hl. rewrite Hd1. case_decide; [congruence|done].
    + intros k' Hvk Hnk _. rewrite Hv1, Hd1. case_decide; [subst; by destruct (Hnk t)|].
      split_and!; auto. intros t''. cbn. upd. apply Hnk.
  - split; [done|]. split; [done|]. split; [intros f' k' Hin; cbn; upd; [done|by apply Hno]|].
    cbn. fold k. by upd.
Qed.

Lemma step_unlock f ok :
  p_pc p = FUnlock f ok ->
  exists g', inv (goto (set_locks s (<[f := UNLOCKED]> (locks s))) t (if ok then AFill f else FTicket)) g'.
Proof.
  intros E. pose proof call_facts as (Hk & Hc & Hno & Hp). rewrite E in Hp, Hno. fold k in Hp.
  assert (Hp' : gb g k = BLoad t /\ in_cache f /\ gl g f = Some t /\ exists k', live g f k').
  { destruct ok; [|done]. destruct Hp as (? & ? & ? & ?). split_and!; try done; exists k. right. eauto. }
  destruct Hp' as (Hb & Hf & Hgl & k' & Hl). pose proof (v_glob s g Hi) as [].
  exists (set_gl g f None). apply (cache_move s g _ _ t p); auto; rewrite ?E; auto; [| | |destruct ok].
  - split; auto.
    + intros f' Hf'. specialize (i_lock0 f' Hf'). unfold lock_ok in *. cbn. upd; [right; eauto|done].
    + intros f' Hf'. specialize (i_frame0 f' Hf'). unfold frame_ok in *. cbn.
      destruct (gf g f') eqn:Eg; try done. upd; [|done]. destruct Hl as [Hl|[? Hl]]; by rewrite Eg in Hl.
  - intros t' Hne. split; auto; cbn; intros; upd; auto; congruence.
  - by destruct ok.
  - split; [done|]. split; [done|]. split; [done|]. cbn. by destruct Hp as (? & ? & ? & ?).
  - by split; [|split; [|split]].
Qed.

Lemma step_fill f : p_pc p = AFill f -> exists g', inv (goto (fill cfg s f k) t (ASetOffset f)) g'.
Proof.
  intros E. pose proof call_facts as (Hk & Hc & Hno & Hp). rewrite E in Hp, Hno. fold k in Hp, Hk.
  destruct Hp as (Hb & Hf & Hgf). pose proof (v_glob s g Hi) as [].
  assert (Hdk : disk_ok s k) by (apply i_disk0; [done|left; by eapply i_load0]).
  destruct (fill_spec cfg page_count Hcfg s f k Hk) as (ctrl & cc & Hctrl & ->).
  rewrite (Hdk ctrl Hctrl). exists g. apply (cache_move s g _ _ t p); auto; rewrite ?E; auto.
  - split; auto. intros f' Hf'. specialize (i_frame0 f' Hf'). unfold frame_ok in *. cbn.
    destruct (gf g f') eqn:Eg; try done. destruct i_frame0 as (? & ? & ? & ? & ?). split_and!; try done. upd; congruence.
  - intros t' Hne. split; auto. intros f' k' Hg'. split; [done|]. cbn. upd; congruence.
  - split; [done|]. split; [done|]. split; [done|]. cbn. fold k. by upd.
Qed.

(** *** Finishing a miss, and hits *)

Lemma step_set_offset f :
  p_pc p = ASetOffset f ->
  exists g', inv (goto (set_offsets s (<[k := f]> (offsets s))) t
                    (if p_write p then AOrDirty f else AXor f)) g'.
Proof.
  intros E. pose proof call_facts as (Hk & Hc & Hno & Hp). rewrite E in Hp, Hno. fold k in Hp, Hk.
  destruct Hp as (Hb & Hf & Hgf & Hfr). pose proof (v_glob s g Hi) as [].
  assert (Hv : valid s k = false) by (by eapply i_load0).
  exists g. apply (cache_move s g _ _ t p); auto; rewrite ?E; auto.
  - split; auto.
    + intros f' Hf'. specialize (i_frame0 f' Hf'). unfold frame_ok in *.
      destruct (gf g f') eqn:Eg; try done. destruct i_frame0 as (? & ? & Hv' & ? & ?).
      split_and!; try done. cbn. upd; [|done]. by rewrite Hv in Hv'.
    + intros k' Hv'. change (valid s k' = true) in Hv'. cbn. upd; [by rewrite Hv in Hv'|by apply i_res0].
  - intros t' Hne. split; auto; cbn.
    + intros k' Hl. split_and!; auto. upd; congruence.
    + intros k' Hv' Hn Hr. split_and!; auto. upd; congruence.
  - by destruct (p_write p).
  - split; [done|]. split; [done|]. cbn [p_pc p_key p_write with_pc].
    split; [by destruct (p_write p)|]. fold k.
    destruct (p_write p) eqn:Ew; cbn; upd; split_and!; auto; congruence.
Qed.

Lemma step_xor f :
  p_pc p = AXor f ->
  exists g', inv (goto (upd_word s k (fun w => Z.lxor w DISABLE_BUSY_ENABLE_VALID)) t (AHeld f)) g'.
Proof.
  intros E. pose proof call_facts as (Hk & Hc & Hno & Hp). rewrite E in Hp, Hno. fold k in Hp, Hk.
  destruct Hp as (Hb & Hf & Hgf & Hfr & Hof & Hd). pose proof (refs_cnt_ok s g k Hi) as Hcnt.
  pose proof (v_glob s g Hi) as []. assert (Hv : valid s k = false) by (by eapply i_load0).
  unfold upd_word. rewrite (i_word0 k), pack_xor, Hv, Hb by done. cbn [busyb negb]. set (s1 := set_words s _).
  assert (Hv1 : forall k', valid s1 k' = if decide (k = k') then true else valid s k').
  { intros k'. unfold valid, s1. rewrite words_set. upd; [by rewrite pack_valid|done]. }
  assert (Hd1 : forall k', dirty s1 k' = dirty s k').
  { intros k'. unfold dirty at 1, s1. rewrite words_set. upd; [by rewrite pack_dirty|done]. }
  assert (Hwd : forall k', words s1 k' = if decide (k = k')
            then pack true false (dirty s k) (refs (procs s) k) else words s k') by done.
  pose proof (i_frame0 f Hf) as Hff. unfold frame_ok in Hff. rewrite Hgf in Hff. destruct Hff as (Htr & _).
  assert (Ho : owner (gb g k) = Some t) by (by rewrite Hb).
  exists (set_gf (set_gb g k BNone) f (FRes k)).
  apply (cache_move s g s1 _ t p); auto; rewrite ?E; auto.
  - split.
    + intros k'. rewrite Hv1, Hd1, Hwd. cbn. upd; [done|apply i_word0].
    + intros f' Hf'. specialize (i_lock0 f' Hf'). unfold lock_ok, live in *. cbn. upd; [|done].
      case_match; [done|]. right. destruct i_lock0 as [[_ ?]|[? _]]; [congruence|]. eauto.
    + intros f' Hf'. specialize (i_frame0 f' Hf'). unfold frame_ok in *. cbn [gf gb set_gf set_gb].
      rewrite fn_ins. case_decide as Ef; [subst f'; rewrite Hv1, decide_True by done; auto 10|].
      destruct (gf g f') as [| |t' k'|k'] eqn:Eg; try done.
      * destruct i_frame0 as (? & ? & ? & ?). split_and!; try done. rewrite fn_ins.
        case_decide; [|done]. subst k'. assert (t' = t) as -> by congruence.
        apply Hno in Eg; [|done]. cbn in Eg. congruence.
      * destruct i_frame0 as (? & ? & ? & ? & ?). rewrite Hv1. split_and!; try done. by case_decide.
    + intros k'. rewrite Hv1. case_decide as Ek.
      * intros _. subst k'. change (offsets s1 k) with (offsets s k). rewrite Hof. split_and!; try done. cbn. by upd.
      * intros Hvk. destruct (i_res0 k' Hvk) as (? & ? & Hg'). split_and!; try done. cbn. upd; congruence.
    + intros k' t'. rewrite Hv1. cbn. upd; [done|apply i_load0].
    + intros k' Hk'. rewrite Hv1, Hd1. case_decide; [subst k'; intros _; apply i_disk0; auto|]. by apply i_disk0.
    + intros k'. rewrite Hv1, Hd1. cbn. upd; [by left|apply i_dirty0].
  - intros t' Hne'. split; unfold live; cbn; try (intros; upd; auto; congruence).
    + intros f' k' Hl Hlv. upd; [|done]. left. destruct Hlv as [?|[? ?]]; congruence.
    + intros k' Hl. by rewrite Hd1.
    + intros k' Hvk Hnk _. rewrite Hv1, Hd1. case_decide; [subst; by rewrite Hv in Hvk|].
      split_and!; auto. intros t''. cbn. upd. apply Hnk.
  - split; [done|]. split; [done|]. split; [intros f' k' Hin; cbn; upd; [done|]; intros Hx; apply Hno in Hx; [cbn in Hx; congruence|done]|].
    cbn. fold k. rewrite Hv1, Hd1, decide_True by done. split_and!; auto. intros t''. cbn. by upd.
Qed.

Lemma step_hit_offset : p_pc p = AHitOffset -> exists g', inv (goto s t (AHeld (offsets s k))) g'.
Proof.
  intros E. pose proof call_facts as (Hk & Hc & Hno & Hp). rewrite E in Hp, Hno. destruct Hp as (? & ? & ?).
  exists g. apply (inv_goto s g t p); auto; rewrite ?E; auto. split; [done|]. split; [done|]. split; [done|]. cbn. auto.
Qed.

(** *** Taking and dropping a reference *)

Lemma inv_count c' n :
  let s1 := set_words s (<[k := pack (valid s k) (busyb (gb g k)) (dirty s k) n]> (words s)) in
  cnt_ok n -> refs (procs s) k + (contrib k (with_pc p c') - contrib k p) = n ->
  p_pc p <> ADone -> proc_ok s1 g t (with_pc p c') -> inv (goto s1 t c') g.
Proof.
  intros s1 Hn En Hd Hok. pose proof call_facts as (Hk & Hc & _).
  pose proof (v_glob s g Hi) as Hg. destruct Hg. pose proof (v_procs s g Hi) as Hall.
  assert (Hv : forall k', valid s1 k' = valid s k').
  { intros k'. unfold valid at 1, s1. rewrite words_set. upd; [by rewrite pack_valid|done]. }
  assert (Hdd : forall k', dirty s1 k' = dirty s k').
  { intros k'. unfold dirty at 1, s1. rewrite words_set. upd; [by rewrite pack_dirty|done]. }
  assert (Hrefs : forall k', refs (procs (goto s1 t c')) k' = if decide (k = k') then n else refs (procs s) k').
  { intros k'. unfold refs, goto. cbn. rewrite (sum_alter (contrib k') _ _ p) by done.
    change (MkProc _ _ _ c') with (with_pc p c'). fold (refs (procs s) k'). case_decide as Ek.
    - rewrite <- En, Ek. lia.
    - unfold contrib. cbn. fold k. rewrite !bool_decide_false by done. rewrite !andb_false_r. lia. }
  split.
  - split.
    + intros k'. rewrite Hrefs. change (valid (goto s1 t c')) with (valid s1).
      change (dirty (goto s1 t c')) with (dirty s1). rewrite Hv, Hdd.
      change (words (goto s1 t c')) with (words s1). unfold s1. rewrite words_set. upd; [done|apply i_word0].
    + intros f Hf. exact (i_lock0 f Hf).
    + intros f Hf. specialize (i_frame0 f Hf). unfold frame_ok in *. change (valid (goto s1 t c')) with (valid s1).
      destruct (gf g f); try done; [|by rewrite Hv].
      destruct i_frame0 as (? & ? & ? & ?). split_and!; try done. cbn. by rewrite length_alter.
    + intros k'. change (valid (goto s1 t c')) with (valid s1). rewrite Hv. apply i_res0.
    + intros k' t'. change (valid (goto s1 t c')) with (valid s1). rewrite Hv. apply i_load0.
    + intros k'. change (valid (goto s1 t c')) with (valid s1). change (dirty (goto s1 t c')) with (dirty s1).
      rewrite Hv, Hdd. apply i_disk0.
    + intros k'. change (valid (goto s1 t c')) with (valid s1). change (dirty (goto s1 t c')) with (dirty s1).
      rewrite Hv, Hdd. apply i_dirty0.
  - eapply Z.le_lt_trans; [|exact (v_pend s g Hi)]. by apply (pending_goto s1 t p c').
  - intros t' p' H. unfold goto in H. cbn in H. destruct (decide (t' = t)) as [->|Hne].
    + rewrite list_lookup_alter_eq, Ht in H. injection H as <-. exact Hok.
    + rewrite list_lookup_alter_ne in H by done. apply (rely_proc_ok s g s1 g t' p'); [|done..].
      split; auto; intros k'; rewrite ?Hv, ?Hdd; auto.
Qed.

Lemma contrib_le_pending : contrib k p <= refs (procs s) k /\
  (p_pc p = AAdd -> refs (procs s) k + p_count p < 2 ^ 29).
Proof.
  pose proof (v_procs s g Hi) as Hall. split.
  - apply (sum_pos (contrib k) (procs s) t p); [|done]. intros t' q Hq.
    destruct (Hall t' q Hq) as (_ & ? & _). unfold contrib. case_match; lia.
  - intros E. eapply Z.le_lt_trans; [|exact (v_pend s g Hi)].
    pose proof (sum_alter todo (procs s) t p (fun p => with_pc p ADone) Ht) as Hs.
    pose proof (sum_alter (contrib k) (procs s) t p (fun p => with_pc p ADone) Ht) as Hs'.
    cbn beta in Hs, Hs'.
    assert (Hp1 : todo p = p_count p) by (unfold todo; by rewrite E).
    assert (Hp2 : contrib k p = 0) by (unfold contrib; by rewrite E).
    change (todo (with_pc p ADone)) with 0 in Hs. change (contrib k (with_pc p ADone)) with 0 in Hs'.
    assert (Hle : foldr (fun p n => contrib k p + n) 0 (alter (fun p => with_pc p ADone) t (procs s)) <=
                  foldr (fun p n => todo p + n) 0 (alter (fun p => with_pc p ADone) t (procs s))).
    { apply sum_le. intros t' q Hq. assert (Hc : 0 < p_count q).
      { destruct (decide (t' = t)) as [->|].
        - rewrite list_lookup_alter_eq, Ht in Hq. injection Hq as <-. by destruct call_facts as (_ & ? & _).
        - rewrite list_lookup_alter_ne in Hq by done. by destruct (Hall t' q Hq) as (_ & ? & _). }
      unfold contrib, todo. destruct (p_pc q); cbn; try lia; case_match; lia. }
    unfold pending, refs. lia.
Qed.

Lemma step_add :
  p_pc p = AAdd ->
  exists g', inv (goto (upd_word s k (fun w => u32 (w + p_count p))) t
                    (dispatch (p_write p) (words s k))) g'.
Proof.
  intros E. pose proof call_facts as (Hk & Hc & Hno & _). rewrite E in Hno. exists g.
  pose proof (refs_cnt_ok s g k Hi) as Hcnt. destruct contrib_le_pending as [_ Hb]. specialize (Hb E).
  assert (Hn : cnt_ok (refs (procs s) k + p_count p)) by (unfold cnt_ok in *; lia).
  unfold upd_word. replace (u32 (words s k + p_count p))
    with (pack (valid s k) (busyb (gb g k)) (dirty s k) (refs (procs s) k + p_count p))
    by (rewrite (word_at s g k Hi) at 1; by rewrite pack_add).
  apply inv_count; auto; [|by rewrite E|].
  - unfold contrib. cbn. rewrite E, holds_dispatch, bool_decide_true by done. cbn. lia.
  - apply dispatch_ok; auto; unfold valid, dirty; rewrite words_set; rewrite decide_True by done.
    + by rewrite pack_valid.
    + by rewrite pack_dirty.
Qed.

Lemma step_release f :
  p_pc p = AHeld f -> exists g', inv (goto (release_page s k (p_count p)) t ADone) g'.
Proof.
  intros E. pose proof call_facts as (Hk & Hc & Hno & _). rewrite E in Hno. exists g.
  pose proof (refs_cnt_ok s g k Hi) as Hcnt. destruct contrib_le_pending as [Hb _].
  unfold contrib in Hb. rewrite E, bool_decide_true in Hb by done. cbn in Hb.
  assert (Hn : cnt_ok (refs (procs s) k - p_count p)) by (unfold cnt_ok in *; lia).
  unfold release_page, upd_word. replace (u32 (words s k - p_count p))
    with (pack (valid s k) (busyb (gb g k)) (dirty s k) (refs (procs s) k - p_count p))
    by (rewrite (word_at s g k Hi) at 1; by rewrite pack_sub).
  apply inv_count; auto; [|by rewrite E|by split; [|split; [|split]]].
  unfold contrib. cbn. rewrite E, bool_decide_true by done. cbn. lia.
Qed.

(** *** A write by the holder *)

Lemma step_write f d :
  p_pc p = AHeld f -> p_write p = true ->
  inv (set_data s (ctrl_counter s) (<[f := d]> (frames s)) (<[k := d]> (g_mem s))) g.
Proof.
  intros E Ew. pose proof call_facts as (Hk & Hc & Hno & Hp). rewrite E in Hp. fold k in Hp, Hk.
  destruct Hp as (Hv & Hn & Hd & Hof). specialize (Hd Ew). pose proof (v_glob s g Hi) as [].
  destruct (i_res0 k Hv) as (_ & Hf & Hres). rewrite Hof in Hf, Hres.
  set (s1 := set_data s _ _ _).
  assert (Hdk : forall k', k' <> k -> disk_ok s k' -> disk_ok s1 k').
  { intros k' Hne H c Hcc. cbn. rewrite fn_ins, decide_False by done. by apply H. }
  split; [split; auto|exact (v_pend s g Hi)|].
  - intros f' Hf'. specialize (i_frame0 f' Hf'). unfold frame_ok in *. change (valid s1) with (valid s).
    destruct (gf g f') as [| | |k'] eqn:Eg; try done. destruct i_frame0 as (? & ? & ? & ? & ?).
    split_and!; try done. cbn. rewrite !fn_ins. repeat case_decide; try done; congruence.
  - intros k' Hk' Hor. change (valid s1) with (valid s) in Hor. change (dirty s1) with (dirty s) in Hor.
    apply Hdk; [|by apply i_disk0]. intros ->. rewrite Hv, Hd in Hor. by destruct Hor.
  - intros t' p' Hp'. apply (rely_proc_ok s g s1 g t' p'); [|apply (v_procs s g Hi)|done].
    split; auto.
    + intros f' k' Hg'. split; [done|]. cbn. rewrite fn_ins. case_decide; [congruence|done].
    + intros k' Hl. split_and!; auto. cbn. rewrite fn_ins. case_decide; [|done]. subst k'.
      apply i_load0 in Hl. congruence.
    + intros k' He _. apply Hdk. intros ->. by apply (Hn t').
Qed.
End steps.

(** ** Reachable states *)

(** A step: a new call on a page of a range, or an access of a call in progress. *)
Inductive cache_step : @cache_state D -> @cache_state D -> Prop :=
  | cache_call s k count write :
      key_ok cfg page_count k -> 0 < count ->
      cache_step s (set_procs s (procs s ++ [MkProc k count write AAdd]))
  | cache_proc s t a s' : proc_step cfg s t a = Some s' -> cache_step s s'.

(** The references of the calls in progress fit the 29-bit count, which nothing in the
    code checks; the theorems are about runs in which they do. *)
Definition bounded (s : @cache_state D) : Prop := pending (procs s) < 2 ^ 29.
Definition bounded_step (s s' : @cache_state D) : Prop := cache_step s s' /\ bounded s'.

(** After the constructors: all pages invalid, all cache pages free, no call, and
    controllers that agree on the contents they hold. *)
Definition cache_init (s : @cache_state D) : Prop :=
  (forall k, words s k = INVALID) /\ (forall f, in_cache f -> locks s f = FREE) /\
  procs s = [] /\ (forall k, key_ok cfg page_count k -> disk_ok s k).

Definition ghost0 : ghost := MkGhost (fun _ => BNone) (fun _ => None) (fun _ => FFree).

Lemma cache_init_inv s : cache_init s -> inv s ghost0.
Proof.
  intros (Hw & Hl & Hp & Hd).
  assert (Hv : forall k, valid s k = false) by (intros k; unfold valid; by rewrite Hw).
  assert (Hdd : forall k, dirty s k = false) by (intros k; unfold dirty; by rewrite Hw).
  split; [split| |]; rewrite ?Hp; try done.
  - intros k. by rewrite Hw, Hv, Hdd.
  - intros f Hf. left. split; [by apply Hl|done].
  - intros k. by rewrite Hv.
  - auto.
  - intros k. by rewrite Hdd.
Qed.

Lemma cache_inv_call s g k count write :
  inv s g -> key_ok cfg page_count k -> 0 < count ->
  bounded (set_procs s (procs s ++ [MkProc k count write AAdd])) ->
  inv (set_procs s (procs s ++ [MkProc k count write AAdd])) g.
Proof.
  intros Hi Hk Hc Hpend. assert (Hsum : forall m p, foldr (fun p n => m p + n) 0 (procs s ++ [p]) =
    foldr (fun p n => m p + n) 0 (procs s) + m p).
  { intros m p. generalize (procs s). intros l. induction l as [|q l IH]; cbn; [lia|]. rewrite IH. lia. }
  split.
  - apply glob_procs; [apply Hi|rewrite length_app; lia|]. intros k'. unfold refs. rewrite Hsum. cbn. lia.
  - exact Hpend.
  - intros t p H. cbn in H. apply lookup_snoc_Some in H as [[_ H]|[-> <-]].
    + by apply (v_procs s g Hi).
    + split; [done|]. split; [done|]. split; [|done]. intros f k' Hin Hf.
      pose proof (i_frame s g (v_glob s g Hi) f Hin) as Hfr. unfold frame_ok in Hfr. rewrite Hf in Hfr.
      destruct Hfr as (_ & _ & _ & ?). lia.
Qed.

Lemma acquire_step_inv s g t p s' :
  inv s g -> procs s !! t = Some p -> acquire_step cfg s t p = Some s' -> exists g', inv s' g'.
Proof.
  intros Hi Ht. unfold acquire_step, acquire_load, acquire_hit, find_slot_step, find_slot_end.
  pose proof (v_procs s g Hi t p Ht) as (_ & _ & _ & Hp).
  destruct (p_pc p) eqn:E; intros Hs; try discriminate Hs; try done; apply (inj Some) in Hs; rewrite <- Hs; clear Hs.
  - by apply (step_add s g t p).
  - by apply (step_or_busy s g t p).
  - by apply (step_undo s g t p).
  - by apply (step_load s g t p).
  - by apply (step_ticket s g t p).
  - by apply (step_lock_load s g t p).
  - by apply (step_cas s g t p).
  - apply (step_set s g t p); auto.
  - by apply (step_ev_load s g t p).
  - by apply (step_ev_or s g t p).
  - by apply (step_ev_undo s g t p).
  - by apply (step_ev_write s g t p).
  - by apply (step_ev_and s g t p).
  - apply (step_set s g t p); auto.
  - by apply (step_unlock s g t p).
  - by apply (step_fill s g t p).
  - by apply (step_set_offset s g t p).
  - by apply (step_or_dirty s g t p).
  - by apply (step_xor s g t p).
  - by apply (step_hit_dirty s g t p).
  - by apply (step_hit_offset s g t p).
Qed.

Lemma cache_step_inv s g s' : inv s g -> bounded_step s s' -> exists g', inv s' g'.
Proof.
  intros Hi [Hs Hb]. destruct Hs as [s k count write Hk Hc|s t a s' H]; [eauto using cache_inv_call|].
  unfold proc_step in H. destruct (procs s !! t) as [p|] eqn:Ht; [|done].
  destruct a.
  - by apply (acquire_step_inv s g t p).
  - destruct (p_pc p) eqn:E; simplify_eq. by apply (step_cas_fail s g t p Hi Ht page v).
  - destruct (p_pc p) eqn:E; try done. destruct (p_write p) eqn:Ew; simplify_eq.
    exists g. by apply (step_write s g t p).
  - destruct (p_pc p) eqn:E; simplify_eq. by apply (step_release s g t p Hi Ht page).
Qed.

Lemma cache_reachable s0 s : cache_init s0 -> rtc bounded_step s0 s -> exists g, inv s g.
Proof.
  intros H0 Hr. assert (Hg : exists g, inv s0 g) by (eauto using cache_init_inv).
  clear H0. induction Hr as [|x y z Hxy _ IH]; [done|]. destruct Hg as [g Hg].
  apply IH. by eapply cache_step_inv.
Qed.
End inv.
End PcInv.
