(* ===== verification/PageCacheSpec.v ===== *)
(** What the page cache promises: coherence with a flat memory, stable frames for
    held pages, exact reference counts, a flush that reaches the media and a
    [find_slot] that ends. *)
From Stdlib Require Import ZArith Lia List Bool.
From stdpp Require Import base list numbers relations functions.
From S2P Require Import Prelude PageCache PageCacheInv.

Import ListNotations.
Local Open Scope Z_scope.

Module PcSpec.
Import Pc PcInv.

Section spec.
  Context {D : Type} (cfg : page_cache_d_t) (page_count : Z -> Z).
  Context (Hcfg : cfg_ok cfg page_count).
  Implicit Types s : @cache_state D.

Lemma held_facts s g t p f :
  inv cfg page_count s g -> procs s !! t = Some p -> p_pc p = AHeld f ->
  in_cache cfg f /\ valid s (p_key p) = true /\ offsets s (p_key p) = f /\
  trans s f = get_global_address cfg (p_key p) /\ frames s f = g_mem s (p_key p).
Proof.
  intros Hi Ht E. destruct (v_procs _ _ s g Hi t p Ht) as (Hk & _ & _ & Hp). rewrite E in Hp.
  destruct Hp as (Hv & _ & _ & <-). destruct (v_glob _ _ s g Hi).
  destruct (i_res0 _ Hv) as (_ & Hf & Hres). specialize (i_frame0 _ Hf). unfold frame_ok in i_frame0.
  rewrite Hres in i_frame0. by destruct i_frame0 as (? & _ & ? & _ & ?).
Qed.

(** C1: The page cache is coherent with a flat memory: in every interleaving of any
    number of calls, evictions and write-backs, the frame returned by
    [acquire_page] holds, until the page is released, the last contents written to
    that page by any client (or the media's, if none).  For configurations [cfg_ok]
    (the constructor's defaults, no victim buffer, scheduler queues with one controller
    only, disjoint ranges within 64 bits) and runs whose references in flight fit the
    29-bit count ([bounded_step]). *)
Theorem page_cache_coherent s0 s t p f :
  cache_init cfg page_count s0 -> rtc (bounded_step cfg page_count) s0 s ->
  procs s !! t = Some p -> p_pc p = AHeld f ->
  0 <= f < n_pages cfg /\ frames s f = g_mem s (p_key p).
Proof.
  intros H0 Hr Ht E. destruct (cache_reachable cfg page_count Hcfg s0 s H0 Hr) as [g Hi].
  by destruct (held_facts s g t p f Hi Ht E) as (? & _ & _ & _ & ?).
Qed.

(** C9: Two calls that hold pages at the same time hold the same frame exactly when
    they hold the same page: no frame is shared, no page is cached twice.  For
    configurations [cfg_ok] and runs of [bounded_step], as for coherence. *)
Theorem page_cache_exclusive s0 s t p f t' p' f' :
  cache_init cfg page_count s0 -> rtc (bounded_step cfg page_count) s0 s ->
  procs s !! t = Some p -> p_pc p = AHeld f -> procs s !! t' = Some p' -> p_pc p' = AHeld f' ->
  f = f' <-> p_key p = p_key p'.
Proof.
  intros H0 Hr Ht E Ht' E'. destruct (cache_reachable cfg page_count Hcfg s0 s H0 Hr) as [g Hi].
  destruct (held_facts s g t p f Hi Ht E) as (_ & _ & Ho & Htr & _).
  destruct (held_facts s g t' p' f' Hi Ht' E') as (_ & _ & Ho' & Htr' & _).
  destruct (v_procs _ _ s g Hi t p Ht) as (Hk & _). destruct (v_procs _ _ s g Hi t' p' Ht') as (Hk' & _).
  split; [|congruence]. intros <-. apply (ga_inj cfg page_count Hcfg); congruence.
Qed.

(** C19: In configurations [cfg_ok] and as long as the references in flight are fewer
    than 2^29 ([bounded_step]), the count field of a page's state is the sum of the
    counts of the calls that have taken a reference and not released it; so a page that
    a call holds has a non-zero count, and an eviction that meets it gives up. *)
Theorem page_refcount_exact s0 s k :
  cache_init cfg page_count s0 -> rtc (bounded_step cfg page_count) s0 s ->
  Z.land (words s k) CNT_MASK = refs (procs s) k /\
  forall t p f, procs s !! t = Some p -> p_pc p = AHeld f -> p_key p = k ->
    0 < p_count p <= Z.land (words s k) CNT_MASK.
Proof.
  intros H0 Hr. destruct (cache_reachable cfg page_count Hcfg s0 s H0 Hr) as [g Hi].
  pose proof (refs_cnt_ok cfg page_count s g k Hi) as Hc.
  assert (E : Z.land (words s k) CNT_MASK = refs (procs s) k)
    by (by rewrite (word_at cfg page_count s g k Hi), pack_and_cnt).
  split; [done|]. intros t p f Ht Ef <-. rewrite E.
  pose proof (v_procs _ _ s g Hi t p Ht) as (_ & Hcp & _). split; [done|].
  pose proof (contrib_le_pending cfg page_count s g t p Hi Ht) as [Hle _].
  unfold contrib in Hle. by rewrite Ef, bool_decide_true in Hle.
Qed.

(** ** Owners of [BUSY] bits and of locks *)

(** The pages a call has marked [BUSY], and the cache page it has locked. *)
Definition busy_keys (p : proc) : list key :=
  match p_pc p with
  | AAdd | AOrBusy | ALoad | AHitDirty | AHitOffset | AHeld _ | ADone => []
  | FEvUndo _ prev | FEvWrite _ prev | FEvAnd _ prev | FEvTicket _ prev | FEvClaim _ prev _
  | FEvSwap _ prev _ | FEvStore _ prev _ | FEvForget _ prev _ | FEvFull _ prev => [p_key p; prev]
  | _ => [p_key p]
  end.
Definition lock_of (p : proc) : option Z :=
  match p_pc p with
  | FSetFree f | FEvLoad f | FEvOr f _ | FEvUndo f _ | FEvWrite f _ | FEvAnd f _ | FEvSet f
  | FEvTicket f _ | FEvClaim f _ _ | FEvSwap f _ _ | FEvStore f _ _ | FEvForget f _ _ | FEvFull f _
  | FUnlock f _ => Some f
  | _ => None
  end.

Record owned s : Prop := {
  o_busy : forall k, is_busy (words s k) = true ->
    exists t p, procs s !! t = Some p /\ k ∈ busy_keys p;
  o_lock : forall f, in_cache cfg f -> locks s f = LOCKED ->
    exists t p, procs s !! t = Some p /\ lock_of p = Some f
}.

(** Call [t] moves to [c']; what it no longer owns must be clear. *)
Lemma owned_goto s s1 t p c' :
  owned s -> procs s !! t = Some p -> procs s1 = procs s ->
  (forall k, is_busy (words s1 k) = true -> k ∈ busy_keys (with_pc p c') \/
     (is_busy (words s k) = true /\ k ∉ busy_keys p)) ->
  (forall f, in_cache cfg f -> locks s1 f = LOCKED -> lock_of (with_pc p c') = Some f \/
     (locks s f = LOCKED /\ lock_of p <> Some f)) ->
  owned (goto s1 t c').
Proof.
  intros [Hb Hl] Ht Hp Hb1 Hl1.
  assert (Hself : procs (goto s1 t c') !! t = Some (with_pc p c'))
    by (unfold goto; cbn; by rewrite list_lookup_alter_eq, Hp, Ht).
  assert (Hoth : forall t' q, t' <> t -> procs s !! t' = Some q -> procs (goto s1 t c') !! t' = Some q)
    by (intros t' q Hne Hq; unfold goto; cbn; by rewrite list_lookup_alter_ne, Hp).
  split.
  - intros k Hk. destruct (Hb1 k Hk) as [?|[Hk' Hn]]; [eauto|]. destruct (Hb k Hk') as (t' & q & Hq & Hin).
    exists t', q. split; [|done]. apply Hoth; [|done]. intros ->. congruence.
  - intros f Hf Hk. destruct (Hl1 f Hf Hk) as [?|[Hk' Hn]]; [eauto|]. destruct (Hl f Hf Hk') as (t' & q & Hq & Hin).
    exists t', q. split; [|done]. apply Hoth; [|done]. intros ->. congruence.
Qed.

Section owned_steps.
  Context (s : @cache_state D) (g : ghost) (t : nat) (p : proc).
  Context (Hi : inv cfg page_count s g) (Ho : owned s) (Ht : procs s !! t = Some p).

(** Steps that leave words and locks alone. *)
Lemma owned_same s1 c' :
  procs s1 = procs s -> words s1 = words s -> locks s1 = locks s ->
  busy_keys p ⊆ busy_keys (with_pc p c') -> lock_of p = lock_of (with_pc p c') ->
  owned (goto s1 t c').
Proof.
  intros Hp Hw Hl Hsub Hlk. apply (owned_goto s s1 t p); auto.
  - intros k. rewrite Hw. intros Hk. destruct (decide (k ∈ busy_keys p)); [left; auto|by right].
  - intros f Hf. rewrite Hl. intros Hk. destruct (decide (lock_of p = Some f)); [left; congruence|by right].
Qed.

(** Steps that update one word. *)
Lemma owned_word k f c' :
  (forall k', k' <> k -> k' ∈ busy_keys p -> k' ∈ busy_keys (with_pc p c')) ->
  (is_busy (f (words s k)) = true -> k ∈ busy_keys (with_pc p c') \/
     (is_busy (words s k) = true /\ k ∉ busy_keys p)) ->
  lock_of p = lock_of (with_pc p c') ->
  owned (goto (upd_word s k f) t c').
Proof.
  intros Hsub Hk Hlk. apply (owned_goto s _ t p); auto.
  - intros k'. unfold upd_word. rewrite words_set. case_decide; [subst; auto|]. intros Hb.
    destruct (decide (k' ∈ busy_keys p)); [left; auto|by right].
  - intros f' Hf' Hl. destruct (decide (lock_of p = Some f')); [left; congruence|by right].
Qed.

(** Steps that update one lock. *)
Lemma owned_lock f v c' :
  busy_keys p = busy_keys (with_pc p c') ->
  (v = LOCKED -> lock_of (with_pc p c') = Some f) ->
  (forall f', lock_of p = Some f' -> f' = f) ->
  owned (goto (set_locks s (<[f := v]> (locks s))) t c').
Proof.
  intros Hb Hv Hlk. apply (owned_goto s _ t p); auto.
  - intros k Hk. destruct (decide (k ∈ busy_keys p)); [left; congruence|by right].
  - intros f' Hf'. cbn. rewrite fn_ins. case_decide; [subst; auto|]. intros Hl. right. split; [done|].
    intros E. apply Hlk in E. congruence.
Qed.

Lemma busy_word k v b d c : words s k = pack v b d c -> cnt_ok c -> is_busy (words s k) = b.
Proof. intros -> Hc. by apply pack_busy. Qed.

Lemma owned_acquire s' : acquire_step cfg s t p = Some s' -> owned s'.
Proof.
  pose proof (v_procs _ _ s g Hi t p Ht) as (Hk & Hcp & _ & Hp).
  assert (Hw : forall k, words s k = pack (valid s k) (busyb (gb g k)) (dirty s k) (refs (procs s) k))
    by (intros k; by apply (word_at cfg page_count)).
  assert (Hc : forall k, cnt_ok (refs (procs s) k)) by (intros k; by apply (refs_cnt_ok cfg page_count s g)).
  assert (Hbw : forall k, is_busy (words s k) = busyb (gb g k)) by (intros k; by eapply busy_word).
  assert (Hd : forall r, busy_keys (with_pc p (dispatch (p_write p) r)) = [] /\
                        lock_of (with_pc p (dispatch (p_write p) r)) = None)
    by (intros r; unfold dispatch; by repeat case_match).
  assert (HB : busy_keys p = busy_keys (with_pc p (p_pc p))) by (by destruct p).
  assert (HL : lock_of p = lock_of (with_pc p (p_pc p))) by (by destruct p).
  unfold acquire_step, acquire_load, acquire_hit, find_slot_step, find_slot_end.
  rewrite (ok_victim _ _ Hcfg). destruct (p_pc p) eqn:E; intros Hs; try discriminate Hs; try done;
    apply (inj Some) in Hs; rewrite <- Hs; clear Hs s'; cbn in HB, HL.
  - destruct (Hd (words s (p_key p))) as [Hd1 Hd2]. apply owned_word; rewrite ?Hd1, ?Hd2, ?HB, ?HL; try done.
    intros Hb. right. split; [|apply not_elem_of_nil].
    pose proof (contrib_le_pending cfg page_count s g t p Hi Ht) as [_ Hlt]. specialize (Hlt E).
    specialize (Hc (p_key p)). rewrite Hw, pack_add, pack_busy in Hb by (unfold cnt_ok in *; lia). by rewrite Hbw.
  - apply owned_word.
    + rewrite HB. intros k' _ []%not_elem_of_nil.
    + intros _. rewrite Hw, pack_test_busy, pack_invalid, HB by done. destruct (busyb (gb g (p_key p))) eqn:Eb; cbn.
      * right. rewrite pack_busy by done. split; [done|apply not_elem_of_nil].
      * left. destruct (valid s (p_key p)); apply list_elem_of_here.
    + by repeat case_match.
  - apply owned_word; [|rewrite Hw, pack_and_nobusy, pack_busy by done; done|done].
    rewrite HB. intros k' Hne Hin%list_elem_of_singleton. done.
  - destruct (Hd (words s (p_key p))) as [Hd1 Hd2]. apply owned_same; rewrite ?Hd1, ?Hd2, ?HB, ?HL; done.
  - apply owned_same; rewrite ?HB, ?HL; done.
  - apply owned_same; rewrite ?HB, ?HL; [done..| |]; by repeat case_match.
  - destruct Hp as (_ & _ & Hv). destruct (Z.eqb_spec (locks s page) v).
    + apply owned_lock; rewrite ?HB, ?HL; [by case_match|intros _; by case_match|done].
    + apply owned_same; rewrite ?HB, ?HL; done.
  - apply owned_same; rewrite ?HB, ?HL; done.
  - apply owned_same; rewrite ?HB, ?HL; [done..| |]; by case_match.
  - apply owned_word.
    + rewrite HB. intros k' _ Hin%list_elem_of_singleton. subst k'. repeat case_match; apply list_elem_of_here.
    + intros _. rewrite Hw, pack_test_busy, HB by done. destruct (busyb (gb g prev)) eqn:Eb; cbn [negb].
      * rewrite pack_busy by done. destruct (decide (prev = p_key p)) as [->|Hne].
        -- left. apply list_elem_of_here.
        -- right. split; [done|]. by intros ?%list_elem_of_singleton.
      * left. repeat case_match; right; apply list_elem_of_here.
    + by repeat case_match.
  - apply owned_word; [|rewrite Hw, pack_and_nobusy, pack_busy by done; done|done].
    rewrite HB. intros k' Hne. rewrite !list_elem_of_In. cbn. naive_solver.
  - destruct Hp as (_ & _ & _ & _ & _ & Hkp).
    destruct (evict_spec cfg page_count Hcfg s page prev Hkp) as (dk & -> & _).
    apply owned_same; rewrite ?HB, ?HL; done.
  - apply owned_word; [|rewrite Hw, pack_and_cnt, pack_busy by done; done|done].
    rewrite HB. intros k' Hne. rewrite !list_elem_of_In. cbn. naive_solver.
  - apply owned_same; rewrite ?HB, ?HL; done.
  - apply owned_lock; rewrite ?HB, ?HL; [by case_match|done|]. by intros f' [= ->].
  - apply owned_same; rewrite ?HB, ?HL; try done; unfold fill; by destruct (read_ctrl cfg s _).
  - apply owned_same; rewrite ?HB, ?HL; [done..| |]; by case_match.
  - apply owned_word; rewrite ?HB, ?HL; try done. intros _. left. apply list_elem_of_here.
  - destruct Hp as (Hb & _). apply owned_word; rewrite ?HB, ?HL; try done.
    + intros k' Hne Hin%list_elem_of_singleton. done.
    + by rewrite Hw, pack_xor, pack_busy, Hb.
  - apply owned_word; rewrite ?HB, ?HL; try done.
    rewrite Hw, pack_or_dirty, !pack_busy by done. intros Hb. right. split; [done|apply not_elem_of_nil].
  - apply owned_same; rewrite ?HB, ?HL; done.
Qed.

Lemma owned_release f : p_pc p = AHeld f -> owned (goto (release_page s (p_key p) (p_count p)) t ADone).
Proof.
  intros E. pose proof (contrib_le_pending cfg page_count s g t p Hi Ht) as [Hlt _].
  unfold contrib in Hlt. rewrite E, bool_decide_true in Hlt by done. cbn in Hlt.
  pose proof (refs_cnt_ok cfg page_count s g (p_key p) Hi) as Hc.
  pose proof (v_procs _ _ s g Hi t p Ht) as (_ & Hcp & _).
  apply owned_word; unfold busy_keys, lock_of; cbn; rewrite ?E; try done.
  rewrite (word_at cfg page_count s g (p_key p) Hi), pack_sub, !pack_busy by (unfold cnt_ok in *; lia).
  intros Hb. right. split; [done|apply not_elem_of_nil].
Qed.
End owned_steps.

Lemma owned_step s g s' :
  inv cfg page_count s g -> owned s -> cache_step cfg page_count s s' -> owned s'.
Proof.
  intros Hi Ho Hs. destruct Hs as [s k count write Hk Hc|s t a s' H].
  - destruct Ho as [Hb Hl]. assert (Hoth : forall t p x, procs s !! t = Some p -> (procs s ++ [x]) !! t = Some p)
      by (intros t p x Hp'; rewrite lookup_app_l; [done|by eapply lookup_lt_Some]).
    split; cbn.
    + intros k' (t & p & Hp' & ?)%Hb. eauto.
    + intros f Hf (t & p & Hp' & ?)%Hl; eauto.
  - unfold proc_step in H. destruct (procs s !! t) as [p|] eqn:Ht; [|done]. destruct a.
    + by eapply (owned_acquire s g t p).
    + destruct (p_pc p) eqn:E; try done. apply (inj Some) in H. rewrite <- H.
      apply (owned_same s t p); try done; unfold busy_keys, lock_of; cbn; by rewrite E.
    + destruct (p_pc p) eqn:E; try done. destruct (p_write p); [|done]. apply (inj Some) in H. rewrite <- H.
      by destruct Ho.
    + destruct (p_pc p) eqn:E; try done. apply (inj Some) in H. rewrite <- H.
      by apply (owned_release s g t p Hi Ho Ht page).
Qed.

Lemma owned_reachable s0 s :
  cache_init cfg page_count s0 -> rtc (bounded_step cfg page_count) s0 s -> owned s.
Proof.
  intros H0 Hr. assert (Hs : (exists g, inv cfg page_count s g) /\ owned s); [|by destruct Hs].
  revert s Hr. apply (rtc_ind_r (R := bounded_step cfg page_count)).
  - split; [exists ghost0; by apply cache_init_inv|]. destruct H0 as (Hw & Hl & Hp & _). split.
    + intros k. by rewrite Hw.
    + intros f Hf E. by rewrite (Hl f Hf) in E.
  - intros y z _ Hyz ([g Hi] & Ho). split; [by eapply cache_step_inv|].
    destruct Hyz. by eapply owned_step.
Qed.

(** ** Flush *)

(** A quiet cache whose cache pages are all in use: every cache page holds the
    page its translation names. *)
Record quiet s : Prop := {
  q_frame : forall f, in_cache cfg f -> exists k, trans s f = get_global_address cfg k /\
    key_ok cfg page_count k /\ valid s k = true /\ offsets s k = f /\ frames s f = g_mem s k;
  q_res : forall k, valid s k = true -> in_cache cfg (offsets s k) /\
    trans s (offsets s k) = get_global_address cfg k /\ key_ok cfg page_count k;
  q_word : forall k, exists c, cnt_ok c /\ words s k = pack (valid s k) false (dirty s k) c;
  q_disk : forall k, key_ok cfg page_count k -> valid s k = false \/ dirty s k = false -> disk_ok cfg s k;
  q_dirty : forall k, dirty s k = true -> valid s k = true
}.

Lemma inv_quiet s g :
  inv cfg page_count s g -> owned s -> (forall f, in_cache cfg f -> locks s f <> FREE) ->
  Forall (fun p => p_pc p = ADone) (procs s) -> quiet s.
Proof.
  intros Hi [Hob Hol] Hnf Hdone.
  assert (Hb : forall k, is_busy (words s k) = false).
  { intros k. apply not_true_is_false. intros (t & p & Hp & Hin)%Hob.
    pose proof (Forall_lookup_1 _ _ _ _ Hdone Hp) as E. unfold busy_keys in Hin. rewrite E in Hin.
    by apply not_elem_of_nil in Hin. }
  assert (Hl : forall f, in_cache cfg f -> locks s f = UNLOCKED).
  { intros f Hf. pose proof (i_lock _ _ _ _ (v_glob _ _ s g Hi) f Hf) as H. unfold lock_ok in H.
    destruct (gl g f); [|destruct H as [[? _]|[? _]]; [by destruct (Hnf f Hf)|done]].
    destruct (Hol f Hf H) as (t & p & Hp & Hin). pose proof (Forall_lookup_1 _ _ _ _ Hdone Hp) as E.
    unfold lock_of in Hin. by rewrite E in Hin. }
  pose proof (v_glob _ _ s g Hi) as [].
  assert (Hw : forall k, busyb (gb g k) = false).
  { intros k. rewrite <- (Hb k), i_word0, pack_busy; [done|]. by eapply refs_cnt_ok. }
  assert (Hfr : forall f, in_cache cfg f -> exists k, gf g f = FRes k).
  { intros f Hf. specialize (i_lock0 f Hf). unfold lock_ok in i_lock0. rewrite (Hl f Hf) in i_lock0.
    destruct (gl g f); [done|]. destruct i_lock0 as [[? _]|(_ & k & [?|[t E]])]; [done|eauto|].
    apply (claim_load cfg page_count s g f t k Hi Hf) in E. specialize (Hw k). by rewrite E in Hw. }
  split; auto.
  - intros f Hf. destruct (Hfr f Hf) as [k E]. specialize (i_frame0 f Hf). unfold frame_ok in i_frame0.
    rewrite E in i_frame0. eauto.
  - intros k Hv. destruct (i_res0 k Hv) as (? & Hf & E). specialize (i_frame0 _ Hf).
    unfold frame_ok in i_frame0. rewrite E in i_frame0. by destruct i_frame0 as (? & ? & _).
  - intros k. exists (refs (procs s) k). split; [by eapply refs_cnt_ok|]. by rewrite <- (Hw k).
  - intros k Hd. destruct (i_dirty0 k Hd) as [?|[t E]]; [done|]. specialize (Hw k). by rewrite E in Hw.
Qed.

(** The fields a flush leaves alone. *)
Definition same_view s s' : Prop :=
  offsets s' = offsets s /\ trans s' = trans s /\ frames s' = frames s /\ g_mem s' = g_mem s /\
  forall k, valid s' k = valid s k.

Lemma flush_page_quiet s f :
  quiet s -> in_cache cfg f ->
  quiet (flush_page cfg s f) /\ same_view s (flush_page cfg s f) /\
  forall k, valid s k = true -> dirty (flush_page cfg s f) k = true ->
    dirty s k = true /\ offsets s k <> f.
Proof.
  intros [] Hf. destruct (q_frame0 f Hf) as (k & Htr & Hk & Hv & Ho & Hfr).
  unfold flush_page. rewrite Htr, (global_address_decode _ _ Hcfg k Hk).
  destruct (q_word0 k) as (c & Hc & Hw). rewrite Hw, pack_test_dirty by done.
  assert (Huniq : forall k', valid s k' = true -> offsets s k' = f -> k' = k).
  { intros k' Hv' Ho'. destruct (q_res0 k' Hv') as (_ & Ht & Hk').
    apply (ga_inj cfg page_count Hcfg); congruence. }
  destruct (dirty s k) eqn:Ed; cbn [negb]; cycle 1.
  { split; [by split|]. split; [done|]. intros k' Hv' Hd'. split; [done|]. intros Ho'.
    rewrite (Huniq k' Hv' Ho') in Hd'. congruence. }
  destruct (write_back_spec cfg page_count Hcfg write_data s f k Hk) as (dk & Ewb & Hw1 & Hw2); [done|].
  rewrite Ewb. unfold upd_word. change (words (set_media s (staging s) dk)) with (words s).
  rewrite Hw, pack_and_clean by done. rewrite Hv. set (s1 := set_words _ _).
  assert (Hwd : forall k', words s1 k' = if decide (k = k') then pack true false false c else words s k') by done.
  assert (Hv1 : forall k', valid s1 k' = valid s k').
  { intros k'. unfold valid at 1. rewrite Hwd. case_decide; [subst; by rewrite pack_valid|done]. }
  assert (Hd1 : forall k', dirty s1 k' = if decide (k = k') then false else dirty s k').
  { intros k'. unfold dirty at 1. rewrite Hwd. case_decide; [by rewrite pack_dirty|done]. }
  split; [split|split; [done|]].
  - intros f' Hf'. destruct (q_frame0 f' Hf') as (k' & ?). exists k'. by rewrite Hv1.
  - intros k'. rewrite Hv1. apply q_res0.
  - intros k'. rewrite Hv1, Hd1, Hwd. case_decide; [subst k'; exists c; by rewrite Hv|apply q_word0].
  - intros k' Hk' Hor c' Hcc. cbn. destruct (decide (k' = k)) as [->|Hne]; [by rewrite Hw1|].
    rewrite Hw2; [|intros [H1 H2]; apply Hne; by eapply (backing_inj cfg page_count Hcfg)].
    rewrite Hv1, Hd1, decide_False in Hor by done. by apply q_disk0.
  - intros k'. rewrite Hv1, Hd1. case_decide; [done|apply q_dirty0].
  - intros k' Hv'. rewrite Hd1. case_decide; [done|]. intros Hd'. split; [done|].
    intros Ho'. by rewrite (Huniq k' Hv' Ho') in *.
Qed.

Lemma flush_loop_quiet n s page :
  quiet s -> 0 <= page -> page + Z.of_nat n <= n_pages cfg ->
  quiet (flush_loop cfg n s page) /\ same_view s (flush_loop cfg n s page) /\
  forall k, valid s k = true -> dirty (flush_loop cfg n s page) k = true ->
    dirty s k = true /\ ~ page <= offsets s k < page + Z.of_nat n.
Proof.
  revert s page. induction n as [|n IH]; intros s page Hq Hp Hn; cbn [flush_loop].
  - split; [done|]. split; [done|]. intros k _ Hd. split; [done|lia].
  - destruct (flush_page_quiet s page Hq) as (Hq1 & (E1 & E2 & E3 & E4 & E5) & Hd1); [unfold in_cache; lia|].
    destruct (IH (flush_page cfg s page) (page + 1) Hq1) as (Hq2 & (F1 & F2 & F3 & F4 & F5) & Hd2); [lia..|].
    split; [done|]. split; [split_and!; try congruence; intros k; by rewrite F5|].
    intros k Hv Hd. destruct (Hd2 k) as [Hd' Ho']; [by rewrite E5|done|].
    destruct (Hd1 k Hv Hd') as [? ?]. split; [done|]. rewrite E1 in Ho'. lia.
Qed.

(** C32: After [flush_cache], run when every call has released its page and no cache
    page is still free, the media hold the current contents of every page, on every controller
    that backs it, and no page at all is marked dirty.  For configurations [cfg_ok] and
    runs of [bounded_step], as for coherence. *)
Theorem flush_cache_complete s0 s k :
  cache_init cfg page_count s0 -> rtc (bounded_step cfg page_count) s0 s ->
  Forall (fun p => p_pc p = ADone) (procs s) ->
  (forall f, 0 <= f < n_pages cfg -> locks s f <> FREE) ->
  (key_ok cfg page_count k ->
   forall c, ctrls_of cfg k c -> disk (flush_cache cfg s) c (backing_lba cfg k) = g_mem s k) /\
  is_dirty (words (flush_cache cfg s) k) = false.
Proof.
  intros H0 Hr Hdone Hl. destruct (cache_reachable cfg page_count Hcfg s0 s H0 Hr) as [g Hi].
  pose proof (inv_quiet s g Hi (owned_reachable s0 s H0 Hr) Hl Hdone) as Hq. pose proof (ok_pages _ _ Hcfg).
  destruct (flush_loop_quiet (Z.to_nat (n_pages cfg)) s 0 Hq) as (Hq' & (E1 & E2 & E3 & E4 & E5) & Hd); [lia..|].
  fold (flush_cache cfg s) in *. destruct Hq'.
  assert (Hclean : dirty (flush_cache cfg s) k = false).
  { destruct (dirty (flush_cache cfg s) k) eqn:Ed; [|done]. pose proof (q_dirty0 k Ed) as Hv.
    rewrite E5 in Hv. destruct (Hd k Hv Ed) as [_ Hn].
    destruct (q_res s Hq k Hv) as (Hin & _). unfold in_cache in Hin. lia. }
  split; [|done]. intros Hk c Hc. rewrite <- E4. apply q_disk0; auto.
Qed.
End spec.

(** ** [find_slot] ends *)

Section progress.
  Context {D : Type} (cfg : page_cache_d_t).
  Implicit Types s : @cache_state D.

(** The call [t] runs alone; its steps are deterministic. *)
Definition solo_step (t : nat) s s' : Prop := proc_step cfg s t AGo = Some s'.

(** A cache page that [find_slot] can take: free, or unlocked with an unreferenced page. *)
Definition evictable s (f : Z) : Prop :=
  locks s f = FREE \/
  (locks s f = UNLOCKED /\ Z.land (words s (previous_key cfg (trans s f))) CNT_MASK = 0 /\
   Z.land (words s (previous_key cfg (trans s f))) BUSY = 0).

Definition at_pc s (t : nat) (p : proc) (c : pc_pc) : Prop := procs s !! t = Some (with_pc p c).

Lemma at_goto s t p c c' : at_pc s t p c -> at_pc (goto s t c') t p c'.
Proof. unfold at_pc, goto. cbn. rewrite list_lookup_alter_eq. by intros ->. Qed.

Lemma solo_go s s1 t p c c' :
  at_pc s t p c -> acquire_step cfg s t (with_pc p c) = Some (goto s1 t c') -> procs s1 = procs s ->
  solo_step t s (goto s1 t c') /\ at_pc (goto s1 t c') t p c'.
Proof.
  intros Hat Hs Hp. split.
  - unfold solo_step, proc_step. by rewrite Hat.
  - apply (at_goto s1 t p c c'). unfold at_pc. by rewrite Hp.
Qed.

Lemma write_back_procs wr s f k :
  (forall s c l, procs (wr s f c l) = procs s) -> procs (write_back cfg wr s f k) = procs s.
Proof.
  intros Hwr. unfold write_back. case_match; [|apply Hwr].
  generalize (Z.to_nat (n_ctrls cfg)) 0. intros n. revert s.
  induction n as [|n IH]; intros s c; cbn; [done|]. by rewrite IH, Hwr.
Qed.

Lemma runs_step s s1 t p c c' (Q : @cache_state D -> Prop) :
  at_pc s t p c -> acquire_step cfg s t (with_pc p c) = Some (goto s1 t c') -> procs s1 = procs s ->
  (at_pc (goto s1 t c') t p c' -> exists s', rtc (solo_step t) (goto s1 t c') s' /\ Q s') ->
  exists s', rtc (solo_step t) s s' /\ Q s'.
Proof.
  intros Hat Hs Hp HQ. destruct (solo_go s s1 t p c c' Hat Hs Hp) as [H1 H2].
  destruct (HQ H2) as (s' & Hr & HQ'). exists s'. split; [|done]. by eapply rtc_l.
Qed.

Lemma runs_stop s t (Q : @cache_state D -> Prop) : Q s -> exists s', rtc (solo_step t) s s' /\ Q s'.
Proof. intros HQ. exists s. split; [apply rtc_refl|done]. Qed.

(** One access of the call, with [tac] to decide its branches. *)
Ltac run Hat tac :=
  eapply runs_step; [exact Hat|cbn; tac; reflexivity|reflexivity|clear Hat; intros Hat].

(** From a claimed frame the call fills it and returns. *)
Lemma fill_runs s t p f :
  at_pc s t p (AFill f) -> exists s', rtc (solo_step t) s s' /\ at_pc s' t p (AHeld f).
Proof.
  intros Hat. eapply runs_step; [exact Hat|reflexivity| |clear Hat; intros Hat].
  { unfold fill. by destruct (read_ctrl cfg s _). }
  destruct (p_write p) eqn:Ew.
  - run Hat ltac:(rewrite Ew).
    run Hat idtac.
    run Hat idtac. by apply runs_stop.
  - run Hat ltac:(rewrite Ew).
    run Hat idtac. by apply runs_stop.
Qed.

Definition acquired (t : nat) (p : proc) s : Prop := exists f, at_pc s t p (AHeld f).

Lemma fill_acquires s t p f :
  at_pc s t p (AFill f) -> exists s', rtc (solo_step t) s s' /\ acquired t p s'.
Proof. intros (s' & Hr & Hat)%fill_runs. exists s'. split; [done|]. by exists f. Qed.

(** Taking over a free cache page. *)
Lemma free_acquires s t p f :
  at_pc s t p (FLoad f) -> locks s f = FREE -> exists s', rtc (solo_step t) s s' /\ acquired t p s'.
Proof.
  intros Hat El. run Hat ltac:(rewrite El).
  run Hat ltac:(rewrite El).
  run Hat idtac.
  run Hat idtac.
  by eapply fill_acquires.
Qed.

(** From the end of an eviction. *)
Lemma and_acquires s t p f k :
  at_pc s t p (FEvAnd f k) -> exists s', rtc (solo_step t) s s' /\ acquired t p s'.
Proof.
  intros Hat. run Hat idtac.
  run Hat idtac.
  run Hat idtac.
  by eapply fill_acquires.
Qed.

Lemma evict_procs s f k : procs (evict cfg s f k) = procs s.
Proof.
  unfold evict. case_match; [done|]. apply write_back_procs. intros s1 c l. unfold evict_write.
  by repeat case_match.
Qed.

(** An eviction through the victim buffer makes one attempt, and ends either way. *)
Lemma victim_acquires s t p f k :
  at_pc s t p (FEvTicket f k) -> exists s', rtc (solo_step t) s s' /\ acquired t p s'.
Proof.
  intros Hat. run Hat idtac.
  set (v := Z.land _ _) in Hat |- *. destruct (v_states (victims s) v =? VICTIM_FREE) eqn:Ev.
  - run Hat ltac:(fold v; rewrite Ev). run Hat idtac. destruct (evict_queue cfg) eqn:Eq.
    + run Hat ltac:(rewrite Eq). run Hat idtac. by eapply and_acquires.
    + run Hat ltac:(rewrite Eq). by eapply and_acquires.
  - run Hat ltac:(fold v; rewrite Ev).
    eapply runs_step; [exact Hat|reflexivity|unfold evict_full; by case_match|clear Hat; intros Hat].
    by eapply and_acquires.
Qed.

(** Evicting an unreferenced page. *)
Lemma evict_acquires s t p f k :
  at_pc s t p (FEvOr f k) -> Z.land (words s k) CNT_MASK = 0 -> Z.land (words s k) BUSY = 0 ->
  exists s', rtc (solo_step t) s s' /\ acquired t p s'.
Proof.
  intros Hat Ec Eb. destruct (Z.land (words s k) DIRTY =? 0) eqn:Ed.
  { run Hat ltac:(rewrite Ec, Eb, Ed, Z.eqb_refl). by eapply and_acquires. }
  destruct (victim cfg) eqn:Ev.
  - run Hat ltac:(rewrite Ec, Eb, Ed, Ev, Z.eqb_refl). by eapply victim_acquires.
  - run Hat ltac:(rewrite Ec, Eb, Ed, Ev, Z.eqb_refl).
    eapply runs_step; [exact Hat|reflexivity|apply evict_procs|clear Hat; intros Hat].
    by eapply and_acquires.
Qed.

(** Whether the call acquires its page, or is back at its ticket with the other
    cache pages untouched. *)
Definition next_round s (t : nat) (p : proc) s' : Prop :=
  acquired t p s' \/
  (~ evictable s (page_ticket s mod n_pages cfg) /\ at_pc s' t p FTicket /\
   page_ticket s' = u32 (page_ticket s + 1) /\ forall f, evictable s f -> evictable s' f).

Lemma runs_mono s t (Q Q' : @cache_state D -> Prop) :
  (exists s', rtc (solo_step t) s s' /\ Q s') -> (forall s', Q s' -> Q' s') ->
  exists s', rtc (solo_step t) s s' /\ Q' s'.
Proof. intros (s' & Hr & HQ) Hm. eauto. Qed.

Lemma round_runs s t p :
  at_pc s t p FTicket -> exists s', rtc (solo_step t) s s' /\ next_round s t p s'.
Proof.
  intros Hat. set (f := page_ticket s mod n_pages cfg). unfold next_round. fold f. run Hat idtac. fold f in Hat |- *.
  destruct (decide (locks s f = FREE)) as [El|Hnf].
  { eapply runs_mono; [apply (free_acquires _ t p f Hat El)|]. auto. }
  destruct (decide (locks s f = UNLOCKED)) as [El|Hnu].
  - run Hat ltac:(rewrite El). run Hat ltac:(rewrite El).
    set (prev := previous_key cfg (trans s f)).
    destruct ((Z.land (words s prev) CNT_MASK =? 0) && (Z.land (words s prev) BUSY =? 0)) eqn:Et.
    + run Hat ltac:(fold prev; rewrite Et). apply andb_prop in Et as [Ec Eb].
      apply Z.eqb_eq in Ec, Eb. eapply runs_mono; [apply (evict_acquires _ t p f prev Hat Ec Eb)|]. auto.
    + run Hat ltac:(fold prev; rewrite Et). run Hat idtac. apply runs_stop. right. split.
      { intros [?|(_ & Ec & Eb)]; [done|]. fold prev in Ec, Eb. by rewrite Ec, Eb in Et. }
      split; [done|]. split; [done|]. intros f' He. unfold evictable in *. cbn.
      rewrite !fn_ins. case_decide; [subst f'|done]. rewrite El in He. destruct He as [?|(_ & ? & ?)]; auto.
  - run Hat ltac:(rewrite (proj2 (Z.eqb_neq _ _) Hnf), (proj2 (Z.eqb_neq _ _) Hnu)).
    apply runs_stop. right. split; [|done]. by intros [?|(? & _)].
Qed.

Lemma rounds_acquire (d : nat) s t p f :
  at_pc s t p FTicket -> is_word 32 (page_ticket s) -> evictable s f ->
  u32 (page_ticket s + Z.of_nat d) mod n_pages cfg = f ->
  exists s', rtc (solo_step t) s s' /\ acquired t p s'.
Proof.
  revert s. induction d as [|d IH]; intros s Hat Hw He Hd;
    destruct (round_runs s t p Hat) as (s1 & Hr1 & [Ha|(Hne & Hat1 & Ht1 & He1)]); eauto.
  - rewrite Z.add_0_r, u32_id in Hd by done. by subst f.
  - destruct (IH s1 Hat1) as (s' & Hr & Ha); auto.
    + rewrite Ht1. apply u32_range.
    + rewrite <- Hd, Ht1. f_equal. unfold u32. rewrite wrap_add_l. f_equal. lia.
    + exists s'. split; [by etransitivity|done].
Qed.

(** C12: A miss that runs alone returns: from the start of [find_slot], if some cache
    page is free or holds an unreferenced page, the call takes a cache page, fills it
    and returns after finitely many steps. *)
Theorem find_slot_terminates s t p f :
  0 < n_pages cfg <= 2 ^ 32 -> is_word 32 (page_ticket s) ->
  procs s !! t = Some p -> p_pc p = FTicket -> 0 <= f < n_pages cfg -> evictable s f ->
  exists s' f', rtc (solo_step t) s s' /\
    procs s' !! t = Some (MkProc (p_key p) (p_count p) (p_write p) (AHeld f')).
Proof.
  intros Hn Hw Ht Hpc Hf He. assert (Hat : at_pc s t p FTicket) by (unfold at_pc, with_pc; rewrite <- Hpc; by destruct p).
  assert (Hd : exists d : nat, u32 (page_ticket s + Z.of_nat d) mod n_pages cfg = f).
  { exists (Z.to_nat (u32 (f - page_ticket s))). pose proof (u32_range (f - page_ticket s)) as Hu.
    unfold is_word in *. rewrite Z2Nat.id by lia. unfold u32 in *. rewrite wrap_add_r.
    replace (page_ticket s + (f - page_ticket s)) with f by lia.
    rewrite (wrap_id 32) by (unfold is_word; lia). by apply Z.mod_small. }
  destruct Hd as [d Hd]. destruct (rounds_acquire d s t p f Hat Hw He Hd) as (s' & Hr & f' & Ha). eauto.
Qed.
End progress.

(** ** Running a schedule *)

Section exec.
  Context {D : Type} (cfg : page_cache_d_t) (page_count : Z -> Z).

#[export] Instance key_ok_dec k : Decision (key_ok cfg page_count k).
Proof. unfold key_ok. apply _. Defined.

Inductive cache_act :=
  | CCall (k : key) (count : Z) (write : bool) | CProc (t : nat) (a : @pc_act D).

Definition cache_exec_act (a : cache_act) (s : @cache_state D) : option (@cache_state D) :=
  match a with
  | CCall k count write =>
      if decide (key_ok cfg page_count k /\ 0 < count)
      then Some (set_procs s (procs s ++ [MkProc k count write AAdd])) else None
  | CProc t a => proc_step cfg s t a
  end.

Fixpoint cache_exec (acts : list cache_act) (s : @cache_state D) : option (@cache_state D) :=
  match acts with
  | [] => Some s
  | a :: acts => match cache_exec_act a s with
                 | Some s => if pending (procs s) <? 2 ^ 29 then cache_exec acts s else None
                 | None => None
                 end
  end.

Lemma cache_exec_rtc acts s s' :
  cache_exec acts s = Some s' -> rtc (bounded_step cfg page_count) s s'.
Proof.
  revert s. induction acts as [|a acts IH]; intros s; cbn [cache_exec].
  - intros H. apply (inj Some) in H. rewrite H. apply rtc_refl.
  - destruct (cache_exec_act a s) as [s1|] eqn:E; [|done]. destruct (Z.ltb_spec (pending (procs s1)) (2 ^ 29)); [|done].
    intros H'. apply (rtc_l _ _ s1); [|by apply IH]. split; [|done].
    destruct a as [k count write|t a]; cbn [cache_exec_act] in E.
    + case_decide as Hd; [|done]. apply (inj Some) in E. rewrite <- E. destruct Hd. by constructor.
    + by eapply cache_proc.
Qed.
End exec.

(** ** Example: two cache pages, a striped and a replicated range on two controllers *)

Definition example_cfg : page_cache_d_t :=
  MkPc 2 1 1 (fun r => r * 10) (fun r => if r =? 0 then STRIPE else REPLICATE) 2 8
    ALL_CTRLS ALL_CTRLS 0 false 4096 9 false false None.
Definition example_count (r : Z) : Z := if r =? 0 then 4 else 2.

Lemma example_key k : key_ok example_cfg example_count k ->
  (fst k = 0 /\ 0 <= snd k < 4) \/ (fst k = 1 /\ 0 <= snd k < 2).
Proof.
  intros [H1 H2]. cbn in H1. assert (fst k = 0 \/ fst k = 1) as [E|E] by lia; rewrite E in H2 |- *; auto.
Qed.

Lemma example_cfg_ok : cfg_ok example_cfg example_count.
Proof.
  split; try done; try lia.
  - exists 1. cbn. lia.
  - intros k [[_ H]|[_ H]]%example_key; cbn; lia.
  - intros k [[E H]|[E H]]%example_key; cbn; rewrite E; lia.
  - intros [r a] [r' a'] [[E H]|[E H]]%example_key [[E' H']|[E' H']]%example_key; cbn in *; subst; try done;
      unfold backing_index, get_backing_page_, u64, wrap; cbn; intros Hx; exfalso.
    + assert (0 <= a / 2 < 2) by (split; [apply Z.div_pos|apply Z.div_lt_upper_bound]; lia).
      rewrite !Z.mod_small in Hx by lia. lia.
    + assert (0 <= a' / 2 < 2) by (split; [apply Z.div_pos|apply Z.div_lt_upper_bound]; lia).
      rewrite !Z.mod_small in Hx by lia. lia.
Qed.

(** The same pages on one controller, with both scheduler queues. *)
Definition example_queues : page_cache_d_t :=
  MkPc 2 1 1 (fun r => r * 10) (fun r => if r =? 0 then STRIPE else REPLICATE) 1 8
    ALL_CTRLS ALL_CTRLS 0 false 4096 9 true true None.

Lemma example_queues_ok : cfg_ok example_queues example_count.
Proof.
  assert (Hi : forall k, key_ok example_queues example_count k ->
                backing_index example_queues k = fst k * 10 + snd k).
  { intros [r a] [[E H]|[E H]]%example_key; cbn in *; subst;
      unfold backing_index, get_backing_page_; cbn; rewrite ?Z.div_1_r; apply u64_id; unfold is_word; lia. }
  split; try done; try lia.
  - exists 1. cbn. lia.
  - intros k [[_ H]|[_ H]]%example_key; cbn; lia.
  - intros k [[E H]|[E H]]%example_key; cbn; rewrite E; lia.
  - intros k k' Hk Hk'. rewrite !Hi by done. apply example_key in Hk, Hk'. lia.
  - intros _. split_and!; try done. intros k Hk. rewrite Hi by done. apply example_key in Hk. cbn. lia.
Qed.

Definition example_start : @cache_state Z :=
  MkCs (fun _ => INVALID) (fun _ => 0) (fun _ => FREE) (fun _ => 0) 0 0 (fun _ => 0) (fun _ => 0)
    (fun _ _ => 0) (MkVb 0 (fun _ => VICTIM_FREE) (fun _ => 0) (fun _ => 0) []) [] (fun _ => 0).

Lemma example_start_init : cache_init example_cfg example_count example_start.
Proof. by repeat split. Qed.

Definition steps (t n : nat) : list (@cache_act Z) := repeat (CProc t AGo) n.

(** Write page (0,0) and release it, hold (1,0), and evict (0,0) for (0,1). *)
Definition example_pair : list cache_act :=
  CCall (0, 0) 1 true :: steps 0 11 ++ [CProc 0 (AWrite 7); CProc 0 ARelease] ++
  CCall (1, 0) 2 false :: steps 1 10 ++ CCall (0, 1) 1 false :: steps 2 14.
(** Then release (0,1) and read (0,0) again, past the cache page that is held. *)
Definition example_again : list cache_act :=
  example_pair ++ CProc 2 ARelease :: CCall (0, 0) 1 false :: steps 3 18.
(** The read of (0,0) at the start of [find_slot]. *)
Definition example_miss : list cache_act :=
  example_pair ++ CProc 2 ARelease :: CCall (0, 0) 1 false :: steps 3 2.
(** Two dirty pages, released. *)
Definition example_dirty : list cache_act :=
  CCall (0, 0) 1 true :: steps 0 11 ++ [CProc 0 (AWrite 7); CProc 0 ARelease] ++
  CCall (1, 0) 1 true :: steps 1 11 ++ [CProc 1 (AWrite 9); CProc 1 ARelease].

Definition example_state (acts : list cache_act) : cache_state :=
  default example_start (cache_exec example_cfg example_count acts example_start).

Lemma example_pair_run : rtc (bounded_step example_cfg example_count) example_start (example_state example_pair).
Proof. apply (cache_exec_rtc _ _ example_pair). vm_compute. reflexivity. Qed.
Lemma example_again_run : rtc (bounded_step example_cfg example_count) example_start (example_state example_again).
Proof. apply (cache_exec_rtc _ _ example_again). vm_compute. reflexivity. Qed.
Lemma example_dirty_run : rtc (bounded_step example_cfg example_count) example_start (example_state example_dirty).
Proof. apply (cache_exec_rtc _ _ example_dirty). vm_compute. reflexivity. Qed.

Lemma page_cache_coherent_witness :
  0 <= 0 < n_pages example_cfg /\
  frames (example_state example_again) 0 = g_mem (example_state example_again) (0, 0).
Proof.
  apply (page_cache_coherent example_cfg example_count example_cfg_ok example_start
           (example_state example_again) 3 (MkProc (0, 0) 1 false (AHeld 0)) 0).
  - exact example_start_init.
  - exact example_again_run.
  - vm_compute. reflexivity.
  - reflexivity.
Defined.

Lemma page_cache_exclusive_witness : 1 = 0 <-> (1, 0) = (0, 1).
Proof.
  apply (page_cache_exclusive example_cfg example_count example_cfg_ok example_start
           (example_state example_pair) 1 (MkProc (1, 0) 2 false (AHeld 1)) 1
           2 (MkProc (0, 1) 1 false (AHeld 0)) 0).
  - exact example_start_init.
  - exact example_pair_run.
  - vm_compute. reflexivity.
  - reflexivity.
  - vm_compute. reflexivity.
  - reflexivity.
Defined.

Lemma page_refcount_exact_witness :
  Z.land (words (example_state example_pair) (1, 0)) CNT_MASK = refs (procs (example_state example_pair)) (1, 0) /\
  forall t p f, procs (example_state example_pair) !! t = Some p -> p_pc p = AHeld f -> p_key p = (1, 0) ->
    0 < p_count p <= Z.land (words (example_state example_pair) (1, 0)) CNT_MASK.
Proof.
  apply (page_refcount_exact example_cfg example_count example_cfg_ok example_start).
  - exact example_start_init.
  - exact example_pair_run.
Defined.

Lemma flush_cache_complete_witness :
  (key_ok example_cfg example_count (1, 0) -> forall c, ctrls_of example_cfg (1, 0) c ->
     disk (flush_cache example_cfg (example_state example_dirty)) c (backing_lba example_cfg (1, 0)) =
     g_mem (example_state example_dirty) (1, 0)) /\
  is_dirty (words (flush_cache example_cfg (example_state example_dirty)) (1, 0)) = false.
Proof.
  apply (flush_cache_complete example_cfg example_count example_cfg_ok example_start).
  - exact example_start_init.
  - exact example_dirty_run.
  - vm_compute. repeat constructor.
  - intros f Hf. assert (f = 0 \/ f = 1) as [-> | ->] by (cbn in Hf; lia); vm_compute; discriminate.
Defined.

Lemma find_slot_terminates_witness :
  exists s' f', rtc (solo_step example_cfg 3) (example_state example_miss) s' /\
    procs s' !! 3%nat = Some (MkProc (0, 0) 1 false (AHeld f')).
Proof.
  apply (find_slot_terminates example_cfg (example_state example_miss) 3 (MkProc (0, 0) 1 false FTicket) 0).
  - vm_compute. split; [reflexivity|discriminate].
  - vm_compute. split; [discriminate|reflexivity].
  - vm_compute. reflexivity.
  - reflexivity.
  - vm_compute. split; [discriminate|reflexivity].
  - right. vm_compute. auto.
Defined.
End PcSpec.
