(* ===== verification/Exec.v ===== *)
(** Computations on a state that may meet undefined behaviour, and a logic of total
    correctness for them.  The host library, the admin references and the kernel module
    are written in this monad, each over its own state. *)
From stdpp Require Import base option.

(** [None] is undefined behaviour: a null or dangling dereference, a double free. *)
Definition ST (S A : Type) : Type := S -> option (A * S).

#[export] Instance ST_ret {S} : MRet (ST S) := fun A a s => Some (a, s).
#[export] Instance ST_bind {S} : MBind (ST S) := fun A B f m s =>
  match m s with Some (a, s') => f a s' | None => None end.

Definition crash {S A} : ST S A := fun _ => None.
Definition st_get {S} : ST S S := fun s => Some (s, s).
Definition st_modify {S} (f : S -> S) : ST S unit := fun s => Some (tt, f s).

(** Reading through a pointer. *)
Definition deref {S A} (o : option A) : ST S A := match o with Some a => mret a | None => crash end.

(** [wp m Q s]: from [s], [m] meets no undefined behaviour and ends in [Q]. *)
Definition wp {S A} (m : ST S A) (Q : A -> S -> Prop) (s : S) : Prop :=
  match m s with Some (a, s') => Q a s' | None => False end.

Section wp.
Context {S A : Type}.
Implicit Types (Q : A -> S -> Prop) (s : S).

Lemma wp_ret (a : A) Q s : Q a s -> wp (mret a) Q s.
Proof. done. Qed.

Lemma wp_bind {B} (m : ST S B) (f : B -> ST S A) Q s :
  wp m (fun b s' => wp (f b) Q s') s -> wp (m ≫= f) Q s.
Proof. unfold wp, mbind, ST_bind. by destruct (m s) as [[b s']|]. Qed.

Lemma wp_mono (m : ST S A) Q Q' s :
  wp m Q s -> (forall a s', Q a s' -> Q' a s') -> wp m Q' s.
Proof. unfold wp. destruct (m s) as [[a s']|]; auto. Qed.

Lemma wp_deref (o : option A) a Q s : o = Some a -> Q a s -> wp (deref o) Q s.
Proof. by intros ->. Qed.

Lemma wp_exec (m : ST S A) Q s a s' : m s = Some (a, s') -> wp m Q s -> Q a s'.
Proof. unfold wp. by intros ->. Qed.

Lemma wp_total (m : ST S A) Q s : wp m Q s -> exists a s', m s = Some (a, s') /\ Q a s'.
Proof. unfold wp. destruct (m s) as [[a s']|]; [eauto|done]. Qed.

(** A computation whose result is known. *)
Lemma wp_eq (m : ST S A) Q s a s' : m s = Some (a, s') -> Q a s' -> wp m Q s.
Proof. unfold wp. by intros ->. Qed.
End wp.

Lemma wp_st_get {S} (Q : S -> S -> Prop) s : Q s s -> wp st_get Q s.
Proof. done. Qed.

Lemma wp_st_modify {S} f (Q : unit -> S -> Prop) s : Q tt (f s) -> wp (st_modify f) Q s.
Proof. done. Qed.

(** The same for code that is defined only when [P] holds: [P] excludes undefined behaviour,
    and whatever the code returns satisfies [Q] with or without [P]. *)
Definition wp_if {S A} (P : Prop) (m : ST S A) (Q : A -> S -> Prop) (s : S) : Prop :=
  match m s with Some (a, s') => Q a s' | None => ~ P end.

Section wp_if.
  Context {S A : Type} (P : Prop).
  Implicit Types (Q : A -> S -> Prop) (s : S).

Lemma wpi_wp (m : ST S A) Q s : wp m Q s -> wp_if P m Q s.
Proof. unfold wp, wp_if. by destruct (m s) as [[a s']|]. Qed.

Lemma wpi_bind {B} (m : ST S B) (f : B -> ST S A) Q s :
  wp_if P m (fun b s' => wp_if P (f b) Q s') s -> wp_if P (m ≫= f) Q s.
Proof. unfold wp_if, mbind, ST_bind. by destruct (m s) as [[b s']|]. Qed.

Lemma wpi_first {B} (m : ST S B) (f : B -> ST S A) Q s :
  wp m (fun b s' => wp_if P (f b) Q s') s -> wp_if P (m ≫= f) Q s.
Proof. unfold wp_if, wp, mbind, ST_bind. by destruct (m s) as [[b s']|]. Qed.

Lemma wpi_mono (m : ST S A) Q Q' s :
  wp_if P m Q s -> (forall a s', Q a s' -> Q' a s') -> wp_if P m Q' s.
Proof. unfold wp_if. destruct (m s) as [[a s']|]; auto. Qed.

Lemma wpi_crash Q s : ~ P -> wp_if P crash Q s.
Proof. done. Qed.

Lemma wpi_exec (m : ST S A) Q s a s' : m s = Some (a, s') -> wp_if P m Q s -> Q a s'.
Proof. unfold wp_if. by intros ->. Qed.

Lemma wpi_total (m : ST S A) Q s : P -> wp_if P m Q s -> wp m Q s.
Proof. unfold wp_if, wp. destruct (m s) as [[a s']|]; auto. Qed.
End wp_if.

#[global] Opaque wp wp_if.
