(* ===== verification/Host.v ===== *)
(** The host library's heap and controller handles: [src/src/mutex.cpp],
    [src/src/ctrl.cpp], [src/src/lib_ctrl.h] and [src/src/linux/device.cpp].

    Handles are heap objects named by pointers; a computation is a function on the
    heap that may fail on a dangling pointer ([None]).  Every primitive that can
    fail at run time (allocation, mutex operations, system calls) draws its outcome
    from a list of faults, so the theorems hold for every combination of failures. *)
From Stdlib Require Import ZArith Lia List Bool.
From stdpp Require Import base list gmap gmultiset numbers.
From S2P Require Import Prelude Exec NvmUtil NvmQueue.

Import ListNotations.
Local Open Scope Z_scope.

(** ** Error codes *)

Definition EBADF : Z := 9.
Definition ENOMEM : Z := 12.
Definition EBUSY : Z := 16.
Definition EIO : Z := 5.
Definition ENOSPC : Z := 28.
Definition ERANGE : Z := 34.
Definition ETIME : Z := 62.
Definition ENOTTY : Z := 25.

Module Host.

(** ** Objects *)

Inductive device_type := DEVICE_TYPE_UNKNOWN | DEVICE_TYPE_IOCTL | DEVICE_TYPE_SMARTIO.

#[export] Instance device_type_eq_dec : EqDecision device_type.
Proof. solve_decision. Defined.

(** [nvm_ctrl_t]. *)
Record nvm_ctrl_t := MkCtrl {
  ctl_page_size : Z; ctl_dstrd : Z; ctl_timeout : Z; ctl_max_qs : Z; ctl_mm_size : Z; ctl_mm_ptr : Z
}.

(** [struct controller]; [c_ops] tells whether the device operations are set. *)
Record controller := MkController {
  c_count : Z; c_type : device_type; c_device : option nat; c_ops : bool; c_handle : nvm_ctrl_t
}.

(** An address: a buffer of [posix_memalign], or memory of the caller. *)
Inductive void_ptr := Alloc (n : nat) | User (a : Z).

#[export] Instance void_ptr_eq_dec : EqDecision void_ptr.
Proof. solve_decision. Defined.

#[export] Instance void_ptr_countable : Countable void_ptr.
Proof.
  apply (inj_countable' (fun p => match p with Alloc n => inl n | User a => inr a end)
           (fun x => match x with inl n => Alloc n | inr a => User a end)).
  by intros [|].
Defined.

(** [struct va_range]. *)
Record va_range := MkVa { va_remote : bool; va_vaddr : void_ptr; va_page_size : Z; va_n_pages : Z }.

Inductive mapping_type := MAP_TYPE_CUDA | MAP_TYPE_HOST | MAP_TYPE_API.

#[export] Instance mapping_type_eq_dec : EqDecision mapping_type.
Proof. solve_decision. Defined.

(** [struct ioctl_mapping]. *)
Record ioctl_mapping := MkMapping { im_type : mapping_type; im_buffer : void_ptr; im_range : va_range }.

(** A pointer to a [va_range]: the member of a mapping descriptor, or an object of its own. *)
Inductive va_ptr := VaMd (d : nat) | VaPlain (d : nat).

#[export] Instance va_ptr_eq_dec : EqDecision va_ptr.
Proof. solve_decision. Defined.

(** The callbacks [va_range_free_t] the library passes. *)
Inductive va_range_free_t := release_mapping_descriptor_cb | free_cb.

(** [struct map]; [m_unmap] tells whether the unmap callback is set. *)
Record map := MkMap {
  m_count : Z; m_ctrl : nat; m_va : option va_ptr; m_release : va_range_free_t; m_unmap : bool
}.

(** [nvm_dma_t], its address list included, and [struct container]. *)
Record nvm_dma_t := MkDma {
  dma_vaddr : void_ptr; dma_local : bool; dma_contiguous : bool; dma_page_size : Z; dma_ioaddrs : list Z
}.
Record container := MkCont { ct_map : nat; ct_handle : nvm_dma_t }.

Record heap := MkHeap {
  h_devs : gmap nat Z;                (** [struct device]: its file descriptor *)
  h_ctrls : gmap nat controller;
  h_mds : gmap nat ioctl_mapping;
  h_vas : gmap nat va_range;
  h_maps : gmap nat map;
  h_conts : gmap nat container;
  h_bufs : gset nat;                  (** live buffers of [posix_memalign] *)
  h_kmaps : gmultiset void_ptr;       (** buffers the kernel has pinned and mapped *)
  h_fds : gset Z;                     (** open descriptors of the library *)
  h_mms : gset Z                      (** mapped register windows *)
}.

Record host := MkHost { hp : heap; next : nat; faults : list Z }.

Definition set_devs (h : heap) v := MkHeap v (h_ctrls h) (h_mds h) (h_vas h) (h_maps h) (h_conts h) (h_bufs h) (h_kmaps h) (h_fds h) (h_mms h).
Definition set_ctrls (h : heap) v := MkHeap (h_devs h) v (h_mds h) (h_vas h) (h_maps h) (h_conts h) (h_bufs h) (h_kmaps h) (h_fds h) (h_mms h).
Definition set_mds (h : heap) v := MkHeap (h_devs h) (h_ctrls h) v (h_vas h) (h_maps h) (h_conts h) (h_bufs h) (h_kmaps h) (h_fds h) (h_mms h).
Definition set_vas (h : heap) v := MkHeap (h_devs h) (h_ctrls h) (h_mds h) v (h_maps h) (h_conts h) (h_bufs h) (h_kmaps h) (h_fds h) (h_mms h).
Definition set_maps (h : heap) v := MkHeap (h_devs h) (h_ctrls h) (h_mds h) (h_vas h) v (h_conts h) (h_bufs h) (h_kmaps h) (h_fds h) (h_mms h).
Definition set_conts (h : heap) v := MkHeap (h_devs h) (h_ctrls h) (h_mds h) (h_vas h) (h_maps h) v (h_bufs h) (h_kmaps h) (h_fds h) (h_mms h).
Definition set_bufs (h : heap) v := MkHeap (h_devs h) (h_ctrls h) (h_mds h) (h_vas h) (h_maps h) (h_conts h) v (h_kmaps h) (h_fds h) (h_mms h).
Definition set_kmaps (h : heap) v := MkHeap (h_devs h) (h_ctrls h) (h_mds h) (h_vas h) (h_maps h) (h_conts h) (h_bufs h) v (h_fds h) (h_mms h).
Definition set_fds (h : heap) v := MkHeap (h_devs h) (h_ctrls h) (h_mds h) (h_vas h) (h_maps h) (h_conts h) (h_bufs h) (h_kmaps h) v (h_mms h).
Definition set_mms (h : heap) v := MkHeap (h_devs h) (h_ctrls h) (h_mds h) (h_vas h) (h_maps h) (h_conts h) (h_bufs h) (h_kmaps h) (h_fds h) v.

(** ** Computations *)

Abbreviation M := (ST host).

Definition get : M heap := fun s => Some (hp s, s).
Definition modify (f : heap -> heap) : M unit :=
  fun s => Some (tt, MkHost (f (hp s)) (next s) (faults s)).

(** The outcome of the next fallible primitive: 0, or its error number. *)
Definition attempt : M Z := fun s =>
  match faults s with
  | [] => Some (0, s)
  | e :: l => Some (e, MkHost (hp s) (next s) l)
  end.

(** A fresh pointer. *)
Definition fresh : M nat := fun s => Some (next s, MkHost (hp s) (S (next s)) (faults s)).

(** Unsigned division. *)
Definition udiv (a b : Z) : M Z := if b =? 0 then crash else mret (a / b).
Definition umod (a b : Z) : M Z := if b =? 0 then crash else mret (a mod b).

(** ** [mutex.cpp]

    One thread: locking and unlocking do not change the state, and
    [_nvm_mutex_lock] returns 0 whatever [pthread_mutex_lock] does. *)

Definition _nvm_mutex_init : M Z := attempt.
Definition _nvm_mutex_free : M Z := mret 0.
Definition _nvm_mutex_lock : M Z := mret 0.
Definition _nvm_mutex_unlock : M unit := mret tt.

(** ** [linux/device.cpp]: releasing the device *)

Definition release_device (dev : nat) (mm_ptr : Z) : M unit :=
  modify (fun h => set_mms h (h_mms h ∖ {[mm_ptr]}));;
  h ← get; fd ← deref (h_devs h !! dev);
  modify (fun h => set_fds h (h_fds h ∖ {[fd]}));;
  modify (fun h => set_devs h (delete dev (h_devs h))).

(** ** [ctrl.cpp] *)

Definition encode_page_size (ps : Z) : Z := nvm_b2log (u32 (Z.shiftr ps 12)).
Definition encode_entry_size (es : Z) : Z := nvm_b2log es.
Definition NVM_CTRL_MEM_MINSIZE : Z := 0x2000.

Definition zero_ctrl : nvm_ctrl_t := MkCtrl 0 0 0 0 0 0.

Definition create_handle (dev : option nat) (ops : bool) (type : device_type) : M (option nat) :=
  if bool_decide (is_Some dev) && negb ops then mret None
  else
    e ← attempt;
    if negb (e =? 0) then mret None
    else
      handle ← fresh;
      err ← _nvm_mutex_init;
      if negb (err =? 0) then mret None
      else
        modify (fun h => set_ctrls h (<[handle := MkController 1 type dev ops zero_ctrl]> (h_ctrls h)));;
        mret (Some handle).

(** Freeing the unlocked mutex is not [EBUSY], so the loop runs once. *)
Definition remove_handle (handle : nat) : M unit :=
  status ← _nvm_mutex_free;
  modify (fun h => set_ctrls h (delete handle (h_ctrls h))).

Definition with_count (k : controller) (n : Z) : controller :=
  MkController n (c_type k) (c_device k) (c_ops k) (c_handle k).

Definition with_handle (k : controller) (c : nvm_ctrl_t) : controller :=
  MkController (c_count k) (c_type k) (c_device k) (c_ops k) c.

Definition _nvm_ctrl_get (ctrl : option nat) : M (option nat) :=
  match ctrl with
  | None => mret None
  | Some c =>
      err ← _nvm_mutex_lock;
      if negb (err =? 0) then mret None
      else
        h ← get; k ← deref (h_ctrls h !! c);
        modify (fun h => set_ctrls h (<[c := with_count k (u32 (c_count k + 1))]> (h_ctrls h)));;
        _nvm_mutex_unlock;;
        mret (Some c)
  end.

Definition _nvm_ctrl_put (ctrl : option nat) : M unit :=
  match ctrl with
  | None => mret tt
  | Some c =>
      err ← _nvm_mutex_lock;
      h ← get; k ← deref (h_ctrls h !! c);
      let count := u32 (c_count k - 1) in
      modify (fun h => set_ctrls h (<[c := with_count k count]> (h_ctrls h)));;
      (if count =? 0 then
         match c_device k with
         | Some dev => release_device dev (ctl_mm_ptr (c_handle k))
         | None => mret tt
         end;;
         modify (fun h => set_ctrls h
           (<[c := MkController count (c_type k) None (c_ops k) (c_handle k)]> (h_ctrls h)))
       else mret tt);;
      _nvm_mutex_unlock;;
      (if count =? 0 then remove_handle c else mret tt)
  end.

(** [*CAP(mm_ptr)]: reading an address that is not mapped faults. *)
Definition read_cap (cap mm_ptr : Z) : M Z :=
  h ← get; if bool_decide (mm_ptr ∈ h_mms h) then mret cap else crash.

(** [cap] is the controller's capability register and [page_size] the host's page size. *)
Definition _nvm_ctrl_init (cap page_size : Z) (dev : option nat) (ops : bool) (type : device_type)
    (mm_ptr mm_size : Z) : M (Z * option nat) :=
  container ← create_handle dev ops type;
  match container with
  | None => mret (ENOMEM, None)
  | Some c =>
      modify (fun h => set_ctrls h (alter (fun k =>
        with_handle k (MkCtrl 0 0 0 0 mm_size mm_ptr)) c (h_ctrls h)));;
      if mm_size <? NVM_CTRL_MEM_MINSIZE then remove_handle c;; mret (EINVAL, None)
      else if page_size =? 0 then remove_handle c;; mret (ENOMEM, None)
      else
        let host_page_size := u8 (encode_page_size page_size) in
        cap ← read_cap cap mm_ptr;
        let max_page_size := u8 (CAP_MPSMAX cap) in
        let min_page_size := u8 (CAP_MPSMIN cap) in
        if negb ((min_page_size <=? host_page_size) && (host_page_size <=? max_page_size))
        then remove_handle c;; mret (ERANGE, None)
        else
          let ctrl := MkCtrl page_size (u8 (CAP_DSTRD cap)) (u64 (CAP_TO cap * 500))
                        (u32 (CAP_MQES cap + 1)) mm_size mm_ptr in
          modify (fun h => set_ctrls h (alter (fun k => with_handle k ctrl) c (h_ctrls h)));;
          mret (0, Some c)
  end.

Definition nvm_ctrl_free (ctrl : option nat) : M unit := _nvm_ctrl_put ctrl.

Definition nvm_raw_ctrl_init (cap page_size mm_ptr mm_size : Z) : M (Z * option nat) :=
  _nvm_ctrl_init cap page_size None false DEVICE_TYPE_UNKNOWN mm_ptr mm_size.

(** ** [linux/device.cpp]: opening the device *)

(** [mmap] returns [MAP_FAILED] when it fails. *)
Definition MAP_FAILED : Z := 2 ^ 64 - 1.

Definition mmap (mm_ptr : Z) : M Z :=
  e ← attempt;
  if e =? 0 then modify (fun h => set_mms h (h_mms h ∪ {[mm_ptr]}));; mret mm_ptr
  else mret MAP_FAILED.

(** [mm_ptr] is the address [mmap] finds for the window, when it succeeds. *)
Definition nvm_ctrl_init (cap page_size mm_ptr : Z) : M (Z * option nat) :=
  e ← attempt;
  if negb (e =? 0) then mret (ENOMEM, None)
  else
    dev ← fresh;
    e ← attempt;
    if negb (e =? 0) then mret (e, None)
    else
      let fd := Z.of_nat dev in
      modify (fun h => set_fds h (h_fds h ∪ {[fd]}));;
      modify (fun h => set_devs h (<[dev := fd]> (h_devs h)));;
      e ← attempt;
      if negb (e =? 0) then
        modify (fun h => set_fds h (h_fds h ∖ {[fd]}));;
        modify (fun h => set_devs h (delete dev (h_devs h)));;
        mret (e, None)
      else
        ptr ← mmap mm_ptr;
        if ptr =? 0 then
          modify (fun h => set_fds h (h_fds h ∖ {[fd]}));;
          modify (fun h => set_devs h (delete dev (h_devs h)));;
          e ← attempt; mret (e, None)
        else
          r ← _nvm_ctrl_init cap page_size (Some dev) true DEVICE_TYPE_IOCTL ptr NVM_CTRL_MEM_MINSIZE;
          if negb (fst r =? 0) then release_device dev ptr;; mret (fst r, None)
          else mret r.

(** ** Total correctness *)

(** The state with another heap. *)
Definition upd (s : host) (h : heap) : host := MkHost h (next s) (faults s).

(** Every pointer and descriptor in use is below [n]. *)
Record below (n : nat) (h : heap) : Prop := {
  bl_devs i : is_Some (h_devs h !! i) -> (i < n)%nat;
  bl_ctrls i : is_Some (h_ctrls h !! i) -> (i < n)%nat;
  bl_mds i : is_Some (h_mds h !! i) -> (i < n)%nat;
  bl_vas i : is_Some (h_vas h !! i) -> (i < n)%nat;
  bl_maps i : is_Some (h_maps h !! i) -> (i < n)%nat;
  bl_conts i : is_Some (h_conts h !! i) -> (i < n)%nat;
  bl_bufs i : i ∈ h_bufs h -> (i < n)%nat;
  bl_fds i : Z.of_nat i ∈ h_fds h -> (i < n)%nat
}.

(** *** Rules *)

Lemma wp_get (Q : heap -> host -> Prop) s : Q (hp s) s -> wp get Q s.
Proof. by apply wp_eq. Qed.

Lemma wp_modify f (Q : unit -> host -> Prop) s : Q tt (upd s (f (hp s))) -> wp (modify f) Q s.
Proof. by apply wp_eq. Qed.

Lemma wp_attempt (Q : Z -> host -> Prop) s :
  (forall e l, (e = 0 \/ head (faults s) = Some e) -> l = tail (faults s) -> Q e (MkHost (hp s) (next s) l)) -> wp attempt Q s.
Proof. destruct s as [h n [|e l]]; cbn; intros H; (eapply wp_eq; [reflexivity|]); apply H; auto. Qed.

Lemma wp_fresh (Q : nat -> host -> Prop) s :
  Q (next s) (MkHost (hp s) (S (next s)) (faults s)) -> wp fresh Q s.
Proof. by apply wp_eq. Qed.

Lemma wp_udiv a b (Q : Z -> host -> Prop) s : b <> 0 -> Q (a / b) s -> wp (udiv a b) Q s.
Proof. intros H ?. unfold udiv. rewrite (proj2 (Z.eqb_neq b 0) H). by apply wp_ret. Qed.

Lemma wp_umod a b (Q : Z -> host -> Prop) s : b <> 0 -> Q (a mod b) s -> wp (umod a b) Q s.
Proof. intros H ?. unfold umod. rewrite (proj2 (Z.eqb_neq b 0) H). by apply wp_ret. Qed.

(** One rule per step; [wp_steps] runs straight-line code and branches on what it tests. *)
Ltac wp_step :=
  lazymatch goal with
  | |- wp (mret _) _ _ => apply wp_ret
  | |- wp (_ ≫= _) _ _ => apply wp_bind
  | |- wp get _ _ => apply wp_get
  | |- wp (modify _) _ _ => apply wp_modify
  | |- wp attempt _ _ => apply wp_attempt; intros ? ? ? ->
  | |- wp _nvm_mutex_init _ _ => apply wp_attempt; intros ? ? ? ->
  | |- wp _nvm_mutex_lock _ _ => apply wp_ret
  | |- wp _nvm_mutex_unlock _ _ => apply wp_ret
  | |- wp _nvm_mutex_free _ _ => apply wp_ret
  | |- wp fresh _ _ => apply wp_fresh
  | |- wp (if ?b then _ else _) _ _ => destruct b eqn:?; try discriminate
  end; cbn [hp next faults upd fst snd].

Ltac wp_steps := repeat wp_step.

(** Heaps are records of components. *)
Lemma heap_eta h :
  h = MkHeap (h_devs h) (h_ctrls h) (h_mds h) (h_vas h) (h_maps h) (h_conts h) (h_bufs h) (h_kmaps h) (h_fds h) (h_mms h).
Proof. by destruct h. Qed.

Ltac heap_unfold :=
  unfold upd, set_devs, set_ctrls, set_mds, set_vas, set_maps, set_conts, set_bufs, set_kmaps, set_fds, set_mms in *.

Ltac heap_eq :=
  heap_unfold; cbn in *;
  repeat first [rewrite insert_insert_eq | rewrite delete_insert_eq | rewrite alter_insert_eq];
  try reflexivity;
  lazymatch goal with
  | |- _ = hp ?s => rewrite (heap_eta (hp s))
  | |- _ = ?h => is_var h; rewrite (heap_eta h)
  | _ => idtac
  end;
  f_equal; try reflexivity;
  try (rewrite ?delete_id, ?insert_id by done; reflexivity).

Lemma set_add_remove {A} `{Countable A} (X : gset A) b : b ∉ X -> (X ∪ {[b]}) ∖ {[b]} = X.
Proof. set_solver. Qed.

Lemma below_mono n n' h : (n <= n')%nat -> below n h -> below n' h.
Proof. intros ? []. split; intros; (eapply Nat.lt_le_trans; [|eassumption]); eauto. Qed.

Lemma below_ctrl n h i : below n h -> (n <= i)%nat -> h_ctrls h !! i = None.
Proof. intros B Hi. apply eq_None_not_Some. intros ?%(bl_ctrls _ _ B). lia. Qed.
Lemma below_dev n h i : below n h -> (n <= i)%nat -> h_devs h !! i = None.
Proof. intros B Hi. apply eq_None_not_Some. intros ?%(bl_devs _ _ B). lia. Qed.
Lemma below_md n h i : below n h -> (n <= i)%nat -> h_mds h !! i = None.
Proof. intros B Hi. apply eq_None_not_Some. intros ?%(bl_mds _ _ B). lia. Qed.
Lemma below_va n h i : below n h -> (n <= i)%nat -> h_vas h !! i = None.
Proof. intros B Hi. apply eq_None_not_Some. intros ?%(bl_vas _ _ B). lia. Qed.
Lemma below_map n h i : below n h -> (n <= i)%nat -> h_maps h !! i = None.
Proof. intros B Hi. apply eq_None_not_Some. intros ?%(bl_maps _ _ B). lia. Qed.
Lemma below_cont n h i : below n h -> (n <= i)%nat -> h_conts h !! i = None.
Proof. intros B Hi. apply eq_None_not_Some. intros ?%(bl_conts _ _ B). lia. Qed.
Lemma below_buf n h i : below n h -> (n <= i)%nat -> i ∉ h_bufs h.
Proof. intros B Hi ?%(bl_bufs _ _ B). lia. Qed.

(** *** Controller references *)

Lemma ctrl_get_spec s c k :
  h_ctrls (hp s) !! c = Some k ->
  wp (_nvm_ctrl_get (Some c)) (fun r s' =>
    r = Some c /\
    s' = upd s (set_ctrls (hp s) (<[c := with_count k (u32 (c_count k + 1))]> (h_ctrls (hp s))))) s.
Proof. intros Hk. unfold _nvm_ctrl_get. wp_steps. eapply wp_deref; [done|]. by wp_steps. Qed.

Lemma ctrl_put_spec s c k :
  h_ctrls (hp s) !! c = Some k -> 2 <= c_count k < 2 ^ 32 ->
  wp (_nvm_ctrl_put (Some c)) (fun _ s' =>
    s' = upd s (set_ctrls (hp s) (<[c := with_count k (c_count k - 1)]> (h_ctrls (hp s))))) s.
Proof.
  intros Hk Hc. unfold _nvm_ctrl_put. wp_steps. eapply wp_deref; [done|].
  rewrite u32_id by (unfold is_word; lia).
  wp_steps; [exfalso; lia..|]. done.
Qed.

(** The last reference closes the device and frees the handle. *)
Lemma ctrl_put_last_spec s c k dev fd :
  h_ctrls (hp s) !! c = Some k -> c_count k = 1 ->
  c_device k = Some dev -> h_devs (hp s) !! dev = Some fd ->
  wp (_nvm_ctrl_put (Some c)) (fun _ s' =>
    s' = upd s (MkHeap (delete dev (h_devs (hp s))) (delete c (h_ctrls (hp s))) (h_mds (hp s))
      (h_vas (hp s)) (h_maps (hp s)) (h_conts (hp s)) (h_bufs (hp s)) (h_kmaps (hp s))
      (h_fds (hp s) ∖ {[fd]}) (h_mms (hp s) ∖ {[ctl_mm_ptr (c_handle k)]}))) s.
Proof.
  intros Hk Hc Hdev Hfd. unfold _nvm_ctrl_put. wp_steps. eapply wp_deref; [done|].
  rewrite Hc, Hdev. change (u32 (1 - 1)) with 0. unfold release_device, remove_handle. wp_steps.
  eapply wp_deref; [done|]. wp_steps. heap_eq.
Qed.

(** The handle [_nvm_ctrl_init] fills in. *)
Definition init_handle (cap page_size mm_ptr mm_size : Z) : nvm_ctrl_t :=
  MkCtrl page_size (u8 (CAP_DSTRD cap)) (u64 (CAP_TO cap * 500)) (u32 (CAP_MQES cap + 1)) mm_size mm_ptr.

(** [h] with a new controller [c]. *)
Definition new_ctrl (h : heap) (c : nat) (k : controller) : heap := set_ctrls h (<[c := k]> (h_ctrls h)).

Lemma create_handle_spec s dev ops type :
  wp (create_handle dev ops type) (fun r s' => (next s <= next s')%nat /\
    (r = None /\ hp s' = hp s \/
     exists c, r = Some c /\ (next s <= c < next s')%nat /\
       hp s' = new_ctrl (hp s) c (MkController 1 type dev ops zero_ctrl))) s.
Proof.
  unfold create_handle. wp_steps; cbn; try (split; [lia|by left]).
  split; [lia|]. right. eexists. split_and!; [done|lia..|done].
Qed.

Lemma ctrl_init_spec cap page_size s dev ops type ptr size :
  below (next s) (hp s) -> ptr ∈ h_mms (hp s) ->
  wp (_nvm_ctrl_init cap page_size dev ops type ptr size) (fun r s' => (next s <= next s')%nat /\
    (fst r <> 0 /\ snd r = None /\ hp s' = hp s \/
     exists c, r = (0, Some c) /\ (next s <= c < next s')%nat /\ page_size <> 0 /\
       hp s' = new_ctrl (hp s) c (MkController 1 type dev ops (init_handle cap page_size ptr size)))) s.
Proof.
  intros B Hptr. unfold _nvm_ctrl_init. wp_step.
  eapply wp_mono; [apply create_handle_spec|]. intros r s1 (Hn & [[-> E]|(c & -> & Hc & E)]).
  { wp_steps. split; [done|by left]. }
  assert (h_ctrls (hp s) !! c = None) by (eapply below_ctrl; [done|lia]).
  unfold remove_handle, read_cap. wp_steps; cbn; rewrite ?E; cbn;
    try match goal with Hb : bool_decide _ = false |- _ =>
      apply bool_decide_eq_false in Hb; destruct Hb; cbn; rewrite E; exact Hptr end;
    (split; [lia|]).
  1-3: left; split_and!; [done..|unfold new_ctrl; heap_eq].
  right. exists c. split_and!; [done|lia..|]. unfold new_ctrl. heap_eq.
Qed.

(** [h] with a new controller [c], its device [dev], descriptor and register window. *)
Definition opened (h : heap) (c dev : nat) (ptr : Z) (k : nvm_ctrl_t) : heap :=
  new_ctrl (set_mms (set_devs (set_fds h (h_fds h ∪ {[Z.of_nat dev]})) (<[dev := Z.of_nat dev]> (h_devs h)))
              (h_mms h ∪ {[ptr]}))
    c (MkController 1 DEVICE_TYPE_IOCTL (Some dev) true k).

Lemma nvm_ctrl_init_spec cap page_size ptr s :
  below (next s) (hp s) -> ptr ∉ h_mms (hp s) -> ptr <> 0 -> nth 3 (faults s) 0 = 0 ->
  wp (nvm_ctrl_init cap page_size ptr) (fun r s' => (next s <= next s')%nat /\
    (fst r <> 0 /\ snd r = None /\ hp s' = hp s \/
     exists c dev, r = (0, Some c) /\ (next s <= dev < c)%nat /\ (c < next s')%nat /\ page_size <> 0 /\
       hp s' = opened (hp s) c dev ptr (init_handle cap page_size ptr NVM_CTRL_MEM_MINSIZE))) s.
Proof.
  intros B Hptr H0 Hf.
  assert (Hd : h_devs (hp s) !! next s = None) by (eapply below_dev; [done|lia]).
  assert (Hfd : Z.of_nat (next s) ∉ h_fds (hp s)) by (intros ?%(bl_fds _ _ B); lia).
  unfold nvm_ctrl_init, mmap. wp_steps.
  all: try (split; [cbn; lia|left; split_and!; [done||lia..|heap_eq; set_solver]]).
  1: exfalso; lia.
  clear Heqb. eapply wp_mono; [apply ctrl_init_spec; cbn|].
  { destruct B. split; cbn; intros i Hi; try (apply Nat.lt_lt_succ_r; by eauto).
    - destruct (decide (i = next s)) as [->|]; [lia|]. rewrite lookup_insert_ne in Hi by done.
      apply Nat.lt_lt_succ_r; by eauto.
    - apply elem_of_union in Hi as [Hi|Hi%elem_of_singleton]; [|lia].
      apply Nat.lt_lt_succ_r; by eauto. }
  { set_solver. }
  cbn. intros r s1 (Hn & [(Hr & Hr' & E)|(c & -> & Hc & Hp & E)]).
  - rewrite (proj2 (Z.eqb_neq _ _) Hr). unfold release_device. wp_steps.
    eapply wp_deref; [cbn; rewrite E; apply lookup_insert_eq|]. wp_steps. cbn.
    split; [lia|]. left. split_and!; [done..|]. rewrite E. heap_eq; set_solver.
  - wp_steps. split; [lia|]. right. exists c, (next s). split_and!; [done|lia..|done|].
    rewrite E. done.
  - exfalso. enough (e2 = 0) by lia.
    match goal with He : e2 = 0 \/ _ |- _ => destruct He as [->|He]; [done|]; revert He Hf end.
    by destruct (faults s) as [|? [|? [|? [|]]]]; cbn; intros [= ->].
Qed.

(** Opening a controller through the kernel module either fails with an error
    and leaves the heap as it was (no allocation, descriptor or mapping leaks), or
    gives a handle whose [nvm_ctrl_free] gives back everything it took.  It holds for
    every combination of failing primitives other than a failing [mmap]. *)
Theorem nvm_ctrl_init_free cap page_size ptr s :
  below (next s) (hp s) -> ptr ∉ h_mms (hp s) -> ptr <> 0 -> nth 3 (faults s) 0 = 0 ->
  wp (nvm_ctrl_init cap page_size ptr) (fun r s1 =>
    match snd r with
    | None => fst r <> 0 /\ hp s1 = hp s
    | Some c =>
        fst r = 0 /\
        c_handle <$> h_ctrls (hp s1) !! c = Some (init_handle cap page_size ptr NVM_CTRL_MEM_MINSIZE) /\
        wp (nvm_ctrl_free (Some c)) (fun _ s2 => hp s2 = hp s) s1
    end) s.
Proof.
  intros B Hptr H0 Hf. eapply wp_mono; [by apply nvm_ctrl_init_spec|].
  intros r s1 (Hn & [(? & -> & ?)|(c & dev & -> & Hdev & Hc & _ & E)]); [done|].
  assert (h_devs (hp s) !! dev = None) by (eapply below_dev; [done|lia]).
  assert (h_ctrls (hp s) !! c = None) by (eapply below_ctrl; [done|lia]).
  assert (Z.of_nat dev ∉ h_fds (hp s)) by (intros ?%(bl_fds _ _ B); lia).
  cbn. rewrite E. cbn. rewrite lookup_insert_eq. split_and!; [done..|].
  eapply wp_mono; [eapply ctrl_put_last_spec; rewrite ?E; cbn; by rewrite ?lookup_insert_eq|].
  intros _ s2 ->. unfold opened, new_ctrl in E. cbn. rewrite E. heap_eq; set_solver.
Qed.

Definition example_cap : Z := 0x0040000020010fff.
Definition empty_heap : heap := MkHeap ∅ ∅ ∅ ∅ ∅ ∅ ∅ ∅ ∅ ∅.
Definition example_host (l : list Z) : host := MkHost empty_heap 1 l.

Lemma empty_heap_below n : below n empty_heap.
Proof.
  split; cbn; intros i; try (rewrite lookup_empty; by intros [? [=]]); set_solver.
Qed.

Lemma nvm_ctrl_init_free_witness :
  (exists r s1, nvm_ctrl_init example_cap 4096 8192 (example_host []) = Some (r, s1) /\
     snd r = Some 2%nat) /\
  wp (nvm_ctrl_init example_cap 4096 8192) (fun r s1 =>
    match snd r with
    | None => fst r <> 0 /\ hp s1 = empty_heap
    | Some c =>
        fst r = 0 /\
        c_handle <$> h_ctrls (hp s1) !! c = Some (init_handle example_cap 4096 8192 NVM_CTRL_MEM_MINSIZE) /\
        wp (nvm_ctrl_free (Some c)) (fun _ s2 => hp s2 = empty_heap) s1
    end) (example_host []).
Proof.
  split; [do 2 eexists; split; vm_compute; reflexivity|].
  apply (nvm_ctrl_init_free example_cap 4096 8192 (example_host []));
    [apply empty_heap_below|cbn; set_solver|done|done].
Defined.

(** A failing [mmap] goes unnoticed: the result is compared with [NULL] instead of
    [MAP_FAILED], and the capability register is read through it. *)
Theorem nvm_ctrl_init_mmap_faults cap page_size ptr h n e :
  e <> 0 -> page_size <> 0 -> MAP_FAILED ∉ h_mms h ->
  nvm_ctrl_init cap page_size ptr (MkHost h n [0; 0; 0; e]) = None.
Proof.
  intros He Hp Hm. unfold nvm_ctrl_init, mmap. unfold mbind, ST_bind, mret, ST_ret, attempt, modify, fresh; cbn.
  rewrite (proj2 (Z.eqb_neq e 0) He). cbn. unfold _nvm_ctrl_init, read_cap, create_handle.
  unfold mbind, ST_bind, mret, ST_ret, attempt, modify, fresh, _nvm_mutex_init, get, attempt; cbn.
  rewrite (proj2 (Z.eqb_neq page_size 0) Hp). change (MAP_FAILED =? 0) with false. cbn.
  by rewrite bool_decide_false.
Qed.

Lemma nvm_ctrl_init_mmap_faults_witness :
  nvm_ctrl_init example_cap 4096 8192 (MkHost empty_heap 1 [0; 0; 0; ENOMEM]) = None.
Proof. apply (nvm_ctrl_init_mmap_faults example_cap 4096 8192 empty_heap 1 ENOMEM); [done|done|cbn; set_solver]. Defined.

End Host.
