(* ===== verification/Dma.v ===== *)
(** DMA mappings of the host library: [src/src/dma.cpp], [src/src/linux/dma.cpp] and the
    mapping callbacks of [src/src/linux/device.cpp].

    A DMA handle lives in a container, which points to a reference-counted mapping; the
    mapping holds a reference to the controller and owns the descriptor of its address
    range.  What the kernel module does for the mapping requests is the interface
    [Kernel]. *)
From Stdlib Require Import ZArith Lia List Bool.
From stdpp Require Import base list gmap gmultiset numbers.
From S2P Require Import Prelude Exec NvmUtil NvmQueue Host.
Import Host.

Import ListNotations.
Local Open Scope Z_scope.

Inductive nvm_ioctl_type := NVM_MAP_HOST_MEMORY | NVM_MAP_DEVICE_MEMORY | NVM_UNMAP_MEMORY | NVM_QUERY_DEVICE_PHYS_ADDRS.

(** What the library relies on: a successful mapping request writes one bus address
    per page.  The first argument tells the requests of a run apart. *)
Class Kernel := {
  kernel_ioaddrs : nat -> nvm_ioctl_type -> void_ptr -> Z -> list Z;
  kernel_ioaddrs_length n t p k : 0 <= k -> length (kernel_ioaddrs n t p k) = Z.to_nat k;
  kernel_ioaddrs_word n t p k a : a ∈ kernel_ioaddrs n t p k -> is_word 64 a
}.

Module Dma.
Section Dma.
Context `{Kernel}.

(** ** Address ranges and their descriptors ([linux/dma.cpp]) *)

Definition read_va (v : va_ptr) : M va_range :=
  h ← get;
  match v with
  | VaMd d => md ← deref (h_mds h !! d); mret (im_range md)
  | VaPlain d => deref (h_vas h !! d)
  end.

Definition free_buffer (p : void_ptr) : M unit :=
  match p with
  | Alloc n =>
      h ← get;
      if bool_decide (n ∈ h_bufs h) then modify (fun h => set_bufs h (h_bufs h ∖ {[n]})) else crash
  | User _ => crash
  end.

Definition remove_mapping_descriptor (d : nat) : M unit :=
  h ← get; md ← deref (h_mds h !! d);
  (if bool_decide (im_type md = MAP_TYPE_API) then free_buffer (im_buffer md) else mret tt);;
  modify (fun h => set_mds h (delete d (h_mds h))).

Definition release_mapping_descriptor (va : va_ptr) : M unit :=
  match va with VaMd d => remove_mapping_descriptor d | VaPlain _ => crash end.

(** [free] on an object that holds only the range. *)
Definition free_va (va : va_ptr) : M unit :=
  match va with
  | VaMd _ => crash
  | VaPlain d => h ← get; _ ← deref (h_vas h !! d); modify (fun h => set_vas h (delete d (h_vas h)))
  end.

Definition call_release (f : va_range_free_t) (va : va_ptr) : M unit :=
  match f with
  | release_mapping_descriptor_cb => release_mapping_descriptor va
  | free_cb => free_va va
  end.

Definition create_mapping_descriptor (page_size : Z) (type : mapping_type) (buffer : void_ptr) (size : Z)
    : M (Z * option nat) :=
  n_pages ← udiv (NVM_PAGE_ALIGN size page_size) page_size;
  if n_pages =? 0 then mret (EINVAL, None)
  else
    e ← attempt;
    if negb (e =? 0) then mret (e, None)
    else
      md ← fresh;
      modify (fun h => set_mds h
        (<[md := MkMapping type buffer (MkVa false buffer page_size n_pages)]> (h_mds h)));;
      mret (0, Some md).

(** ** The kernel's mapping requests ([linux/device.cpp]) *)

Definition device_fd (dev : option nat) : M Z :=
  match dev with Some dev => h ← get; deref (h_devs h !! dev) | None => crash end.

Definition ioctl_map (dev : option nat) (va : va_ptr) : M (Z * list Z) :=
  match va with
  | VaPlain _ => crash
  | VaMd d =>
      h ← get; m ← deref (h_mds h !! d);
      let type := match im_type m with
                  | MAP_TYPE_API | MAP_TYPE_HOST => NVM_MAP_HOST_MEMORY
                  | MAP_TYPE_CUDA => NVM_MAP_DEVICE_MEMORY
                  end in
      _ ← device_fd dev;
      e ← attempt;
      if negb (e =? 0) then mret (e, [])
      else
        n ← fresh;
        modify (fun h => set_kmaps h (h_kmaps h ⊎ {[+ im_buffer m +]}));;
        mret (0, kernel_ioaddrs n type (im_buffer m) (va_n_pages (im_range m)))
  end.

(** The kernel refuses only an address that it has not mapped; a refusal is reported
    and ignored. *)
Definition ioctl_unmap (dev : option nat) (va : va_ptr) : M unit :=
  match va with
  | VaPlain _ => crash
  | VaMd d =>
      h ← get; m ← deref (h_mds h !! d);
      _ ← device_fd dev;
      if bool_decide (im_buffer m ∈ h_kmaps h) then
        modify (fun h => set_kmaps h (h_kmaps h ∖ {[+ im_buffer m +]}))
      else mret tt
  end.

(** ** Mapping descriptors ([dma.cpp]) *)

Definition n_ctrl_pages (ctrl : nvm_ctrl_t) (page_size n_pages : Z) : M Z :=
  udiv (u64 (page_size * n_pages)) (ctl_page_size ctrl).

Definition create_map (ctrl : option nat) (va : va_ptr) (release : va_range_free_t) : M (Z * option nat) :=
  ref ← _nvm_ctrl_get ctrl;
  match ref with
  | None => mret (ENOSPC, None)
  | Some ref =>
      e ← attempt;
      if negb (e =? 0) then _nvm_ctrl_put (Some ref);; mret (e, None)
      else
        m ← fresh;
        err ← _nvm_mutex_init;
        if negb (err =? 0) then _nvm_ctrl_put (Some ref);; mret (err, None)
        else
          modify (fun h => set_maps h (<[m := MkMap 1 ref (Some va) release false]> (h_maps h)));;
          mret (0, Some m)
  end.

Definition remove_map (md : nat) : M unit :=
  h ← get; m ← deref (h_maps h !! md);
  _nvm_ctrl_put (Some (m_ctrl m));;
  modify (fun h => set_maps h (delete md (h_maps h))).

(** The loop of [populate_handle], from page [i_page], with the addresses written so far. *)
Fixpoint populate_loop (n : nat) (i_page handle_ps page_size : Z) (ioaddrs done : list Z) (contiguous : bool)
    : M (list Z * bool) :=
  match n with
  | O => mret (done, contiguous)
  | S n =>
      current_page ← udiv (u64 (i_page * handle_ps)) page_size;
      offset_within_page ← umod (u64 (i_page * handle_ps)) page_size;
      base ← deref (ioaddrs !! Z.to_nat current_page);
      let addr := u64 (base + offset_within_page) in
      let contiguous' :=
        match list.last done with
        | Some prev => if negb (u64 (prev + handle_ps) =? addr) then false else contiguous
        | None => contiguous
        end in
      populate_loop n (i_page + 1) handle_ps page_size ioaddrs (done ++ [addr]) contiguous'
  end.

Definition populate_handle (local : bool) (va : va_range) (ctrl : nvm_ctrl_t) (ioaddrs : list Z) : M nvm_dma_t :=
  n_ioaddrs ← n_ctrl_pages ctrl (va_page_size va) (va_n_pages va);
  r ← populate_loop (Z.to_nat n_ioaddrs) 0 (ctl_page_size ctrl) (va_page_size va) ioaddrs [] true;
  mret (MkDma (va_vaddr va) local (snd r) (ctl_page_size ctrl) (fst r)).

(** Fills in the handle of a container. *)
Definition populate_container (c : nat) (va : va_range) (ctrl : nvm_ctrl_t) (ioaddrs : list Z) : M unit :=
  h ← get; ct ← deref (h_conts h !! c);
  handle ← populate_handle (dma_local (ct_handle ct)) va ctrl ioaddrs;
  modify (fun h => set_conts h (<[c := MkCont (ct_map ct) handle]> (h_conts h))).

Definition set_unmap (m : map) : map := MkMap (m_count m) (m_ctrl m) (m_va m) (m_release m) true.
Definition set_map_count (m : map) (n : Z) : map := MkMap n (m_ctrl m) (m_va m) (m_release m) (m_unmap m).
Definition clear_va (m : map) : map := MkMap (m_count m) (m_ctrl m) None (m_release m) (m_unmap m).

Definition dma_map (container : nat) : M Z :=
  h ← get; ct ← deref (h_conts h !! container);
  md ← deref (h_maps h !! ct_map ct);
  k ← deref (h_ctrls h !! m_ctrl md);
  if negb (c_ops k) then mret EINVAL
  else
    va ← deref (m_va md);
    range ← read_va va;
    e ← attempt;
    if negb (e =? 0) then mret ENOMEM
    else
      r ← ioctl_map (c_device k) va;
      if negb (fst r =? 0) then mret (fst r)
      else
        modify (fun h => set_maps h (<[ct_map ct := set_unmap md]> (h_maps h)));;
        populate_container container range (c_handle k) (snd r);;
        mret 0.

Definition put_map (md : option nat) : M unit :=
  match md with
  | None => mret tt
  | Some md =>
      err ← _nvm_mutex_lock;
      h ← get; m ← deref (h_maps h !! md);
      let m1 := set_map_count m (u32 (m_count m - 1)) in
      modify (fun h => set_maps h (<[md := m1]> (h_maps h)));;
      (if m_count m1 =? 0 then
         k ← deref (h_ctrls h !! m_ctrl m);
         va ← deref (m_va m);
         (if m_unmap m then ioctl_unmap (c_device k) va else mret tt);;
         call_release (m_release m) va;;
         modify (fun h => set_maps h (<[md := clear_va m1]> (h_maps h)))
       else mret tt);;
      _nvm_mutex_unlock;;
      h ← get; m ← deref (h_maps h !! md);
      if bool_decide (m_va m = None) then remove_map md else mret tt
  end.

Definition get_map (md : option nat) : M Z :=
  match md with
  | None => mret EINVAL
  | Some md =>
      err ← _nvm_mutex_lock;
      if negb (err =? 0) then mret err
      else
        h ← get; m ← deref (h_maps h !! md);
        modify (fun h => set_maps h (<[md := set_map_count m (u32 (m_count m + 1))]> (h_maps h)));;
        _nvm_mutex_unlock;;
        mret 0
  end.

Definition create_container (md : nat) : M (Z * option nat) :=
  h ← get; m ← deref (h_maps h !! md);
  k ← deref (h_ctrls h !! m_ctrl m);
  va ← deref (m_va m);
  range ← read_va va;
  let page_size := va_page_size range in
  let n_pages := va_n_pages range in
  if (page_size =? 0) || (n_pages =? 0) then mret (EINVAL, None)
  else
    r ← umod (u64 (page_size * n_pages)) (ctl_page_size (c_handle k));
    if negb (r =? 0) then mret (EINVAL, None)
    else
      _ ← n_ctrl_pages (c_handle k) page_size n_pages;
      e ← attempt;
      if negb (e =? 0) then mret (ENOMEM, None)
      else
        c ← fresh;
        modify (fun h => set_conts h
          (<[c := MkCont md (MkDma (User 0) (negb (va_remote range)) true 0 [])]> (h_conts h)));;
        mret (0, Some c).

Definition free_container (container : nat) : M unit :=
  modify (fun h => set_conts h (delete container (h_conts h))).

Definition remove_container (container : nat) : M unit :=
  h ← get; ct ← deref (h_conts h !! container);
  put_map (Some (ct_map ct));;
  free_container container.

Definition _nvm_dma_init (ctrl : option nat) (va : va_ptr) (release : option va_range_free_t)
    : M (Z * option nat) :=
  match release with
  | None => mret (EINVAL, None)
  | Some release =>
      r ← create_map ctrl va release;
      match r with
      | (0, Some map) =>
          r ← create_container map;
          match r with
          | (0, Some container) =>
              err ← dma_map container;
              if negb (err =? 0) then
                remove_map map;; free_container container;; mret (err, None)
              else mret (0, Some container)
          | (err, _) => remove_map map;; mret (err, None)
          end
      | (err, _) => mret (err, None)
      end
  end.

(** [ioaddrs = None] is the null pointer. *)
Definition nvm_dma_map (ctrl : option nat) (vaddr : void_ptr) (page_size n_pages : Z) (ioaddrs : option (list Z))
    : M (Z * option nat) :=
  match ioaddrs with
  | None => mret (EINVAL, None)
  | Some ioaddrs =>
      e ← attempt;
      if negb (e =? 0) then mret (ENOMEM, None)
      else
        va ← fresh;
        let range := MkVa false vaddr page_size n_pages in
        modify (fun h => set_vas h (<[va := range]> (h_vas h)));;
        r ← create_map ctrl (VaPlain va) free_cb;
        match r, ctrl with
        | (0, Some map), Some ctrl =>
            r ← create_container map;
            match r with
            | (0, Some container) =>
                h ← get; k ← deref (h_ctrls h !! ctrl);
                populate_container container range (c_handle k) ioaddrs;;
                mret (0, Some container)
            | (err, _) => remove_map map;; free_va (VaPlain va);; mret (err, None)
            end
        | (err, _), _ => free_va (VaPlain va);; mret (err, None)
        end
  end.

Definition nvm_dma_remap (other : nat) : M (Z * option nat) :=
  h ← get; ct ← deref (h_conts h !! other);
  let map := ct_map ct in
  let other := ct_handle ct in
  status ← get_map (Some map);
  if negb (status =? 0) then mret (status, None)
  else
    r ← create_container map;
    match r with
    | (0, Some container) =>
        h ← get; m ← deref (h_maps h !! map);
        va ← deref (m_va m);
        range ← read_va va;
        k ← deref (h_ctrls h !! m_ctrl m);
        let range := MkVa (negb (dma_local other)) (va_vaddr range) (dma_page_size other)
                       (Z.of_nat (length (dma_ioaddrs other))) in
        populate_container container range (c_handle k) (dma_ioaddrs other);;
        mret (0, Some container)
    | (err, _) => put_map (Some map);; mret (err, None)
    end.

Definition nvm_dma_unmap (handle : option nat) : M unit :=
  match handle with Some dma => remove_container dma | None => mret tt end.

Definition nvm_ctrl_from_dma (handle : option nat) : M (option nat) :=
  match handle with
  | Some dma => h ← get; ct ← deref (h_conts h !! dma); m ← deref (h_maps h !! ct_map ct); mret (Some (m_ctrl m))
  | None => mret None
  end.

Definition _nvm_dma_va (handle : option nat) : M (option va_ptr) :=
  match handle with
  | Some dma => h ← get; ct ← deref (h_conts h !! dma); m ← deref (h_maps h !! ct_map ct); mret (m_va m)
  | None => mret None
  end.

(** ** Creating mappings ([linux/dma.cpp]) *)

Definition nvm_dma_create (ctrl : nat) (size : Z) : M (Z * option nat) :=
  h ← get; k ← deref (h_ctrls h !! ctrl);
  let page_size := ctl_page_size (c_handle k) in
  let size := NVM_CTRL_ALIGN page_size size in
  if size =? 0 then mret (EINVAL, None)
  else if negb (bool_decide (c_type k = DEVICE_TYPE_IOCTL)) then mret (EBADF, None)
  else
    err ← attempt;
    if negb (err =? 0) then mret (err, None)
    else
      buffer ← fresh;
      modify (fun h => set_bufs h (h_bufs h ∪ {[buffer]}));;
      r ← create_mapping_descriptor page_size MAP_TYPE_API (Alloc buffer) size;
      match r with
      | (0, Some md) =>
          r ← _nvm_dma_init (Some ctrl) (VaMd md) (Some release_mapping_descriptor_cb);
          if negb (fst r =? 0) then remove_mapping_descriptor md;; mret (fst r, None) else mret r
      | (err, _) => free_buffer (Alloc buffer);; mret (err, None)
      end.

Definition nvm_dma_map_host (ctrl : nat) (vaddr : void_ptr) (size : Z) : M (Z * option nat) :=
  h ← get; k ← deref (h_ctrls h !! ctrl);
  let page_size := ctl_page_size (c_handle k) in
  let size := NVM_CTRL_ALIGN page_size size in
  if size =? 0 then mret (EINVAL, None)
  else if negb (bool_decide (c_type k = DEVICE_TYPE_IOCTL)) then mret (EBADF, None)
  else
    r ← create_mapping_descriptor page_size MAP_TYPE_HOST vaddr size;
    match r with
    | (0, Some md) =>
        r ← _nvm_dma_init (Some ctrl) (VaMd md) (Some release_mapping_descriptor_cb);
        if negb (fst r =? 0) then remove_mapping_descriptor md;; mret (fst r, None) else mret r
    | (err, _) => mret (err, None)
    end.

Definition nvm_dma_map_device (ctrl : nat) (devptr : void_ptr) (size : Z) : M (Z * option nat) :=
  h ← get; k ← deref (h_ctrls h !! ctrl);
  if negb (bool_decide (c_type k = DEVICE_TYPE_IOCTL)) then mret (EBADF, None)
  else
    r ← create_mapping_descriptor (Z.shiftl 1 16) MAP_TYPE_CUDA devptr size;
    match r with
    | (0, Some md) =>
        r ← _nvm_dma_init (Some ctrl) (VaMd md) (Some release_mapping_descriptor_cb);
        if negb (fst r =? 0) then remove_mapping_descriptor md;; mret (fst r, None) else mret r
    | (err, _) => mret (err, None)
    end.

(** [devptr = 0], [phys_addrs = false] are null pointers; returns the written addresses. *)
Definition nvm_dma_query_phys_addrs (ctrl : option nat) (devptr : Z) (n_pages : Z) (phys_addrs : bool)
    : M (Z * list Z) :=
  match ctrl with
  | None => mret (EINVAL, [])
  | Some c =>
      if (devptr =? 0) || negb phys_addrs || (n_pages =? 0) then mret (EINVAL, [])
      else
        h ← get; k ← deref (h_ctrls h !! c);
        if negb (bool_decide (c_type k = DEVICE_TYPE_IOCTL)) then mret (EBADF, [])
        else
          r ← _nvm_ctrl_get ctrl;
          match r with
          | None => mret (EBADF, [])
          | Some c =>
              _ ← device_fd (c_device k);
              e ← attempt;
              n ← fresh;
              _nvm_ctrl_put (Some c);;
              if negb (e =? 0) then mret (e, [])
              else mret (0, kernel_ioaddrs n NVM_QUERY_DEVICE_PHYS_ADDRS (User devptr) n_pages)
          end
  end.
End Dma.
End Dma.
