(* ===== verification/DmaSpec.v ===== *)
(** Correctness of the DMA mappings: address translation, reference counts and the
    ownership of descriptors, buffers, kernel mappings and controllers. *)
From Stdlib Require Import ZArith Lia List Bool.
From stdpp Require Import base list gmap gmultiset numbers.
From S2P Require Import Prelude Exec NvmUtil NvmQueue Host Dma.
Import Host Dma.

Import ListNotations.
Local Open Scope Z_scope.

Module DmaSpec.

(** ** Reference definitions *)

(** The bus address of controller page [i] of a range whose pages of [ps] bytes have the
    bus addresses [io]. *)
Definition bus (hps ps : Z) (io : list Z) (i : nat) : Z :=
  let o := Z.of_nat i * hps in u64 (io !!! Z.to_nat (o / ps) + o mod ps).

Definition bus_list (hps ps : Z) (io : list Z) (n : nat) : list Z := bus hps ps io <$> seq 0 n.

(** Consecutive controller pages are adjacent on the bus. *)
Fixpoint contig (hps : Z) (l : list Z) : bool :=
  match l with
  | a :: ((b :: _) as l') => (u64 (a + hps) =? b) && contig hps l'
  | _ => true
  end.

(** The number of objects of a map that satisfy [P]. *)
Definition cnt {A} (P : A -> Prop) `{forall x, Decision (P x)} (m : gmap nat A) : Z :=
  Z.of_nat (size (filter (fun kv => P kv.2) m)).

(** The handles that share mapping [m], and the mappings that hold controller [c]. *)
Definition users (h : heap) (m : nat) : Z := cnt (fun ct => ct_map ct = m) (h_conts h).
Definition refs (h : heap) (c : nat) : Z := cnt (fun md => m_ctrl md = c) (h_maps h).

Section counts.
Context {A : Type} (P : A -> Prop) `{HP : forall x, Decision (P x)}.
Implicit Types m : gmap nat A.

Lemma cnt_nonneg m : 0 <= cnt P m.
Proof. unfold cnt. lia. Qed.

Lemma cnt_empty : cnt P ∅ = 0.
Proof. reflexivity. Qed.

Lemma cnt_insert_new m i x :
  m !! i = None -> cnt P (<[i := x]> m) = cnt P m + Z.b2z (bool_decide (P x)).
Proof.
  intros Hi. unfold cnt. destruct (bool_decide_reflect (P x)).
  - rewrite map_filter_insert_True, map_size_insert_None by (done || by rewrite map_lookup_filter, Hi).
    cbn. lia.
  - rewrite map_filter_insert_False, delete_id by done. cbn. lia.
Qed.

Lemma cnt_delete m i x :
  m !! i = Some x -> cnt P (delete i m) = cnt P m - Z.b2z (bool_decide (P x)).
Proof.
  intros Hi. rewrite <- (insert_delete_id m i x) at 2 by done.
  rewrite cnt_insert_new by apply lookup_delete_eq. lia.
Qed.

Lemma cnt_update m i x y :
  m !! i = Some x -> (P x <-> P y) -> cnt P (<[i := y]> m) = cnt P m.
Proof.
  intros Hi E. rewrite <- insert_delete_eq, cnt_insert_new, (cnt_delete m i x) by (done || apply lookup_delete_eq).
  rewrite (bool_decide_ext _ _ E). lia.
Qed.

Lemma cnt_pos m i x : m !! i = Some x -> P x -> 0 < cnt P m.
Proof.
  intros Hi Hx. pose proof (cnt_nonneg (delete i m)). rewrite (cnt_delete m i x Hi) in *.
  rewrite bool_decide_true in * by done. cbn in *. lia.
Qed.

Lemma cnt_zero m : (forall i x, m !! i = Some x -> ~ P x) -> cnt P m = 0.
Proof. intros Hm. unfold cnt. rewrite map_empty_filter_2; [done|]. intros i x Hi. cbn. eauto. Qed.

(** Two objects. *)
Lemma cnt_ge_2 m i j x y : m !! i = Some x -> m !! j = Some y -> P x -> P y -> i <> j -> 2 <= cnt P m.
Proof.
  intros Hi Hj Hx Hy Hne. assert (0 < cnt P (delete i m)) by (eapply cnt_pos; [by rewrite lookup_delete_ne|done]).
  rewrite (cnt_delete m i x Hi), bool_decide_true in * by done. cbn in *. lia.
Qed.
End counts.

(** ** Address translation *)

Lemma contig_snoc hps l a :
  contig hps (l ++ [a]) =
  contig hps l && match list.last l with Some p => u64 (p + hps) =? a | None => true end.
Proof.
  induction l as [|b [|c l] IH]; [done|cbn; by rewrite andb_true_r|].
  change (contig hps ((b :: c :: l) ++ [a])) with ((u64 (b + hps) =? c) && contig hps ((c :: l) ++ [a])).
  rewrite IH. cbn [list.last contig]. by rewrite andb_assoc.
Qed.

Lemma contig_spec hps l :
  contig hps l = true <-> forall i a b, l !! i = Some a -> l !! S i = Some b -> b = u64 (a + hps).
Proof.
  induction l as [|a [|b l] IH]; [done|split; [|done]; by intros _ [|[]]|].
  change (contig hps (a :: b :: l)) with ((u64 (a + hps) =? b) && contig hps (b :: l)).
  rewrite andb_true_iff, Z.eqb_eq, IH. split.
  - intros [E Hl] [|i] x y; cbn; [by intros [= <-] [= <-]|apply Hl].
  - intros Hl. split; [by rewrite (Hl 0%nat a b)|]. intros i. apply (Hl (S i)).
Qed.

Lemma populate_loop_spec n i hps ps io l s :
  0 < hps -> 0 < ps ->
  Z.of_nat (i + n) * hps < 2 ^ 64 -> Z.of_nat (i + n) * hps <= ps * Z.of_nat (length io) ->
  l = bus_list hps ps io i ->
  wp (populate_loop n (Z.of_nat i) hps ps io l (contig hps l))
    (fun r s' => s' = s /\ r = (bus_list hps ps io (i + n), contig hps (bus_list hps ps io (i + n)))) s.
Proof.
  intros Hh Hp. revert i l. induction n as [|n IH]; intros i l Hw Hl ->; cbn [populate_loop].
  { apply wp_ret. by rewrite Nat.add_0_r. }
  assert (Hi : 0 <= Z.of_nat i * hps < ps * Z.of_nat (length io)) by nia.
  rewrite u64_id by (unfold is_word; nia).
  apply wp_bind, wp_udiv; [lia|]. apply wp_bind, wp_umod; [lia|]. apply wp_bind.
  assert (Hd : 0 <= Z.of_nat i * hps / ps < Z.of_nat (length io))
    by (split; [apply Z.div_pos; lia|apply Z.div_lt_upper_bound; lia]).
  eapply wp_deref; [apply (list_lookup_lookup_total_lt (A := Z)); lia|].
  replace (i + S n)%nat with (S i + n)%nat by lia.
  change (u64 (io !!! Z.to_nat (Z.of_nat i * hps / ps) + (Z.of_nat i * hps) mod ps)) with (bus hps ps io i).
  assert (E : bus_list hps ps io (S i) = bus_list hps ps io i ++ [bus hps ps io i]).
  { unfold bus_list. by rewrite seq_S, fmap_app. }
  rewrite <- E. replace (Z.of_nat i + 1) with (Z.of_nat (S i)) by lia.
  match goal with |- wp (populate_loop _ _ _ _ _ _ ?b) _ _ =>
    replace b with (contig hps (bus_list hps ps io (S i))) end; [apply IH; [|..|done]; nia|].
  rewrite E, contig_snoc. destruct (list.last _); [|by rewrite andb_true_r].
  destruct (u64 _ =? _); cbn; [by rewrite andb_true_r|by rewrite andb_false_r].
Qed.

(** [populate_handle] lists the translation of each controller page, and is contiguous exactly when they are adjacent. *)
Lemma populate_handle_spec local va ctrl io s :
  0 < ctl_page_size ctrl -> 0 < va_page_size va -> 0 <= va_n_pages va -> length io = Z.to_nat (va_n_pages va) ->
  let hps := ctl_page_size ctrl in
  let l := bus_list hps (va_page_size va) io (Z.to_nat (u64 (va_page_size va * va_n_pages va) / hps)) in
  wp (populate_handle local va ctrl io)
    (fun d s' => s' = s /\ d = MkDma (va_vaddr va) local (contig hps l) hps l) s.
Proof.
  intros Hh Hp Hn Hl hps l. unfold populate_handle, n_ctrl_pages.
  apply wp_bind, wp_udiv; [lia|]. apply wp_bind.
  assert (Hw : 0 <= u64 (va_page_size va * va_n_pages va) < 2 ^ 64) by (unfold u64, wrap; apply Z.mod_pos_bound; lia).
  assert (Hle : u64 (va_page_size va * va_n_pages va) <= va_page_size va * va_n_pages va)
    by (unfold u64, wrap; apply Z.mod_le; nia).
  pose proof (Z.mul_div_le (u64 (va_page_size va * va_n_pages va)) hps Hh).
  pose proof (Z.div_pos (u64 (va_page_size va * va_n_pages va)) hps ltac:(lia) Hh).
  eapply wp_mono.
  - apply (populate_loop_spec _ 0%nat hps (va_page_size va) io []); try done; unfold hps in *; cbn [Nat.add]; nia.
  - intros r s' [-> ->]. by apply wp_ret.
Qed.
(** ** Mapping descriptors and containers *)

Definition add_ref (h : heap) (c : nat) (k : controller) : heap :=
  set_ctrls h (<[c := with_count k (c_count k + 1)]> (h_ctrls h)).

Definition add_map (h : heap) (c : nat) (k : controller) (m : nat) (md : map) : heap :=
  set_maps (add_ref h c k) (<[m := md]> (h_maps h)).

Definition add_cont (h : heap) (x m : nat) (d : nvm_dma_t) : heap :=
  set_conts h (<[x := MkCont m d]> (h_conts h)).

(** The range behind a pointer. *)
Definition range_at (h : heap) (va : va_ptr) : option va_range :=
  match va with VaMd d => im_range <$> h_mds h !! d | VaPlain d => h_vas h !! d end.

Lemma with_count_id k n : with_count (with_count k n) (c_count k) = k.
Proof. by destruct k. Qed.

Lemma read_va_spec va r s (Q : va_range -> host -> Prop) :
  range_at (hp s) va = Some r -> Q r s -> wp (read_va va) Q s.
Proof.
  intros Hr HQ. unfold read_va. wp_steps. destruct va; cbn in Hr.
  - apply fmap_Some in Hr as (md & E & ->). wp_step. by eapply wp_deref.
  - by eapply wp_deref.
Qed.

Lemma ctrl_put_ref_spec s h c k :
  hp s = add_ref h c k -> h_ctrls h !! c = Some k -> 1 <= c_count k < 2 ^ 32 - 1 ->
  wp (_nvm_ctrl_put (Some c)) (fun _ s' => s' = upd s h) s.
Proof.
  intros E Hk Hc. eapply wp_mono; [apply (ctrl_put_spec s c (with_count k (c_count k + 1))); rewrite ?E; cbn;
    [apply lookup_insert_eq|lia]|].
  intros _ s' ->. rewrite E. unfold add_ref. cbn. f_equal.
  rewrite Z.add_simpl_r, with_count_id. heap_eq.
Qed.

Lemma create_map_spec s c k va rel :
  h_ctrls (hp s) !! c = Some k -> 1 <= c_count k < 2 ^ 32 - 1 ->
  wp (create_map (Some c) va rel) (fun r s' => (next s <= next s')%nat /\
    (fst r <> 0 /\ snd r = None /\ hp s' = hp s \/
     exists m, r = (0, Some m) /\ (next s <= m < next s')%nat /\
       hp s' = add_map (hp s) c k m (MkMap 1 c (Some va) rel false))) s.
Proof.
  intros Hk Hc. unfold create_map. wp_step. eapply wp_mono; [by apply ctrl_get_spec|].
  intros ? ? [-> ->]. rewrite (u32_id (c_count k + 1)) by (unfold is_word; lia).
  wp_steps; try (eapply wp_mono; [by eapply (ctrl_put_ref_spec _ (hp s))|]; intros _ ? ->; wp_steps; cbn).
  - split; [done|]. left. split_and!; [cbn; lia|done..].
  - split; [lia|]. left. split_and!; [cbn; lia|done..].
  - split; [lia|]. right. eexists. split_and!; [done|lia..|done].
Qed.

Lemma remove_map_spec s h c k m md :
  hp s = add_map h c k m md -> m_ctrl md = c ->
  h_ctrls h !! c = Some k -> h_maps h !! m = None -> 1 <= c_count k < 2 ^ 32 - 1 ->
  wp (remove_map m) (fun _ s' => s' = upd s h) s.
Proof.
  intros E Hm Hk Hn Hc. unfold remove_map. wp_steps. eapply wp_deref; [rewrite E; apply lookup_insert_eq|].
  rewrite Hm. wp_steps. eapply wp_mono.
  - apply (ctrl_put_ref_spec s (set_maps h (<[m := md]> (h_maps h))) c k); [by rewrite E|done..].
  - intros _ s' ->. wp_steps. f_equal. heap_eq.
Qed.

Lemma create_container_spec s m md k va r :
  h_maps (hp s) !! m = Some md -> h_ctrls (hp s) !! m_ctrl md = Some k ->
  m_va md = Some va -> range_at (hp s) va = Some r -> 0 < ctl_page_size (c_handle k) ->
  wp (create_container m) (fun res s' => (next s <= next s')%nat /\
    (fst res <> 0 /\ snd res = None /\ hp s' = hp s \/
     exists x, res = (0, Some x) /\ (next s <= x < next s')%nat /\
       va_page_size r <> 0 /\ va_n_pages r <> 0 /\
       u64 (va_page_size r * va_n_pages r) mod ctl_page_size (c_handle k) = 0 /\
       hp s' = add_cont (hp s) x m (MkDma (User 0) (negb (va_remote r)) true 0 []))) s.
Proof.
  intros Hm Hk Hva Hr Hp. unfold create_container. wp_steps. eapply wp_deref; [done|].
  wp_step. eapply wp_deref; [done|]. wp_step. eapply wp_deref; [done|].
  wp_step. eapply read_va_spec; [done|]. wp_step.
  { wp_steps. split; [done|]. by left. }
  wp_step. apply wp_umod; [lia|]. wp_step.
  { wp_steps. split; [done|]. by left. }
  wp_step. apply wp_udiv; [lia|]. wp_steps.
  { split; [done|]. by left. }
  split; [lia|]. right. eexists. split_and!; [done|lia..|done].
Qed.

(** The handle of a freshly mapped range. *)
Definition handle_of (k : nvm_ctrl_t) (r : va_range) (local : bool) (io : list Z) : nvm_dma_t :=
  let hps := ctl_page_size k in
  let l := bus_list hps (va_page_size r) io (Z.to_nat (u64 (va_page_size r * va_n_pages r) / hps)) in
  MkDma (va_vaddr r) local (contig hps l) hps l.

Lemma populate_container_spec s x m d0 r k io :
  h_conts (hp s) !! x = Some (MkCont m d0) ->
  0 < ctl_page_size k -> 0 < va_page_size r -> 0 <= va_n_pages r -> length io = Z.to_nat (va_n_pages r) ->
  wp (populate_container x r k io) (fun _ s' =>
    s' = upd s (add_cont (hp s) x m (handle_of k r (dma_local d0) io))) s.
Proof.
  intros Hx Hk Hp Hn Hl. unfold populate_container. wp_steps. eapply wp_deref; [done|].
  wp_step. eapply wp_mono; [by apply populate_handle_spec|]. intros d ? [-> ->]. by wp_steps.
Qed.
Section mapping.
Context {K : Kernel}.

(** The device of a controller that has device operations. *)
Definition has_device (h : heap) (k : controller) : Prop :=
  c_ops k = true -> exists dev fd, c_device k = Some dev /\ h_devs h !! dev = Some fd.

Lemma device_fd_spec s k (Q : Z -> host -> Prop) :
  has_device (hp s) k -> c_ops k = true -> (forall fd, Q fd s) -> wp (device_fd (c_device k)) Q s.
Proof.
  intros Hd Hk HQ. destruct (Hd Hk) as (dev & fd & -> & E). unfold device_fd. wp_steps. by eapply wp_deref.
Qed.

(** What [kernel_ioaddrs] promises. *)
Definition addrs_ok (n : Z) (io : list Z) : Prop := length io = Z.to_nat n /\ Forall (is_word 64) io.

Lemma kernel_addrs_ok i t p n : 0 <= n -> addrs_ok n (kernel_ioaddrs i t p n).
Proof.
  intros. split; [by apply kernel_ioaddrs_length|]. apply list.Forall_forall. intros. by eapply kernel_ioaddrs_word.
Qed.

Lemma ioctl_map_spec s k d im :
  h_mds (hp s) !! d = Some im -> has_device (hp s) k -> c_ops k = true -> 0 <= va_n_pages (im_range im) ->
  wp (ioctl_map (c_device k) (VaMd d)) (fun r s' => (next s <= next s')%nat /\
    (fst r <> 0 /\ hp s' = hp s \/
     fst r = 0 /\ addrs_ok (va_n_pages (im_range im)) (snd r) /\
     hp s' = set_kmaps (hp s) (h_kmaps (hp s) ⊎ {[+ im_buffer im +]}))) s.
Proof.
  intros Hd Hk Hops Hn. unfold ioctl_map. wp_steps. eapply wp_deref; [done|]. wp_steps.
  apply device_fd_spec; [done..|]. intros _. wp_steps; cbn.
  - split; [done|]. left. split; [lia|done].
  - split; [lia|]. right. split_and!; [done| |done]. by apply kernel_addrs_ok.
Qed.

(** [h] with the mapping [m] of descriptor [d] and its first handle [x]. *)
Definition mapped (h : heap) (c : nat) (k : controller) (d : nat) (im : ioctl_mapping) (m x : nat) (io : list Z) : heap :=
  add_cont
    (set_kmaps (add_map h c k m (MkMap 1 c (Some (VaMd d)) release_mapping_descriptor_cb true))
       (h_kmaps h ⊎ {[+ im_buffer im +]}))
    x m (handle_of (c_handle k) (im_range im) (negb (va_remote (im_range im))) io).

Lemma dma_map_spec s x m md k d im d0 :
  h_conts (hp s) !! x = Some (MkCont m d0) -> h_maps (hp s) !! m = Some md ->
  h_ctrls (hp s) !! m_ctrl md = Some k -> m_va md = Some (VaMd d) -> h_mds (hp s) !! d = Some im ->
  has_device (hp s) k -> 0 < ctl_page_size (c_handle k) ->
  0 < va_page_size (im_range im) -> 0 <= va_n_pages (im_range im) ->
  wp (dma_map x) (fun e s' => (next s <= next s')%nat /\
    (e <> 0 /\ hp s' = hp s \/
     e = 0 /\ c_ops k = true /\ exists io, addrs_ok (va_n_pages (im_range im)) io /\
       hp s' = add_cont (set_maps (set_kmaps (hp s) (h_kmaps (hp s) ⊎ {[+ im_buffer im +]}))
                           (<[m := set_unmap md]> (h_maps (hp s))))
                 x m (handle_of (c_handle k) (im_range im) (dma_local d0) io))) s.
Proof.
  intros Hx Hm Hk Hva Hd Hdev Hp Hps Hn. unfold dma_map. wp_steps.
  eapply wp_deref; [done|]. wp_step. eapply wp_deref; [done|]. wp_step. eapply wp_deref; [done|].
  wp_step; [wp_steps; split; [done|by left]|]. wp_step. eapply wp_deref; [done|].
  wp_step. eapply read_va_spec; [cbn; by rewrite Hd|]. wp_steps; [split; [done|by left]|].
  apply negb_false_iff in Heqb. eapply wp_mono; [by eapply ioctl_map_spec|].
  intros [e' io] s1 (Hn1 & [[Hr E]|(Hr & Hio & E)]); cbn in *.
  - rewrite (proj2 (Z.eqb_neq _ _) Hr). wp_steps. split; [done|by left].
  - subst e'. wp_steps. eapply wp_mono; [eapply (populate_container_spec _ x m d0); cbn; rewrite ?E; try done; apply Hio|].
    intros _ ? ->. wp_steps. split; [done|]. right. split_and!; [done..|].
    exists io. split; [done|]. cbn. by rewrite E.
Qed.

Lemma dma_init_spec s c k d im :
  below (next s) (hp s) ->
  h_ctrls (hp s) !! c = Some k -> 1 <= c_count k < 2 ^ 32 - 1 -> h_mds (hp s) !! d = Some im ->
  has_device (hp s) k -> 0 < ctl_page_size (c_handle k) ->
  0 < va_page_size (im_range im) -> 0 <= va_n_pages (im_range im) ->
  wp (_nvm_dma_init (Some c) (VaMd d) (Some release_mapping_descriptor_cb)) (fun r s' => (next s <= next s')%nat /\
    (fst r <> 0 /\ snd r = None /\ hp s' = hp s \/
     exists m x io, r = (0, Some x) /\ (next s <= m < next s')%nat /\ (next s <= x < next s')%nat /\
       c_ops k = true /\ addrs_ok (va_n_pages (im_range im)) io /\ hp s' = mapped (hp s) c k d im m x io)) s.
Proof.
  intros B Hk Hc Hd Hdev Hp Hps Hn. unfold _nvm_dma_init. wp_step.
  eapply wp_mono; [by apply create_map_spec|].
  intros [e o] s1 (Hn1 & [(He & Ho & E)|(m & [= -> ->] & Hm & E)]); cbn in *.
  { subst o. destruct e; wp_steps; (split; [done|by left]). }
  assert (h_maps (hp s) !! m = None) by (eapply below_map; [done|lia]).
  wp_step. eapply wp_mono.
  { eapply (create_container_spec _ m); rewrite ?E; cbn;
      [apply lookup_insert_eq|apply lookup_insert_eq|done|cbn; by rewrite Hd|done]. }
  intros [e o] s2 (Hn2 & [(He & Ho & E2)|(x & [= -> ->] & Hx & _ & _ & _ & E2)]); cbn in *.
  { subst o. destruct e; [done|..]; wp_step;
      (eapply wp_mono; [eapply (remove_map_spec _ (hp s)); [by rewrite E2|done..]|];
       intros _ ? ->; wp_steps; cbn; split; [lia|by left]). }
  assert (h_conts (hp s) !! x = None) by (eapply below_cont; [done|lia]).
  wp_step. eapply wp_mono.
  { eapply (dma_map_spec _ x m); rewrite ?E2, ?E; cbn;
      [apply lookup_insert_eq|apply lookup_insert_eq|apply lookup_insert_eq|done..]. }
  intros e s3 (Hn3 & [[He E3]|(-> & Hops & io & Hio & E3)]); cbn in *.
  - rewrite (proj2 (Z.eqb_neq _ _) He). do 2 wp_step.
    eapply wp_mono; [eapply (remove_map_spec _ (set_conts (hp s) (h_conts (hp s2))) c k m);
      [by rewrite E3, E2, E|done..]|].
    intros _ ? ->. unfold free_container. wp_steps. cbn. split; [lia|]. left. split_and!; [done..|].
    rewrite E2, E. heap_eq.
  - wp_steps. split; [lia|]. right. exists m, x, io. split_and!; [done|lia..|done|done|].
    rewrite E3, E2, E. unfold mapped, add_map, add_cont. heap_eq.
Qed.
(** ** Creating mappings *)

(** [h] with the descriptor [d], and its buffer when the library allocated it. *)
Definition new_md (h : heap) (d : nat) (im : ioctl_mapping) : heap :=
  set_mds
    (match im_type im, im_buffer im with
     | MAP_TYPE_API, Alloc b => set_bufs h (h_bufs h ∪ {[b]})
     | _, _ => h
     end) (<[d := im]> (h_mds h)).

(** A descriptor whose buffer, if the library owns it, is not in use yet. *)
Definition buffer_fresh (h : heap) (im : ioctl_mapping) : Prop :=
  im_type im = MAP_TYPE_API -> exists b, im_buffer im = Alloc b /\ b ∉ h_bufs h.

Definition range_ok (r : va_range) : Prop := 0 < va_page_size r /\ 0 <= va_n_pages r.

(** The descriptor of [size] bytes at [buffer]. *)
Definition descriptor (page_size : Z) (type : mapping_type) (buffer : void_ptr) (size : Z) : ioctl_mapping :=
  MkMapping type buffer (MkVa false buffer page_size (NVM_PAGE_ALIGN size page_size / page_size)).

(** What a creating call did: a new descriptor [d] with the content [im], mapping [m] and handle [x]. *)
Definition created (s : host) (c : nat) (k : controller) (D : ioctl_mapping -> Prop) (s' : host) (x : nat) : Prop :=
  exists d im m io, D im /\
    (next s <= d < next s')%nat /\ (next s <= m < next s')%nat /\ (next s <= x < next s')%nat /\
    buffer_fresh (hp s) im /\ (im_type im = MAP_TYPE_API -> exists b, im_buffer im = Alloc b /\ (b < next s')%nat) /\
    range_ok (im_range im) /\ c_ops k = true /\
    addrs_ok (va_n_pages (im_range im)) io /\ hp s' = mapped (new_md (hp s) d im) c k d im m x io.

Definition outcome (s : host) (N : host -> nat -> Prop) (r : Z * option nat) (s' : host) : Prop :=
  (next s <= next s')%nat /\
  (fst r <> 0 /\ snd r = None /\ hp s' = hp s \/ exists x, r = (0, Some x) /\ N s' x).

Lemma remove_mapping_descriptor_spec s h d im :
  hp s = new_md h d im -> h_mds h !! d = None -> buffer_fresh h im ->
  wp (remove_mapping_descriptor d) (fun _ s' => s' = upd s h) s.
Proof.
  intros E Hd Hb. unfold remove_mapping_descriptor. wp_steps.
  eapply wp_deref; [rewrite E; apply lookup_insert_eq|]. unfold new_md in E. wp_steps.
  - apply bool_decide_eq_true in Heqb. destruct (Hb Heqb) as (b & Eb & Hnb). rewrite Heqb, Eb in *.
    unfold free_buffer. wp_steps; rewrite E in *; cbn in *.
    + f_equal. heap_eq. by apply set_add_remove.
    + apply bool_decide_eq_false in Heqb0. destruct Heqb0. apply elem_of_union_r, elem_of_singleton_2. done.
  - apply bool_decide_eq_false in Heqb. rewrite E. f_equal. destruct (im_type im); [heap_eq..|done].
Qed.

Lemma below_new_md s d im :
  below (next s) (hp s) -> forall n, (next s <= n)%nat -> (d < n)%nat ->
  (im_type im = MAP_TYPE_API -> exists b, im_buffer im = Alloc b /\ (b < n)%nat) -> below n (new_md (hp s) d im).
Proof.
  intros B n Hn Hd Hb. apply (below_mono _ n) in B; [|done]. destruct B. unfold new_md.
  assert (Hmds : forall i, is_Some (<[d := im]> (h_mds (hp s)) !! i) -> (i < n)%nat).
  { intros i. rewrite lookup_insert. case_decide; subst; eauto. }
  destruct (im_type im) eqn:Et, (im_buffer im) as [b|] eqn:Eb; split; cbn; eauto.
  intros i [Hi|Hi%elem_of_singleton]%elem_of_union; [by eauto|]. subst. destruct Hb as (? & [= <-] & ?); done.
Qed.

Lemma NVM_PAGE_ALIGN_nonneg size ps : 0 <= NVM_PAGE_ALIGN size ps.
Proof. unfold NVM_PAGE_ALIGN. apply Z.land_nonneg. left. unfold u64, wrap. apply Z.mod_pos_bound. lia. Qed.

Lemma create_mapping_descriptor_spec s ps type buffer size :
  0 < ps < 2 ^ 64 ->
  wp (create_mapping_descriptor ps type buffer size) (fun r s' => (next s <= next s')%nat /\
    (fst r <> 0 /\ snd r = None /\ hp s' = hp s \/
     exists d im, r = (0, Some d) /\ (next s <= d < next s')%nat /\
       hp s' = set_mds (hp s) (<[d := im]> (h_mds (hp s))) /\
       im = descriptor ps type buffer size /\ va_n_pages (im_range im) <> 0 /\ range_ok (im_range im))) s.
Proof.
  intros Hps. unfold create_mapping_descriptor. wp_step. apply wp_udiv; [lia|].
  wp_steps; try (split; cbn; [done|left; split_and!; by try lia]).
  split; [lia|]. right. do 2 eexists. split_and!; [done|lia..|done|done|cbn; lia|]. split; cbn; [lia|].
  apply Z.div_pos; [|lia]. apply NVM_PAGE_ALIGN_nonneg.
Qed.

Section create.
Context (s : host) (c : nat) (k : controller).
Context (B : below (next s) (hp s)) (Hk : h_ctrls (hp s) !! c = Some k) (Hc : 1 <= c_count k < 2 ^ 32 - 1)
  (Hdev : has_device (hp s) k) (Hps : 0 < ctl_page_size (c_handle k) < 2 ^ 64).

(** The common end of the creating calls. *)
Lemma map_descriptor_spec s1 d im (D : ioctl_mapping -> Prop) :
  D im -> hp s1 = new_md (hp s) d im -> (next s <= d < next s1)%nat -> buffer_fresh (hp s) im ->
  (im_type im = MAP_TYPE_API -> exists b, im_buffer im = Alloc b /\ (b < next s1)%nat) -> range_ok (im_range im) ->
  wp (r ← _nvm_dma_init (Some c) (VaMd d) (Some release_mapping_descriptor_cb);
      if negb (fst r =? 0) then remove_mapping_descriptor d;; mret (fst r, None) else mret r)
    (outcome s (created s c k D)) s1.
Proof.
  intros HD E Hd Hb Hbn Hr. assert (h_mds (hp s) !! d = None) by (eapply below_md; [done|lia]).
  assert (Ec : h_ctrls (hp s1) = h_ctrls (hp s) /\ h_devs (hp s1) = h_devs (hp s)).
  { rewrite E. unfold new_md. by destruct (im_type im), (im_buffer im). }
  wp_step. eapply wp_mono.
  { apply (dma_init_spec s1 c k d im).
    - rewrite E. apply below_new_md; [done|lia..|done].
    - by rewrite (proj1 Ec).
    - done.
    - rewrite E. apply lookup_insert_eq.
    - unfold has_device. by rewrite (proj2 Ec).
    - lia.
    - apply Hr.
    - apply Hr. }
  intros [e o] s2 (Hn & [(He & Ho & E2)|(m & x & io & [= -> ->] & Hm & Hx & Hops & Hio & E2)]); cbn in *.
  - rewrite (proj2 (Z.eqb_neq _ _) He). do 2 wp_step.
    eapply wp_mono; [eapply (remove_mapping_descriptor_spec _ (hp s)); [by rewrite E2|done..]|].
    intros _ ? ->. wp_steps. split; cbn; [lia|by left].
  - wp_steps. split; [lia|]. right. exists x. split; [done|].
    exists d, im, m, io. split_and!; try lia; try done; [|apply Hr..|by rewrite E2, E].
    intros (b & ? & ?)%Hbn. exists b. split; [done|lia].
Qed.

Lemma nvm_dma_create_spec size : wp (nvm_dma_create c size) (outcome s (created s c k (fun im => im_type im = MAP_TYPE_API))) s.
Proof.
  unfold nvm_dma_create. wp_steps. eapply wp_deref; [done|].
  wp_steps; try (split; cbn; [done|left; split_and!; by try lia]).
  eapply wp_mono; [apply create_mapping_descriptor_spec; lia|]. cbn.
  assert (next s ∉ h_bufs (hp s)) by (eapply below_buf; [done|lia]).
  intros [e' o] s1 (Hn & [(He & Ho & E)|(d & im & [= -> ->] & Hd & E & -> & Hnz & Hr)]); cbn in *.
  - subst o. unfold free_buffer. destruct e'; [done|..]; wp_steps; cbn;
      try (apply bool_decide_eq_false in Heqb2; destruct Heqb2; rewrite E; cbn; set_solver);
      (split; cbn; [lia|left; split_and!; [done..|rewrite E; heap_eq; by apply set_add_remove]]).
  - apply (map_descriptor_spec _ d (descriptor (ctl_page_size (c_handle k)) MAP_TYPE_API (Alloc (next s)) (NVM_CTRL_ALIGN (ctl_page_size (c_handle k)) size)));
      [done| |lia|..|done].
    + by rewrite E.
    + intros _. cbn. eauto.
    + intros _. exists (next s). split; [done|lia].
Qed.

Lemma nvm_dma_map_host_spec vaddr size :
  let ps := ctl_page_size (c_handle k) in
  wp (nvm_dma_map_host c vaddr size) (outcome s (created s c k (fun im =>
    im = descriptor ps MAP_TYPE_HOST vaddr (NVM_CTRL_ALIGN ps size) /\ va_n_pages (im_range im) <> 0))) s.
Proof.
  unfold nvm_dma_map_host. wp_steps. eapply wp_deref; [done|].
  wp_steps; try (split; cbn; [done|left; split_and!; by try lia]).
  eapply wp_mono; [apply create_mapping_descriptor_spec; lia|]. cbn.
  intros [e' o] s1 (Hn & [(He & Ho & E)|(d & im & [= -> ->] & Hd & E & -> & Hnz & Hr)]); cbn in *.
  - destruct e'; [done|..]; wp_steps; (split; cbn; [lia|by left]).
  - by apply (map_descriptor_spec _ d (descriptor (ctl_page_size (c_handle k)) MAP_TYPE_HOST vaddr (NVM_CTRL_ALIGN (ctl_page_size (c_handle k)) size)));
      [done|rewrite E|lia|..].
Qed.

Lemma nvm_dma_map_device_spec devptr size :
  wp (nvm_dma_map_device c devptr size) (outcome s (created s c k (fun im =>
    im = descriptor 65536 MAP_TYPE_CUDA devptr size /\ va_n_pages (im_range im) <> 0))) s.
Proof.
  unfold nvm_dma_map_device. wp_steps. eapply wp_deref; [done|].
  wp_steps; try (split; cbn; [done|left; split_and!; by try lia]).
  eapply wp_mono; [apply create_mapping_descriptor_spec; done|]. cbn.
  intros [e' o] s1 (Hn & [(He & Ho & E)|(d & im & [= -> ->] & Hd & E & -> & Hnz & Hr)]); cbn in *.
  - destruct e'; [done|..]; wp_steps; (split; cbn; [lia|by left]).
  - by apply (map_descriptor_spec _ d (descriptor 65536 MAP_TYPE_CUDA devptr size)); [done|rewrite E|lia|..].
Qed.
(** [h] with the mapping [m] of a user-supplied range and its first handle. *)
Definition mapped_plain (h : heap) (v : nat) (r : va_range) (m x : nat) (io : list Z) : heap :=
  add_cont (add_map (set_vas h (<[v := r]> (h_vas h))) c k m (MkMap 1 c (Some (VaPlain v)) free_cb false))
    x m (handle_of (c_handle k) r true io).

Lemma nvm_dma_map_spec vaddr page_size n_pages io :
  let r := MkVa false vaddr page_size n_pages in
  0 <= page_size -> 0 <= n_pages -> length io = Z.to_nat n_pages ->
  wp (nvm_dma_map (Some c) vaddr page_size n_pages (Some io)) (outcome s (fun s' x =>
    exists v m, (next s <= v < next s')%nat /\ (next s <= m < next s')%nat /\ (next s <= x < next s')%nat /\
      range_ok r /\ hp s' = mapped_plain (hp s) v r m x io)) s.
Proof.
  intros r Hp Hn Hl. unfold nvm_dma_map. wp_steps; [by split; [|left]|].
  assert (Hv : h_vas (hp s) !! next s = None) by (eapply below_va; [done|lia]).
  eapply wp_mono; [by eapply create_map_spec|]. cbn.
  intros [e' o] s1 (Hn1 & [(He & Ho & E)|(m & [= -> ->] & Hm & E)]); cbn in *.
  { destruct e'; [done|..]; unfold free_va; wp_steps;
      (eapply wp_deref; [rewrite E; apply lookup_insert_eq|]); wp_steps;
      (split; cbn; [lia|left; split_and!; [done..|rewrite E; heap_eq]]). }
  assert (h_maps (hp s) !! m = None) by (eapply below_map; [done|lia]).
  wp_step. eapply wp_mono.
  { eapply (create_container_spec _ m); rewrite ?E; cbn;
      [apply lookup_insert_eq|apply lookup_insert_eq|done|cbn; by rewrite lookup_insert_eq|cbn; lia]. }
  intros [e' o] s2 (Hn2 & [(He & Ho & E2)|(x & [= -> ->] & Hx & ? & ? & _ & E2)]); cbn in *.
  { destruct e'; [done|..]; wp_step;
      (eapply wp_mono; [eapply (remove_map_spec _ (set_vas (hp s) (<[next s := r]> (h_vas (hp s)))));
         [by rewrite E2|done..]|]); intros _ ? ->; unfold free_va; wp_steps;
      (eapply wp_deref; [apply lookup_insert_eq|]); wp_steps;
      (split; cbn; [lia|left; split_and!; [done..|heap_eq]]). }
  wp_steps. eapply wp_deref; [rewrite E2, E; apply lookup_insert_eq|]. wp_step. eapply wp_mono.
  { eapply (populate_container_spec _ x m); rewrite ?E2; cbn; [apply lookup_insert_eq|lia..|done]. }
  intros _ ? ->. wp_steps. split; cbn; [lia|]. right. exists x. split; [done|].
  exists (next s), m. split_and!; [lia..|split; cbn; lia|]. rewrite E2, E. unfold mapped_plain, add_map, add_cont. heap_eq.
Qed.
End create.

(** ** Releasing mappings *)

(** [h] after the last reference to controller [c] is dropped, or another one. *)
Definition close_ctrl (h : heap) (c : nat) (k : controller) : heap :=
  let h' := set_ctrls h (delete c (h_ctrls h)) in
  match c_device k with
  | Some dev =>
      set_devs (set_fds (set_mms h' (h_mms h ∖ {[ctl_mm_ptr (c_handle k)]}))
        (h_fds h ∖ {[default 0 (h_devs h !! dev)]})) (delete dev (h_devs h))
  | None => h'
  end.

Definition drop_ref (h : heap) (c : nat) (k : controller) : heap :=
  if c_count k =? 1 then close_ctrl h c k
  else set_ctrls h (<[c := with_count k (c_count k - 1)]> (h_ctrls h)).

Definition device_live (h : heap) (k : controller) : Prop :=
  forall dev, c_device k = Some dev -> is_Some (h_devs h !! dev).

Lemma ctrl_put_any_spec s c k :
  h_ctrls (hp s) !! c = Some k -> 1 <= c_count k < 2 ^ 32 -> device_live (hp s) k ->
  wp (_nvm_ctrl_put (Some c)) (fun _ s' => s' = upd s (drop_ref (hp s) c k)) s.
Proof.
  intros Hk Hc Hdev. unfold drop_ref. destruct (Z.eqb_spec (c_count k) 1) as [E|].
  2: { apply ctrl_put_spec; [done|lia]. }
  unfold close_ctrl. destruct (c_device k) as [dev|] eqn:Ed.
  - destruct (Hdev dev Ed) as [fd Hfd]. eapply wp_mono; [by eapply ctrl_put_last_spec|].
    intros _ ? ->. rewrite Hfd. done.
  - unfold _nvm_ctrl_put, remove_handle. wp_steps. eapply wp_deref; [done|]. rewrite E, Ed.
    change (u32 (1 - 1)) with 0. wp_steps. heap_eq.
Qed.

Lemma put_map_shared_spec s m md :
  h_maps (hp s) !! m = Some md -> 2 <= m_count md < 2 ^ 32 -> is_Some (m_va md) ->
  wp (put_map (Some m)) (fun _ s' =>
    s' = upd s (set_maps (hp s) (<[m := set_map_count md (m_count md - 1)]> (h_maps (hp s))))) s.
Proof.
  intros Hm Hc [va Hva]. unfold put_map. wp_steps. eapply wp_deref; [done|].
  rewrite (u32_id (m_count md - 1)) by (unfold is_word; lia). cbn. wp_steps; [lia|].
  eapply wp_deref; [apply lookup_insert_eq|]. rewrite bool_decide_false by (cbn; congruence). by wp_steps.
Qed.

(** [h] without descriptor [d] and its buffer. *)
Definition free_md (h : heap) (d : nat) (im : ioctl_mapping) : heap :=
  set_mds
    (match im_type im, im_buffer im with
     | MAP_TYPE_API, Alloc b => set_bufs h (h_bufs h ∖ {[b]})
     | _, _ => h
     end) (delete d (h_mds h)).

(** What the release callback of a mapping frees, and what the kernel unmaps. *)
Definition free_range (h : heap) (md : map) : heap :=
  match m_va md with
  | Some (VaMd d) =>
      match h_mds h !! d with
      | Some im => free_md (set_kmaps h (h_kmaps h ∖ {[+ im_buffer im +]})) d im
      | None => h
      end
  | Some (VaPlain v) => set_vas h (delete v (h_vas h))
  | None => h
  end.

(** A mapping that can be released. *)
Definition map_live (h : heap) (md : map) (k : controller) : Prop :=
  match m_va md with
  | Some (VaMd d) =>
      m_release md = release_mapping_descriptor_cb /\ m_unmap md = true /\ c_ops k = true /\
      exists im, h_mds h !! d = Some im /\ im_buffer im ∈ h_kmaps h /\
        (im_type im = MAP_TYPE_API -> exists b, im_buffer im = Alloc b /\ b ∈ h_bufs h)
  | Some (VaPlain v) => m_release md = free_cb /\ m_unmap md = false /\ is_Some (h_vas h !! v)
  | None => False
  end.

Lemma drop_ref_set_maps h c k x : drop_ref (set_maps h x) c k = set_maps (drop_ref h c k) x.
Proof. unfold drop_ref, close_ctrl. destruct (_ =? _), (c_device k); reflexivity. Qed.

Lemma free_md_set_maps h d im x : free_md (set_maps h x) d im = set_maps (free_md h d im) x.
Proof. unfold free_md. by destruct (im_type im), (im_buffer im). Qed.

Lemma free_md_ctrls h d im : h_ctrls (free_md h d im) = h_ctrls h /\ h_devs (free_md h d im) = h_devs h.
Proof. unfold free_md. by destruct (im_type im), (im_buffer im). Qed.

(** Removing a mapping whose range is gone. *)
Lemma remove_cleared_spec s h m md k x :
  hp s = set_maps h (<[m := md]> x) -> h_ctrls h !! m_ctrl md = Some k ->
  1 <= c_count k < 2 ^ 32 -> device_live h k ->
  wp (remove_map m) (fun _ s' => s' = upd s (set_maps (drop_ref h (m_ctrl md) k) (delete m x))) s.
Proof.
  intros E Hk Hc Hd. unfold remove_map. wp_steps. eapply wp_deref; [rewrite E; apply lookup_insert_eq|].
  wp_steps. eapply wp_mono; [apply (ctrl_put_any_spec _ _ k); by rewrite ?E|].
  intros _ ? ->. wp_steps. rewrite E, drop_ref_set_maps. heap_eq.
Qed.

Lemma ioctl_unmap_spec s k d im :
  h_mds (hp s) !! d = Some im -> has_device (hp s) k -> c_ops k = true -> im_buffer im ∈ h_kmaps (hp s) ->
  wp (ioctl_unmap (c_device k) (VaMd d)) (fun _ s' =>
    s' = upd s (set_kmaps (hp s) (h_kmaps (hp s) ∖ {[+ im_buffer im +]}))) s.
Proof.
  intros Him Hd Hk Hb. unfold ioctl_unmap. wp_steps. eapply wp_deref; [done|]. wp_step.
  apply device_fd_spec; [done..|]. intros _. rewrite bool_decide_true by done. by wp_steps.
Qed.

Lemma release_mapping_descriptor_spec s d im :
  h_mds (hp s) !! d = Some im ->
  (im_type im = MAP_TYPE_API -> exists b, im_buffer im = Alloc b /\ b ∈ h_bufs (hp s)) ->
  wp (release_mapping_descriptor (VaMd d)) (fun _ s' => s' = upd s (free_md (hp s) d im)) s.
Proof.
  intros Him Hb. unfold release_mapping_descriptor, remove_mapping_descriptor, free_md. wp_steps.
  eapply wp_deref; [done|]. wp_steps; destruct (im_type im) eqn:Et; try done.
  destruct Hb as (b & -> & Hb); [done|]. unfold free_buffer. wp_steps; [done|].
  by apply bool_decide_eq_false in Heqb0.
Qed.

Lemma put_map_last_spec s m md k :
  h_maps (hp s) !! m = Some md -> m_count md = 1 -> h_ctrls (hp s) !! m_ctrl md = Some k ->
  1 <= c_count k < 2 ^ 32 -> device_live (hp s) k -> has_device (hp s) k -> map_live (hp s) md k ->
  wp (put_map (Some m)) (fun _ s' =>
    s' = upd s (set_maps (drop_ref (free_range (hp s) md) (m_ctrl md) k) (delete m (h_maps (hp s))))) s.
Proof.
  intros Hm Hc Hk Hkc Hdev Hops Hl. unfold put_map. wp_steps. eapply wp_deref; [done|].
  rewrite Hc. change (u32 (1 - 1)) with 0. cbn. wp_steps.
  eapply wp_deref; [done|]. wp_step. unfold map_live in Hl. unfold free_range.
  destruct (m_va md) as [[d|v]|] eqn:Hva; [..|done]; (eapply wp_deref; [done|]).
  - destruct Hl as (Hrel & Hun & Ho & im & Him & Hkm & Hb). rewrite Hun, Hrel, Him. wp_step.
    eapply wp_mono; [by apply (ioctl_unmap_spec _ _ _ im)|]. intros _ ? ->. wp_step.
    eapply wp_mono; [by apply (release_mapping_descriptor_spec _ d im)|]. intros _ ? ->. wp_steps.
    eapply wp_deref; [apply lookup_insert_eq|]. rewrite bool_decide_true by done.
    eapply wp_mono; [apply (remove_cleared_spec _
      (free_md (set_kmaps (hp s) (h_kmaps (hp s) ∖ {[+ im_buffer im +]})) d im)
      m (clear_va (set_map_count md 0)) k (<[m := set_map_count md 0]> (h_maps (hp s))))|].
    + unfold free_md. by destruct (im_type im), (im_buffer im).
    + by rewrite (proj1 (free_md_ctrls _ _ _)).
    + done.
    + intros dev. rewrite (proj2 (free_md_ctrls _ _ _)). apply Hdev.
    + intros _ ? ->. cbn. f_equal. heap_eq.
  - destruct Hl as (Hrel & Hun & r & Hr). rewrite Hun, Hrel. unfold call_release, free_va. wp_steps.
    eapply wp_deref; [done|]. wp_steps.
    eapply wp_deref; [apply lookup_insert_eq|]. rewrite bool_decide_true by done.
    eapply wp_mono; [by apply (remove_cleared_spec _ (set_vas (hp s) (delete v (h_vas (hp s))))
      m (clear_va (set_map_count md 0)) k (<[m := set_map_count md 0]> (h_maps (hp s))))|].
    intros _ ? ->. cbn. f_equal. heap_eq.
Qed.
End mapping.
(** ** Properties *)

Lemma contig_closed hps l a0 :
  Forall (is_word 64) l -> l !! 0%nat = Some a0 ->
  contig hps l = true <-> forall i a, l !! i = Some a -> a = u64 (a0 + Z.of_nat i * hps).
Proof.
  intros Hw H0. rewrite contig_spec. split.
  - intros Hl i. induction i as [|i IH]; intros a Ha.
    + assert (a = a0) as -> by congruence. rewrite Z.add_0_r, u64_id; [done|]. rewrite Forall_lookup in Hw. by eapply Hw.
    + destruct (lookup_lt_is_Some_2 l i) as [b Hb]; [apply lookup_lt_Some in Ha; lia|].
      rewrite (Hl i b a Hb Ha), (IH b Hb). unfold u64. rewrite wrap_add_l. f_equal. lia.
  - intros Hl i a b Ha Hb. rewrite (Hl _ _ Ha), (Hl _ _ Hb). unfold u64. rewrite wrap_add_l. f_equal. lia.
Qed.

(** C30: A DMA handle translates addresses.  [populate_handle] reads only inside the
    list of [n_pages] bus addresses and gives one entry per controller page: entry [i] is the
    bus address of byte [i * page_size] of the range, and the handle is marked contiguous
    exactly when the entries form one block on the bus. *)
Theorem populate_handle_translates local va ctrl io s :
  0 < ctl_page_size ctrl -> 0 < va_page_size va -> 0 <= va_n_pages va -> length io = Z.to_nat (va_n_pages va) ->
  va_page_size va * va_n_pages va < 2 ^ 64 -> ctl_page_size ctrl <= va_page_size va * va_n_pages va ->
  exists d, populate_handle local va ctrl io s = Some (d, s) /\
    dma_vaddr d = va_vaddr va /\ dma_page_size d = ctl_page_size ctrl /\
    Z.of_nat (length (dma_ioaddrs d)) = va_page_size va * va_n_pages va / ctl_page_size ctrl /\
    (forall i a, dma_ioaddrs d !! i = Some a ->
       exists base, io !! Z.to_nat (Z.of_nat i * ctl_page_size ctrl / va_page_size va) = Some base /\
         a = u64 (base + (Z.of_nat i * ctl_page_size ctrl) mod va_page_size va)) /\
    (dma_contiguous d = true <->
     forall i a, dma_ioaddrs d !! i = Some a -> a = u64 (bus (ctl_page_size ctrl) (va_page_size va) io 0 + Z.of_nat i * ctl_page_size ctrl)).
Proof.
  intros Hh Hp Hn Hl Hfit Hone.
  destruct (wp_total _ _ _ (populate_handle_spec local va ctrl io s Hh Hp Hn Hl)) as (d & s' & E & -> & ->).
  rewrite (u64_id (va_page_size va * va_n_pages va)) in E by (unfold is_word; lia). set (hps := ctl_page_size ctrl) in *.
  set (n := Z.to_nat (va_page_size va * va_n_pages va / hps)) in *. set (io' := bus_list hps (va_page_size va) io n) in *.
  assert (Hq : 1 <= va_page_size va * va_n_pages va / hps) by (apply Z.div_le_lower_bound; lia).
  assert (Hlen : length io' = n) by (unfold io', bus_list; by rewrite length_fmap, length_seq).
  assert (Hi : forall i a, io' !! i = Some a -> (i < n)%nat /\ a = bus hps (va_page_size va) io i).
  { intros i a Ha. pose proof (lookup_lt_Some _ _ _ Ha) as Hlt. rewrite Hlen in Hlt. split; [done|].
    unfold io', bus_list in Ha. rewrite list_lookup_fmap, lookup_seq_lt in Ha by done. by injection Ha as <-. }
  eexists. split; [exact E|]. cbn. split_and!; try done.
  - rewrite Hlen. unfold n. lia.
  - intros i a (Hlt & ->)%Hi. exists (io !!! Z.to_nat (Z.of_nat i * hps / va_page_size va)). split; [|done].
    apply (list_lookup_lookup_total_lt (A := Z)). rewrite Hl.
    pose proof (Z.mul_div_le (va_page_size va * va_n_pages va) hps Hh).
    assert (Z.of_nat i * hps / va_page_size va < va_n_pages va) by (apply Z.div_lt_upper_bound; [lia|]; unfold n in *; nia).
    pose proof (Z.div_pos (Z.of_nat i * hps) (va_page_size va)). lia.
  - apply contig_closed.
    + apply list.Forall_forall. intros a (i & -> & _)%list_elem_of_fmap. apply u64_range.
    + unfold io', bus_list. rewrite list_lookup_fmap, lookup_seq_lt by (unfold n; lia). done.
Qed.

Definition example_ctl : nvm_ctrl_t := MkCtrl 4096 0 10000 4096 8192 8192.
Definition example_va : va_range := MkVa false (User 0) 65536 2.

Lemma populate_handle_translates_witness :
  length [2 ^ 20; 2 ^ 30] = Z.to_nat (va_n_pages example_va) /\
  exists d, populate_handle true example_va example_ctl [2 ^ 20; 2 ^ 30] (example_host []) = Some (d, example_host []) /\
    Z.of_nat (length (dma_ioaddrs d)) = 32.
Proof.
  split; [done|].
  destruct (populate_handle_translates true example_va example_ctl [2 ^ 20; 2 ^ 30] (example_host []))
    as (d & E & _ & _ & Hn & _); [done..|]. exists d. split; [exact E|exact Hn].
Defined.
End DmaSpec.
