(* ===== verification/DmaInv.v ===== *)
(** The invariant of the host library's heap: reference counts are exact, every
    mapping owns its range, and nothing is kept without an owner. *)
From Stdlib Require Import ZArith Lia List Bool.
From stdpp Require Import base list gmap gmultiset numbers functions.
From S2P Require Import Prelude Exec NvmUtil NvmQueue Host Dma DmaSpec.
Import Host Dma DmaSpec.

Import ListNotations.
Local Open Scope Z_scope.

Module DmaInv.

(** ** The invariant

    [own c] counts the references to controller [c] held outside the library's
    mappings: the user's handle, or a call in progress. *)

Record ok_ctrls (own : nat -> Z) (h : heap) : Prop := {
  oc_count c k : h_ctrls h !! c = Some k -> c_count k = own c + refs h c /\ 0 < c_count k;
  oc_page c k : h_ctrls h !! c = Some k -> 0 < ctl_page_size (c_handle k) < 2 ^ 64;
  oc_dev c k : h_ctrls h !! c = Some k -> has_device h k /\ device_live h k;
  oc_inj c c' k k' dev : h_ctrls h !! c = Some k -> h_ctrls h !! c' = Some k' ->
    c_device k = Some dev -> c_device k' = Some dev -> c = c';
  oc_own c : 0 <= own c /\ (own c <> 0 -> is_Some (h_ctrls h !! c));
  oc_devs dev fd : h_devs h !! dev = Some fd ->
    fd = Z.of_nat dev /\ exists c k, h_ctrls h !! c = Some k /\ c_device k = Some dev;
  oc_fds z : z ∈ h_fds h -> exists dev, h_devs h !! dev = Some z;
  oc_type c k : h_ctrls h !! c = Some k -> c_type k = DEVICE_TYPE_IOCTL -> c_ops k = true
}.

Record ok_maps (h : heap) : Prop := {
  om_count m md : h_maps h !! m = Some md -> m_count md = users h m /\ 0 < m_count md;
  om_ctrl m md : h_maps h !! m = Some md ->
    exists k, h_ctrls h !! m_ctrl md = Some k /\ (m_unmap md = true -> c_ops k = true);
  om_cont x ct : h_conts h !! x = Some ct -> is_Some (h_maps h !! ct_map ct)
}.

Definition owns_range (h : heap) (md : map) : Prop :=
  match m_va md with
  | Some (VaMd d) => m_release md = release_mapping_descriptor_cb /\ m_unmap md = true /\ is_Some (h_mds h !! d)
  | Some (VaPlain v) => m_release md = free_cb /\ m_unmap md = false /\ is_Some (h_vas h !! v)
  | None => False
  end.

Record ok_ranges (h : heap) : Prop := {
  or_va m md : h_maps h !! m = Some md -> owns_range h md;
  or_inj m m' md md' : h_maps h !! m = Some md -> h_maps h !! m' = Some md' -> m_va md = m_va md' -> m = m';
  or_md d im : h_mds h !! d = Some im ->
    (exists m md, h_maps h !! m = Some md /\ m_va md = Some (VaMd d)) /\
    (im_type im = MAP_TYPE_API -> exists b, im_buffer im = Alloc b /\ b ∈ h_bufs h);
  or_vas v r : h_vas h !! v = Some r -> exists m md, h_maps h !! m = Some md /\ m_va md = Some (VaPlain v);
  or_bufs b : b ∈ h_bufs h -> exists d im, h_mds h !! d = Some im /\ im_type im = MAP_TYPE_API /\ im_buffer im = Alloc b;
  or_buf_inj d d' im im' : h_mds h !! d = Some im -> h_mds h !! d' = Some im' ->
    im_type im = MAP_TYPE_API -> im_type im' = MAP_TYPE_API -> im_buffer im = im_buffer im' -> d = d';
  or_kmaps p : Z.of_nat (multiplicity p (h_kmaps h)) = cnt (fun im => im_buffer im = p) (h_mds h)
}.

(** A handle describes the range of its mapping. *)
Definition describes (k : nvm_ctrl_t) (r : va_range) (d : nvm_dma_t) : Prop :=
  dma_vaddr d = va_vaddr r /\ dma_local d = negb (va_remote r) /\ dma_page_size d = ctl_page_size k /\
  dma_contiguous d = contig (ctl_page_size k) (dma_ioaddrs d) /\ Forall (is_word 64) (dma_ioaddrs d) /\
  Z.of_nat (length (dma_ioaddrs d)) * ctl_page_size k < 2 ^ 64.

Definition handle_ok (h : heap) (ct : container) : Prop :=
  exists md k va r, h_maps h !! ct_map ct = Some md /\ h_ctrls h !! m_ctrl md = Some k /\
    m_va md = Some va /\ range_at h va = Some r /\ describes (c_handle k) r (ct_handle ct).

Record ok (own : nat -> Z) (h : heap) : Prop := {
  ok_c : ok_ctrls own h;
  ok_m : ok_maps h;
  ok_r : ok_ranges h;
  ok_h x ct : h_conts h !! x = Some ct -> handle_ok h ct
}.

(** ** Handles *)

Lemma bus_list_length hps ps io n : length (bus_list hps ps io n) = n.
Proof. unfold bus_list. by rewrite length_fmap, length_seq. Qed.

Lemma handle_of_describes k r io :
  0 < ctl_page_size k -> describes k r (handle_of k r (negb (va_remote r)) io).
Proof.
  intros Hk. unfold describes, handle_of; cbn. split_and!; try done.
  - apply list.Forall_forall. intros a (i & -> & _)%list_elem_of_fmap. apply u64_range.
  - rewrite bus_list_length.
    assert (0 <= u64 (va_page_size r * va_n_pages r) < 2 ^ 64) by (apply Z.mod_pos_bound; lia).
    pose proof (Z.mul_div_le (u64 (va_page_size r * va_n_pages r)) (ctl_page_size k) Hk).
    pose proof (Z.div_pos (u64 (va_page_size r * va_n_pages r)) (ctl_page_size k)). lia.
Qed.

(** [nvm_dma_remap] rebuilds the handle from the list of its addresses. *)
Lemma handle_of_remap k r d :
  0 < ctl_page_size k -> describes k r d ->
  handle_of k (MkVa (negb (dma_local d)) (va_vaddr r) (dma_page_size d) (Z.of_nat (length (dma_ioaddrs d))))
    (negb (va_remote r)) (dma_ioaddrs d) = d.
Proof.
  intros Hk (Hv & Hl & Hp & Hc & Hw & Hn). unfold handle_of; cbn.
  destruct d as [v l c p io]; cbn in *. subst v l p.
  rewrite u64_id by (unfold is_word; nia). rewrite Z.mul_comm, Z.div_mul, Nat2Z.id by lia.
  assert (E : bus_list (ctl_page_size k) (ctl_page_size k) io (length io) = io).
  { apply list_eq. intros i. unfold bus_list. rewrite list_lookup_fmap.
    destruct (decide (i < length io)%nat) as [Hi|Hi].
    - rewrite lookup_seq_lt by done. cbn. unfold bus.
      rewrite Z.div_mul, Z.mod_mul, Z.add_0_r, Nat2Z.id by lia.
      rewrite (list_lookup_lookup_total_lt (A := Z) io i) by done. f_equal.
      apply u64_id. rewrite Forall_lookup in Hw. eapply Hw. by apply (list_lookup_lookup_total_lt (A := Z)).
    - rewrite lookup_seq_ge, lookup_ge_None_2 by lia. done. }
  by rewrite E, Hc.
Qed.
(** ** References to controllers *)

Lemma refs_zero h c m md : refs h c = 0 -> h_maps h !! m = Some md -> m_ctrl md <> c.
Proof. intros H0 Hm E. pose proof (cnt_pos (fun md => m_ctrl md = c) _ _ _ Hm E). unfold refs in *. lia. Qed.

(** Another count for controller [c]. *)
Lemma ok_recount own own' h c k n :
  ok own h -> h_ctrls h !! c = Some k -> 0 < n -> n = own' c + refs h c -> 0 <= own' c ->
  (forall c', c' <> c -> own' c' = own c') ->
  ok own' (set_ctrls h (<[c := with_count k n]> (h_ctrls h))).
Proof.
  intros [C Mp R Hh] Hk Hn En H0 Hown.
  assert (L : forall c' k', <[c := with_count k n]> (h_ctrls h) !! c' = Some k' ->
    exists k0, h_ctrls h !! c' = Some k0 /\ k' = with_count k0 (c_count k') /\ (c' <> c -> k' = k0) /\ (c' = c -> c_count k' = n)).
  { intros c' k'. destruct (decide (c' = c)) as [->|Hne].
    - rewrite lookup_insert_eq. intros [= <-]. exists k. by split_and!.
    - rewrite lookup_insert_ne by done. intros Hk'. exists k'. split_and!; try done. by destruct k'. }
  assert (L' : forall c' k0, h_ctrls h !! c' = Some k0 -> exists j, <[c := with_count k n]> (h_ctrls h) !! c' = Some (with_count k0 j)).
  { intros c' k0 Hk0. destruct (decide (c' = c)) as [->|Hne].
    - rewrite lookup_insert_eq. simplify_eq. eauto.
    - rewrite lookup_insert_ne by done. exists (c_count k0). rewrite Hk0. by destruct k0. }
  split; [destruct C as [Cc Cp Cd Ci Co Cv Cf Ct]; split|destruct Mp as [Mc Mk Mx]; split|destruct R; by split|].
  - intros c' k' (k0 & Hk0 & E & Ene & Eeq)%L. unfold refs in *. cbn. destruct (decide (c' = c)) as [->|Hne].
    + rewrite Eeq by done. done.
    + rewrite Ene, Hown by done. by apply Cc.
  - intros c' k' (k0 & Hk0 & E & _)%L. rewrite E. exact (Cp _ _ Hk0).
  - intros c' k' (k0 & Hk0 & E & _)%L. rewrite E. exact (Cd _ _ Hk0).
  - intros c1 c2 k1 k2 dev (k3 & H3 & E3 & _)%L (k4 & H4 & E4 & _)%L. rewrite E3, E4. exact (Ci _ _ _ _ _ H3 H4).
  - intros c'. cbn. destruct (decide (c' = c)) as [->|Hne]; [by rewrite lookup_insert_eq|].
    rewrite lookup_insert_ne, Hown by done. apply Co.
  - intros dev fd Hd. destruct (Cv dev fd Hd) as (? & c' & k0 & (j & Hj)%L' & Ed). split; [done|]. by eauto.
  - done.
  - intros c' k' (k0 & Hk0 & E & _)%L. rewrite E. exact (Ct _ _ Hk0).
  - done.
  - intros m md Hm. destruct (Mk m md Hm) as (k0 & (j & Hj)%L' & Ho). by eauto.
  - done.
  - intros x ct Hx. destruct (Hh x ct Hx) as (md & k0 & va & r & ? & (j & Hj)%L' & ?). by exists md, (with_count k0 j), va, r.
Qed.

Lemma ok_add_ref own h c k :
  ok own h -> h_ctrls h !! c = Some k -> ok (<[c := own c + 1]> own) (add_ref h c k).
Proof.
  intros O Hk. destruct (oc_count _ _ (ok_c _ _ O) _ _ Hk). destruct (oc_own _ _ (ok_c _ _ O) c).
  apply (ok_recount own); [done..| | | |]; rewrite ?fn_lookup_insert; try lia.
  intros c' ?. by rewrite fn_lookup_insert_ne.
Qed.

(** What closing controller [c] leaves alone. *)
Lemma close_ctrl_devs own h c k :
  ok_ctrls own h -> h_ctrls h !! c = Some k ->
  (forall dev fd, h_devs (close_ctrl h c k) !! dev = Some fd <->
     h_devs h !! dev = Some fd /\ c_device k <> Some dev) /\
  (forall z, z ∈ h_fds (close_ctrl h c k) -> z ∈ h_fds h /\ forall dev, c_device k = Some dev -> h_devs h !! dev <> Some z).
Proof.
  intros C Hk. unfold close_ctrl. destruct (c_device k) as [dev0|] eqn:Ed; cbn; [|naive_solver].
  destruct (proj2 (oc_dev _ _ C c k Hk) dev0 Ed) as [fd0 Hfd]. rewrite Hfd. cbn. split.
  - intros dev fd. rewrite lookup_delete_Some. naive_solver.
  - intros z [Hz Hne]%elem_of_difference. split; [done|]. intros dev [= <-] ?. simplify_eq. by apply Hne, elem_of_singleton.
Qed.

(** Closing a controller without mappings. *)
Lemma ok_close own h c k :
  ok own h -> h_ctrls h !! c = Some k -> refs h c = 0 -> ok (<[c := 0]> own) (close_ctrl h c k).
Proof.
  intros [C Mp R Hh] Hk H0. destruct (close_ctrl_devs _ _ _ _ C Hk) as [Hdevs Hfds].
  assert (L : forall c' k', h_ctrls (close_ctrl h c k) !! c' = Some k' <-> c' <> c /\ h_ctrls h !! c' = Some k').
  { intros. replace (h_ctrls (close_ctrl h c k)) with (delete c (h_ctrls h)) by (unfold close_ctrl; by destruct (c_device k)).
    rewrite lookup_delete_Some. naive_solver. }
  assert (Lo : forall m md, h_maps h !! m = Some md -> m_ctrl md <> c) by (intros; by eapply refs_zero).
  assert (E : close_ctrl h c k = MkHeap (h_devs (close_ctrl h c k)) (h_ctrls (close_ctrl h c k)) (h_mds h) (h_vas h)
    (h_maps h) (h_conts h) (h_bufs h) (h_kmaps h) (h_fds (close_ctrl h c k)) (h_mms (close_ctrl h c k))).
  { unfold close_ctrl. by destruct (c_device k). }
  revert Hdevs Hfds L. rewrite E. generalize (h_devs (close_ctrl h c k)), (h_ctrls (close_ctrl h c k)),
    (h_fds (close_ctrl h c k)), (h_mms (close_ctrl h c k)). clear E. intros devs ctrls fds mms; cbn. intros Hdevs Hfds L.
  split; [destruct C as [Cc Cp Cd Ci Co Cv Cf Ct]; split|destruct Mp as [Mc Mk Mx]; split|destruct R; by split|]; cbn.
  - intros c' k' [? Hk']%L. rewrite fn_lookup_insert_ne by done. apply (Cc _ _ Hk').
  - intros c' k' [? Hk']%L. by eapply Cp.
  - intros c' k' [Hne Hk']%L. destruct (Cd _ _ Hk') as [D1 D2]. assert (forall dev, c_device k' = Some dev -> c_device k <> Some dev).
    { intros dev ? ?. by eapply Hne, Ci. }
    split; [intros (dev & fd & Ed & Hfd)%D1; exists dev, fd; split; [done|]|intros dev Ed; destruct (D2 dev Ed) as [fd ?]; exists fd];
      cbn; apply Hdevs; auto.
  - intros c1 c2 k1 k2 dev [? H1]%L [? H2]%L. by eapply Ci.
  - intros c'. destruct (decide (c' = c)) as [->|Hne].
    + by rewrite fn_lookup_insert.
    + rewrite fn_lookup_insert_ne by done. split; [apply Co|]. intros [k' Hk']%Co. exists k'. by apply L.
  - intros dev fd [Hd Hn]%Hdevs. destruct (Cv _ _ Hd) as (? & c' & k' & Hk' & Ed). split; [done|].
    exists c', k'. split; [|done]. apply L. split; [|done]. intros ->. congruence.
  - intros z [Hz Hne]%Hfds. destruct (Cf z Hz) as [dev Hd]. exists dev. apply Hdevs. split; [done|]. intros ?. by eapply Hne.
  - intros c' k' [? Hk']%L. by eapply Ct.
  - done.
  - intros m md Hm. destruct (Mk m md Hm) as (k' & Hk' & ?). exists k'. split; [|done]. apply L. eauto.
  - done.
  - intros x ct Hx. destruct (Hh x ct Hx) as (md & k' & va & r & ? & ? & ? & ? & ?). exists md, k', va, r.
    split_and!; [done| |done..]. apply L. eauto.
Qed.

Lemma ok_drop_ref own h c k :
  ok own h -> h_ctrls h !! c = Some k -> 1 <= own c -> ok (<[c := own c - 1]> own) (drop_ref h c k).
Proof.
  intros O Hk Ho. destruct (oc_count _ _ (ok_c _ _ O) _ _ Hk). unfold drop_ref.
  pose proof (cnt_nonneg (fun md => m_ctrl md = c) (h_maps h)). fold (refs h c) in *.
  destruct (Z.eqb_spec (c_count k) 1).
  - replace (own c - 1) with 0 by lia. apply ok_close; [done..|lia].
  - apply (ok_recount own); [done..| | | |]; rewrite ?fn_lookup_insert; try lia.
    intros c' ?. by rewrite fn_lookup_insert_ne.
Qed.

(** ** Adding a mapping *)

Lemma users_none h m : ok_maps h -> h_maps h !! m = None -> users h m = 0.
Proof.
  intros O Hm. apply cnt_zero. intros x ct Hx E. destruct (om_cont _ O _ _ Hx) as [? ?]. congruence.
Qed.

(** [h] with other ranges. *)
Definition set_ranges (h : heap) mds vas bufs kmaps : heap :=
  set_kmaps (set_bufs (set_vas (set_mds h mds) vas) bufs) kmaps.

(** A new mapping [m] that takes over one reference to its controller, and its first handle [x]. *)
Lemma ok_new_map own h c k m x va rel un r d mds vas bufs kmaps :
  let h1 := set_ranges h mds vas bufs kmaps in
  let h' := add_cont (set_maps h1 (<[m := MkMap 1 c (Some va) rel un]> (h_maps h))) x m d in
  ok own h -> h_ctrls h !! c = Some k -> 1 <= own c -> h_maps h !! m = None -> h_conts h !! x = None ->
  (un = true -> c_ops k = true) -> range_at h1 va = Some r -> describes (c_handle k) r d ->
  (forall va r, range_at h va = Some r -> range_at h1 va = Some r) -> ok_ranges h' ->
  ok (<[c := own c - 1]> own) h'.
Proof.
  intros h1 h' O Hk Ho Hm Hx Hun Hr Hd Hext R'. pose proof (users_none h m (ok_m _ _ O) Hm) as Hu.
  destruct O as [C Mp _ Hh]. split; [destruct C as [Cc Cp Cd Ci Co Cv Cf Ct]; split|destruct Mp as [Mc Mk Mx]; split|done|].
  - intros c' k' Hk'. destruct (Cc c' k' Hk') as [Hcnt ?]. split; [|done]. unfold refs in *; cbn.
    rewrite cnt_insert_new by done. cbn. destruct (decide (c' = c)) as [->|Hne].
    + rewrite fn_lookup_insert, bool_decide_true by done. cbn. lia.
    + rewrite fn_lookup_insert_ne, bool_decide_false by done. cbn. lia.
  - exact Cp.
  - exact Cd.
  - exact Ci.
  - intros c'. destruct (decide (c' = c)) as [->|Hne].
    + rewrite fn_lookup_insert. split; [lia|]. by eexists.
    + rewrite fn_lookup_insert_ne by done. apply Co.
  - exact Cv.
  - exact Cf.
  - exact Ct.
  - intros m' md'. cbn. unfold users in *. cbn. rewrite cnt_insert_new by done. cbn. rewrite lookup_insert_Some.
    intros [[<- <-]|[Hne Hm']]; cbn.
    + rewrite bool_decide_true by done. cbn. lia.
    + rewrite bool_decide_false by done. destruct (Mc _ _ Hm'). cbn. lia.
  - intros m' md'. cbn. rewrite lookup_insert_Some. intros [[<- <-]|[Hne Hm']]; [by exists k|]. by apply (Mk m').
  - intros x' ct'. cbn. rewrite lookup_insert_Some. intros [[<- <-]|[Hne Hx']]; cbn.
    + by rewrite lookup_insert_eq.
    + destruct (Mx _ _ Hx') as [md' ?]. rewrite lookup_insert_ne by congruence. by eexists.
  - intros x' ct'. cbn. rewrite lookup_insert_Some. intros [[<- <-]|[Hne Hx']].
    + exists (MkMap 1 c (Some va) rel un), k, va, r. cbn. by rewrite lookup_insert_eq.
    + destruct (Hh _ _ Hx') as (md' & k' & va' & r' & Hm' & ? & ? & ? & ?).
      exists md', k', va', r'. cbn. rewrite lookup_insert_ne by congruence. split_and!; try done. by apply (Hext va').
Qed.

Lemma new_md_eq h d im :
  exists bufs, new_md h d im = set_bufs (set_mds h (<[d := im]> (h_mds h))) bufs /\
    forall b, b ∈ bufs <-> b ∈ h_bufs h \/ im_type im = MAP_TYPE_API /\ im_buffer im = Alloc b.
Proof.
  unfold new_md. destruct (im_type im) eqn:Et, (im_buffer im) as [b|] eqn:Eb.
  5: { exists (h_bufs h ∪ {[b]}). split; [done|]. intros b'. rewrite elem_of_union, elem_of_singleton.
       naive_solver. }
  all: exists (h_bufs h); split; [by destruct h|]; intros; naive_solver.
Qed.

(** The ranges of a new descriptor. *)
Lemma ok_ranges_md h m c d im x r :
  ok_ranges h -> h_maps h !! m = None -> h_mds h !! d = None -> buffer_fresh h im ->
  ok_ranges (add_cont (set_maps (set_kmaps (new_md h d im) (h_kmaps h ⊎ {[+ im_buffer im +]}))
    (<[m := MkMap 1 c (Some (VaMd d)) release_mapping_descriptor_cb true]> (h_maps h))) x m r).
Proof.
  intros [Rv Ri Rm Rs Rb Rj Rk] Hm Hd Hb. destruct (new_md_eq h d im) as (bufs & -> & Hbufs).
  split; cbn.
  - intros m' md'. rewrite lookup_insert_Some. intros [[<- <-]|[Hne Hm']]; [by cbn; rewrite lookup_insert_eq|].
    specialize (Rv m' md' Hm'). unfold owns_range in *; cbn. destruct (m_va md') as [[d'|]|]; [|done..].
    destruct Rv as (? & ? & ?). rewrite lookup_insert_is_Some'. by auto.
  - assert (forall m' md', h_maps h !! m' = Some md' -> m_va md' <> Some (VaMd d)).
    { intros m' md' Hm' E. specialize (Rv m' md' Hm'). unfold owns_range in Rv. rewrite E in Rv.
      destruct Rv as (_ & _ & [? ?]). congruence. }
    intros m1 m2 md1 md2. rewrite !lookup_insert_Some.
    intros [[<- <-]|[? H1]] [[<- <-]|[? H2]] E; cbn in E; [done|by destruct (H m2 md2)|by destruct (H m1 md1)|by eapply Ri].
  - intros d' im'. rewrite lookup_insert_Some. intros [[<- <-]|[Hne Hd']]; split.
    + do 2 eexists. by rewrite lookup_insert_eq.
    + intros Et. destruct (Hb Et) as (b & Eb & _). exists b. split; [done|]. apply Hbufs. auto.
    + destruct (Rm d' im' Hd') as [(m' & md' & Hm' & ?) _]. exists m', md'. by rewrite lookup_insert_ne by congruence.
    + intros Et. destruct (Rm d' im' Hd') as [_ (b & ? & ?)]; [done|]. exists b. split; [done|]. apply Hbufs. auto.
  - intros v r' Hv. destruct (Rs v r' Hv) as (m' & md' & Hm' & ?). exists m', md'. by rewrite lookup_insert_ne by congruence.
  - intros b [Hin|[Et Eb]]%Hbufs.
    + destruct (Rb b Hin) as (d' & im' & Hd' & ? & ?). exists d', im'. by rewrite lookup_insert_ne by congruence.
    + exists d, im. by rewrite lookup_insert_eq.
  - assert (forall d' im', h_mds h !! d' = Some im' -> im_type im = MAP_TYPE_API -> im_type im' = MAP_TYPE_API ->
      im_buffer im <> im_buffer im').
    { intros d' im' Hd' Et Et' E. destruct (Hb Et) as (b & Eb & Hnb).
      destruct (Rm d' im' Hd') as [_ (b' & Eb' & Hb')]; [done|]. apply Hnb. congruence. }
    intros d1 d2 im1 im2. rewrite !lookup_insert_Some.
    intros [[<- <-]|[? H1]] [[<- <-]|[? H2]] Et1 Et2 E; [done|by destruct (H d2 im2)|by destruct (H d1 im1)|by eapply Rj].
  - intros p. rewrite multiplicity_disj_union, multiplicity_singleton, cnt_insert_new, Nat2Z.inj_add, Rk by done.
    destruct (decide (p = im_buffer im)); [rewrite bool_decide_true by done|rewrite bool_decide_false by done]; done.
Qed.

(** The ranges of a new user-supplied range. *)
Lemma ok_ranges_plain h m c v va x r :
  ok_ranges h -> h_maps h !! m = None -> h_vas h !! v = None ->
  ok_ranges (add_cont (set_maps (set_vas h (<[v := va]> (h_vas h)))
    (<[m := MkMap 1 c (Some (VaPlain v)) free_cb false]> (h_maps h))) x m r).
Proof.
  intros [Rv Ri Rm Rs Rb Rj Rk] Hm Hd. split; cbn; try done.
  - intros m' md'. rewrite lookup_insert_Some. intros [[<- <-]|[Hne Hm']]; [by cbn; rewrite lookup_insert_eq|].
    specialize (Rv m' md' Hm'). unfold owns_range in *; cbn. destruct (m_va md') as [[|v']|]; [done| |done].
    destruct Rv as (? & ? & ?). rewrite lookup_insert_is_Some'. by auto.
  - assert (forall m' md', h_maps h !! m' = Some md' -> m_va md' <> Some (VaPlain v)).
    { intros m' md' Hm' E. specialize (Rv m' md' Hm'). unfold owns_range in Rv. rewrite E in Rv.
      destruct Rv as (_ & _ & [? ?]). congruence. }
    intros m1 m2 md1 md2. rewrite !lookup_insert_Some.
    intros [[<- <-]|[? H1]] [[<- <-]|[? H2]] E; cbn in E; [done|by destruct (H m2 md2)|by destruct (H m1 md1)|by eapply Ri].
  - intros d' im' Hd'. destruct (Rm d' im' Hd') as [(m' & md' & Hm' & ?) ?]. split; [|done].
    exists m', md'. by rewrite lookup_insert_ne by congruence.
  - intros v' r'. rewrite lookup_insert_Some. intros [[<- <-]|[Hne Hv]].
    + do 2 eexists. by rewrite lookup_insert_eq.
    + destruct (Rs v' r' Hv) as (m' & md' & Hm' & ?). exists m', md'. by rewrite lookup_insert_ne by congruence.
Qed.

Lemma ok_ext own own' h : (forall c, own c = own' c) -> ok own h -> ok own' h.
Proof.
  intros E [[Cc Cp Cd Ci Co Cv Cf Ct] Mp R Hh]. split; [split|done..]; try done.
  - intros c k. rewrite <- E. apply Cc.
  - intros c. rewrite <- E. apply Co.
Qed.

Lemma ok_mapped own h c k d im m x io :
  ok own h -> h_ctrls h !! c = Some k -> h_maps h !! m = None -> h_conts h !! x = None -> h_mds h !! d = None ->
  buffer_fresh h im -> c_ops k = true ->
  ok own (mapped (new_md h d im) c k d im m x io).
Proof.
  intros O Hk Hm Hx Hd Hb Hops. pose proof (oc_page _ _ (ok_c _ _ O) _ _ Hk) as Hp.
  pose proof (ok_add_ref own h c k O Hk) as O1.
  pose proof (ok_ranges_md (add_ref h c k) m c d im x
    (handle_of (c_handle k) (im_range im) (negb (va_remote (im_range im))) io) (ok_r _ _ O1) Hm Hd Hb) as R.
  destruct (oc_own _ _ (ok_c _ _ O) c) as [Ho _].
  eapply (ok_ext (<[c := (own c + 1) - 1]> (<[c := own c + 1]> own))).
  { intros c'. destruct (decide (c' = c)) as [->|]; rewrite ?fn_lookup_insert, ?fn_lookup_insert_ne by done; [lia|done]. }
  revert R. destruct (new_md_eq h d im) as (bufs & E & _). destruct (new_md_eq (add_ref h c k) d im) as (bufs' & E' & _).
  assert (bufs' = bufs) as ->.
  { replace bufs with (h_bufs (new_md h d im)) by (by rewrite E).
    replace bufs' with (h_bufs (new_md (add_ref h c k) d im)) by (by rewrite E').
    unfold new_md. by destruct (im_type im), (im_buffer im). }
  unfold mapped. rewrite E, E'. intros R.
  pose proof (ok_new_map (<[c := own c + 1]> own) (add_ref h c k) c (with_count k (c_count k + 1)) m x (VaMd d)
    release_mapping_descriptor_cb true (im_range im)
    (handle_of (c_handle k) (im_range im) (negb (va_remote (im_range im))) io)
    (<[d := im]> (h_mds h)) (h_vas h) bufs (h_kmaps h ⊎ {[+ im_buffer im +]})) as L.
  rewrite fn_lookup_insert in L. apply L; clear L; try done.
  - apply lookup_insert_eq.
  - lia.
  - cbn. by rewrite lookup_insert_eq.
  - apply handle_of_describes. lia.
  - intros [d'|] r; cbn; [|done]. intros (im' & Him & ->)%fmap_Some. rewrite lookup_insert_ne by congruence. by rewrite Him.
Qed.

Lemma ok_mapped_plain own h c k v r m x io :
  ok own h -> h_ctrls h !! c = Some k -> h_maps h !! m = None -> h_conts h !! x = None -> h_vas h !! v = None ->
  va_remote r = false -> ok own (mapped_plain c k h v r m x io).
Proof.
  intros O Hk Hm Hx Hv Hrem. pose proof (oc_page _ _ (ok_c _ _ O) _ _ Hk) as Hp.
  pose proof (ok_add_ref own h c k O Hk) as O1.
  pose proof (ok_ranges_plain (add_ref h c k) m c v r x (handle_of (c_handle k) r true io) (ok_r _ _ O1) Hm Hv) as R.
  destruct (oc_own _ _ (ok_c _ _ O) c) as [Ho _].
  eapply (ok_ext (<[c := (own c + 1) - 1]> (<[c := own c + 1]> own))).
  { intros c'. destruct (decide (c' = c)) as [->|]; rewrite ?fn_lookup_insert, ?fn_lookup_insert_ne by done; [lia|done]. }
  pose proof (ok_new_map (<[c := own c + 1]> own) (add_ref h c k) c (with_count k (c_count k + 1)) m x (VaPlain v)
    free_cb false r (handle_of (c_handle k) r true io) (h_mds h) (<[v := r]> (h_vas h)) (h_bufs h) (h_kmaps h)) as L.
  rewrite fn_lookup_insert in L. apply L; clear L; try done.
  - apply lookup_insert_eq.
  - lia.
  - cbn. by rewrite lookup_insert_eq.
  - cbn. replace true with (negb (va_remote r)) by (by rewrite Hrem). apply handle_of_describes. lia.
  - intros [|v'] r'; cbn; [done|]. intros Hv'. by rewrite lookup_insert_ne by congruence.
Qed.

(** ** Sharing a mapping *)

(** Another count and other handles for mapping [m]. *)
Lemma ok_conts own h m md n conts :
  ok own h -> h_maps h !! m = Some md -> 0 < n -> n = cnt (fun ct => ct_map ct = m) conts ->
  (forall m', m' <> m -> cnt (fun ct => ct_map ct = m') conts = users h m') ->
  (forall x ct, conts !! x = Some ct -> exists x0, h_conts h !! x0 = Some ct) ->
  ok own (set_conts (set_maps h (<[m := set_map_count md n]> (h_maps h))) conts).
Proof.
  intros [C Mp R Hh] Hm Hn En Hother Hc.
  assert (L : forall m' md', <[m := set_map_count md n]> (h_maps h) !! m' = Some md' ->
    exists md0, h_maps h !! m' = Some md0 /\ m_ctrl md' = m_ctrl md0 /\ m_va md' = m_va md0 /\
      m_release md' = m_release md0 /\ m_unmap md' = m_unmap md0).
  { intros m' md'. rewrite lookup_insert_Some. intros [[<- <-]|[? Hm']]; eauto 10. }
  assert (L' : forall m' md0, h_maps h !! m' = Some md0 -> exists md', <[m := set_map_count md n]> (h_maps h) !! m' = Some md' /\
      m_ctrl md' = m_ctrl md0 /\ m_va md' = m_va md0).
  { intros m' md0 Hm'. destruct (decide (m' = m)) as [->|]; [rewrite lookup_insert_eq; simplify_eq; eauto|].
    rewrite lookup_insert_ne by done. eauto. }
  split; [destruct C as [Cc Cp Cd Ci Co Cv Cf Ct]; split|destruct Mp as [Mc Mk Mx]; split
         |destruct R as [Rv Ri Rm Rs Rb Rj Rk]; split|]; try done.
  - intros c k Hk. unfold refs in *; cbn. rewrite (cnt_update _ _ _ md) by done. by apply Cc.
  - intros m' md'. unfold users in *; cbn. rewrite lookup_insert_Some. intros [[<- <-]|[? Hm']]; [done|].
    rewrite Hother by done. by apply Mc.
  - intros m' md' (md0 & Hm' & -> & _ & _ & ->)%L. by apply (Mk m').
  - intros x ct Hx. cbn. destruct (Hc x ct Hx) as [x0 [md0 (md' & ? & _)%L']%Mx]. by eexists.
  - intros m' md' (md0 & Hm' & _ & E1 & E2 & E3)%L. specialize (Rv m' md0 Hm').
    unfold owns_range in *; cbn. by rewrite E1, E2, E3.
  - intros m1 m2 md1 md2 (md3 & H3 & _ & -> & _)%L (md4 & H4 & _ & -> & _)%L. by apply Ri.
  - intros d im Hd. destruct (Rm d im Hd) as [(m' & md0 & (md' & ? & _ & E)%L' & ?) ?]. split; [|done].
    exists m', md'. by rewrite E.
  - intros v r Hv. destruct (Rs v r Hv) as (m' & md0 & (md' & ? & _ & E)%L' & ?). exists m', md'. by rewrite E.
  - intros x ct Hx. destruct (Hc x ct Hx) as [x0 (md0 & k & va & r & (md' & Hm' & E1 & E2)%L' & ? & ? & ? & ?)%Hh].
    exists md', k, va, r. by rewrite E1, E2.
Qed.

(** Another handle of mapping [m]. *)
Lemma ok_share own h m md x x0 ct :
  ok own h -> h_maps h !! m = Some md -> h_conts h !! x = None -> h_conts h !! x0 = Some ct -> ct_map ct = m ->
  ok own (add_cont (set_maps h (<[m := set_map_count md (m_count md + 1)]> (h_maps h))) x m (ct_handle ct)).
Proof.
  intros O Hm Hx Hx0 Hct. destruct (om_count _ (ok_m _ _ O) _ _ Hm) as [Ec ?].
  apply (ok_conts own h); cbn; [done..|lia| | |].
  - rewrite cnt_insert_new, bool_decide_true by done. cbn. unfold users in Ec. lia.
  - intros m' ?. rewrite cnt_insert_new, bool_decide_false by done. cbn. unfold users. lia.
  - intros x' ct'. rewrite lookup_insert_Some. intros [[<- <-]|[? ?]]; [|by eauto]. exists x0. rewrite Hx0, <- Hct. by destruct ct.
Qed.

(** One handle less. *)
Lemma ok_unshare own h m md x ct :
  ok own h -> h_maps h !! m = Some md -> 2 <= m_count md -> h_conts h !! x = Some ct -> ct_map ct = m ->
  ok own (set_conts (set_maps h (<[m := set_map_count md (m_count md - 1)]> (h_maps h))) (delete x (h_conts h))).
Proof.
  intros O Hm Hc Hx Hct. destruct (om_count _ (ok_m _ _ O) _ _ Hm) as [Ec ?].
  apply (ok_conts own h); cbn; [done..|lia| | |].
  - rewrite (cnt_delete _ _ _ ct), bool_decide_true by done. cbn. unfold users in Ec. lia.
  - intros m' ?. rewrite (cnt_delete _ _ _ ct), bool_decide_false by (done || congruence). cbn. unfold users. lia.
  - intros x' ct'. rewrite lookup_delete_Some. intros [? ?]. eauto.
Qed.

(** ** Removing a mapping *)

Lemma free_md_eq h d im :
  exists bufs, free_md h d im = set_bufs (set_mds h (delete d (h_mds h))) bufs /\
    forall b, b ∈ bufs <-> b ∈ h_bufs h /\ ~ (im_type im = MAP_TYPE_API /\ im_buffer im = Alloc b).
Proof.
  unfold free_md. destruct (im_type im) eqn:Et, (im_buffer im) as [b|] eqn:Eb.
  5: { exists (h_bufs h ∖ {[b]}). split; [done|]. intros b'. rewrite elem_of_difference, elem_of_singleton.
       naive_solver. }
  all: exists (h_bufs h); split; [by destruct h|]; intros; naive_solver.
Qed.

(** The last handle [x] of mapping [m] goes; the mapping's reference to its controller is left to the caller. *)
Lemma ok_del_map own h m md x ct mds vas bufs kmaps :
  let h1 := set_ranges h mds vas bufs kmaps in
  let h' := set_conts (set_maps h1 (delete m (h_maps h))) (delete x (h_conts h)) in
  ok own h -> h_maps h !! m = Some md -> m_count md = 1 -> h_conts h !! x = Some ct -> ct_map ct = m ->
  (forall va r, m_va md <> Some va -> range_at h va = Some r -> range_at h1 va = Some r) -> ok_ranges h' ->
  ok (<[m_ctrl md := own (m_ctrl md) + 1]> own) h'.
Proof.
  intros h1 h' [C Mp R Hh] Hm Hc Hx Hct Hext R'.
  assert (Lx : forall x' ct', delete x (h_conts h) !! x' = Some ct' -> h_conts h !! x' = Some ct' /\ ct_map ct' <> m).
  { intros x' ct' [Hne Hx']%lookup_delete_Some. split; [done|]. intros E.
    destruct (om_count _ Mp _ _ Hm) as [Ec _]. unfold users in Ec.
    pose proof (cnt_ge_2 (fun ct => ct_map ct = m) _ _ _ _ _ Hx Hx' Hct E Hne). lia. }
  split; [destruct C as [Cc Cp Cd Ci Co Cv Cf Ct]; split|destruct Mp as [Mc Mk Mx]; split|done|]; try done.
  - intros c k Hk. destruct (Cc c k Hk) as [Hcnt ?]. split; [|done]. unfold refs in *; cbn.
    rewrite (cnt_delete _ _ _ md) by done. destruct (decide (c = m_ctrl md)) as [->|Hne].
    + rewrite fn_lookup_insert, bool_decide_true by done. cbn. lia.
    + rewrite fn_lookup_insert_ne, bool_decide_false by done. cbn. lia.
  - intros c. destruct (decide (c = m_ctrl md)) as [->|Hne].
    + rewrite fn_lookup_insert. split; [destruct (Co (m_ctrl md)); lia|]. destruct (om_ctrl _ Mp m md Hm) as (k & Hk & _). by eexists.
    + rewrite fn_lookup_insert_ne by done. apply Co.
  - intros m' md'. cbn. intros [Hne Hm']%lookup_delete_Some. unfold users in *; cbn.
    rewrite (cnt_delete _ _ _ ct), bool_decide_false by (done || congruence). cbn. destruct (Mc _ _ Hm'). lia.
  - intros m' md'. cbn. intros [Hne Hm']%lookup_delete_Some. by apply (Mk m').
  - intros x' ct' [Hx' Hne]%Lx. cbn. rewrite lookup_delete_ne by done. by eapply Mx.
  - intros x' ct' [Hx' Hne]%Lx. destruct (Hh _ _ Hx') as (md' & k' & va & r & Hm' & ? & Hva & ? & ?).
    exists md', k', va, r. cbn. rewrite lookup_delete_ne by done. split_and!; try done.
    apply (Hext va); [|done]. rewrite <- Hva. intros ?%eq_sym. by eapply Hne, (or_inj _ R).
Qed.

Lemma ok_ranges_del_md h m md d im x :
  ok_ranges h -> h_maps h !! m = Some md -> m_va md = Some (VaMd d) -> h_mds h !! d = Some im ->
  ok_ranges (set_conts (set_maps (free_md (set_kmaps h (h_kmaps h ∖ {[+ im_buffer im +]})) d im)
    (delete m (h_maps h))) (delete x (h_conts h))).
Proof.
  intros [Rv Ri Rm Rs Rb Rj Rk] Hm Hva Hd.
  destruct (free_md_eq (set_kmaps h (h_kmaps h ∖ {[+ im_buffer im +]})) d im) as (bufs & -> & Hbufs). cbn in Hbufs.
  split; cbn.
  - intros m' md' [Hne Hm']%lookup_delete_Some. specialize (Rv m' md' Hm'). unfold owns_range in *; cbn.
    destruct (m_va md') as [[d'|]|] eqn:Hva'; [|done..]. rewrite lookup_delete_ne; [done|].
    intros <-. apply Hne, (Ri m m' md md'); congruence.
  - intros m1 m2 md1 md2 [_ H1]%lookup_delete_Some [_ H2]%lookup_delete_Some. by eapply Ri.
  - intros d' im' [Hne Hd']%lookup_delete_Some. destruct (Rm d' im' Hd') as [(m' & md' & Hm' & E) Hb]. split.
    + exists m', md'. rewrite lookup_delete_ne by congruence. done.
    + intros Et. destruct (Hb Et) as (b & Eb & Hin). exists b. split; [done|]. apply Hbufs. split; [done|].
      intros [Et' Eb']. eapply Hne, (Rj d d'); try done. congruence.
  - intros v r Hv. destruct (Rs v r Hv) as (m' & md' & Hm' & ?). exists m', md'. by rewrite lookup_delete_ne by congruence.
  - intros b [Hin Hnot]%Hbufs. destruct (Rb b Hin) as (d' & im' & Hd' & ? & ?). exists d', im'.
    rewrite lookup_delete_ne; [done|]. intros <-. apply Hnot. by simplify_eq.
  - intros d1 d2 im1 im2 [_ H1]%lookup_delete_Some [_ H2]%lookup_delete_Some. by eapply Rj.
  - intros p. rewrite multiplicity_difference, multiplicity_singleton, (cnt_delete _ _ _ im) by done.
    specialize (Rk p). destruct (decide (p = im_buffer im)) as [->|].
    + rewrite bool_decide_true by done. pose proof (cnt_pos (fun im' => im_buffer im' = im_buffer im) _ _ _ Hd eq_refl). cbn. lia.
    + rewrite bool_decide_false by done. cbn. lia.
Qed.

Lemma ok_ranges_del_plain h m md v x :
  ok_ranges h -> h_maps h !! m = Some md -> m_va md = Some (VaPlain v) ->
  ok_ranges (set_conts (set_maps (set_vas h (delete v (h_vas h))) (delete m (h_maps h))) (delete x (h_conts h))).
Proof.
  intros [Rv Ri Rm Rs Rb Rj Rk] Hm Hva. split; cbn; try done.
  - intros m' md' [Hne Hm']%lookup_delete_Some. specialize (Rv m' md' Hm'). unfold owns_range in *; cbn.
    destruct (m_va md') as [[|v']|] eqn:Hva'; [done| |done]. rewrite lookup_delete_ne; [done|].
    intros <-. apply Hne, (Ri m m' md md'); congruence.
  - intros m1 m2 md1 md2 [_ H1]%lookup_delete_Some [_ H2]%lookup_delete_Some. by eapply Ri.
  - intros d' im' Hd'. destruct (Rm d' im' Hd') as [(m' & md' & Hm' & E) Hb]. split; [|done].
    exists m', md'. by rewrite lookup_delete_ne by congruence.
  - intros v' r [Hne Hv]%lookup_delete_Some. destruct (Rs v' r Hv) as (m' & md' & Hm' & ?).
    exists m', md'. by rewrite lookup_delete_ne by congruence.
Qed.

Lemma drop_ref_set_conts h c k x : drop_ref (set_conts h x) c k = set_conts (drop_ref h c k) x.
Proof. unfold drop_ref, close_ctrl. destruct (_ =? _), (c_device k); reflexivity. Qed.

(** The last handle of a mapping goes, and everything the mapping owns. *)
Lemma ok_unmap_last own h m md k x ct :
  ok own h -> h_maps h !! m = Some md -> h_ctrls h !! m_ctrl md = Some k -> m_count md = 1 ->
  h_conts h !! x = Some ct -> ct_map ct = m ->
  ok own (set_conts (set_maps (drop_ref (free_range h md) (m_ctrl md) k) (delete m (h_maps h))) (delete x (h_conts h))).
Proof.
  intros O Hm Hk Hc Hx Hct. rewrite <- drop_ref_set_maps, <- drop_ref_set_conts. set (c := m_ctrl md) in *.
  destruct (oc_own _ _ (ok_c _ _ O) c) as [Ho _].
  apply (ok_ext (<[c := (own c + 1) - 1]> (<[c := own c + 1]> own))).
  { intros c'. destruct (decide (c' = c)) as [->|]; rewrite ?fn_lookup_insert, ?fn_lookup_insert_ne by done; [lia|done]. }
  rewrite <- (fn_lookup_insert own c (own c + 1)) at 1.
  pose proof (or_va _ (ok_r _ _ O) _ _ Hm) as Hown. unfold owns_range in Hown. unfold free_range.
  apply ok_drop_ref; [..|rewrite fn_lookup_insert; lia]; destruct (m_va md) as [[d|v]|] eqn:Hva; try done.
  - destruct Hown as (_ & _ & im & Him). rewrite Him.
    pose proof (ok_ranges_del_md h m md d im x (ok_r _ _ O) Hm Hva Him) as R. revert R.
    destruct (free_md_eq (set_kmaps h (h_kmaps h ∖ {[+ im_buffer im +]})) d im) as (bufs & -> & _). intros R.
    apply (ok_del_map own h m md x ct (delete d (h_mds h)) (h_vas h) bufs (h_kmaps h ∖ {[+ im_buffer im +]})); try done.
    intros [d'|] r; cbn; [|done]. intros Hne (im' & Him' & ->)%fmap_Some. rewrite lookup_delete_ne by congruence. by rewrite Him'.
  - apply (ok_del_map own h m md x ct (h_mds h) (delete v (h_vas h)) (h_bufs h) (h_kmaps h)); try done.
    + intros [|v'] r; cbn; [done|]. intros Hne Hv. by rewrite lookup_delete_ne by congruence.
    + exact (ok_ranges_del_plain h m md v x (ok_r _ _ O) Hm Hva).
  - destruct Hown as (_ & _ & im & Him). rewrite Him.
    by destruct (free_md_eq (set_kmaps h (h_kmaps h ∖ {[+ im_buffer im +]})) d im) as (bufs & -> & _).
Qed.

End DmaInv.
