(* ===== verification/DmaApi.v ===== *)
(** The interface of the host library, call by call: every valid call, under every
    combination of run-time failures, is free of undefined behaviour and keeps the
    heap's invariant; what is still allocated is what the live handles need. *)
From Stdlib Require Import ZArith Lia List Bool.
From stdpp Require Import base list gmap gmultiset numbers functions.
From S2P Require Import Prelude Exec NvmUtil NvmQueue Host Dma DmaSpec DmaInv.
Import Host Dma DmaSpec DmaInv.

Import ListNotations.
Local Open Scope Z_scope.

Module DmaApi.

(** ** Calls *)

Inductive call :=
  | CInit (cap page_size ptr : Z)
  | CRawInit (cap page_size ptr size : Z)
  | CFree (c : nat)
  | CCreate (c : nat) (size : Z)
  | CMapHost (c : nat) (vaddr : void_ptr) (size : Z)
  | CMapDevice (c : nat) (devptr : void_ptr) (size : Z)
  | CMap (c : nat) (vaddr : void_ptr) (page_size n_pages : Z) (io : list Z)
  | CRemap (x : nat)
  | CUnmap (x : nat).

(** The reference counters do not overflow. *)
Definition bounded (h : heap) : Prop :=
  (forall c k, h_ctrls h !! c = Some k -> c_count k < 2 ^ 32) /\
  (forall m md, h_maps h !! m = Some md -> m_count md < 2 ^ 32).

Record good (own : nat -> Z) (s : host) : Prop := {
  g_ok : ok own (hp s);
  g_below : below (next s) (hp s);
  g_bounded : bounded (hp s)
}.

(** A controller the user holds, with room in its counter. *)
Definition usable (own : nat -> Z) (h : heap) (c : nat) : Prop :=
  1 <= own c /\ own c + refs h c < 2 ^ 32 - 1.

(** The calls a program may make: live handles, room in the counters, and arguments as
    documented.  For [nvm_ctrl_init] the [mmap] of the registers (its fourth primitive that
    can fail) succeeds: the code compares its result with [NULL] instead of [MAP_FAILED], and
    a failure is undefined behaviour ([nvm_ctrl_init_mmap_faults]). *)
Definition valid (own : nat -> Z) (s : host) (a : call) : Prop :=
  match a with
  | CInit cap page_size ptr =>
      (ptr ∉ h_mms (hp s)) /\ ptr <> 0 /\ nth 3 (faults s) 0 = 0 /\ 0 <= page_size < 2 ^ 64
  | CRawInit cap page_size ptr size => (ptr ∈ h_mms (hp s)) /\ 0 <= page_size < 2 ^ 64
  | CFree c => 1 <= own c
  | CCreate c _ | CMapHost c _ _ | CMapDevice c _ _ => usable own (hp s) c
  | CMap c _ page_size n_pages io =>
      usable own (hp s) c /\ 0 <= page_size /\ 0 <= n_pages /\ length io = Z.to_nat n_pages
  | CRemap x => exists ct, h_conts (hp s) !! x = Some ct /\ users (hp s) (ct_map ct) < 2 ^ 32 - 1
  | CUnmap x => is_Some (h_conts (hp s) !! x)
  end.

Section api.
Context {K : Kernel}.

Definition run_call (a : call) : M (Z * option nat) :=
  match a with
  | CInit cap page_size ptr => nvm_ctrl_init cap page_size ptr
  | CRawInit cap page_size ptr size => nvm_raw_ctrl_init cap page_size ptr size
  | CFree c => nvm_ctrl_free (Some c);; mret (0, None)
  | CCreate c size => nvm_dma_create c size
  | CMapHost c vaddr size => nvm_dma_map_host c vaddr size
  | CMapDevice c devptr size => nvm_dma_map_device c devptr size
  | CMap c vaddr page_size n_pages io => nvm_dma_map (Some c) vaddr page_size n_pages (Some io)
  | CRemap x => nvm_dma_remap x
  | CUnmap x => nvm_dma_unmap (Some x);; mret (0, None)
  end.

(** The references the user holds after a call. *)
Definition own_after (own : nat -> Z) (a : call) (r : Z * option nat) : nat -> Z :=
  match a, snd r with
  | CInit _ _ _, Some c | CRawInit _ _ _ _, Some c => <[c := 1]> own
  | CFree c, _ => <[c := own c - 1]> own
  | _, _ => own
  end.

(** ** Freshness *)

Ltac below_tac :=
  split; cbn; intros i Hi;
  repeat first [rewrite lookup_insert_is_Some' in Hi | rewrite lookup_delete_is_Some in Hi
               | rewrite elem_of_union in Hi | rewrite elem_of_singleton in Hi | rewrite elem_of_difference in Hi];
  repeat match goal with H : _ \/ _ |- _ => destruct H | H : _ /\ _ |- _ => destruct H end;
  subst; try lia; eauto.

Lemma below_mapped n n' h c k d im m x io :
  below n h -> (n <= n')%nat -> h_ctrls h !! c = Some k -> (d < n')%nat -> (m < n')%nat -> (x < n')%nat ->
  (im_type im = MAP_TYPE_API -> exists b, im_buffer im = Alloc b /\ (b < n')%nat) ->
  below n' (mapped (new_md h d im) c k d im m x io).
Proof.
  intros B Hn Hk Hd Hm Hx Hb. apply (below_mono _ n') in B; [|done]. destruct (new_md_eq h d im) as (bufs & E & Hbufs).
  unfold mapped. rewrite E. clear E. destruct B. below_tac.
  apply Hbufs in Hi as [?|[Et Eb]]; [by eauto|]. destruct (Hb Et) as (b & Eb' & Hlt).
  rewrite Eb in Eb'. injection Eb' as ->. exact Hlt.
Qed.

Lemma below_mapped_plain n n' h c k v r m x io :
  below n h -> (n <= n')%nat -> h_ctrls h !! c = Some k -> (v < n')%nat -> (m < n')%nat -> (x < n')%nat ->
  below n' (mapped_plain c k h v r m x io).
Proof. intros B Hn Hk Hv Hm Hx. apply (below_mono _ n') in B; [|done]. destruct B. below_tac. Qed.

Lemma below_share n n' h m md x d :
  below n h -> (n <= n')%nat -> h_maps h !! m = Some md -> (x < n')%nat ->
  below n' (add_cont (set_maps h (<[m := set_map_count md (m_count md + 1)]> (h_maps h))) x m d).
Proof. intros B Hn Hm Hx. apply (below_mono _ n') in B; [|done]. destruct B. below_tac. Qed.

Lemma below_drop_ref n h c k : below n h -> h_ctrls h !! c = Some k -> below n (drop_ref h c k).
Proof.
  intros B Hk. destruct B. unfold drop_ref, close_ctrl. destruct (_ =? _), (c_device k); below_tac.
Qed.

Lemma below_add_ref n n' h c k :
  below n h -> (n <= n')%nat -> h_ctrls h !! c = Some k -> below n' (add_ref h c k).
Proof. intros B Hn Hk. apply (below_mono _ n') in B; [|done]. destruct B. below_tac. Qed.

Lemma below_free_range n h md : below n h -> below n (free_range h md).
Proof.
  intros B. unfold free_range. destruct (m_va md) as [[d|]|]; [|destruct B; below_tac|done].
  destruct (h_mds h !! d) as [im|]; [|done].
  destruct (free_md_eq (set_kmaps h (h_kmaps h ∖ {[+ im_buffer im +]})) d im) as (bufs & -> & Hbufs).
  destruct B. below_tac. apply Hbufs in Hi as [? _]. eauto.
Qed.

Lemma below_del n h m x : below n h -> below n (set_conts (set_maps h (delete m (h_maps h))) (delete x (h_conts h))).
Proof. intros []. below_tac. Qed.

Lemma below_opened n n' h c dev ptr k :
  below n h -> (n <= n')%nat -> (c < n')%nat -> (dev < n')%nat -> below n' (opened h c dev ptr k).
Proof. intros B Hn Hc Hd. apply (below_mono _ n') in B; [|done]. destruct B. below_tac. Qed.

(** ** Sharing and releasing *)

Lemma nvm_dma_remap_spec own s x0 ct :
  good own s -> h_conts (hp s) !! x0 = Some ct -> users (hp s) (ct_map ct) < 2 ^ 32 - 1 ->
  wp (nvm_dma_remap x0) (outcome s (fun s' x => (next s <= x < next s')%nat /\
    exists md, h_maps (hp s) !! ct_map ct = Some md /\
      hp s' = add_cont (set_maps (hp s) (<[ct_map ct := set_map_count md (m_count md + 1)]> (h_maps (hp s))))
                x (ct_map ct) (ct_handle ct))) s.
Proof.
  intros [O B Bd] Hx Hroom. destruct (ok_h _ _ O _ _ Hx) as (md & k & va & r & Hm & Hk & Hva & Hr & Hd).
  destruct (om_count _ (ok_m _ _ O) _ _ Hm) as [Ec ?]. pose proof (oc_page _ _ (ok_c _ _ O) _ _ Hk) as Hp.
  set (m := ct_map ct) in *. unfold nvm_dma_remap, get_map. wp_steps. eapply wp_deref; [done|]. wp_steps.
  eapply wp_deref; [done|]. rewrite (u32_id (m_count md + 1)) by (unfold is_word; lia). wp_steps.
  set (s1 := upd s _). assert (Hm1 : h_maps (hp s1) !! m = Some (set_map_count md (m_count md + 1))) by apply lookup_insert_eq.
  assert (Hr1 : range_at (hp s1) va = Some r) by (by destruct va).
  eapply wp_mono; [apply (create_container_spec s1 m _ k va r Hm1 Hk Hva Hr1); lia|].
  intros [e o] s2 (Hn & [(He & Ho & E)|(x & [= -> ->] & Hxn & Hps & _ & _ & E)]); cbn in *.
  - destruct e; [done|..]; (wp_step; eapply wp_mono;
      [apply (put_map_shared_spec _ m (set_map_count md (m_count md + 1))); [by rewrite E|cbn; lia|by eexists]|];
      intros _ ? ->; wp_steps; split; cbn; [done|left; split_and!; [done..|]];
      rewrite E; subst s1; cbn; rewrite Z.add_simpl_r; replace (set_map_count (set_map_count md _) _) with md by (by destruct md);
      heap_eq).
  - wp_steps. eapply wp_deref; [rewrite E; apply Hm1|]. wp_step. eapply wp_deref; [done|]. wp_step.
    eapply read_va_spec; [rewrite E; by destruct va|]. wp_step. eapply wp_deref; [by rewrite E|]. wp_step.
    pose proof Hd as (_ & _ & D3 & _).
    eapply wp_mono; [eapply (populate_container_spec _ x m); [rewrite E; apply lookup_insert_eq|cbn; lia..]|].
    intros _ ? ->. wp_steps. split; cbn; [lia|]. right. exists x. split; [done|]. split; [lia|].
    exists md. split; [done|]. rewrite (handle_of_remap _ r) by (done || lia). rewrite E.
    subst s1. unfold add_cont. cbn. rewrite insert_insert_eq. done.
Qed.

Lemma ok_map_live own h m md k :
  ok own h -> h_maps h !! m = Some md -> h_ctrls h !! m_ctrl md = Some k -> map_live h md k.
Proof.
  intros O Hm Hk. pose proof (or_va _ (ok_r _ _ O) _ _ Hm) as Hv. destruct (om_ctrl _ (ok_m _ _ O) _ _ Hm) as (k' & Hk' & Hops).
  unfold owns_range, map_live in *. destruct (m_va md) as [[d|]|]; [|done..].
  destruct Hv as (? & ? & im & Him). split_and!; [done..|simplify_eq; auto|]. exists im. split_and!; [done| |].
  - unfold elem_of, gmultiset_elem_of. pose proof (or_kmaps _ (ok_r _ _ O) (im_buffer im)).
    pose proof (cnt_pos (fun im' => im_buffer im' = im_buffer im) _ _ _ Him eq_refl). lia.
  - by apply (or_md _ (ok_r _ _ O) d im).
Qed.

Lemma drop_ref_conts h c k : h_conts (drop_ref h c k) = h_conts h.
Proof. unfold drop_ref, close_ctrl. by destruct (_ =? _), (c_device k). Qed.

Lemma free_range_conts h md : h_conts (free_range h md) = h_conts h.
Proof.
  unfold free_range. destruct (m_va md) as [[d|]|]; [|done..]. destruct (h_mds h !! d) as [im|]; [|done].
  unfold free_md. by destruct (im_type im), (im_buffer im).
Qed.

(** The heap after the last handle of a mapping, or another one, is released. *)
Definition released (h : heap) (x m : nat) (md : map) (k : controller) : heap :=
  if m_count md =? 1 then
    set_conts (set_maps (drop_ref (free_range h md) (m_ctrl md) k) (delete m (h_maps h))) (delete x (h_conts h))
  else set_conts (set_maps h (<[m := set_map_count md (m_count md - 1)]> (h_maps h))) (delete x (h_conts h)).

Lemma nvm_dma_unmap_spec own s x ct md k :
  good own s -> h_conts (hp s) !! x = Some ct -> h_maps (hp s) !! ct_map ct = Some md ->
  h_ctrls (hp s) !! m_ctrl md = Some k ->
  wp (nvm_dma_unmap (Some x)) (fun _ s' => s' = upd s (released (hp s) x (ct_map ct) md k)) s.
Proof.
  intros [O B [Bc Bm]] Hx Hm Hk. destruct (om_count _ (ok_m _ _ O) _ _ Hm) as [Ec ?].
  destruct (oc_count _ _ (ok_c _ _ O) _ _ Hk) as [? ?]. specialize (Bc _ _ Hk). specialize (Bm _ _ Hm).
  unfold nvm_dma_unmap, remove_container, free_container. wp_steps. eapply wp_deref; [done|]. wp_step.
  unfold released. destruct (Z.eqb_spec (m_count md) 1).
  - destruct (oc_dev _ _ (ok_c _ _ O) _ _ Hk). eapply wp_mono; [apply (put_map_last_spec _ _ md k); try done; [lia|]|].
    + by eapply ok_map_live.
    + intros _ ? ->. wp_steps. cbn. by rewrite drop_ref_conts, free_range_conts.
  - eapply wp_mono; [apply put_map_shared_spec; [done|lia|]|].
    + pose proof (or_va _ (ok_r _ _ O) _ _ Hm) as Hv. unfold owns_range in Hv. destruct (m_va md); [by eexists|done].
    + intros _ ? ->. by wp_steps.
Qed.

(** ** Controllers *)

Lemma ok_new_ctrl own h c k devs fds mms :
  ok own h -> h_ctrls h !! c = None -> c_count k = 1 -> 0 < ctl_page_size (c_handle k) < 2 ^ 64 ->
  (c_ops k = true -> is_Some (c_device k)) -> (c_type k = DEVICE_TYPE_IOCTL -> c_ops k = true) ->
  (forall d, c_device k = Some d -> h_devs h !! d = None) ->
  (forall d z, devs !! d = Some z <-> h_devs h !! d = Some z \/ c_device k = Some d /\ z = Z.of_nat d) ->
  (forall z, z ∈ fds -> z ∈ h_fds h \/ exists d, c_device k = Some d /\ z = Z.of_nat d) ->
  ok (<[c := 1]> own) (set_mms (set_fds (set_devs (new_ctrl h c k) devs) fds) mms).
Proof.
  intros [C Mp R Hh] Hc Hk1 Hk Hops Hty Hnew Hdevs Hfds.
  assert (L : forall m md, h_maps h !! m = Some md -> m_ctrl md <> c).
  { intros m md Hm <-. destruct (om_ctrl _ Mp m md Hm) as (k' & ? & _). congruence. }
  assert (R0 : refs h c = 0) by (apply cnt_zero; exact L).
  assert (Lk : forall c' k', h_ctrls h !! c' = Some k' -> <[c := k]> (h_ctrls h) !! c' = Some k')
    by (intros; by rewrite lookup_insert_ne by congruence).
  split; [destruct C as [Cc Cp Cd Ci Co Cv Cf Ct]; split|destruct Mp as [Mc Mk Mx]; split|by destruct R; split|]; cbn; try done.
  - intros c' k'. change (refs (set_mms _ _) c') with (refs h c'). rewrite lookup_insert_Some.
    intros [[<- <-]|[Hne Hk']]; cbn; [rewrite fn_lookup_insert; lia|].
    rewrite fn_lookup_insert_ne by done. by apply Cc.
  - intros c' k'. rewrite lookup_insert_Some. intros [[<- <-]|[Hne Hk']]; [done|by eapply Cp].
  - intros c' k'. unfold has_device, device_live; cbn. rewrite lookup_insert_Some. intros [[<- <-]|[Hne Hk']]; split.
    + intros [d Hd]%Hops. exists d, (Z.of_nat d). split; [done|]. apply Hdevs. auto.
    + intros d Hd. exists (Z.of_nat d). apply Hdevs. auto.
    + intros (d & fd & ? & ?)%(proj1 (Cd _ _ Hk')). exists d, fd. split; [done|]. apply Hdevs. auto.
    + intros d [fd ?]%(proj2 (Cd _ _ Hk')). exists fd. apply Hdevs. auto.
  - assert (D : forall c' k' d, h_ctrls h !! c' = Some k' -> c_device k' = Some d -> c_device k <> Some d).
    { intros c' k' d Hk' Hd Hd'. destruct (proj2 (Cd _ _ Hk') d Hd) as [? ?]. by rewrite Hnew in * by done. }
    intros c1 c2 k1 k2 d. rewrite !lookup_insert_Some.
    intros [[<- <-]|[? H1]] [[<- <-]|[? H2]] E1 E2; [done|by destruct (D c2 k2 d)|by destruct (D c1 k1 d)|by eapply Ci].
  - intros c'. destruct (decide (c' = c)) as [->|].
    + by rewrite fn_lookup_insert, lookup_insert_eq.
    + rewrite fn_lookup_insert_ne, lookup_insert_ne by done. apply Co.
  - intros d fd [Hd|[Hd ->]]%Hdevs.
    + destruct (Cv d fd Hd) as (? & c' & k' & ? & ?). split; [done|]. exists c', k'. split; [by apply Lk|done].
    + split; [done|]. exists c, k. by rewrite lookup_insert_eq.
  - intros z [[d Hd]%Cf|(d & Hd & ->)]%Hfds; exists d; apply Hdevs; auto.
  - intros c' k'. rewrite lookup_insert_Some. intros [[<- <-]|[Hne Hk']]; [done|by eapply Ct].
  - intros m md Hm. destruct (Mk m md Hm) as (k' & Hk' & ?). exists k'. split; [by apply Lk|done].
  - intros x ct Hx. destruct (Hh x ct Hx) as (md & k' & va & r & ? & ? & ? & ? & ?). exists md, k', va, r.
    split_and!; try done. by apply Lk.
Qed.

(** ** Counters *)

Lemma bounded_mapped h c k d im m x io :
  bounded h -> c_count k < 2 ^ 32 - 1 -> bounded (mapped (new_md h d im) c k d im m x io).
Proof.
  intros [Bc Bm] Hk. destruct (new_md_eq h d im) as (bufs & E & _). unfold mapped. rewrite E. split; cbn.
  - intros c' k'. rewrite lookup_insert_Some. intros [[_ <-]|[_ ?]]; [cbn; lia|by eapply Bc].
  - intros m' md'. rewrite lookup_insert_Some. intros [[_ <-]|[_ ?]]; [done|by eapply Bm].
Qed.

Lemma bounded_mapped_plain h c k v r m x io :
  bounded h -> c_count k < 2 ^ 32 - 1 -> bounded (mapped_plain c k h v r m x io).
Proof.
  intros [Bc Bm] Hk. split; cbn.
  - intros c' k'. rewrite lookup_insert_Some. intros [[_ <-]|[_ ?]]; [cbn; lia|by eapply Bc].
  - intros m' md'. rewrite lookup_insert_Some. intros [[_ <-]|[_ ?]]; [done|by eapply Bm].
Qed.

Lemma bounded_drop_ref h c k : bounded h -> c_count k < 2 ^ 32 -> bounded (drop_ref h c k).
Proof.
  intros [Bc Bm] Hk. unfold drop_ref, close_ctrl. destruct (_ =? _), (c_device k); (split; [|exact Bm]); cbn; intros c' k'.
  1-2: rewrite lookup_delete_Some; intros [_ ?]; by eapply Bc.
  all: rewrite lookup_insert_Some; intros [[_ <-]|[_ ?]]; [cbn; lia|by eapply Bc].
Qed.

Lemma free_range_rest h md :
  h_ctrls (free_range h md) = h_ctrls h /\ h_maps (free_range h md) = h_maps h.
Proof.
  unfold free_range. destruct (m_va md) as [[d|]|]; [|done..]. destruct (h_mds h !! d) as [im|]; [|done].
  unfold free_md. by destruct (im_type im), (im_buffer im).
Qed.

Lemma drop_ref_maps h c k : h_maps (drop_ref h c k) = h_maps h.
Proof. unfold drop_ref, close_ctrl. by destruct (_ =? _), (c_device k). Qed.

(** ** Releasing keeps the invariant *)

Lemma good_released own s x ct md k :
  good own s -> h_conts (hp s) !! x = Some ct -> h_maps (hp s) !! ct_map ct = Some md ->
  h_ctrls (hp s) !! m_ctrl md = Some k -> good own (upd s (released (hp s) x (ct_map ct) md k)).
Proof.
  intros [O B Bd] Hx Hm Hk. destruct (om_count _ (ok_m _ _ O) _ _ Hm) as [_ ?]. unfold released.
  destruct (free_range_rest (hp s) md) as [Fc Fm].
  destruct (Z.eqb_spec (m_count md) 1); split; cbn.
  - by eapply ok_unmap_last.
  - pose proof (below_free_range _ _ md B) as B1.
    pose proof (below_drop_ref _ _ (m_ctrl md) k B1 ltac:(by rewrite Fc)) as B2.
    pose proof (below_del _ _ (ct_map ct) x B2) as B3.
    by rewrite drop_ref_maps, drop_ref_conts, Fm, free_range_conts in B3.
  - assert (bounded (free_range (hp s) md)) as Bf by (unfold bounded; by rewrite Fc, Fm).
    destruct (bounded_drop_ref _ (m_ctrl md) k Bf ltac:(by eapply Bd)) as [Bc Bm]. split; cbn; [done|].
    intros m' md' [_ ?]%lookup_delete_Some. by eapply Bd.
  - apply ok_unshare with ct; [done..|lia|done|done].
  - destruct B. below_tac.
  - destruct Bd as [Bc Bm]. split; cbn; [done|]. intros m' md'. rewrite lookup_insert_Some.
    intros [[_ <-]|[_ ?]]; [cbn; specialize (Bm _ _ Hm); lia|by eapply Bm].
Qed.

Lemma good_created own s c k D s' x :
  good own s -> h_ctrls (hp s) !! c = Some k -> c_count k < 2 ^ 32 - 1 -> (next s <= next s')%nat ->
  created s c k D s' x -> good own s'.
Proof.
  intros [O B Bd] Hk Hc Hn (d & im & m & io & _ & Hd & Hm & Hx & Hb & Hbn & Hr & Hops & Hio & E).
  assert (h_maps (hp s) !! m = None) by (eapply below_map; [done|lia]).
  assert (h_conts (hp s) !! x = None) by (eapply below_cont; [done|lia]).
  assert (h_mds (hp s) !! d = None) by (eapply below_md; [done|lia]).
  split; rewrite E.
  - by apply ok_mapped.
  - by apply (below_mapped (next s)); [done|lia|done|lia..|].
  - by apply bounded_mapped.
Qed.

Lemma good_share own s s' x0 ct x md :
  good own s -> h_conts (hp s) !! x0 = Some ct -> users (hp s) (ct_map ct) < 2 ^ 32 - 1 ->
  h_maps (hp s) !! ct_map ct = Some md -> (next s <= x < next s')%nat ->
  hp s' = add_cont (set_maps (hp s) (<[ct_map ct := set_map_count md (m_count md + 1)]> (h_maps (hp s))))
            x (ct_map ct) (ct_handle ct) ->
  good own s'.
Proof.
  intros [O B Bd] Hx Hu Hm Hn E. destruct (om_count _ (ok_m _ _ O) _ _ Hm) as [Ec ?]. split; rewrite E.
  - eapply ok_share; [done|done|eapply below_cont; [done|lia]|done|done].
  - apply (below_share (next s)); [done|lia|done|lia].
  - destruct Bd as [Bc Bm]. split; cbn; [done|]. intros m' md'. rewrite lookup_insert_Some.
    intros [[_ <-]|[_ ?]]; [cbn; lia|by eapply Bm].
Qed.

Lemma good_same own s s' : good own s -> hp s' = hp s -> (next s <= next s')%nat -> good own s'.
Proof. intros [O B Bd] E ?. split; rewrite E; [done|by eapply below_mono|done]. Qed.

Lemma usable_ctrl own s c :
  good own s -> usable own (hp s) c ->
  exists k, h_ctrls (hp s) !! c = Some k /\ 1 <= c_count k < 2 ^ 32 - 1 /\ has_device (hp s) k /\
    0 < ctl_page_size (c_handle k) < 2 ^ 64.
Proof.
  intros [O B Bd] [Ho Hr]. destruct (proj2 (oc_own _ _ (ok_c _ _ O) c)) as [k Hk]; [lia|]. exists k.
  destruct (oc_count _ _ (ok_c _ _ O) _ _ Hk). destruct (oc_dev _ _ (ok_c _ _ O) _ _ Hk).
  destruct (oc_page _ _ (ok_c _ _ O) _ _ Hk). split_and!; try done; lia.
Qed.

Lemma good_opened own s s' c dev ptr k :
  good own s -> (next s <= c < next s')%nat -> (next s <= dev < next s')%nat -> 0 < ctl_page_size k < 2 ^ 64 ->
  hp s' = opened (hp s) c dev ptr k -> good (<[c := 1]> own) s'.
Proof.
  intros [O B Bd] Hc Hd Hk E. assert (h_devs (hp s) !! dev = None) by (eapply below_dev; [done|lia]).
  split; rewrite E.
  - apply (ok_new_ctrl own (hp s) c (MkController 1 DEVICE_TYPE_IOCTL (Some dev) true k)
      (<[dev := Z.of_nat dev]> (h_devs (hp s))) (h_fds (hp s) ∪ {[Z.of_nat dev]}) (h_mms (hp s) ∪ {[ptr]}));
      cbn -[union]; try done.
    + eapply below_ctrl; [done|lia].
    + by intros d [= <-].
    + intros d z. rewrite lookup_insert_Some. naive_solver congruence.
    + intros z. rewrite elem_of_union, elem_of_singleton. naive_solver.
  - apply (below_opened (next s)); [done|lia..].
  - destruct Bd as [Bc Bm]. split; cbn; [|done]. intros c' k'. rewrite lookup_insert_Some.
    intros [[_ <-]|[_ ?]]; [done|by eapply Bc].
Qed.

Lemma good_raw own s s' c k :
  good own s -> (next s <= c < next s')%nat -> 0 < ctl_page_size k < 2 ^ 64 ->
  hp s' = new_ctrl (hp s) c (MkController 1 DEVICE_TYPE_UNKNOWN None false k) -> good (<[c := 1]> own) s'.
Proof.
  intros [O B Bd] Hc Hk E. split; rewrite E.
  - pose proof (ok_new_ctrl own (hp s) c (MkController 1 DEVICE_TYPE_UNKNOWN None false k)
      (h_devs (hp s)) (h_fds (hp s)) (h_mms (hp s))) as L. cbn in L. apply L; try done.
    + eapply below_ctrl; [done|lia].
    + naive_solver.
    + auto.
  - apply (below_mono _ (next s')) in B; [|lia]. destruct B. below_tac.
  - destruct Bd as [Bc Bm]. split; cbn; [|done]. intros c' k'. rewrite lookup_insert_Some.
    intros [[_ <-]|[_ ?]]; [done|by eapply Bc].
Qed.

Lemma good_dropped own s c k :
  good own s -> h_ctrls (hp s) !! c = Some k -> 1 <= own c ->
  good (<[c := own c - 1]> own) (upd s (drop_ref (hp s) c k)).
Proof.
  intros [O B Bd] Hk Ho. split; cbn; [by apply ok_drop_ref|by apply below_drop_ref|].
  apply bounded_drop_ref; [done|]. by eapply Bd.
Qed.

(** ** Every call *)

(** A valid call meets no undefined behaviour, keeps the invariant, and changes nothing when it fails. *)
Lemma run_call_spec own s a :
  good own s -> valid own s a ->
  wp (run_call a) (fun r s' => good (own_after own a r) s' /\ (fst r <> 0 -> hp s' = hp s)) s.
Proof.
  intros G V. pose proof G as [O B Bd].
  assert (Hout : forall N r s', outcome s N r s' ->
    (forall x, r = (0, Some x) -> (next s <= next s')%nat -> N s' x -> good (own_after own a r) s') ->
    (own_after own a (fst r, None) = own) ->
    good (own_after own a r) s' /\ (fst r <> 0 -> hp s' = hp s)).
  { intros N [e o] s' [Hn [(He & Ho & E)|(x & E & HN)]] Hok Hown; cbn in *.
    - subst o. rewrite Hown. split; [by eapply good_same|done].
    - split; [by eapply Hok|]. by injection E as ->. }
  destruct a; cbn [run_call valid] in *.
  - destruct V as (V1 & V2 & V3 & V4). eapply wp_mono; [by apply nvm_ctrl_init_spec|].
    intros r s' [Hn [(He & Ho & E)|(c & dev & -> & Hd & Hc & Hp & E)]]; cbn in *.
    + rewrite Ho. split; [by eapply good_same|done].
    + split; [|done]. eapply (good_opened own s s' c dev ptr); [done|lia|lia| |done]. cbn. lia.
  - destruct V as (V1 & V2). eapply wp_mono; [by apply ctrl_init_spec|].
    intros r s' [Hn [(He & Ho & E)|(c & -> & Hc & Hp & E)]]; cbn in *.
    + rewrite Ho. split; [by eapply good_same|done].
    + split; [|done]. eapply (good_raw own s s' c); [done|lia| |done]. cbn. lia.
  - destruct (proj2 (oc_own _ _ (ok_c _ _ O) c)) as [k Hk]; [lia|].
    destruct (oc_count _ _ (ok_c _ _ O) _ _ Hk) as [_ ?]. pose proof (proj1 Bd _ _ Hk). wp_step.
    eapply wp_mono; [apply (ctrl_put_any_spec s c k Hk); [lia|by eapply oc_dev; [apply O|]]|].
    intros _ ? ->. wp_steps. split; [by apply good_dropped|done].
  - destruct (usable_ctrl _ _ _ G V) as (k & Hk & Hc & Hd & Hp).
    eapply wp_mono; [by apply (nvm_dma_create_spec s c k)|]. intros r s' Ho. eapply Hout; [done| |done].
    intros x -> ? HN. eapply good_created; [done|done|lia|done|done].
  - destruct (usable_ctrl _ _ _ G V) as (k & Hk & Hc & Hd & Hp).
    eapply wp_mono; [by apply (nvm_dma_map_host_spec s c k)|]. intros r s' Ho. eapply Hout; [done| |done].
    intros x -> ? HN. eapply good_created; [done|done|lia|done|done].
  - destruct (usable_ctrl _ _ _ G V) as (k & Hk & Hc & Hd & Hp).
    eapply wp_mono; [by apply (nvm_dma_map_device_spec s c k)|]. intros r s' Ho. eapply Hout; [done| |done].
    intros x -> ? HN. eapply good_created; [done|done|lia|done|done].
  - destruct V as (V & V1 & V2 & V3). destruct (usable_ctrl _ _ _ G V) as (k & Hk & Hc & Hd & Hp).
    eapply wp_mono; [by apply (nvm_dma_map_spec s c k)|]. intros r s' Ho. eapply Hout; [done| |done].
    intros x -> ? (v & m & Hv & Hm & Hx & Hr & E). split; rewrite E.
    + apply ok_mapped_plain; try done; [eapply below_map|eapply below_cont|eapply below_va]; done || lia.
    + apply (below_mapped_plain (next s)); [done|lia|done|lia..].
    + apply bounded_mapped_plain; [done|lia].
  - destruct V as (ct & Hx & Hu). eapply wp_mono; [by eapply nvm_dma_remap_spec|]. intros r s' Ho.
    eapply Hout; [done| |done]. intros x' -> ? (Hx' & md & Hm & E). by eapply good_share.
  - destruct V as [ct Hx]. destruct (ok_h _ _ O _ _ Hx) as (md & k & va & r & Hm & Hk & _). wp_step.
    eapply wp_mono; [by eapply nvm_dma_unmap_spec|]. intros _ ? ->. wp_steps. split; [|done]. by eapply good_released.
Qed.

(** ** Programs *)

(** A program's next call. *)
Inductive api_step : (nat -> Z) * host -> (nat -> Z) * host -> Prop :=
  | ApiStep own s a r s' :
      valid own s a -> run_call a s = Some (r, s') -> api_step (own, s) (own_after own a r, s').

(** The library is loaded: nothing is allocated; [mms] are the windows the program has mapped itself. *)
Definition start (mms : gset Z) (l : list Z) : (nat -> Z) * host :=
  (fun _ => 0, MkHost (set_mms empty_heap mms) 1 l).

Definition api_reachable (mms : gset Z) (l : list Z) (own : nat -> Z) (s : host) : Prop :=
  rtc api_step (start mms l) (own, s).

Lemma good_start mms l : good (fst (start mms l)) (snd (start mms l)).
Proof.
  split; cbn.
  - split; [split|split|split|]; cbn; try done; try (intros; simplify_map_eq; done); try set_solver.
  - destruct (empty_heap_below 1). by split.
  - split; cbn; intros; simplify_map_eq.
Qed.

Lemma api_reachable_good mms l own s : api_reachable mms l own s -> good own s.
Proof.
  intros H. assert (forall p, rtc api_step (start mms l) p -> good (fst p) (snd p)) as L.
  { clear. intros p. revert p. apply (rtc_ind_r (R := api_step)); [apply good_start|].
    intros [own s] [own' s'] _ Hs G. inversion Hs as [? ? a r ? V E]; subst. cbn in *.
    by apply (wp_exec _ _ _ _ _ E (run_call_spec own s a G V)). }
  exact (L _ H).
Qed.

Lemma kmaps_empty (X : gmultiset void_ptr) : (forall p, multiplicity p X = 0%nat) -> X = ∅.
Proof. intros H. apply gmultiset_eq. intros p. by rewrite H, multiplicity_empty. Qed.

(** Releasing the only handle of a fresh mapping undoes its creation. *)
Lemma released_mapped h c k d im m x io :
  h_ctrls h !! c = Some k -> 1 <= c_count k -> buffer_fresh h im ->
  h_maps h !! m = None -> h_conts h !! x = None -> h_mds h !! d = None ->
  released (mapped (new_md h d im) c k d im m x io) x m
    (MkMap 1 c (Some (VaMd d)) release_mapping_descriptor_cb true) (with_count k (c_count k + 1)) = h.
Proof.
  intros Hk Hc Hb Hm Hx Hd. unfold released, drop_ref, free_range, mapped. cbn -[free_md new_md].
  rewrite (proj2 (Z.eqb_neq (c_count k + 1) 1)) by lia. rewrite Z.add_simpl_r, with_count_id.
  destruct (new_md_eq h d im) as (bufs & -> & Hbufs). cbn -[free_md]. rewrite lookup_insert_eq.
  match goal with |- context [free_md ?h1 d im] => destruct (free_md_eq h1 d im) as (bufs' & -> & Hbufs') end.
  cbn in *. rewrite !delete_insert_id, insert_insert_eq, (insert_id (h_ctrls h)) by done.
  assert (Ek : (h_kmaps h ⊎ {[+ im_buffer im +]}) ∖ {[+ im_buffer im +]} = h_kmaps h) by multiset_solver.
  assert (bufs' = h_bufs h) as ->.
  { apply set_eq. intros b. rewrite Hbufs', Hbufs. split; [tauto|]. intros Hin. split; [auto|].
    intros [Et Eb]. destruct (Hb Et) as (b' & Eb' & Hb'). rewrite Eb in Eb'. injection Eb' as ->. done. }
  rewrite Ek. by destruct h.
Qed.

(** C4: The host library is memory safe and leaves no trace of a failure.  In every state a
    program reaches by valid calls, whatever primitives fail but the [mmap] of
    [nvm_ctrl_init], the next valid call completes without undefined behaviour (no dangling
    or null dereference, double free or division by zero) and, when it reports an error, the
    heap is as before.  Calls are valid on live handles, with fewer than 2^32 - 1 references
    to a controller or mapping; when [mmap] fails, [nvm_ctrl_init] is undefined. *)
Theorem api_safe mms l own s a :
  api_reachable mms l own s -> valid own s a ->
  exists r s', run_call a s = Some (r, s') /\ (fst r <> 0 -> hp s' = hp s).
Proof.
  intros G%api_reachable_good V. destruct (wp_total _ _ _ (run_call_spec own s a G V)) as (r & s' & E & _ & H). eauto.
Qed.

(** With no handle and no reference left the heap is empty. *)
Lemma good_empty_heap own s :
  good own s -> h_conts (hp s) = ∅ -> (forall c, own c = 0) -> hp s = set_mms empty_heap (h_mms (hp s)).
Proof.
  intros [[C Mp R _] _ _] Hx Ho.
  assert (Hm : h_maps (hp s) = ∅).
  { apply map_empty. intros m. apply eq_None_not_Some. intros [md Hm]. destruct (om_count _ Mp _ _ Hm).
    unfold users in *. rewrite Hx, cnt_empty in *. lia. }
  assert (Hc : h_ctrls (hp s) = ∅).
  { apply map_empty. intros c. apply eq_None_not_Some. intros [k Hk]. destruct (oc_count _ _ C _ _ Hk).
    unfold refs in *. rewrite Hm, cnt_empty, Ho in *. lia. }
  assert (Hd : h_devs (hp s) = ∅).
  { apply map_empty. intros d. apply eq_None_not_Some. intros [fd Hd].
    destruct (oc_devs _ _ C _ _ Hd) as (_ & c & k & Hk & _). by rewrite Hc, lookup_empty in Hk. }
  assert (Hmd : h_mds (hp s) = ∅).
  { apply map_empty. intros d. apply eq_None_not_Some. intros [im Hd'].
    destruct (or_md _ R _ _ Hd') as [(m & md & ? & _) _]. by rewrite Hm, lookup_empty in *. }
  assert (Hv : h_vas (hp s) = ∅).
  { apply map_empty. intros v. apply eq_None_not_Some. intros [r Hv].
    destruct (or_vas _ R _ _ Hv) as (m & md & ? & _). by rewrite Hm, lookup_empty in *. }
  assert (Hb : h_bufs (hp s) = ∅).
  { apply set_eq. intros b. split; [|set_solver]. intros (d & im & Hd' & _)%(or_bufs _ R). by rewrite Hmd, lookup_empty in Hd'. }
  assert (Hf : h_fds (hp s) = ∅).
  { apply set_eq. intros z. split; [|set_solver]. intros (d & Hd')%(oc_fds _ _ C). by rewrite Hd, lookup_empty in Hd'. }
  assert (Hk : h_kmaps (hp s) = ∅).
  { apply kmaps_empty. intros p. pose proof (or_kmaps _ R p) as E. rewrite Hmd, cnt_empty in E. lia. }
  rewrite (heap_eta (hp s)), Hx, Hm, Hc, Hd, Hmd, Hv, Hb, Hf, Hk. done.
Qed.

(** C5: No leaks.  Once a program has freed its controllers and unmapped its handles, the
    library holds nothing: no mapping, descriptor, buffer, pinned memory in the kernel,
    device or open file descriptor.  The program has made valid calls only, as for safety. *)
Theorem api_no_leaks mms l own s :
  api_reachable mms l own s -> h_conts (hp s) = ∅ -> (forall c, own c = 0) ->
  hp s = set_mms empty_heap (h_mms (hp s)).
Proof. intros G%api_reachable_good. by apply good_empty_heap. Qed.

(** A handle from [nvm_dma_remap] is the handle it was made from: the same range, page
    size, bus addresses and contiguity, computed from the other handle's address list
    instead of the range. *)
Theorem nvm_dma_remap_same mms l own s x0 ct :
  api_reachable mms l own s -> h_conts (hp s) !! x0 = Some ct -> users (hp s) (ct_map ct) < 2 ^ 32 - 1 ->
  wp (nvm_dma_remap x0) (fun r s' =>
    match snd r with
    | Some x => h_conts (hp s') !! x = Some ct /\ h_conts (hp s) !! x = None
    | None => fst r <> 0 /\ hp s' = hp s
    end) s.
Proof.
  intros G%api_reachable_good Hx Hu. eapply wp_mono; [by eapply nvm_dma_remap_spec|].
  intros r s' [_ [(? & -> & ?)|(x & -> & (Hn & md & _ & E))]]; [done|]. cbn. rewrite E. cbn. split.
  - rewrite lookup_insert_eq. by destruct ct.
  - eapply below_cont; [apply G|lia].
Qed.

(** Mapping and unmapping is a round trip: a mapping created by [nvm_dma_create] and
    released by [nvm_dma_unmap] gives the heap back, the controller's reference count included. *)
Theorem nvm_dma_create_unmap mms l own s c size :
  api_reachable mms l own s -> usable own (hp s) c ->
  wp (nvm_dma_create c size) (fun r s1 =>
    match snd r with
    | Some x => wp (nvm_dma_unmap (Some x)) (fun _ s2 => hp s2 = hp s) s1
    | None => fst r <> 0 /\ hp s1 = hp s
    end) s.
Proof.
  intros G%api_reachable_good V. destruct (usable_ctrl _ _ _ G V) as (k & Hk & Hc & Hd & Hp). pose proof G as [O B Bd].
  eapply wp_mono; [by apply (nvm_dma_create_spec s c k)|].
  intros r s1 [Hn [(? & -> & ?)|(x & -> & HN)]]; [done|]. cbn.
  assert (G1 : good own s1) by (eapply good_created; [done|done|lia|done..]).
  destruct HN as (d & im & m & io & _ & ? & ? & ? & Hb & _ & _ & _ & _ & E).
  assert (h_maps (hp s) !! m = None) by (eapply below_map; [done|lia]).
  assert (h_conts (hp s) !! x = None) by (eapply below_cont; [done|lia]).
  assert (h_mds (hp s) !! d = None) by (eapply below_md; [done|lia]).
  eapply wp_mono.
  { apply (nvm_dma_unmap_spec own s1 x
      (MkCont m (handle_of (c_handle k) (im_range im) (negb (va_remote (im_range im))) io))
      (MkMap 1 c (Some (VaMd d)) release_mapping_descriptor_cb true) (with_count k (c_count k + 1)));
      [done|rewrite E; apply lookup_insert_eq..]. }
  intros _ s2 ->. cbn [upd hp m_count]. rewrite E. eapply released_mapped; [exact Hk|lia|exact Hb|assumption..].
Qed.

(** Looking up a live handle is safe: its controller and address range are alive, and
    the handle describes that range. *)
Theorem dma_lookups_live mms l own s x ct :
  api_reachable mms l own s -> h_conts (hp s) !! x = Some ct ->
  exists c k va r,
    nvm_ctrl_from_dma (Some x) s = Some (Some c, s) /\ h_ctrls (hp s) !! c = Some k /\
    _nvm_dma_va (Some x) s = Some (Some va, s) /\ range_at (hp s) va = Some r /\
    describes (c_handle k) r (ct_handle ct).
Proof.
  intros [O _ _]%api_reachable_good Hx. destruct (ok_h _ _ O _ _ Hx) as (md & k & va & r & Hm & Hk & Hva & Hr & Hd).
  exists (m_ctrl md), k, va, r. split_and!; try done; unfold nvm_ctrl_from_dma, _nvm_dma_va;
    unfold mbind, ST_bind, get, deref; cbn; rewrite Hx; cbn; rewrite Hm; cbn; [done|by rewrite Hva].
Qed.

(** [nvm_dma_query_phys_addrs] takes and drops its reference to the controller: the heap
    is unchanged on every path, and a success reports one address per page. *)
Theorem nvm_dma_query_phys_addrs_spec mms l own s c devptr n_pages out :
  api_reachable mms l own s -> usable own (hp s) c -> 0 <= n_pages ->
  wp (nvm_dma_query_phys_addrs (Some c) devptr n_pages out) (fun r s' =>
    hp s' = hp s /\ (fst r = 0 -> length (snd r) = Z.to_nat n_pages)) s.
Proof.
  intros G%api_reachable_good V Hn. destruct (usable_ctrl _ _ _ G V) as (k & Hk & Hc & Hd & Hp).
  unfold nvm_dma_query_phys_addrs. wp_steps; [done|]. eapply wp_deref; [done|]. wp_steps; [done|].
  eapply wp_mono; [by apply ctrl_get_spec|]. intros ? ? [-> ->]. rewrite (u32_id (c_count k + 1)) by (unfold is_word; lia).
  assert (Ho : c_ops k = true).
  { eapply (oc_type _ _ (ok_c _ _ (g_ok _ _ G))); [done|]. by apply negb_false_iff, bool_decide_eq_true in Heqb0. }
  wp_step. apply device_fd_spec; [done..|]. intros _. wp_steps.
  eapply wp_mono; [by eapply (ctrl_put_ref_spec _ (hp s))|]. intros _ ? ->. wp_steps; (split; [done|]); cbn.
  - lia.
  - intros _. by apply kernel_ioaddrs_length.
Qed.
End api.

(** ** Witnesses *)

Definition example_kernel : Kernel.
Proof.
  refine {| kernel_ioaddrs n t p k := (fun i => u64 (Z.of_nat i * 8192)) <$> seq 0 (Z.to_nat k) |}.
  - intros. by rewrite length_fmap, length_seq.
  - intros n t p k a (i & -> & _)%list_elem_of_fmap. apply u64_range.
Defined.

Lemma api_safe_witness :
  exists r s', run_call (K := example_kernel) (CInit example_cap 4096 8192) (snd (start ∅ [])) = Some (r, s') /\
    (fst r <> 0 -> hp s' = hp (snd (start ∅ []))).
Proof.
  apply (api_safe (K := example_kernel) ∅ [] (fst (start ∅ [])) (snd (start ∅ [])) (CInit example_cap 4096 8192));
    [apply rtc_refl|cbn; split_and!; [set_solver|done..]].
Defined.

(** Open a controller, map a buffer, close the controller, unmap the buffer. *)
Definition example_calls : list call := [CInit example_cap 4096 8192; CCreate 2 8192; CFree 2; CUnmap 6].

Fixpoint run_calls (l : list call) (p : (nat -> Z) * host) : option ((nat -> Z) * host) :=
  match l with
  | [] => Some p
  | a :: l =>
      match run_call (K := example_kernel) a (snd p) with
      | Some (r, s') => run_calls l (own_after (fst p) a r, s')
      | None => None
      end
  end.

(** The state after [n] calls of the example. *)
Definition example_state (n : nat) : (nat -> Z) * host :=
  default (start ∅ []) (run_calls (take n example_calls) (start ∅ [])).

Lemma run_calls_app l1 l2 p :
  run_calls (l1 ++ l2) p = match run_calls l1 p with Some p' => run_calls l2 p' | None => None end.
Proof. revert p. induction l1 as [|a l1 IH]; intros p; [done|]. cbn. destruct (run_call _ _) as [[r s']|]; [apply IH|done]. Qed.

Lemma example_step n a :
  example_calls !! n = Some a -> is_Some (run_calls (take (S n) example_calls) (start ∅ [])) ->
  valid (fst (example_state n)) (snd (example_state n)) a ->
  api_step (K := example_kernel) (example_state n) (example_state (S n)).
Proof.
  unfold example_state. intros Ha. rewrite (take_S_r _ _ _ Ha), run_calls_app.
  destruct (run_calls (take n example_calls) (start ∅ [])) as [[own s]|]; [|by intros [? ?]].
  cbn. destruct (run_call a s) as [[r s']|] eqn:E; [|by intros [? ?]]. intros _ V. cbn. by constructor.
Qed.

Lemma example_reachable n : (n <= 4)%nat ->
  api_reachable (K := example_kernel) ∅ [] (fst (example_state n)) (snd (example_state n)).
Proof.
  intros Hn. unfold api_reachable. rewrite <- surjective_pairing.
  induction n as [|n IH]; [apply rtc_refl|]. eapply rtc_r; [apply IH; lia|].
  destruct n as [|[|[|[|n]]]]; [..|lia]; (eapply example_step; [reflexivity|vm_compute; eauto|]).
  - cbn. split_and!; [set_solver|done..].
  - split; vm_compute; done.
  - vm_compute. done.
  - vm_compute. eauto.
Qed.

Lemma api_no_leaks_witness :
  h_conts (hp (snd (example_state 4))) = ∅ /\ (forall c, fst (example_state 4) c = 0) /\
  hp (snd (example_state 4)) = set_mms empty_heap (h_mms (hp (snd (example_state 4)))).
Proof.
  assert (E1 : h_conts (hp (snd (example_state 4))) = ∅) by (vm_compute; reflexivity).
  assert (E2 : forall c, fst (example_state 4) c = 0).
  { intros c. vm_compute. by destruct c as [|[|[|c]]]. }
  split_and!; [exact E1|exact E2|].
  apply (api_no_leaks (K := example_kernel) ∅ [] (fst (example_state 4)) (snd (example_state 4)));
    [apply example_reachable; lia|exact E1|exact E2].
Defined.

(** The handle of the example's mapping. *)
Definition example_cont : container := MkCont 5 (MkDma (Alloc 3) true false 4096 [0; 8192]).

Lemma nvm_dma_remap_same_witness :
  wp (nvm_dma_remap 6) (fun r s' =>
    match snd r with
    | Some x => h_conts (hp s') !! x = Some example_cont /\ h_conts (hp (snd (example_state 2))) !! x = None
    | None => fst r <> 0 /\ hp s' = hp (snd (example_state 2))
    end) (snd (example_state 2)).
Proof.
  apply (nvm_dma_remap_same (K := example_kernel) ∅ [] (fst (example_state 2)) (snd (example_state 2)));
    [apply example_reachable; lia|vm_compute; reflexivity|vm_compute; reflexivity].
Defined.

Lemma nvm_dma_create_unmap_witness :
  wp (nvm_dma_create (H := example_kernel) 2 8192) (fun r s1 =>
    match snd r with
    | Some x => wp (nvm_dma_unmap (Some x)) (fun _ s2 => hp s2 = hp (snd (example_state 1))) s1
    | None => fst r <> 0 /\ hp s1 = hp (snd (example_state 1))
    end) (snd (example_state 1)).
Proof.
  apply (nvm_dma_create_unmap (K := example_kernel) ∅ [] (fst (example_state 1)) (snd (example_state 1)) 2 8192);
    [apply example_reachable; lia|split; vm_compute; done].
Defined.

Lemma dma_lookups_live_witness :
  exists c k va r,
    nvm_ctrl_from_dma (Some 6%nat) (snd (example_state 2)) = Some (Some c, snd (example_state 2)) /\
    h_ctrls (hp (snd (example_state 2))) !! c = Some k /\
    _nvm_dma_va (Some 6%nat) (snd (example_state 2)) = Some (Some va, snd (example_state 2)) /\
    range_at (hp (snd (example_state 2))) va = Some r /\ describes (c_handle k) r (ct_handle example_cont).
Proof.
  apply (dma_lookups_live (K := example_kernel) ∅ [] (fst (example_state 2)));
    [apply example_reachable; lia|vm_compute; reflexivity].
Defined.

Lemma nvm_dma_query_phys_addrs_witness :
  wp (nvm_dma_query_phys_addrs (H := example_kernel) (Some 2%nat) 4096 3 true) (fun r s' =>
    hp s' = hp (snd (example_state 1)) /\ (fst r = 0 -> length (snd r) = Z.to_nat 3)) (snd (example_state 1)).
Proof.
  apply (nvm_dma_query_phys_addrs_spec (K := example_kernel) ∅ [] (fst (example_state 1)));
    [apply example_reachable; lia|split; vm_compute; done|done].
Defined.
End DmaApi.
