(* ===== verification/CtrlReset.v ===== *)
(** Resetting the controller: [nvm_raw_ctrl_reset] of [src/src/ctrl.cpp].

    The device is the sequence of values its status register gives to successive
    reads; the effect of the call is the sequence of its register accesses. *)
From Stdlib Require Import ZArith Lia List Bool.
From stdpp Require Import base list numbers.
From S2P Require Import Prelude NvmUtil NvmQueue Host.
Import Host.

Import ListNotations.
Local Open Scope Z_scope.

Module CtrlReset.

(** ** Register accesses *)

Inductive reg := CC | AQA | ACQ | ASQ.
Inductive access := Wr (r : reg) (v : Z) | RdCsts (v : Z).

(** The loop waiting for [CSTS.RDY] to become [want]: [csts k] is what the [k]-th read
    gives, [remaining] the time left; [None] means the fuel ran out. *)
Fixpoint wait_rdy (fuel : nat) (csts : nat -> Z) (k : nat) (want remaining : Z) : option (Z * list access) :=
  if CSTS_RDY (csts k) =? want then Some (0, [RdCsts (csts k)])
  else if remaining =? 0 then Some (ETIME, [RdCsts (csts k)])
  else
    match fuel with
    | O => None
    | S fuel =>
        match wait_rdy fuel csts (S k) want (nvm_delay_remain remaining) with
        | Some (e, tr) => Some (e, RdCsts (csts k) :: tr)
        | None => None
        end
    end.

(** Milliseconds of waiting, each a round of the loop, and one round more. *)
Definition rounds (remaining : Z) : nat := Z.to_nat (remaining / 1000000 + 1).

(** [cc] is the configuration register before the call. *)
Definition nvm_raw_ctrl_reset (ctrl : nvm_ctrl_t) (cc : Z) (csts : nat -> Z) (acq_addr asq_addr : Z)
    : option (Z * list access) :=
  let disable := Wr CC (Z.land cc (u32 (Z.lnot 1))) in
  let timeout := u64 (ctl_timeout ctrl * 1000000) in
  let remaining := nvm_delay_remain timeout in
  match wait_rdy (rounds remaining) csts 0 0 remaining with
  | None => None
  | Some (e, tr) =>
      if negb (e =? 0) then Some (ETIME, disable :: tr)
      else
        let cq_max_entries := u32 (ctl_page_size ctrl / sizeof_nvm_cpl_t - 1) in
        let sq_max_entries := u32 (ctl_page_size ctrl / sizeof_nvm_cmd_t - 1) in
        let cqes := encode_entry_size sizeof_nvm_cpl_t in
        let sqes := encode_entry_size sizeof_nvm_cmd_t in
        let setup :=
          [Wr AQA (Z.lor (AQA_ACQS cq_max_entries) (AQA_ASQS sq_max_entries));
           Wr ACQ acq_addr; Wr ASQ asq_addr;
           Wr CC (Z.lor (Z.lor (Z.lor (Z.lor (CC_IOCQES cqes) (CC_IOSQES sqes))
                   (CC_MPS (encode_page_size (ctl_page_size ctrl)))) (CC_CSS 0)) (CC_EN 1))] in
        let remaining := nvm_delay_remain timeout in
        match wait_rdy (rounds remaining) csts (length tr) 1 remaining with
        | None => None
        | Some (e, tr') =>
            Some (if negb (e =? 0) then ETIME else 0, disable :: tr ++ setup ++ tr')
        end
  end.

(** ** Waiting *)

(** The number of further reads a wait makes before it gives up. *)
Definition patience (remaining : Z) : nat := Z.to_nat ((remaining + 999999) / 1000000).

Lemma patience_step remaining :
  0 < remaining < 2 ^ 64 ->
  0 <= nvm_delay_remain remaining < 2 ^ 64 /\ nvm_delay_remain remaining <= remaining /\
  patience remaining = S (patience (nvm_delay_remain remaining)) /\
  (rounds remaining >= patience remaining)%nat.
Proof.
  intros Hr. unfold nvm_delay_remain, MIN, patience, rounds. destruct (Z.eqb_spec remaining 0); [lia|].
  pose proof (Z.div_mod (remaining + 999999) 1000000). pose proof (Z.mod_pos_bound (remaining + 999999) 1000000).
  pose proof (Z.div_mod remaining 1000000). pose proof (Z.mod_pos_bound remaining 1000000).
  destruct (Z.leb_spec 1000000 remaining).
  - rewrite u64_id by (unfold is_word; lia).
    replace (remaining - 1000000 + 999999) with (remaining + 999999 + (-1) * 1000000) by lia.
    rewrite Z.div_add by lia. split_and!; lia.
  - rewrite Z.sub_diag. change (u64 0) with 0. change ((0 + 999999) / 1000000) with 0.
    assert ((remaining + 999999) / 1000000 = 1) by lia. split_and!; lia.
Qed.

(** The outcome of a wait: it succeeds at the first read that shows [want] among the first
    [patience remaining + 1], and fails when none does. *)
Lemma wait_rdy_spec want csts fuel k remaining :
  0 <= remaining < 2 ^ 64 -> (patience remaining <= fuel)%nat ->
  exists n, (n <= patience remaining)%nat /\
    (forall i, (i < n)%nat -> CSTS_RDY (csts (k + i)%nat) <> want) /\
    (CSTS_RDY (csts (k + n)%nat) = want /\
       wait_rdy fuel csts k want remaining = Some (0, (fun i => RdCsts (csts i)) <$> seq k (S n)) \/
     CSTS_RDY (csts (k + n)%nat) <> want /\ n = patience remaining /\
       wait_rdy fuel csts k want remaining = Some (ETIME, (fun i => RdCsts (csts i)) <$> seq k (S n))).
Proof.
  revert k remaining. induction fuel as [|fuel IH]; intros k remaining Hr Hf; cbn [wait_rdy].
  - assert (patience remaining = 0%nat) as E by lia. exists 0%nat. rewrite Nat.add_0_r, E. split; [lia|]. split; [lia|].
    destruct (Z.eqb_spec (CSTS_RDY (csts k)) want); [by left|right]. split_and!; [done..|].
    destruct (Z.eqb_spec remaining 0) as [|Hne]; [done|]. destruct (patience_step remaining) as (_ & _ & Hp & _); lia.
  - destruct (Z.eqb_spec (CSTS_RDY (csts k)) want) as [Ew|Ew].
    { exists 0%nat. rewrite Nat.add_0_r. split; [lia|]. split; [lia|]. by left. }
    destruct (Z.eqb_spec remaining 0) as [->|Hne].
    { exists 0%nat. rewrite Nat.add_0_r. split; [lia|]. split; [lia|]. by right. }
    destruct (patience_step remaining) as (Hd & _ & Hp & _); [lia|].
    destruct (IH (S k) (nvm_delay_remain remaining)) as (n & Hn & Hlt & Hout); [lia|lia|].
    exists (S n). rewrite <- Nat.add_succ_comm. split; [lia|]. split.
    + intros [|i] Hi; [by rewrite Nat.add_0_r|]. rewrite <- Nat.add_succ_comm. apply Hlt. lia.
    + destruct Hout as [[E1 E2]|(E1 & E3 & E2)]; rewrite E2; [left|right]; split_and!; try done. lia.
Qed.
(** Whatever the device shows, the reset returns. *)
Lemma ctrl_reset_returns ctrl cc csts acq_addr asq_addr :
  exists r, nvm_raw_ctrl_reset ctrl cc csts acq_addr asq_addr = Some r.
Proof.
  unfold nvm_raw_ctrl_reset. set (remaining := nvm_delay_remain _).
  assert (Hr : 0 <= remaining < 2 ^ 64 /\ (patience remaining <= rounds remaining)%nat).
  { pose proof (u64_range (ctl_timeout ctrl * 1000000)) as Hu. fold (u64 (ctl_timeout ctrl * 1000000)) in *.
    unfold is_word in Hu. subst remaining. set (x := u64 _) in *. destruct (Z.eq_dec x 0) as [->|]; [vm_compute; auto|].
    destruct (patience_step x) as (Hd & _); [lia|]. split; [done|]. set (y := nvm_delay_remain x) in *.
    destruct (Z.eq_dec y 0) as [->|]; [vm_compute; auto|]. destruct (patience_step y) as (_ & _ & _ & ?); lia. }
  destruct Hr as [H1 H2].
  destruct (wait_rdy_spec 0 csts (rounds remaining) 0 remaining H1 H2) as (n & _ & _ & [[_ ->]|(_ & _ & ->)]); [|by eexists].
  cbn [negb Z.eqb]. set (m := length _).
  by destruct (wait_rdy_spec 1 csts (rounds remaining) m remaining H1 H2) as (n' & _ & _ & [[_ ->]|(_ & _ & ->)]); eexists.
Qed.

(** ** The reset sequence *)

Definition reads (csts : nat -> Z) (k n : nat) : list access := (fun i => RdCsts (csts i)) <$> seq k n.

(** The queue sizes and the configuration the controller reads. *)
Definition aqa_ok (page_size aqa : Z) : Prop :=
  RB aqa 27 16 + 1 = page_size / 16 /\ RB aqa 11 0 + 1 = page_size / 64.
Definition cc_enabled (p cc : Z) : Prop :=
  RB cc 0 0 = 1 /\ RB cc 3 1 = 0 /\ RB cc 10 7 = p /\ RB cc 19 16 = 6 /\ RB cc 23 20 = 4.

Lemma reset_fields p :
  0 <= p <= 4 ->
  let page_size := 2 ^ (12 + p) in
  aqa_ok page_size (Z.lor (AQA_ACQS (u32 (page_size / sizeof_nvm_cpl_t - 1))) (AQA_ASQS (u32 (page_size / sizeof_nvm_cmd_t - 1)))) /\
  cc_enabled p (Z.lor (Z.lor (Z.lor (Z.lor (CC_IOCQES (encode_entry_size sizeof_nvm_cpl_t))
    (CC_IOSQES (encode_entry_size sizeof_nvm_cmd_t))) (CC_MPS (encode_page_size page_size))) (CC_CSS 0)) (CC_EN 1)).
Proof.
  intros Hp. assert (p = 0 \/ p = 1 \/ p = 2 \/ p = 3 \/ p = 4) as Hcases by lia; destruct Hcases as [E|[E|[E|[E|E]]]]; subst p;
    repeat split; vm_compute; reflexivity.
Qed.

Lemma disable_cc cc : is_word 32 cc -> Z.land cc (u32 (Z.lnot 1)) = cc - cc mod 2.
Proof.
  intros Hc. change (u32 (Z.lnot 1)) with (Z.lnot 1 mod 2 ^ 32). rewrite <- Z.land_ones by lia.
  rewrite Z.land_assoc, (Z.land_comm _ (Z.ones 32)), Z.land_assoc, (Z.land_comm (Z.ones 32)), Z.land_ones by lia.
  unfold is_word in Hc. rewrite Z.mod_small by lia. change (Z.lnot 1) with (Z.lnot (Z.ones 1)).
  rewrite <- Z.ldiff_land, Z.ldiff_ones_r, Z.shiftl_mul_pow2, Z.shiftr_div_pow2 by lia.
  pose proof (Z.div_mod cc 2). change (2 ^ 1) with 2. lia.
Qed.

(** C25: The controller reset follows the NVMe sequence and always returns: it clears
    [CC.EN] and keeps the other bits, waits for [CSTS.RDY] to read 0, and only then writes the
    admin queue sizes, the queue addresses and the enabled configuration, and waits for
    [CSTS.RDY] to read 1.  It gives up with [ETIME] exactly when the status register shows the
    wrong value in every read of a full timeout. *)
Theorem ctrl_reset_sequence ctrl cc csts acq_addr asq_addr p :
  ctl_page_size ctrl = 2 ^ (12 + p) -> 0 <= p <= 4 -> 0 <= ctl_timeout ctrl <= 255 * 500 -> is_word 32 cc ->
  let patience := patience (nvm_delay_remain (ctl_timeout ctrl * 1000000)) in
  exists e tr, nvm_raw_ctrl_reset ctrl cc csts acq_addr asq_addr = Some (e, tr) /\
  exists n0, (n0 <= patience)%nat /\ (forall i, (i < n0)%nat -> CSTS_RDY (csts i) <> 0) /\
    (CSTS_RDY (csts n0) <> 0 /\ n0 = patience /\ e = ETIME /\
       tr = Wr CC (cc - cc mod 2) :: reads csts 0 (S n0) \/
     CSTS_RDY (csts n0) = 0 /\
     exists n1 aqa cc', (n1 <= patience)%nat /\ (forall i, (i < n1)%nat -> CSTS_RDY (csts (S n0 + i)%nat) <> 1) /\
       tr = Wr CC (cc - cc mod 2) :: reads csts 0 (S n0) ++
            [Wr AQA aqa; Wr ACQ acq_addr; Wr ASQ asq_addr; Wr CC cc'] ++ reads csts (S n0) (S n1) /\
       aqa_ok (ctl_page_size ctrl) aqa /\ cc_enabled p cc' /\
       (e = 0 /\ CSTS_RDY (csts (S n0 + n1)%nat) = 1 \/
        e = ETIME /\ n1 = patience /\ CSTS_RDY (csts (S n0 + n1)%nat) <> 1)).
Proof.
  intros Hps Hp Ht Hcc pat. unfold nvm_raw_ctrl_reset.
  rewrite u64_id by (unfold is_word; lia). rewrite disable_cc by done.
  assert (Hr : 0 <= nvm_delay_remain (ctl_timeout ctrl * 1000000) < 2 ^ 64).
  { rewrite nvm_delay_remain_spec by (unfold is_word; lia). lia. }
  set (rem := nvm_delay_remain (ctl_timeout ctrl * 1000000)) in *.
  assert (Hf : (CtrlReset.patience rem <= rounds rem)%nat).
  { destruct (Z.eq_dec rem 0) as [->|]; [vm_compute; lia|]. destruct (patience_step rem) as (_ & _ & _ & ?); lia. }
  destruct (wait_rdy_spec 0 csts (rounds rem) 0 rem Hr Hf) as (n0 & Hn0 & Hlt0 & Hout0).
  destruct Hout0 as [[E0 ->]|(E0 & En & ->)]; cbn [negb Z.eqb].
  - rewrite length_fmap, length_seq.
    destruct (wait_rdy_spec 1 csts (rounds rem) (S n0) rem Hr Hf) as (n1 & Hn1 & Hlt1 & Hout1).
    destruct (reset_fields p Hp) as [Ha Hc]. rewrite <- Hps in Ha, Hc.
    destruct Hout1 as [[E1 ->]|(E1 & En & ->)]; do 2 eexists; (split; [reflexivity|]);
      exists n0; (split_and!; [done..|right]); (split; [done|]);
      do 3 eexists; (split_and!; [exact Hn1|exact Hlt1|reflexivity|exact Ha|apply Hc..|]); auto.
  - do 2 eexists. split; [reflexivity|]. exists n0. split_and!; [done..|]. left. by split_and!.
Qed.

Definition example_status (k : nat) : Z := if (k <? 3)%nat then 1 else if (k <? 5)%nat then 0 else 1.

Lemma ctrl_reset_sequence_witness :
  exists e tr, nvm_raw_ctrl_reset (MkCtrl 4096 0 500 1024 8192 4096) 0x460001 example_status 0x10000 0x11000 = Some (e, tr) /\
    e = 0 /\ exists n0, CSTS_RDY (example_status n0) = 0.
Proof.
  destruct (ctrl_reset_sequence (MkCtrl 4096 0 500 1024 8192 4096) 0x460001 example_status 0x10000 0x11000 0)
    as (e & tr & E & n0 & _ & Hlt & Hout); [reflexivity|lia|cbn; lia|vm_compute; split; congruence|].
  exists e, tr. split; [exact E|]. split; [vm_compute in E; congruence|].
  exists 3%nat. reflexivity.
Defined.
End CtrlReset.
