(* ===== verification/Rpc.v ===== *)
(** Admin queue references: [src/src/rpc.cpp].

    A reference holds a controller, a list of binding handles and, for the process that
    owns the controller, the admin queue pair in DMA memory.  References live beside the
    heap of the host library ([Host]); the calls of the library they make are those of
    [Host] and [Dma]. *)
From Stdlib Require Import ZArith Lia List Bool.
From stdpp Require Import base list gmap gmultiset numbers functions.
From S2P Require Import Prelude Exec NvmUtil NvmCmd NvmError NvmQueue Host Dma DmaSpec DmaInv DmaApi CtrlReset.
Import Host Dma DmaSpec DmaInv DmaApi.

Import ListNotations.
Local Open Scope Z_scope.

Definition EAGAIN : Z := 11.

Module Rpc.

(** ** Data *)

(** [struct local_admin]; [la_qmem] is the handle of the queue memory. *)
Record local_admin := MkAdmin { la_qmem : nat; la_acq : nvm_queue_t; la_asq : nvm_queue_t; la_timeout : Z }.

(** [struct rpc_handle]: key and instance data. *)
Record rpc_handle := MkHandle { rh_key : Z; rh_data : Z }.

(** [void* data]: null, a local admin descriptor, or the data of a remote binding. *)
Inductive binding := Null | LocalData (admin : nat) | RemoteData (data : Z).

#[export] Instance binding_eq_dec : EqDecision binding.
Proof. solve_decision. Defined.

(** The functions [stub] and [release] may point to. *)
Inductive rpc_stub_t := execute_command_stub | remote_stub.
Inductive rpc_free_binding_t := remove_admin_cb | remote_release_cb.

(** [struct nvm_admin_reference]. *)
Record nvm_admin_reference := MkRef {
  rf_ctrl : nat; rf_handles : list rpc_handle; rf_data : binding;
  rf_release : option rpc_free_binding_t; rf_stub : option rpc_stub_t
}.

(** ** State *)

Record rpc_state := MkRpc {
  rs_host : host;
  rs_refs : gmap nat nvm_admin_reference;
  rs_admins : gmap nat local_admin;
  rs_released : list (Z * Z);            (** calls of the handles' release callbacks *)
  rs_unbound : list binding;                   (** calls of the remote bindings' release callbacks *)
  rs_regs : nat -> Z * (nat -> Z);       (** [CC] before and [CSTS] during the n-th reset *)
  rs_resets : list (Z * list CtrlReset.access);  (** status and register accesses of the resets *)
  rs_cleared : list (Z * Z)              (** address and size of the queue memory set to zero *)
}.

Definition set_host (s : rpc_state) v := MkRpc v (rs_refs s) (rs_admins s) (rs_released s)
  (rs_unbound s) (rs_regs s) (rs_resets s) (rs_cleared s).
Definition set_refs (s : rpc_state) v := MkRpc (rs_host s) v (rs_admins s) (rs_released s)
  (rs_unbound s) (rs_regs s) (rs_resets s) (rs_cleared s).
Definition set_admins (s : rpc_state) v := MkRpc (rs_host s) (rs_refs s) v (rs_released s)
  (rs_unbound s) (rs_regs s) (rs_resets s) (rs_cleared s).
Definition set_released (s : rpc_state) v := MkRpc (rs_host s) (rs_refs s) (rs_admins s) v
  (rs_unbound s) (rs_regs s) (rs_resets s) (rs_cleared s).
Definition set_unbound (s : rpc_state) v := MkRpc (rs_host s) (rs_refs s) (rs_admins s)
  (rs_released s) v (rs_regs s) (rs_resets s) (rs_cleared s).
Definition set_resets (s : rpc_state) v := MkRpc (rs_host s) (rs_refs s) (rs_admins s)
  (rs_released s) (rs_unbound s) (rs_regs s) v (rs_cleared s).
Definition set_cleared (s : rpc_state) v := MkRpc (rs_host s) (rs_refs s) (rs_admins s)
  (rs_released s) (rs_unbound s) (rs_regs s) (rs_resets s) v.

Abbreviation R := (ST rpc_state).

(** A call of the host library. *)
Definition lift {A} (m : M A) : R A := fun s =>
  match m (rs_host s) with Some (a, h) => Some (a, set_host s h) | None => None end.
Definition upd_ref (s : rpc_state) (ref : nat) (r : nvm_admin_reference) : rpc_state :=
  set_refs s (<[ref := r]> (rs_refs s)).
Definition with_handles (r : nvm_admin_reference) (l : list rpc_handle) : nvm_admin_reference :=
  MkRef (rf_ctrl r) l (rf_data r) (rf_release r) (rf_stub r).

(** ** Binding handles *)

(** [data] and [release]: whether the pointers are set. *)
Definition _nvm_rpc_handle_insert (ref : nat) (key : Z) (data : Z) (release : bool) : R Z :=
  if (data =? 0) || negb release then mret EINVAL
  else
    e ← lift attempt;
    if negb (e =? 0) then mret ENOMEM
    else
      err ← lift _nvm_mutex_lock;
      if negb (err =? 0) then mret err
      else
        s ← st_get; r ← deref (rs_refs s !! ref);
        if existsb (fun h => rh_key h =? key) (rf_handles r) then
          lift _nvm_mutex_unlock;; mret EINVAL
        else
          st_modify (fun s => upd_ref s ref (with_handles r (rf_handles r ++ [MkHandle key data])));;
          lift _nvm_mutex_unlock;;
          mret 0.

(** The handles before the first one with this key, and the list from there. *)
Fixpoint split_at (key : Z) (l : list rpc_handle) : list rpc_handle * list rpc_handle :=
  match l with
  | [] => ([], [])
  | h :: l' => if rh_key h =? key then ([], l) else let '(a, b) := split_at key l' in (h :: a, b)
  end.

(** Unlinking reads [curr->next] before [curr] is tested. *)
Definition _nvm_rpc_handle_remove (ref : nat) (key : Z) : R unit :=
  lift _nvm_mutex_lock;;
  s ← st_get; r ← deref (rs_refs s !! ref);
  let '(prev, curr) := split_at key (rf_handles r) in
  match curr with
  | [] => crash
  | h :: next =>
      st_modify (fun s => upd_ref s ref (with_handles r (prev ++ next)));;
      st_modify (fun s => set_released s (rs_released s ++ [(rh_key h, rh_data h)]));;
      lift _nvm_mutex_unlock
  end.

Definition release_handles (ref : option nat) : R unit :=
  match ref with
  | None => mret tt
  | Some ref =>
      s ← st_get; r ← deref (rs_refs s !! ref);
      st_modify (fun s => set_released s (rs_released s ++ ((fun h => (rh_key h, rh_data h)) <$> rf_handles r)));;
      st_modify (fun s => upd_ref s ref (with_handles r []))
  end.

(** ** References *)

Definition _nvm_ref_get (ctrl : option nat) : R (Z * option nat) :=
  cref ← lift (_nvm_ctrl_get ctrl);
  match cref with
  | None => mret (ENOTTY, None)
  | Some c =>
      e ← lift attempt;
      if negb (e =? 0) then lift (_nvm_ctrl_put (Some c));; mret (ENOMEM, None)
      else
        ref ← lift fresh;
        err ← lift _nvm_mutex_init;
        if negb (err =? 0) then lift (_nvm_ctrl_put (Some c));; mret (err, None)
        else
          st_modify (fun s => upd_ref s ref (MkRef c [] Null None None));;
          mret (0, Some ref)
  end.

Section rpc.
(** The addresses of buffers, 0 being the null pointer, and the content of a fresh queue descriptor. *)
Context (addr : void_ptr -> Z) (blank_queue : nvm_queue_t).

Definition remove_admin (admin : option nat) : R unit :=
  match admin with
  | None => mret tt
  | Some a =>
      s ← st_get; la ← deref (rs_admins s !! a);
      lift (nvm_dma_unmap (Some (la_qmem la)));;
      st_modify (fun s => set_admins s (delete a (rs_admins s)))
  end.

(** [if (ref->release != NULL) ref->release(ref->data)]. *)
Definition release_binding (r : nvm_admin_reference) : R unit :=
  match rf_release r with
  | None => mret tt
  | Some remove_admin_cb =>
      match rf_data r with
      | Null => remove_admin None
      | LocalData a => remove_admin (Some a)
      | RemoteData _ => crash
      end
  | Some remote_release_cb => st_modify (fun s => set_unbound s (rs_unbound s ++ [rf_data r]))
  end.

Definition _nvm_ref_put (ref : option nat) : R unit :=
  match ref with
  | None => mret tt
  | Some ref =>
      lift _nvm_mutex_lock;;
      release_handles (Some ref);;
      s ← st_get; r ← deref (rs_refs s !! ref);
      release_binding r;;
      lift (_nvm_ctrl_put (Some (rf_ctrl r)));;
      lift _nvm_mutex_unlock;;
      lift _nvm_mutex_free;;
      st_modify (fun s => set_refs s (delete ref (rs_refs s)))
  end.

(** ** The local admin queue pair *)

Definition DMA_OFFSET (dma : nvm_dma_t) (pageno : Z) : Z := addr (dma_vaddr dma) + dma_page_size dma * pageno.

(** The results of [nvm_queue_clear] are not tested. *)
Definition create_admin (ctrl : nat) (window : nat) : R (Z * option nat) :=
  s ← st_get;
  k ← deref (h_ctrls (hp (rs_host s)) !! ctrl);
  w ← deref (h_conts (hp (rs_host s)) !! window);
  let kh := c_handle k in
  let win := ct_handle w in
  if negb (ctl_page_size kh =? dma_page_size win) then mret (EINVAL, None)
  else if Z.of_nat (length (dma_ioaddrs win)) <? 2 then mret (ERANGE, None)
  else if addr (dma_vaddr win) =? 0 then mret (EINVAL, None)
  else
    r ← lift (nvm_dma_remap window);
    match r with
    | (0, Some copy) =>
        e ← lift attempt;
        if negb (e =? 0) then lift (nvm_dma_unmap (Some copy));; mret (e, None)
        else
          a ← lift fresh;
          s ← st_get; ct ← deref (h_conts (hp (rs_host s)) !! copy);
          let qmem := ct_handle ct in
          st_modify (fun s => set_cleared s (rs_cleared s ++ [(addr (dma_vaddr qmem), 2 * dma_page_size qmem)]));;
          io0 ← deref (dma_ioaddrs qmem !! 0%nat);
          io1 ← deref (dma_ioaddrs qmem !! 1%nat);
          let acq := snd (nvm_queue_clear blank_queue (ctl_max_qs kh) (ctl_mm_ptr kh) (ctl_dstrd kh) true 0
                            (ctl_page_size kh / sizeof_nvm_cpl_t) (dma_local qmem) (addr (dma_vaddr qmem)) io0) in
          let asq := snd (nvm_queue_clear blank_queue (ctl_max_qs kh) (ctl_mm_ptr kh) (ctl_dstrd kh) false 0
                            (ctl_page_size kh / sizeof_nvm_cmd_t) (dma_local qmem) (DMA_OFFSET qmem 1) io1) in
          st_modify (fun s => set_admins s (<[a := MkAdmin copy acq asq (ctl_timeout kh)]> (rs_admins s)));;
          mret (0, Some a)
    | (status, _) => mret (status, None)
    end.

(** Binding to a remote process; [data] 0 is the null pointer. *)
Definition _nvm_rpc_bind (ref : nat) (data : Z) (release stub : bool) : R Z :=
  err ← lift _nvm_mutex_lock;
  if negb (err =? 0) then mret err
  else
    s ← st_get; r ← deref (rs_refs s !! ref);
    if negb (bool_decide (rf_data r = Null)) || bool_decide (is_Some (rf_stub r)) then
      lift _nvm_mutex_unlock;; mret EINVAL
    else
      st_modify (fun s => upd_ref s ref (MkRef (rf_ctrl r) (rf_handles r)
        (if data =? 0 then Null else RemoteData data)
        (if release then Some remote_release_cb else None) (if stub then Some remote_stub else None)));;
      lift _nvm_mutex_unlock;;
      mret 0.

(** [nvm_raw_ctrl_reset] on the registers of the controller. *)
Definition reset_ctrl (ctrl : nvm_ctrl_t) (acq_addr asq_addr : Z) : R Z :=
  s ← st_get;
  let '(cc, csts) := rs_regs s (length (rs_resets s)) in
  r ← deref (CtrlReset.nvm_raw_ctrl_reset ctrl cc csts acq_addr asq_addr);
  st_modify (fun s => set_resets s (rs_resets s ++ [r]));;
  mret (fst r).

(** The status of the controller reset is not tested. *)
Definition nvm_aq_create (ctrl window : nat) : R (Z * option nat) :=
  r ← _nvm_ref_get (Some ctrl);
  match r with
  | (0, Some ref) =>
      s ← st_get; rr ← deref (rs_refs s !! ref);
      a ← create_admin (rf_ctrl rr) window;
      match a with
      | (0, Some a) =>
          st_modify (fun s => upd_ref s ref (MkRef (rf_ctrl rr) (rf_handles rr) (LocalData a) (Some remove_admin_cb) (Some execute_command_stub)));;
          s ← st_get;
          admin ← deref (rs_admins s !! a);
          qmem ← deref (h_conts (hp (rs_host s)) !! la_qmem admin);
          k ← deref (h_ctrls (hp (rs_host s)) !! ctrl);
          io0 ← deref (dma_ioaddrs (ct_handle qmem) !! 0%nat);
          io1 ← deref (dma_ioaddrs (ct_handle qmem) !! 1%nat);
          reset_ctrl (c_handle k) io0 io1;;
          mret (0, Some ref)
      | (err, _) => _nvm_ref_put (Some ref);; mret (err, None)
      end
  | (err, _) => mret (err, None)
  end.

Definition nvm_aq_destroy (ref : option nat) : R unit :=
  match ref with Some ref => _nvm_ref_put (Some ref) | None => mret tt end.

Definition nvm_rpc_unbind (ref : option nat) : R unit :=
  match ref with Some ref => _nvm_ref_put (Some ref) | None => mret tt end.
End rpc.

(** ** Executing a command *)

Definition NVM_DEFAULT_CID (sq : nvm_queue_t) : Z := u16 (q_tail sq + lnot (q_phase sq) * q_qs sq).

(** [*NVM_CMD_CID(cmd) = cid]: the upper half of the first word. *)
Definition set_cid (cmd : list Z) (cid : Z) : list Z := <[0%nat := dword cmd 0 mod 2 ^ 16 + cid * 2 ^ 16]> cmd.

(** The device: the entry and command it finds and the doorbell value it sees give the memory
    each poll of the completion queue reads, and the memory when the completion is copied. *)
Definition device := Z -> list Z -> option Z -> (nat -> Z -> list Z) * (Z -> list Z).

Definition execute_command (admin : local_admin) (cmd : list Z) (dev : device) : option (Z * option (list Z) * local_admin) :=
  let '(slot, asq) := nvm_sq_enqueue (la_asq admin) in
  match slot with
  | None => Some (EAGAIN, None, admin)
  | Some in_queue_cmd =>
      let local_copy := set_cid cmd (NVM_DEFAULT_CID asq) in
      let '(db, asq) := nvm_sq_submit asq in
      let '(mems, mem) := dev in_queue_cmd local_copy db in
      match nvm_cq_dequeue_block mems (la_acq admin) (la_timeout admin) with
      | None => None
      | Some (None, acq) => Some (ETIME, None, MkAdmin (la_qmem admin) acq asq (la_timeout admin))
      | Some (Some in_queue_cpl, acq) =>
          let asq := nvm_sq_update asq in
          let cpl := mem in_queue_cpl in
          let '(_, acq) := nvm_cq_update acq in
          Some (0, Some cpl, MkAdmin (la_qmem admin) acq asq (la_timeout admin))
      end
  end.

(** Without a completion [cpl] stays as the caller left it. *)
Definition _nvm_local_admin (ref : nat) (cmd : list Z) (dev : device) : R (Z * option (list Z)) :=
  err ← lift _nvm_mutex_lock;
  if negb (err =? 0) then mret (NVM_ERR_PACK None err, None)
  else
    s ← st_get; r ← deref (rs_refs s !! ref);
    match rf_stub r with
    | Some execute_command_stub =>
        match rf_data r with
        | LocalData a =>
            admin ← deref (rs_admins s !! a);
            res ← deref (execute_command admin cmd dev);
            let '(err, cpl, admin) := res in
            st_modify (fun s => set_admins s (<[a := admin]> (rs_admins s)));;
            lift _nvm_mutex_unlock;;
            mret (NVM_ERR_PACK None err, cpl)
        | _ => crash
        end
    | _ => lift _nvm_mutex_unlock;; mret (NVM_ERR_PACK None EINVAL, None)
    end.

(** ** Total correctness *)

Lemma wp_lift {A} (m : M A) (Q : A -> rpc_state -> Prop) s :
  wp m (fun a h => Q a (set_host s h)) (rs_host s) -> wp (lift m) Q s.
Proof. intros (a & h & E & H)%wp_total. eapply wp_eq; [|exact H]. unfold lift. by rewrite E. Qed.

Ltac rwp_step :=
  lazymatch goal with
  | |- wp st_get _ _ => apply wp_st_get
  | |- wp (st_modify _) _ _ => apply wp_st_modify
  | |- wp (lift _) _ _ => apply wp_lift
  | |- _ => wp_step
  end; cbn [rs_host rs_refs rs_admins rs_released rs_unbound rs_regs rs_resets rs_cleared
           set_host set_refs set_admins set_released set_unbound set_resets set_cleared upd_ref].

Ltac rwp_steps := repeat rwp_step.

(** ** Executing a command *)

(** No command is outstanding and both doorbells are up to date. *)
Definition admin_idle (a : local_admin) : Prop :=
  queue_wf (la_asq a) /\ (q_qs (la_asq a) | 0x10000) /\ sq_pending (la_asq a) = [] /\
  q_last (la_asq a) = q_tail (la_asq a) /\ queue_wf (la_acq a).

Lemma nvm_sq_update_rest q :
  q_qs (nvm_sq_update q) = q_qs q /\ q_last (nvm_sq_update q) = q_last q /\ q_tail (nvm_sq_update q) = q_tail q.
Proof. unfold nvm_sq_update. destruct (bool_decide _); [|done]. cbn. by destruct (_ =? _). Qed.

Lemma nvm_cq_update_wf q : queue_wf q -> queue_wf (snd (nvm_cq_update q)).
Proof. intros H. unfold nvm_cq_update. destruct (_ && _); [|done]. unfold queue_wf in *. cbn in *. naive_solver. Qed.

Lemma nvm_cq_dequeue_wf mem q : queue_wf q -> queue_wf (snd (nvm_cq_dequeue mem q)).
Proof.
  intros (? & ? & ? & ? & ? & Hp). unfold nvm_cq_dequeue. destruct (nvm_cq_poll mem q); [|done]. cbn.
  rewrite (u32_id (q_head q + 1)) by word_lia. unfold queue_wf. destruct (Z.eqb_spec (q_head q + 1) (q_qs q)); cbn;
    split_and!; try done; try lia. destruct Hp as [-> | ->]; [by right|by left].
Qed.

Lemma nvm_sq_enqueue_tail q p q' :
  2 <= q_qs q <= 0x10000 -> 0 <= q_tail q < q_qs q -> nvm_sq_enqueue q = (Some p, q') ->
  q_tail q' = (q_tail q + 1) mod q_qs q /\ q_last q' = q_last q.
Proof.
  intros Hq Ht. unfold nvm_sq_enqueue. destruct (_ =? u32 (q_qs q - 1)); [done|].
  rewrite (u32_id (q_tail q + 1)) by word_lia. intros E%(f_equal snd). cbn in E. subst q'.
  destruct (Z.eqb_spec (q_tail q + 1) (q_qs q)) as [e|]; cbn; (split; [|done]).
  - by rewrite e, Z_mod_same_full.
  - rewrite Z.mod_small; lia.
Qed.

(** On an idle queue a command finds a slot and its doorbell announces it. *)
Lemma nvm_sq_enqueue_idle q :
  queue_wf q -> (q_qs q | 0x10000) -> sq_pending q = [] -> q_last q = q_tail q ->
  exists q', nvm_sq_enqueue q = (Some (q_vaddr q + q_es q * q_tail q), q') /\ queue_wf q' /\
    q_qs q' = q_qs q /\ sq_pending q' = [q_tail q] /\ q_tail q' = (q_tail q + 1) mod q_qs q /\ q_last q' = q_last q.
Proof.
  intros Hwf Hd Hp Hl. pose proof (nvm_sq_enqueue_refines q Hwf Hd) as H. unfold fifo_push in H. rewrite Hp in H.
  destruct Hwf as (Hq & Hh & Ht & _). change (Z.of_nat (length [])) with 0 in H.
  destruct (nvm_sq_enqueue q) as [[p|] q'] eqn:E.
  - destruct H as (? & -> & ? & H). exists q'. split_and!; try done.
    + revert H. destruct (_ =? _); [done|]. by intros [= <-].
    + by apply (nvm_sq_enqueue_tail _ _ _ Hq Ht) in E as [? _].
    + by apply (nvm_sq_enqueue_tail _ _ _ Hq Ht) in E as [_ ?].
  - destruct H as [_ H]. revert H. destruct (Z.eqb_spec 0 (q_qs q - 1)); [lia|done].
Qed.

Lemma nvm_sq_submit_rings q :
  queue_wf q -> q_last q <> q_tail q -> nvm_sq_submit q = (Some (q_tail q), set_last q (q_tail q)).
Proof.
  intros (_ & _ & _ & _ & Hdb & _) Hl. unfold nvm_sq_submit.
  by rewrite (proj2 (Z.eqb_neq _ _) Hl), bool_decide_true by done.
Qed.

Lemma next_slot_ne qs t : 2 <= qs -> 0 <= t < qs -> t <> (t + 1) mod qs.
Proof.
  intros Hq Ht. destruct (decide (t + 1 = qs)) as [<-|].
  - rewrite Z_mod_same_full. lia.
  - rewrite Z.mod_small; lia.
Qed.

(** One command on an idle queue pair. *)
Lemma execute_command_spec admin cmd dev :
  admin_idle admin -> 0 <= la_timeout admin -> la_timeout admin * 1000000 < 2 ^ 64 ->
  let sq := la_asq admin in
  let tail := (q_tail sq + 1) mod q_qs sq in
  exists cid err cpl admin',
    execute_command admin cmd dev = Some (err, cpl, admin') /\
    let '(mems, mem) := dev (q_vaddr sq + q_es sq * q_tail sq) (set_cid cmd cid) (Some tail) in
    (err = ETIME /\ cpl = None /\
       forall j, (j <= Z.to_nat (la_timeout admin))%nat -> nvm_cq_poll (mems j) (la_acq admin) = None) \/
    (exists j a, (j <= Z.to_nat (la_timeout admin))%nat /\
       (forall i, (i < j)%nat -> nvm_cq_poll (mems i) (la_acq admin) = None) /\
       nvm_cq_poll (mems j) (la_acq admin) = Some a /\
       err = 0 /\ cpl = Some (mem a) /\ admin_idle admin').
Proof.
  intros (Hs & Hd & Hp & Hl & Hc) H0 Hfit. cbn zeta. pose proof Hs as (Hq & _ & Ht & _).
  destruct (nvm_sq_enqueue_idle _ Hs Hd Hp Hl) as (q' & E & Hq' & Eqs & Hp' & Et & El).
  exists (NVM_DEFAULT_CID q'). unfold execute_command. rewrite E, nvm_sq_submit_rings by
    (done || (rewrite El, Et, Hl; apply next_slot_ne; lia)).
  rewrite <- Et. destruct (dev _ _ _) as [mems mem].
  destruct (dequeue_block_outcome mems (la_acq admin) (la_timeout admin) H0 Hfit)
    as (r & -> & [[-> Hn]|(j & Hj & Hi & -> & Hr)]).
  - eexists _, _, _. split; [done|]. by left.
  - destruct (nvm_cq_poll (mems j) (la_acq admin)) as [a|] eqn:Ea;
      [|by rewrite (nvm_cq_dequeue_None _ _ Ea) in Hr].
    pose proof (nvm_cq_dequeue_Some _ _ _ Ea) as Ef. pose proof (nvm_cq_dequeue_wf (mems j) _ Hc) as Hw.
    destruct (nvm_cq_dequeue (mems j) (la_acq admin)) as [o acq]. cbn in Ef, Hw. subst o.
    pose proof (nvm_cq_update_wf acq Hw) as Hw'. destruct (nvm_cq_update acq) as [db acq'].
    eexists _, _, _. split; [done|]. right. exists j, a. split_and!; try done.
    destruct (nvm_sq_update_refines (set_last q' (q_tail q')) (q_tail (la_asq admin)) []) as (U1 & U2 & _); [done..|].
    destruct (nvm_sq_update_rest (set_last q' (q_tail q'))) as (U3 & U4 & U5). unfold admin_idle. cbn -[nvm_sq_update].
    rewrite U2, U3, U4, U5. cbn. rewrite Eqs. done.
Qed.

(** C24: On an idle admin queue pair [execute_command] never reports a full queue and always
    returns.  It writes the command, under its own identifier, to the slot at the tail and
    rings the doorbell; it returns the completion found by the first successful poll and
    leaves the queue pair idle for the next command, or reports [ETIME] when none of the
    polls of the controller's timeout finds one. *)
Theorem execute_command_completes admin cmd dev :
  admin_idle admin -> 0 <= la_timeout admin -> la_timeout admin * 1000000 < 2 ^ 64 ->
  let sq := la_asq admin in
  let tail := (q_tail sq + 1) mod q_qs sq in
  exists cid err cpl admin',
    execute_command admin cmd dev = Some (err, cpl, admin') /\
    let '(mems, mem) := dev (q_vaddr sq + q_es sq * q_tail sq) (set_cid cmd cid) (Some tail) in
    (err = ETIME /\ cpl = None /\
       forall j, (j <= Z.to_nat (la_timeout admin))%nat -> nvm_cq_poll (mems j) (la_acq admin) = None) \/
    (exists j a, (j <= Z.to_nat (la_timeout admin))%nat /\
       (forall i, (i < j)%nat -> nvm_cq_poll (mems i) (la_acq admin) = None) /\
       nvm_cq_poll (mems j) (la_acq admin) = Some a /\
       err = 0 /\ cpl = Some (mem a) /\ admin_idle admin').
Proof. apply execute_command_spec. Qed.

(** ** Binding handles *)

Definition handle_pair (h : rpc_handle) : Z * Z := (rh_key h, rh_data h).

(** What a server does with the handles of a reference; it removes bound keys only. *)
Inductive handle_op := HInsert (key data : Z) | HRemove (key : Z).

(** Runs the operations; returns the handles accepted by [_nvm_rpc_handle_insert]. *)
Fixpoint handle_ops (ref : nat) (ops : list handle_op) (acc : list (Z * Z)) : R (list (Z * Z)) :=
  match ops with
  | [] => mret acc
  | HInsert key data :: ops =>
      e ← _nvm_rpc_handle_insert ref key data true;
      handle_ops ref ops (if e =? 0 then acc ++ [(key, data)] else acc)
  | HRemove key :: ops =>
      s ← st_get; r ← deref (rs_refs s !! ref);
      if existsb (fun h => rh_key h =? key) (rf_handles r) then
        _nvm_rpc_handle_remove ref key;; handle_ops ref ops acc
      else handle_ops ref ops acc
  end.

Lemma existsb_keys key l : existsb (fun h => rh_key h =? key) l = true <-> key ∈ rh_key <$> l.
Proof.
  rewrite existsb_exists, list_elem_of_fmap. setoid_rewrite <- list_elem_of_In.
  setoid_rewrite Z.eqb_eq. naive_solver.
Qed.

Lemma split_at_spec key l :
  ((key ∉ rh_key <$> l) /\ snd (split_at key l) = []) \/
  exists prev h next, split_at key l = (prev, h :: next) /\ l = prev ++ h :: next /\ rh_key h = key.
Proof.
  induction l as [|h l IH]; cbn; [by left; split; [apply not_elem_of_nil|]|].
  destruct (Z.eqb_spec (rh_key h) key) as [<-|Hne].
  - right. by exists [], h, l.
  - destruct IH as [[Hn Hs]|(prev & h' & next & -> & -> & Hk)].
    + left. destruct (split_at key l). cbn in *. split; [|done]. rewrite not_elem_of_cons. split; [congruence|done].
    + right. by exists (h :: prev), h', next.
Qed.

(** Since [s0], [acc] has been accepted: it has been released, or is bound under distinct keys. *)
Definition accounted (s0 : rpc_state) (ref : nat) (acc : list (Z * Z)) (s : rpc_state) : Prop :=
  exists r rel, rs_refs s !! ref = Some r /\ NoDup (rh_key <$> rf_handles r) /\
    rs_released s = rs_released s0 ++ rel /\ acc ≡ₚ rel ++ (handle_pair <$> rf_handles r).

Lemma handle_insert_spec s0 s ref acc key data :
  accounted s0 ref acc s ->
  wp (_nvm_rpc_handle_insert ref key data true)
    (fun e s' => accounted s0 ref (if e =? 0 then acc ++ [(key, data)] else acc) s') s.
Proof.
  intros (r & rel & Hr & Hn & Hrel & Hp). unfold _nvm_rpc_handle_insert.
  assert (Hsame : forall h, accounted s0 ref acc (set_host s h)) by (intros h; by exists r, rel).
  rwp_steps; [by exists r, rel|apply Hsame|].
  eapply wp_deref; [done|]. rwp_steps; [apply Hsame|].
  exists (with_handles r (rf_handles r ++ [MkHandle key data])), rel. cbn. rewrite lookup_insert_eq.
  rewrite !fmap_app. cbn. split_and!; [done| |done|by rewrite Hp, <- assoc_L by apply _].
  apply list.NoDup_app. split_and!; [done| |apply NoDup_singleton].
  intros x Hx ->%list_elem_of_singleton. apply existsb_keys in Hx. congruence.
Qed.

Lemma handle_remove_spec s0 s ref acc key r :
  accounted s0 ref acc s -> rs_refs s !! ref = Some r -> key ∈ rh_key <$> rf_handles r ->
  wp (_nvm_rpc_handle_remove ref key) (fun _ s' => accounted s0 ref acc s') s.
Proof.
  intros (r' & rel & Hr & Hn & Hrel & Hp) Hr' Hin. rewrite Hr in Hr'. injection Hr' as ->.
  unfold _nvm_rpc_handle_remove. rwp_steps. eapply wp_deref; [done|].
  destruct (split_at_spec key (rf_handles r)) as [[? _]|(prev & h & next & -> & E & <-)]; [done|]. rwp_steps.
  exists (with_handles r (prev ++ next)), (rel ++ [handle_pair h]). cbn. rewrite lookup_insert_eq.
  rewrite E in Hn, Hp. rewrite fmap_app, fmap_cons in Hn. rewrite fmap_app, fmap_cons in Hp. split_and!; [done| | |].
  - rewrite fmap_app. rewrite <- Permutation_middle in Hn. by apply list.NoDup_cons in Hn as [_ ?].
  - by rewrite Hrel, <- app_assoc.
  - rewrite Hp, fmap_app. solve_Permutation.
Qed.

Lemma handle_ops_spec s0 ref ops : forall acc s,
  accounted s0 ref acc s -> wp (handle_ops ref ops acc) (fun acc' s' => accounted s0 ref acc' s') s.
Proof.
  induction ops as [|[key data|key] ops IH]; intros acc s H; cbn; [by rwp_step|..].
  - rwp_step. eapply wp_mono; [by apply handle_insert_spec|]. intros e s' H'. by apply IH.
  - pose proof H as (r & rel & Hr & _). rwp_steps. eapply wp_deref; [done|]. rwp_step; [|by apply IH].
    rwp_step. eapply wp_mono; [eapply handle_remove_spec; [done..|by apply existsb_keys]|]. intros [] s'. apply IH.
Qed.

(** Every binding handle is released exactly once.  Whatever handles a server inserts in
    a reference and removes from it, and whichever allocations fail, keys stay distinct, and
    after [release_handles] the release callbacks have been called for exactly the accepted
    handles, as often as each was accepted. *)
Theorem rpc_handles_released_once s ref r ops :
  rs_refs s !! ref = Some r -> rf_handles r = [] ->
  wp (handle_ops ref ops []) (fun acc s1 =>
    (exists r1, rs_refs s1 !! ref = Some r1 /\ NoDup (rh_key <$> rf_handles r1)) /\
    wp (release_handles (Some ref)) (fun _ s2 => rs_released s2 ≡ₚ rs_released s ++ acc) s1) s.
Proof.
  intros Hr Hh. eapply wp_mono; [apply (handle_ops_spec s)|].
  - exists r, []. rewrite Hh, app_nil_r. split_and!; try done. apply NoDup_nil_2.
  - intros acc s1 (r1 & rel & Hr1 & Hn & Hrel & Hp). split; [by exists r1|]. unfold release_handles. rwp_steps.
    eapply wp_deref; [done|]. rwp_steps. cbn. rewrite Hrel, Hp, <- app_assoc. done.
Qed.

(** Removing a key that is not bound dereferences a null pointer: the list is unlinked
    before the search result is tested. *)
Theorem rpc_handle_remove_missing s ref r key :
  rs_refs s !! ref = Some r -> (key ∉ rh_key <$> rf_handles r) -> _nvm_rpc_handle_remove ref key s = None.
Proof.
  intros Hr Hn. unfold _nvm_rpc_handle_remove, mbind, ST_bind, lift, st_get, deref. cbn. rewrite Hr. cbn.
  destruct (split_at_spec key (rf_handles r)) as [[_ E]|(prev & h & next & _ & E & <-)].
  - destruct (split_at key (rf_handles r)). cbn in E. subst. done.
  - destruct Hn. rewrite E, fmap_app. set_solver.
Qed.

(** ** Lifetime of the admin queue pair *)

(** References and descriptors are objects of the same heap. *)
Definition rpc_below (s : rpc_state) : Prop :=
  forall i, (next (rs_host s) <= i)%nat -> rs_refs s !! i = None /\ rs_admins s !! i = None.

(** [s'] differs from [s] in the host state only, and there not in the heap. *)
Definition unchanged (s s' : rpc_state) : Prop :=
  exists h, s' = set_host s h /\ hp h = hp (rs_host s) /\ (next (rs_host s) <= next h)%nat.

Lemma ref_get_spec s c k :
  h_ctrls (hp (rs_host s)) !! c = Some k -> 1 <= c_count k < 2 ^ 32 - 1 ->
  wp (_nvm_ref_get (Some c)) (fun r s' =>
    (fst r <> 0 /\ snd r = None /\ unchanged s s') \/
    exists ref h, r = (0, Some ref) /\ (next (rs_host s) <= ref < next h)%nat /\
      hp h = add_ref (hp (rs_host s)) c k /\ s' = upd_ref (set_host s h) ref (MkRef c [] Null None None)) s.
Proof.
  intros Hk Hc. unfold _nvm_ref_get. do 2 rwp_step. eapply wp_mono; [by apply ctrl_get_spec|].
  intros o h [-> ->]. rewrite (u32_id (c_count k + 1)) by word_lia. fold (add_ref (hp (rs_host s)) c k). rwp_steps.
  - eapply wp_mono; [by apply (ctrl_put_ref_spec _ (hp (rs_host s)) c k)|]. intros ? ? ->. rwp_steps.
    left. split_and!; [done..|]. eexists. split; [done|]. by split.
  - eapply wp_mono; [by apply (ctrl_put_ref_spec _ (hp (rs_host s)) c k)|]. intros ? ? ->. rwp_steps.
    left. split_and!; [by destruct (Z.eqb_spec e0 0)|done..|]. eexists. split; [done|]. split; cbn; [done|lia].
  - right. eexists _, _. split; [done|]. cbn. split; [|split; [|done]]; cbn; [lia|done].
Qed.

(** The heap with another handle of the mapping behind [ct]. *)
Definition shared (h : heap) (ct : container) (md : map) (x : nat) : heap :=
  add_cont (set_maps h (<[ct_map ct := set_map_count md (m_count md + 1)]> (h_maps h))) x (ct_map ct) (ct_handle ct).

Lemma released_shared h ct md x k :
  h_maps h !! ct_map ct = Some md -> h_conts h !! x = None -> 1 <= m_count md ->
  released (shared h ct md x) x (ct_map ct) (set_map_count md (m_count md + 1)) k = h.
Proof.
  intros Hm Hx Hc. unfold released, shared. cbn. rewrite (proj2 (Z.eqb_neq (m_count md + 1) 1)) by lia.
  rewrite Z.add_simpl_r, insert_insert_eq, delete_insert_id by done.
  replace (set_map_count (set_map_count md _) _) with md by (by destruct md). rewrite (insert_id _ _ md) by done. by destruct h.
Qed.

Section lifetime.
Context (addr : void_ptr -> Z) (blank_queue : nvm_queue_t).
Implicit Types (own : nat -> Z).

(** Releasing the handle that shares a mapping gives the heap back. *)
Lemma unmap_shared_spec own (h0 h : host) w ct md x :
  good own h0 -> h_conts (hp h0) !! w = Some ct -> users (hp h0) (ct_map ct) < 2 ^ 32 - 1 ->
  h_maps (hp h0) !! ct_map ct = Some md -> (next h0 <= x < next h)%nat -> hp h = shared (hp h0) ct md x ->
  wp (nvm_dma_unmap (Some x)) (fun _ h' => h' = upd h (hp h0)) h.
Proof.
  intros G Hw Hu Hm Hx E. pose proof G as [O B Bd].
  destruct (ok_h _ _ O _ _ Hw) as (md' & k & va & r & Hm' & Hk & _). rewrite Hm in Hm'. injection Hm' as <-.
  assert (G' : good own h) by (by apply (good_share own h0 h w ct x md)).
  eapply wp_mono; [apply (nvm_dma_unmap_spec own h x (MkCont (ct_map ct) (ct_handle ct))
    (set_map_count md (m_count md + 1)) k); [done|by rewrite E; try apply lookup_insert_eq..]|].
  intros _ ? ->. cbn. rewrite E, released_shared; [done|done|eapply below_cont; [done|lia]|].
  destruct (om_count _ (ok_m _ _ O) _ _ Hm); lia.
Qed.

(** The descriptor [create_admin] fills in. *)
Definition admin_for (k : nvm_ctrl_t) (d : nvm_dma_t) (x : nat) (io0 io1 : Z) : local_admin :=
  MkAdmin x
    (snd (nvm_queue_clear blank_queue (ctl_max_qs k) (ctl_mm_ptr k) (ctl_dstrd k) true 0
            (ctl_page_size k / sizeof_nvm_cpl_t) (dma_local d) (addr (dma_vaddr d)) io0))
    (snd (nvm_queue_clear blank_queue (ctl_max_qs k) (ctl_mm_ptr k) (ctl_dstrd k) false 0
            (ctl_page_size k / sizeof_nvm_cmd_t) (dma_local d) (addr (dma_vaddr d) + dma_page_size d * 1) io1))
    (ctl_timeout k).

Lemma create_admin_spec own s c k w ct :
  good own (rs_host s) -> h_ctrls (hp (rs_host s)) !! c = Some k -> h_conts (hp (rs_host s)) !! w = Some ct ->
  users (hp (rs_host s)) (ct_map ct) < 2 ^ 32 - 1 ->
  wp (create_admin addr blank_queue c w) (fun r s' =>
    (fst r <> 0 /\ snd r = None /\ unchanged s s') \/
    exists a h x md io0 io1, r = (0, Some a) /\ (next (rs_host s) <= a < next h)%nat /\ (next (rs_host s) <= x < next h)%nat /\
      h_maps (hp (rs_host s)) !! ct_map ct = Some md /\ hp h = shared (hp (rs_host s)) ct md x /\
      dma_ioaddrs (ct_handle ct) !! 0%nat = Some io0 /\ dma_ioaddrs (ct_handle ct) !! 1%nat = Some io1 /\
      s' = set_admins (set_cleared (set_host s h)
             (rs_cleared s ++ [(addr (dma_vaddr (ct_handle ct)), 2 * dma_page_size (ct_handle ct))]))
             (<[a := admin_for (c_handle k) (ct_handle ct) x io0 io1]> (rs_admins s))) s.
Proof.
  intros G Hk Hw Hu. unfold create_admin. rwp_steps. eapply wp_deref; [done|]. rwp_step. eapply wp_deref; [done|].
  assert (Hsame : unchanged s s) by (exists (rs_host s); by destruct s).
  rwp_steps; [by left..|]. eapply wp_mono; [by eapply nvm_dma_remap_spec|].
  intros [e o] h (Hn & [(He & Ho & E)|(x & [= -> ->] & Hx & md & Hm & E)]); cbn in *.
  - assert (unchanged s (set_host s h)) by (by exists h).
    destruct e; [done|by rwp_step; left..].
  - fold (shared (hp (rs_host s)) ct md x) in E. rwp_steps.
    + eapply wp_mono; [eapply (unmap_shared_spec own (rs_host s)); done|]. intros ? ? ->. rwp_steps. left.
      split_and!; [by destruct (Z.eqb_spec e 0)|done|]. eexists. split; [done|]. split; [done|cbn; lia].
    + eapply wp_deref; [rewrite E; apply lookup_insert_eq|]. do 3 rwp_step.
      destruct (dma_ioaddrs (ct_handle ct)) as [|io0 [|io1 l]] eqn:El; [done..|].
      eapply wp_deref; [cbn; by rewrite El|]. rwp_step. eapply wp_deref; [cbn; by rewrite El|]. rwp_steps.
      right. exists (next h), (MkHost (hp h) (S (next h)) (list.tail (faults h))), x, md, io0, io1.
      split_and!; try done; cbn; lia.
Qed.

Lemma good_add_ref own (h0 h : host) c k :
  good own h0 -> h_ctrls (hp h0) !! c = Some k -> c_count k < 2 ^ 32 - 1 -> hp h = add_ref (hp h0) c k ->
  (next h0 <= next h)%nat -> good (<[c := own c + 1]> own) h.
Proof.
  intros [O B [Bc Bm]] Hk Hc E Hn. split; rewrite E.
  - by apply ok_add_ref.
  - by apply (below_add_ref (next h0)).
  - split; cbn; [|done]. intros c' k'. rewrite lookup_insert_Some. intros [[_ <-]|[_ ?]]; [cbn; lia|by eapply Bc].
Qed.

(** The same heap, references, descriptors and callbacks. *)
Definition same_rpc (s s' : rpc_state) : Prop :=
  hp (rs_host s') = hp (rs_host s) /\ rs_refs s' = rs_refs s /\ rs_admins s' = rs_admins s /\
  rs_released s' = rs_released s /\ rs_unbound s' = rs_unbound s.

(** Dropping a reference that holds nothing but the controller. *)
Lemma ref_put_plain_spec s0 s c k ref :
  h_ctrls (hp (rs_host s0)) !! c = Some k -> 1 <= c_count k < 2 ^ 32 - 1 -> rs_refs s0 !! ref = None ->
  hp (rs_host s) = add_ref (hp (rs_host s0)) c k -> rs_refs s = <[ref := MkRef c [] Null None None]> (rs_refs s0) ->
  rs_admins s = rs_admins s0 -> rs_released s = rs_released s0 -> rs_unbound s = rs_unbound s0 ->
  wp (_nvm_ref_put (Some ref)) (fun _ s' => same_rpc s0 s' /\ next (rs_host s') = next (rs_host s)) s.
Proof.
  intros Hk Hc Hr E E1 E2 E3 E4. unfold _nvm_ref_put, release_handles, release_binding. rwp_steps.
  eapply wp_deref; [rewrite E1; apply lookup_insert_eq|]. rwp_steps.
  eapply wp_deref; [apply lookup_insert_eq|]. unfold with_handles. cbn [rf_ctrl rf_handles rf_data rf_release rf_stub].
  rwp_steps. eapply wp_mono; [by apply (ctrl_put_ref_spec _ (hp (rs_host s0)) c k)|]. intros ? ? ->. rwp_steps.
  split; [|done]. split_and!; cbn; try done; [|by rewrite app_nil_r]. by rewrite E1, insert_insert_eq, delete_insert_id.
Qed.

(** Dropping the reference of a local queue pair. *)
Lemma ref_put_local_spec own s0 s c k ref a la w ct md :
  good own (rs_host s0) -> h_ctrls (hp (rs_host s0)) !! c = Some k -> 1 <= c_count k < 2 ^ 32 - 1 ->
  rs_refs s0 !! ref = None -> rs_admins s0 !! a = None ->
  h_conts (hp (rs_host s0)) !! w = Some ct -> users (hp (rs_host s0)) (ct_map ct) < 2 ^ 32 - 1 ->
  h_maps (hp (rs_host s0)) !! ct_map ct = Some md ->
  (next (rs_host s0) <= la_qmem la < next (rs_host s))%nat ->
  hp (rs_host s) = shared (add_ref (hp (rs_host s0)) c k) ct md (la_qmem la) ->
  rs_refs s = <[ref := MkRef c [] (LocalData a) (Some remove_admin_cb) (Some execute_command_stub)]> (rs_refs s0) ->
  rs_admins s = <[a := la]> (rs_admins s0) -> rs_released s = rs_released s0 -> rs_unbound s = rs_unbound s0 ->
  wp (_nvm_ref_put (Some ref)) (fun _ s' => same_rpc s0 s') s.
Proof.
  intros G Hk Hc Hr Ha Hw Hu Hm Hx E E1 E2 E3 E4. unfold _nvm_ref_put, release_handles, release_binding, remove_admin.
  rwp_steps. eapply wp_deref; [rewrite E1; apply lookup_insert_eq|]. rwp_steps.
  eapply wp_deref; [apply lookup_insert_eq|]. unfold with_handles. cbn [rf_ctrl rf_handles rf_data rf_release rf_stub].
  rwp_steps. eapply wp_deref; [rewrite E2; apply lookup_insert_eq|]. rwp_steps.
  set (h1 := MkHost (add_ref (hp (rs_host s0)) c k) (next (rs_host s0)) (faults (rs_host s0))).
  assert (G1 : good (<[c := own c + 1]> own) h1) by (eapply (good_add_ref own (rs_host s0)); done || lia).
  eapply wp_mono; [by apply (unmap_shared_spec (<[c := own c + 1]> own) h1 _ w ct md)|]. intros ? ? ->. rwp_steps.
  eapply wp_mono; [by apply (ctrl_put_ref_spec _ (hp (rs_host s0)) c k)|]. intros ? ? ->. rwp_steps.
  split_and!; cbn; try done; [|by rewrite E2, delete_insert_id|by rewrite app_nil_r].
  by rewrite E1, insert_insert_eq, delete_insert_id.
Qed.

(** Page sizes for which both queues fit in a page and in the controller's limit. *)
Definition queues_fit (k : nvm_ctrl_t) : Prop :=
  (ctl_page_size k / sizeof_nvm_cmd_t | 0x10000) /\ 2 <= ctl_page_size k / sizeof_nvm_cmd_t /\
  ctl_page_size k / sizeof_nvm_cpl_t <= 0x10000 /\ ctl_page_size k / sizeof_nvm_cpl_t <= ctl_max_qs k.

Lemma admin_for_idle k d x io0 io1 : queues_fit k -> 0 <= ctl_page_size k -> admin_idle (admin_for k d x io0 io1).
Proof.
  intros (Hd & H1 & H2 & H3) H0. unfold admin_idle, admin_for. cbn [la_asq la_acq].
  assert (ctl_page_size k / sizeof_nvm_cmd_t <= ctl_page_size k / sizeof_nvm_cpl_t)
    by (apply Z.div_le_compat_l; [lia|by unfold sizeof_nvm_cmd_t, sizeof_nvm_cpl_t]).
  unfold nvm_queue_clear. rewrite !(proj2 (Z.ltb_ge _ 2)), !Z.gtb_ltb, !(proj2 (Z.ltb_ge 65536 _)),
    !(proj2 (Z.ltb_ge (ctl_max_qs k) _)) by lia. cbn.
  unfold queue_wf. cbn. split_and!; try done; try lia; auto.
Qed.

(** A reference to the local queue pair [a]. *)
Definition local_ref (c a : nat) : nvm_admin_reference :=
  MkRef c [] (LocalData a) (Some remove_admin_cb) (Some execute_command_stub).

(** The effect of a successful [nvm_aq_create] on the heap and on the controller: the queue
    memory is shared, its first two pages are cleared, and the controller is reset with
    their bus addresses as the admin queues. *)
Definition aq_started (s : rpc_state) (c : nat) (k : controller) (ct : container) (la : local_admin) (s1 : rpc_state) : Prop :=
  exists md io0 io1 r, h_maps (hp (rs_host s)) !! ct_map ct = Some md /\
    (next (rs_host s) <= la_qmem la < next (rs_host s1))%nat /\
    hp (rs_host s1) = shared (add_ref (hp (rs_host s)) c k) ct md (la_qmem la) /\
    dma_ioaddrs (ct_handle ct) !! 0%nat = Some io0 /\ dma_ioaddrs (ct_handle ct) !! 1%nat = Some io1 /\
    rs_cleared s1 = rs_cleared s ++ [(addr (dma_vaddr (ct_handle ct)), 2 * dma_page_size (ct_handle ct))] /\
    (let '(cc, csts) := rs_regs s (length (rs_resets s)) in
     CtrlReset.nvm_raw_ctrl_reset (c_handle k) cc csts io0 io1 = Some r) /\
    rs_resets s1 = rs_resets s ++ [r].

(** What [nvm_aq_create] adds. *)
Lemma aq_create_spec own s c k w ct :
  good own (rs_host s) -> rpc_below s -> usable own (hp (rs_host s)) c -> h_ctrls (hp (rs_host s)) !! c = Some k ->
  h_conts (hp (rs_host s)) !! w = Some ct -> users (hp (rs_host s)) (ct_map ct) < 2 ^ 32 - 1 ->
  wp (nvm_aq_create addr blank_queue c w) (fun r s1 => (next (rs_host s) <= next (rs_host s1))%nat /\
    ((fst r <> 0 /\ snd r = None /\ same_rpc s s1) \/
     exists ref a la, r = (0, Some ref) /\ rs_refs s !! ref = None /\ rs_admins s !! a = None /\
       h_conts (hp (rs_host s)) !! la_qmem la = None /\ (ref < next (rs_host s1))%nat /\ (a < next (rs_host s1))%nat /\
       rs_refs s1 = <[ref := local_ref c a]> (rs_refs s) /\ rs_admins s1 = <[a := la]> (rs_admins s) /\
       rs_released s1 = rs_released s /\ rs_unbound s1 = rs_unbound s /\
       good (<[c := own c + 1]> own) (rs_host s1) /\
       h_conts (hp (rs_host s1)) = <[la_qmem la := ct]> (h_conts (hp (rs_host s))) /\
       h_ctrls (hp (rs_host s1)) = <[c := with_count k (c_count k + 1)]> (h_ctrls (hp (rs_host s))) /\
       la_timeout la = ctl_timeout (c_handle k) /\ (queues_fit (c_handle k) -> admin_idle la) /\
       aq_started s c k ct la s1)) s.
Proof.
  intros G B V Hk Hw Hu. destruct (usable_ctrl _ _ _ G V) as (k' & Hk' & Hc & _ & Hps). rewrite Hk in Hk'. injection Hk' as <-.
  unfold nvm_aq_create. rwp_step. eapply wp_mono; [by apply ref_get_spec|].
  intros [e o] s1 [(He & Ho & h & -> & E & Hn)|(ref & h1 & [= -> ->] & Href & E1 & ->)]; cbn in *.
  - subst o. destruct e; [done|by rwp_step; split; [done|left]..].
  - rwp_steps. eapply wp_deref; [apply lookup_insert_eq|]. rwp_step. cbn [rf_ctrl rf_handles].
    assert (G1 : good (<[c := own c + 1]> own) h1) by (eapply (good_add_ref own (rs_host s)); done || lia).
    destruct (B ref) as [Br _]; [lia|].
    eapply wp_mono; [apply (create_admin_spec (<[c := own c + 1]> own) _ c (with_count k (c_count k + 1)) w ct);
      cbn; [done|rewrite E1..]; [apply lookup_insert_eq|done|done]|].
    intros [e o] s2 [(He & Ho & h & -> & E & Hn)|(a & h2 & x & md & io0 & io1 & [= -> ->] & Ha & Hx & Hm & E & Hio0 & Hio1 & ->)]; cbn in *.
    + set (s2 := set_host _ h) in *.
      assert (wp (_nvm_ref_put (Some ref)) (fun _ s' => same_rpc s s' /\ next (rs_host s') = next (rs_host s2)) s2) as Hput
        by (apply (ref_put_plain_spec s s2 c k ref); cbn; rewrite ?E; done).
      destruct e; [done|by rwp_step; eapply wp_mono; [apply Hput|]; intros ? ? [? Hn']; rwp_step; rewrite Hn'; split; [cbn; lia|left]..].
    + destruct (B a) as [_ Ba]; [lia|]. set (la := admin_for _ _ _ _ _) in *.
      assert (Ec : h_conts (hp h2) !! x = Some ct) by (rewrite E, E1; cbn; rewrite lookup_insert_eq; by destruct ct).
      assert (Ek : h_ctrls (hp h2) !! c = Some (with_count k (c_count k + 1))) by (rewrite E, E1; apply lookup_insert_eq).
      rwp_steps. eapply wp_deref; [apply lookup_insert_eq|]. rwp_step. eapply wp_deref; [exact Ec|]. rwp_step.
      eapply wp_deref; [exact Ek|]. rwp_step. eapply wp_deref; [exact Hio0|]. rwp_step. eapply wp_deref; [exact Hio1|].
      rwp_step. unfold reset_ctrl. rwp_steps. destruct (rs_regs s (length (rs_resets s))) as [cc csts] eqn:Er.
      destruct (CtrlReset.ctrl_reset_returns (c_handle k) cc csts io0 io1) as [r Hr]. rwp_step. eapply wp_deref; [exact Hr|]. rwp_steps.
      split; [lia|]. right. exists ref, a, la. split_and!; try done; cbn; try lia.
      * eapply below_cont; [apply (g_below _ _ G)|lia].
      * by rewrite insert_insert_eq.
      * apply (good_share _ h1 h2 w ct x md G1); [by rewrite E1|by rewrite E1|done|lia|done].
      * rewrite E, E1. cbn. by destruct ct.
      * by rewrite E, E1.
      * intros F. apply admin_for_idle; [done|]. cbn. lia.
      * exists md, io0, io1, r. rewrite Er. rewrite E1 in Hm. split_and!; cbn; try done; [lia|lia|by rewrite E, E1].
Qed.

(** What [nvm_aq_destroy] removes, whatever happened in between. *)
Lemma aq_destroy_spec own s c ref a la ct :
  good own (rs_host s) -> 1 <= own c -> rs_refs s !! ref = Some (local_ref c a) -> rs_admins s !! a = Some la ->
  h_conts (hp (rs_host s)) !! la_qmem la = Some ct ->
  wp (nvm_aq_destroy (Some ref)) (fun _ s1 =>
    good (<[c := own c - 1]> own) (rs_host s1) /\ next (rs_host s1) = next (rs_host s) /\
    h_conts (hp (rs_host s1)) = delete (la_qmem la) (h_conts (hp (rs_host s))) /\
    rs_refs s1 = delete ref (rs_refs s) /\ rs_admins s1 = delete a (rs_admins s) /\
    rs_released s1 = rs_released s /\ rs_unbound s1 = rs_unbound s) s.
Proof.
  intros G Ho Hr Ha Hx. destruct (ok_h _ _ (g_ok _ _ G) _ _ Hx) as (md & k0 & va & r & Hm & Hk0 & _).
  unfold nvm_aq_destroy, _nvm_ref_put, release_handles, release_binding, remove_admin. rwp_steps.
  eapply wp_deref; [exact Hr|]. rwp_steps. eapply wp_deref; [apply lookup_insert_eq|].
  unfold with_handles, local_ref. cbn [rf_ctrl rf_handles rf_data rf_release rf_stub]. rwp_steps.
  eapply wp_deref; [exact Ha|]. rwp_steps. eapply wp_mono; [by eapply nvm_dma_unmap_spec|]. intros _ h1 ->. rwp_steps.
  pose proof (good_released _ _ _ _ _ _ G Hx Hm Hk0) as G1. set (h1 := upd _ _) in *.
  assert (Hc1 : h_conts (hp h1) = delete (la_qmem la) (h_conts (hp (rs_host s)))).
  { unfold h1, released. cbn. by destruct (_ =? _). }
  destruct (proj2 (oc_own _ _ (ok_c _ _ (g_ok _ _ G1)) c)) as [k Hk]; [lia|].
  destruct (oc_count _ _ (ok_c _ _ (g_ok _ _ G1)) _ _ Hk) as [_ ?]. pose proof (proj1 (g_bounded _ _ G1) _ _ Hk).
  eapply wp_mono; [apply (ctrl_put_any_spec h1 c k Hk); [lia|by eapply oc_dev; [apply G1|]]|].
  intros _ ? ->. rwp_steps. split_and!; cbn; try done; [by apply good_dropped|by rewrite drop_ref_conts| |by rewrite app_nil_r].
  by rewrite delete_insert_eq.
Qed.

(** C22: Creating and destroying a local admin queue pair is a round trip.  [nvm_aq_create]
    either fails and leaves everything as it was, whichever primitive fails, or yields a
    reference whose queue memory is a handle of its own of the window's mapping, so it
    outlives the window; the first two pages of that memory have been cleared and the
    controller has been reset with their bus addresses as its admin queues; the queues are
    idle when a page of completions fits the controller's limit ([queues_fit], which the code
    does not check); [nvm_aq_destroy] then gives back the heap, the counters included. *)
Theorem aq_create_destroy own s c k w ct :
  good own (rs_host s) -> rpc_below s -> usable own (hp (rs_host s)) c -> h_ctrls (hp (rs_host s)) !! c = Some k ->
  h_conts (hp (rs_host s)) !! w = Some ct -> users (hp (rs_host s)) (ct_map ct) < 2 ^ 32 - 1 ->
  wp (nvm_aq_create addr blank_queue c w) (fun r s1 =>
    match snd r with
    | Some ref => fst r = 0 /\
        (exists a la,
           rs_refs s1 !! ref = Some (MkRef c [] (LocalData a) (Some remove_admin_cb) (Some execute_command_stub)) /\
           rs_admins s1 !! a = Some la /\ la_qmem la <> w /\ h_conts (hp (rs_host s1)) !! la_qmem la = Some ct /\
           (queues_fit (c_handle k) -> admin_idle la) /\ aq_started s c k ct la s1) /\
        wp (nvm_aq_destroy (Some ref)) (fun _ s2 => same_rpc s s2) s1
    | None => fst r <> 0 /\ same_rpc s s1
    end) s.
Proof.
  intros G B V Hk Hw Hu. destruct (usable_ctrl _ _ _ G V) as (k' & Hk' & Hc & _ & _). rewrite Hk in Hk'. injection Hk' as <-.
  eapply wp_mono; [by apply (aq_create_spec own s c k w ct)|].
  intros [e o] s1 (_ & [(He & Ho & S)|(ref & a & la & [= -> ->] & Hr & Ha & Hx & _ & _ & Er & Ea & E3 & E4 & _ & Ec & _ & _ & I & A)]); cbn in *.
  { by subst o. }
  pose proof A as (md & io0 & io1 & r & Hm & Hq & E & _). split_and!; [done| |].
  - exists a, la. rewrite Er, Ea, Ec, !lookup_insert_eq. split_and!; try done. congruence.
  - by apply (ref_put_local_spec own s s1 c k ref a la w ct md).
Qed.

(** When the controller allows fewer entries than a page of completions holds,
    [create_admin] succeeds and leaves the completion queue descriptor uninitialised. *)
Theorem create_admin_uninitialised own s c k w ct :
  good own (rs_host s) -> h_ctrls (hp (rs_host s)) !! c = Some k -> h_conts (hp (rs_host s)) !! w = Some ct ->
  users (hp (rs_host s)) (ct_map ct) < 2 ^ 32 - 1 ->
  ctl_max_qs (c_handle k) < ctl_page_size (c_handle k) / sizeof_nvm_cpl_t ->
  wp (create_admin addr blank_queue c w) (fun r s' =>
    forall a, snd r = Some a -> exists la, fst r = 0 /\ rs_admins s' !! a = Some la /\ la_acq la = blank_queue) s.
Proof.
  intros G Hk Hw Hu Hq. eapply wp_mono; [by eapply create_admin_spec|].
  intros r s' [(_ & -> & _)|(a & h & x & md & io0 & io1 & -> & _ & _ & _ & _ & _ & _ & ->)]; [done|]. cbn.
  intros ? [= <-]. eexists. split; [done|]. split; [apply lookup_insert_eq|]. cbn. unfold nvm_queue_clear.
  rewrite Z.gtb_ltb, (Z.gtb_ltb _ (ctl_max_qs _)), (proj2 (Z.ltb_lt (ctl_max_qs _) _)) by done. by rewrite orb_true_r.
Qed.
End lifetime.

(** ** Witnesses *)

Definition example_queue (es : Z) : nvm_queue_t := MkQueue 0 es 64 0 0 0 1 true 0 0 0 0 (Some 4096) 0 0.
Definition example_admin : local_admin := MkAdmin 0 (example_queue 16) (example_queue 64) 2.

(** A device that answers at the second poll. *)
Definition example_device : device := fun _ _ _ =>
  (fun j _ => if (j =? 0)%nat then [0; 0; 0; 0] else [0; 0; 0; 2 ^ 16], fun _ => [7; 0; 0; 2 ^ 16]).

Lemma execute_command_completes_witness :
  execute_command example_admin (repeat 0 16) example_device <> None /\
  exists cid err cpl admin',
    execute_command example_admin (repeat 0 16) example_device = Some (err, cpl, admin') /\
    let '(mems, mem) := example_device 0 (set_cid (repeat 0 16) cid) (Some 1) in
    (err = ETIME /\ cpl = None /\
       forall j, (j <= Z.to_nat 2)%nat -> nvm_cq_poll (mems j) (example_queue 16) = None) \/
    (exists j a, (j <= Z.to_nat 2)%nat /\
       (forall i, (i < j)%nat -> nvm_cq_poll (mems i) (example_queue 16) = None) /\
       nvm_cq_poll (mems j) (example_queue 16) = Some a /\
       err = 0 /\ cpl = Some (mem a) /\ admin_idle admin').
Proof.
  split; [vm_compute; done|].
  apply (execute_command_completes example_admin (repeat 0 16) example_device); [|done..].
  assert (forall es, es = 64 \/ es = 16 -> queue_wf (example_queue es))
    by (intros es H; unfold queue_wf; cbn; split_and!; try done; try lia; auto).
  unfold admin_idle. cbn. split_and!; [by auto|by exists 1024|done|done|by auto].
Defined.

Definition example_rpc : rpc_state :=
  MkRpc (snd (example_state 2)) (<[9%nat := MkRef 2 [] Null None None]> ∅) ∅ [] [] (fun _ => (0x460001, fun i => if (i =? 0)%nat then 0 else 1)) [] [].

Lemma rpc_handles_released_once_witness :
  wp (handle_ops 9 [HInsert 1 10; HInsert 1 11; HRemove 1; HInsert 2 20] []) (fun acc s1 =>
    (exists r1, rs_refs s1 !! 9%nat = Some r1 /\ NoDup (rh_key <$> rf_handles r1)) /\
    wp (release_handles (Some 9%nat)) (fun _ s2 => rs_released s2 ≡ₚ rs_released example_rpc ++ acc) s1) example_rpc.
Proof. apply (rpc_handles_released_once example_rpc 9 (MkRef 2 [] Null None None)); reflexivity. Defined.

Lemma rpc_handle_remove_missing_witness : _nvm_rpc_handle_remove 9 5 example_rpc = None.
Proof.
  apply (rpc_handle_remove_missing example_rpc 9 (MkRef 2 [] Null None None)); [reflexivity|apply not_elem_of_nil].
Defined.

Definition example_addr (p : void_ptr) : Z := match p with Alloc n => 4096 * Z.of_nat n | User a => a end.

(** The example's controller before and after [nvm_dma_create]. *)
Definition example_ctrl : controller :=
  MkController 2 DEVICE_TYPE_IOCTL (Some 1%nat) true (init_handle example_cap 4096 8192 NVM_CTRL_MEM_MINSIZE).

Definition example_rpc0 : rpc_state := MkRpc (snd (example_state 2)) ∅ ∅ [] [] (fun _ => (0x460001, fun i => if (i =? 0)%nat then 0 else 1)) [] [].

Lemma aq_create_destroy_witness :
  wp (nvm_aq_create example_addr (example_queue 16) 2 6) (fun r s1 =>
      match snd r with
      | Some ref => fst r = 0 /\
          (exists a la,
             rs_refs s1 !! ref = Some (MkRef 2 [] (LocalData a) (Some remove_admin_cb) (Some execute_command_stub)) /\
             rs_admins s1 !! a = Some la /\ la_qmem la <> 6%nat /\
             h_conts (hp (rs_host s1)) !! la_qmem la = Some example_cont /\
             (queues_fit (c_handle example_ctrl) -> admin_idle la) /\
             aq_started example_addr example_rpc0 2 example_ctrl example_cont la s1) /\
          wp (nvm_aq_destroy (Some ref)) (fun _ s2 => same_rpc example_rpc0 s2) s1
      | None => fst r <> 0 /\ same_rpc example_rpc0 s1
      end) example_rpc0.
Proof.
  apply (aq_create_destroy example_addr (example_queue 16) (fst (example_state 2)) example_rpc0).
  - apply (api_reachable_good (K := example_kernel) ∅ []), example_reachable. lia.
  - split; apply lookup_empty.
  - split; vm_compute; done.
  - vm_compute; reflexivity.
  - vm_compute; reflexivity.
  - vm_compute; reflexivity.
Defined.
End Rpc.
