(* ===== verification/Admin.v ===== *)
(** The admin command set: [src/src/admin.cpp] and the client side of
    [src/src/rpc.cpp] ([nvm_raw_rpc]).

    Commands go through the stub of an admin reference.  The stub, and the device
    behind it, are a parameter: it takes the command, and gives an error number, the
    completion and the next state [W] of the world, which holds the page the device writes
    identify data to. *)
From Stdlib Require Import ZArith Lia List Bool.
From stdpp Require Import base list numbers.
From S2P Require Import Prelude NvmUtil NvmCmd NvmError NvmQueue Host.
Import Host.

Import ListNotations.
Local Open Scope Z_scope.

Module Admin.

(** ** Command formats *)

Definition zero_cmd : list Z := repeat 0 16.
Definition zero_cpl : list Z := repeat 0 4.

Definition admin_cq_create (cmd : list Z) (cq : nvm_queue_t) (ioaddr : Z) (need_prp : bool) : list Z :=
  let cmd := nvm_cmd_header cmd 0 NVM_ADMIN_CREATE_CQ 0 in
  let cmd := nvm_cmd_data_ptr cmd ioaddr 0 in
  let cmd := <[10%nat := Z.lor (u32 (Z.shiftl (u32 (q_qs cq - 1)) 16)) (q_no cq)]> cmd in
  <[11%nat := Z.b2z (negb need_prp)]> cmd.

Definition admin_cq_delete (cmd : list Z) (cq : nvm_queue_t) : list Z :=
  let cmd := nvm_cmd_header cmd 0 NVM_ADMIN_DELETE_CQ 0 in
  <[10%nat := Z.land (q_no cq) 0xffff]> cmd.

Definition admin_sq_create (cmd : list Z) (sq cq : nvm_queue_t) (ioaddr : Z) (need_prp : bool) : list Z :=
  let cmd := nvm_cmd_header cmd 0 NVM_ADMIN_CREATE_SQ 0 in
  let cmd := nvm_cmd_data_ptr cmd ioaddr 0 in
  let cmd := <[10%nat := Z.lor (u32 (Z.shiftl (u32 (q_qs sq - 1)) 16)) (q_no sq)]> cmd in
  <[11%nat := Z.lor (u32 (Z.shiftl (q_no cq) 16)) (Z.b2z (negb need_prp))]> cmd.

Definition admin_sq_delete (cmd : list Z) (sq : nvm_queue_t) : list Z :=
  let cmd := nvm_cmd_header cmd 0 NVM_ADMIN_DELETE_SQ 0 in
  <[10%nat := Z.land (q_no sq) 0xffff]> cmd.

Definition admin_current_num_queues (cmd : list Z) (set : bool) (n_cqs n_sqs : Z) : list Z :=
  let cmd := nvm_cmd_header cmd 0 (if set then NVM_ADMIN_SET_FEATURES else NVM_ADMIN_GET_FEATURES) 0 in
  let cmd := nvm_cmd_data_ptr cmd 0 0 in
  let cmd := <[10%nat := Z.lor (Z.shiftl 0 8) 0x07]> cmd in
  <[11%nat := if set then u32 (Z.lor (Z.shiftl (n_cqs - 1) 16) (n_sqs - 1)) else 0]> cmd.

Definition admin_identify_ctrl (cmd : list Z) (ioaddr : Z) : list Z :=
  let cmd := nvm_cmd_header cmd 0 NVM_ADMIN_IDENTIFY 0 in
  let cmd := nvm_cmd_data_ptr cmd ioaddr 0 in
  <[11%nat := 0]> (<[10%nat := Z.lor (Z.shiftl 0 16) 0x01]> cmd).

Definition admin_identify_ns (cmd : list Z) (ns_id ioaddr : Z) : list Z :=
  let cmd := nvm_cmd_header cmd 0 NVM_ADMIN_IDENTIFY ns_id in
  let cmd := nvm_cmd_data_ptr cmd ioaddr 0 in
  <[11%nat := 0]> (<[10%nat := Z.lor (Z.shiftl 0 16) 0x00]> cmd).

Definition admin_get_log_page (cmd : list Z) (ns_id ioaddr log_id log_offset : Z) : list Z :=
  let cmd := nvm_cmd_header cmd 0 NVM_ADMIN_GET_LOG_PAGE ns_id in
  let cmd := nvm_cmd_data_ptr cmd ioaddr 0 in
  <[13%nat := u32 (Z.shiftr log_offset 32)]> (<[12%nat := u32 log_offset]>
    (<[11%nat := 0]> (<[10%nat := Z.lor (Z.shiftl 1024 16) log_id]> cmd))).

Definition admin_format_nvm (cmd : list Z) (ns_id ses lbaf mset pi pil : Z) : list Z :=
  let cmd := nvm_cmd_header cmd 0 NVM_ADMIN_FORMAT_NVM ns_id in
  let cmd := nvm_cmd_data_ptr cmd 0 0 in
  let dword10 := 0 in
  let dword10 := Z.lor dword10 (Z.land lbaf 0x0f) in
  let dword10 := Z.lor dword10 (Z.shiftl (Z.land mset 0x01) 4) in
  let dword10 := Z.lor dword10 (Z.shiftl (Z.land pi 0x07) 5) in
  let dword10 := Z.lor dword10 (Z.shiftl (Z.land pil 0x01) 8) in
  let dword10 := Z.lor dword10 (Z.shiftl (Z.land ses 0x07) 9) in
  <[10%nat := dword10]> cmd.

(** ** Information structures *)

Record nvm_ctrl_info := MkCtrlInfo {
  ci_nvme_version : Z; ci_page_size : Z; ci_db_stride : Z; ci_timeout : Z; ci_contiguous : bool; ci_max_entries : Z;
  ci_pci_vendor : list Z; ci_serial_no : list Z; ci_model_no : list Z; ci_firmware : list Z;
  ci_max_data_size : Z; ci_max_data_pages : Z; ci_sq_entry_size : Z; ci_cq_entry_size : Z;
  ci_max_out_cmds : Z; ci_max_n_ns : Z
}.

Record nvm_ns_info := MkNsInfo {
  ni_ns_id : Z; ni_size : Z; ni_capacity : Z; ni_utilization : Z; ni_lba_data_size : Z; ni_metadata_size : Z
}.

(** A little-endian word of [n] bytes at offset [off]. *)
Fixpoint le (bytes : list Z) (off n : nat) : Z :=
  match n with O => 0 | S n => nth off bytes 0 + 256 * le bytes (S off) n end.

Definition memcpy_from (bytes : list Z) (off n : nat) : list Z := take n (drop off bytes).

(** ** References *)

Section admin.
Context {W : Type}.
(** The 4 KiB page at the pointer passed with the command, and clearing it. *)
Context (page : W -> list Z) (clear : W -> W).
(** The addresses of buffers. *)
Context (addr : void_ptr -> Z).

Record aq_ref := MkAqRef { ar_ctrl : nvm_ctrl_t; ar_stub : option (W -> list Z -> list Z -> Z * list Z * W) }.

Definition nvm_raw_rpc (ref : aq_ref) (cmd cpl : list Z) (w : W) : Z * list Z * W :=
  match ar_stub ref with
  | None => (NVM_ERR_PACK None EINVAL, cpl, w)
  | Some stub => let '(err, cpl, w) := stub w cmd cpl in (NVM_ERR_PACK (Some cpl) err, cpl, w)
  end.

(** [None] is the null reference. *)
Definition nvm_ctrl_from_aq_ref (ref : option aq_ref) : option nvm_ctrl_t := ar_ctrl <$> ref.

(** ** Identify *)

(** [info], [ptr]: whether the pointers are set; [cap], [ver]: the controller's registers. *)
Definition nvm_admin_ctrl_info (ref : aq_ref) (cap ver : Z) (info ptr : bool) (ioaddr : Z) (w : W)
    : Z * option nvm_ctrl_info * W :=
  if negb info || negb ptr || (ioaddr =? 0) then (NVM_ERR_PACK None EINVAL, None, w)
  else
    let w := clear w in
    let ctrl := ar_ctrl ref in
    let command := admin_identify_ctrl zero_cmd ioaddr in
    let '(err, completion, w) := nvm_raw_rpc ref command zero_cpl w in
    if negb (nvm_ok err) then (err, None, w)
    else
      let bytes := page w in
      let max_data_size := u64 (u64 (Z.shiftl 1 (nth 77 bytes 0)) * u64 (Z.shiftl 1 (12 + CAP_MPSMIN cap))) in
      (NVM_ERR_PACK None 0,
       Some {| ci_nvme_version := u32 ver; ci_page_size := ctl_page_size ctrl;
               ci_db_stride := u64 (Z.shiftl 1 (ctl_dstrd ctrl)); ci_timeout := u64 (CAP_TO cap * 500);
               ci_contiguous := negb (CAP_CQR cap =? 0); ci_max_entries := u16 (CAP_MQES cap + 1);
               ci_pci_vendor := memcpy_from bytes 0 4; ci_serial_no := memcpy_from bytes 4 20;
               ci_model_no := memcpy_from bytes 24 40; ci_firmware := memcpy_from bytes 64 8;
               ci_max_data_size := max_data_size; ci_max_data_pages := max_data_size / ctl_page_size ctrl;
               ci_sq_entry_size := Z.shiftl 1 (RB (nth 512 bytes 0) 3 0);
               ci_cq_entry_size := Z.shiftl 1 (RB (nth 513 bytes 0) 3 0);
               ci_max_out_cmds := le bytes 514 2; ci_max_n_ns := le bytes 516 4 |}, w).

Definition nvm_admin_ns_info (ref : aq_ref) (info : bool) (ns_id : Z) (ptr : bool) (ioaddr : Z) (w : W)
    : Z * option nvm_ns_info * W :=
  if negb info || negb ptr || (ioaddr =? 0) then (NVM_ERR_PACK None EINVAL, None, w)
  else
    let w := clear w in
    let command := admin_identify_ns zero_cmd ns_id ioaddr in
    let '(err, completion, w) := nvm_raw_rpc ref command zero_cpl w in
    if negb (nvm_ok err) then (err, None, w)
    else
      let bytes := page w in
      let format_idx := u8 (RB (nth 26 bytes 0) 3 0) in
      let lba_format := le bytes (128 + 4 * Z.to_nat format_idx) 4 in
      (NVM_ERR_PACK None 0,
       Some {| ni_ns_id := ns_id; ni_size := le bytes 0 8; ni_capacity := le bytes 8 8; ni_utilization := le bytes 16 8;
               ni_lba_data_size := Z.shiftl 1 (RB lba_format 23 16); ni_metadata_size := RB lba_format 15 0 |}, w).

Definition nvm_admin_get_log_page (ref : aq_ref) (ns_id ioaddr log_id log_offset : Z) (w : W) : Z * W :=
  let w := clear w in
  let command := admin_get_log_page zero_cmd ns_id ioaddr log_id log_offset in
  let '(err, completion, w) := nvm_raw_rpc ref command zero_cpl w in
  if negb (nvm_ok err) then (err, w) else (NVM_ERR_PACK None 0, w).

Definition nvm_admin_format (ref : aq_ref) (ns_id ses lbaf mset pi pil : Z) (w : W) : Z * W :=
  let command := admin_format_nvm zero_cmd ns_id ses lbaf mset pi pil in
  let '(err, completion, w) := nvm_raw_rpc ref command zero_cpl w in
  if negb (nvm_ok err) then (err, w) else (NVM_ERR_PACK None 0, w).

(** ** Queues *)

Definition n_ioaddrs (dma : nvm_dma_t) : Z := Z.of_nat (length (dma_ioaddrs dma)).
Definition NVM_DMA_OFFSET (dma : nvm_dma_t) (pageno : Z) : Z := addr (dma_vaddr dma) + dma_page_size dma * pageno.

(** The queue the caller passes is returned; it is unchanged unless the command succeeds. *)
Definition nvm_admin_cq_create (ref : option aq_ref) (cq : nvm_queue_t) (id : Z) (dma : nvm_dma_t)
    (offset qs : Z) (need_prp : bool) (w : W) : Z * nvm_queue_t * W :=
  if id =? 0 then (NVM_ERR_PACK None EINVAL, cq, w)
  else
    match ref with
    | None => (NVM_ERR_PACK None ENOTTY, cq, w)
    | Some ref =>
        let ctrl := ar_ctrl ref in
        let qs := if qs =? 0 then MIN (dma_page_size dma / sizeof_nvm_cpl_t) (ctl_max_qs ctrl) else qs in
        if (qs <? 2) || (qs >? 0x10000) || (qs >? ctl_max_qs ctrl) then (NVM_ERR_PACK None EINVAL, cq, w)
        else
          let n_pages := NVM_CQ_PAGES (ctl_page_size ctrl) qs in
          if addr (dma_vaddr dma) =? 0 then (NVM_ERR_PACK None EINVAL, cq, w)
          else if (n_pages =? 0) || (n_pages >? n_ioaddrs dma) || (offset >? n_ioaddrs dma)
                  || (u64 (offset + n_pages) >? n_ioaddrs dma)
          then (NVM_ERR_PACK None EINVAL, cq, w)
          else
            let ioaddr := nth (Z.to_nat offset) (dma_ioaddrs dma) 0 in
            let '(err, queue) := nvm_queue_clear cq (ctl_max_qs ctrl) (ctl_mm_ptr ctrl) (ctl_dstrd ctrl)
                                   true id qs (dma_local dma) (NVM_DMA_OFFSET dma offset) ioaddr in
            if negb (err =? 0) then (NVM_ERR_PACK None err, cq, w)
            else
              let command := admin_cq_create zero_cmd queue ioaddr need_prp in
              let '(err, completion, w) := nvm_raw_rpc ref command zero_cpl w in
              if negb (nvm_ok err) then (err, cq, w) else (NVM_ERR_PACK None 0, queue, w)
    end.

Definition set_db (q : nvm_queue_t) (db : option Z) : nvm_queue_t :=
  MkQueue (q_no q) (q_es q) (q_qs q) (q_head q) (q_tail q) (q_last q) (q_phase q) (q_local q)
    (q_head_lock q) (q_tail_lock q) (q_in_ticket q) (q_cid_ticket q) db (q_vaddr q) (q_ioaddr q).

Definition nvm_admin_cq_delete (ref : aq_ref) (cq : nvm_queue_t) (w : W) : Z * nvm_queue_t * W :=
  match q_db cq with
  | None => (NVM_ERR_PACK None EINVAL, cq, w)
  | Some _ =>
      let command := admin_cq_delete zero_cmd cq in
      let '(err, completion, w) := nvm_raw_rpc ref command zero_cpl w in
      if negb (nvm_ok err) then (err, cq, w) else (NVM_ERR_PACK None 0, set_db cq None, w)
  end.

Definition nvm_admin_sq_create (ref : option aq_ref) (sq cq : nvm_queue_t) (id : Z) (dma : nvm_dma_t)
    (offset qs : Z) (need_prp : bool) (w : W) : Z * nvm_queue_t * W :=
  if id =? 0 then (NVM_ERR_PACK None EINVAL, sq, w)
  else
    match ref with
    | None => (NVM_ERR_PACK None ENOTTY, sq, w)
    | Some ref =>
        let ctrl := ar_ctrl ref in
        let qs := if qs =? 0 then MIN (dma_page_size dma / sizeof_nvm_cmd_t) (ctl_max_qs ctrl) else qs in
        if (qs <? 2) || (qs >? 0x10000) || (qs >? ctl_max_qs ctrl) then (NVM_ERR_PACK None EINVAL, sq, w)
        else
          let n_pages := NVM_SQ_PAGES (ctl_page_size ctrl) qs in
          if addr (dma_vaddr dma) =? 0 then (NVM_ERR_PACK None EINVAL, sq, w)
          else if (n_pages =? 0) || (n_pages >? n_ioaddrs dma) || (offset >? n_ioaddrs dma)
                  || (u64 (offset + n_pages) >? n_ioaddrs dma)
          then (NVM_ERR_PACK None EINVAL, sq, w)
          else
            let ioaddr := nth (Z.to_nat offset) (dma_ioaddrs dma) 0 in
            let '(err, queue) := nvm_queue_clear sq (ctl_max_qs ctrl) (ctl_mm_ptr ctrl) (ctl_dstrd ctrl)
                                   false id qs (dma_local dma) (NVM_DMA_OFFSET dma offset) ioaddr in
            if negb (err =? 0) then (NVM_ERR_PACK None err, sq, w)
            else
              let command := admin_sq_create zero_cmd queue cq ioaddr need_prp in
              let '(err, completion, w) := nvm_raw_rpc ref command zero_cpl w in
              if negb (nvm_ok err) then (err, sq, w) else (NVM_ERR_PACK None 0, queue, w)
    end.

(** [cq = None] is the null pointer. *)
Definition nvm_admin_sq_delete (ref : aq_ref) (sq : nvm_queue_t) (cq : option nvm_queue_t) (w : W) : Z * nvm_queue_t * W :=
  match cq ≫= q_db with
  | None => (NVM_ERR_PACK None EINVAL, sq, w)
  | Some _ =>
      match q_db sq with
      | None => (NVM_ERR_PACK None EINVAL, sq, w)
      | Some _ =>
          let command := admin_sq_delete zero_cmd sq in
          let '(err, completion, w) := nvm_raw_rpc ref command zero_cpl w in
          if negb (nvm_ok err) then (err, sq, w) else (NVM_ERR_PACK None 0, set_db sq None, w)
      end
  end.

(** ** Numbers of queues *)

(** Returns the status and the values left in [n_cqs] and [n_sqs]. *)
Definition nvm_admin_get_num_queues (ref : aq_ref) (n_cqs n_sqs : Z) (w : W) : Z * Z * Z * W :=
  let command := admin_current_num_queues zero_cmd false 0 0 in
  let '(err, completion, w) := nvm_raw_rpc ref command zero_cpl w in
  if negb (nvm_ok err) then (err, n_cqs, n_sqs, w)
  else
    let n_sqs := u16 (Z.shiftr (dword completion 0) 16 + 1) in
    let n_cqs := u16 (Z.land (dword completion 0) 0xffff + 1) in
    (NVM_ERR_PACK None 0, n_cqs, n_sqs, w).

Definition nvm_admin_request_num_queues (ref : aq_ref) (n_cqs n_sqs : Z) (w : W) : Z * Z * Z * W :=
  if (n_cqs =? 0) || (n_sqs =? 0) then (NVM_ERR_PACK None EINVAL, n_cqs, n_sqs, w)
  else
    let command := admin_current_num_queues zero_cmd true n_cqs n_sqs in
    let '(err, completion, w) := nvm_raw_rpc ref command zero_cpl w in
    if negb (err =? 0) then (err, n_cqs, n_sqs, w)
    else
      let n_sqs := u16 (Z.shiftr (dword completion 0) 16 + 1) in
      let n_cqs := u16 (Z.land (dword completion 0) 0xffff + 1) in
      (NVM_ERR_PACK None 0, n_cqs, n_sqs, w).

Definition nvm_admin_set_num_queues (ref : aq_ref) (n_cqs n_sqs : Z) (w : W) : Z * W :=
  let '(err, n_cqs, n_sqs, w) := nvm_admin_request_num_queues ref n_cqs n_sqs w in (err, w).
End admin.
(** ** The controller's reading of the commands *)

(** Create I/O queue (NVMe base specification): opcode, queue, number of entries, base address,
    physically contiguous, completion queue. *)
Record create_queue := MkCreate {
  cr_opcode : Z; cr_qid : Z; cr_entries : Z; cr_base : Z; cr_contiguous : bool; cr_cqid : Z
}.

Definition decode_create (cmd : list Z) : create_queue :=
  {| cr_opcode := dword cmd 0 mod 2 ^ 8;
     cr_qid := dword cmd 10 mod 2 ^ 16;
     cr_entries := dword cmd 10 / 2 ^ 16 + 1;
     cr_base := dword cmd 6 + 2 ^ 32 * dword cmd 7;
     cr_contiguous := Z.odd (dword cmd 11);
     cr_cqid := dword cmd 11 / 2 ^ 16 |}.

Lemma split_word64 a : is_word 64 a -> u32 a + 2 ^ 32 * u32 (Z.shiftr a 32) = a.
Proof.
  intros Ha. rewrite Z.shiftr_div_pow2 by lia. unfold u32, wrap, is_word in *.
  rewrite (Z.mod_small (a / 2 ^ 32)); [pose proof (Z.div_mod a (2 ^ 32)); lia|].
  split; [apply Z.div_pos; lia|apply Z.div_lt_upper_bound; lia].
Qed.

(** A 16-bit field above another. *)
Lemma pack16 hi lo : is_word 16 hi -> is_word 16 lo ->
  Z.lor (u32 (Z.shiftl hi 16)) lo = hi * 2 ^ 16 + lo.
Proof.
  intros H1 H2. unfold is_word in *. rewrite u32_id by (rewrite Z.shiftl_mul_pow2 by lia; unfold is_word; lia).
  apply lor_shiftl_add; lia.
Qed.

Lemma unpack16 hi lo : is_word 16 lo -> (hi * 2 ^ 16 + lo) mod 2 ^ 16 = lo /\ (hi * 2 ^ 16 + lo) / 2 ^ 16 = hi.
Proof.
  unfold is_word. intros H. split.
  - rewrite Z.add_comm, Z.mod_add by lia. apply Z.mod_small. lia.
  - rewrite Z.add_comm, Z.div_add by lia. rewrite Z.div_small by lia. lia.
Qed.

Lemma admin_cq_create_decode q ioaddr need_prp :
  2 <= q_qs q <= 0x10000 -> is_word 16 (q_no q) -> is_word 64 ioaddr ->
  decode_create (admin_cq_create zero_cmd q ioaddr need_prp) =
  MkCreate 5 (q_no q) (q_qs q) ioaddr (negb need_prp) 0.
Proof.
  intros Hqs Hno Hio. unfold decode_create, admin_cq_create. cbn -[Z.pow Z.div Z.modulo Z.shiftl Z.shiftr Z.lor u32 Z.mul Z.add].
  rewrite (u32_id (q_qs q - 1)) by (unfold is_word; lia).
  rewrite (pack16 (q_qs q - 1)) by (done || unfold is_word; lia). destruct (unpack16 (q_qs q - 1) (q_no q) Hno) as [-> ->].
  rewrite split_word64 by done. f_equal; [lia|by destruct need_prp..].
Qed.

Lemma admin_sq_create_decode q cq ioaddr need_prp :
  2 <= q_qs q <= 0x10000 -> is_word 16 (q_no q) -> is_word 16 (q_no cq) -> is_word 64 ioaddr ->
  decode_create (admin_sq_create zero_cmd q cq ioaddr need_prp) =
  MkCreate 1 (q_no q) (q_qs q) ioaddr (negb need_prp) (q_no cq).
Proof.
  intros Hqs Hno Hcq Hio. unfold decode_create, admin_sq_create. cbn -[Z.pow Z.div Z.modulo Z.shiftl Z.shiftr Z.lor u32 Z.mul Z.add].
  rewrite (u32_id (q_qs q - 1)) by (unfold is_word; lia).
  assert (Hb : is_word 16 (Z.b2z (negb need_prp))) by (destruct need_prp; unfold is_word; cbn; lia).
  rewrite (pack16 (q_qs q - 1)), (pack16 (q_no cq)) by (done || unfold is_word; lia).
  destruct (unpack16 (q_qs q - 1) (q_no q) Hno) as [-> ->].
  destruct (unpack16 (q_no cq) (Z.b2z (negb need_prp))) as [_ ->]; [done|].
  rewrite split_word64 by done. f_equal; [lia|].
  rewrite Z.odd_add, Z.odd_mul. by destruct need_prp; rewrite andb_false_r.
Qed.

(** ** Creating and deleting queues *)

(** The pages of a queue hold its entries. *)
Lemma pages_hold es ps qs :
  0 < es -> 0 < ps -> (es | ps) -> 1 <= qs -> es * qs <= ps * ((qs - 1) * es / ps + 1).
Proof.
  intros He Hp [k ->] Hq. assert (0 < k) by nia.
  rewrite Z.div_mul_cancel_r by lia. pose proof (Z.div_mod (qs - 1) k ltac:(lia)).
  pose proof (Z.mod_pos_bound (qs - 1) k ltac:(lia)). nia.
Qed.

Section queues.
Context {W : Type} (addr : void_ptr -> Z).
Implicit Types (ref : aq_ref (W := W)) (w : W).

(** One creating call for both kinds of queue. *)
Definition create_any (is_cq : bool) ref (old cq : nvm_queue_t) (id : Z) (dma : nvm_dma_t)
    (offset qs : Z) (need_prp : bool) w : Z * nvm_queue_t * W :=
  if is_cq then nvm_admin_cq_create addr (Some ref) old id dma offset qs need_prp w
  else nvm_admin_sq_create addr (Some ref) old cq id dma offset qs need_prp w.

(** A controller handle and a DMA window as the library makes them. *)
Definition ctrl_wf (k : nvm_ctrl_t) : Prop := 0 < ctl_page_size k /\ (64 | ctl_page_size k).
Definition window_wf (d : nvm_dma_t) : Prop :=
  Forall (is_word 64) (dma_ioaddrs d) /\ n_ioaddrs d < 2 ^ 32.

Lemma err_pack_zero cpl err : NVM_ERR_PACK cpl err = 0 -> err = 0.
Proof. unfold NVM_ERR_PACK. destruct (Z.eqb_spec err 0); [done|]. cbn. intros; lia. Qed.

Lemma raw_rpc_ok ref cmd cpl w cpl' w' :
  nvm_raw_rpc ref cmd cpl w = (0, cpl', w') -> exists stub, ar_stub ref = Some stub /\ stub w cmd cpl = (0, cpl', w').
Proof.
  unfold nvm_raw_rpc. destruct (ar_stub ref) as [stub|]; [|by intros [= ]]. intros E. exists stub. split; [done|].
  destruct (stub w cmd cpl) as [[err c] w1]. injection E as E -> ->. by rewrite (err_pack_zero _ _ E).
Qed.

(** The descriptor a successful call fills in. *)
Definition new_queue (is_cq : bool) (k : nvm_ctrl_t) (id : Z) (dma : nvm_dma_t) (offset qs : Z) (q : nvm_queue_t) : Prop :=
  q_no q = id /\ q_qs q = qs /\ q_head q = 0 /\ q_tail q = 0 /\ q_phase q = 1 /\ is_Some (q_db q) /\
  q_es q = (if is_cq then sizeof_nvm_cpl_t else sizeof_nvm_cmd_t) /\ 2 <= qs <= 65536 /\ qs <= ctl_max_qs k /\
  let n := if is_cq then NVM_CQ_PAGES (ctl_page_size k) qs else NVM_SQ_PAGES (ctl_page_size k) qs in
  0 < n <= n_ioaddrs dma /\ u64 (offset + n) <= n_ioaddrs dma.

Lemma pages_pos ps qs : 0 < ps -> 0 <= NVM_CQ_PAGES ps qs /\ 0 <= NVM_SQ_PAGES ps qs.
Proof.
  intros Hp. unfold NVM_CQ_PAGES, NVM_SQ_PAGES, sizeof_nvm_cpl_t, sizeof_nvm_cmd_t.
  pose proof (u16_range (qs - 1)) as [? ?].
  split; apply Z.add_nonneg_nonneg; try lia; apply Z.div_pos; lia.
Qed.

Lemma cq_create_inv ref old id dma offset qs need_prp w q w' :
  0 < ctl_page_size (ar_ctrl ref) ->
  nvm_admin_cq_create addr (Some ref) old id dma offset qs need_prp w = (0, q, w') ->
  exists qs' cpl, ((qs <> 0 -> qs' = qs) /\ q_vaddr q = NVM_DMA_OFFSET addr dma offset /\ q_ioaddr q = nth (Z.to_nat offset) (dma_ioaddrs dma) 0) /\
    new_queue true (ar_ctrl ref) id dma offset qs' q /\
    nvm_raw_rpc ref (admin_cq_create zero_cmd q (nth (Z.to_nat offset) (dma_ioaddrs dma) 0) need_prp) zero_cpl w = (0, cpl, w').
Proof.
  intros Hps E. unfold nvm_admin_cq_create in E. destruct (id =? 0); [by injection E|]. cbv zeta in E.
  match type of E with context [if qs =? 0 then ?a else qs] => set (qs' := if qs =? 0 then a else qs) in * end.
  destruct ((qs' <? 2) || (qs' >? 65536) || (qs' >? ctl_max_qs (ar_ctrl ref))) eqn:Eq; [by injection E|].
  destruct (addr _ =? 0); [by injection E|].
  match type of E with context [if ?b then _ else _] => destruct b eqn:Eb; [by injection E|] end.
  unfold nvm_queue_clear in E. rewrite Eq in E. cbn -[nvm_raw_rpc admin_cq_create Z.pow] in E.
  destruct (nvm_raw_rpc _ _ _ _) as [[st cpl] w1] eqn:Er.
  destruct (nvm_ok st) eqn:Est; cbn in E; [|injection E as -> ->; by cbn in Est].
  apply Z.eqb_eq in Est as ->. injection E as <- <-. exists qs', cpl.
  split; [split; [unfold qs'; by destruct (Z.eqb_spec qs 0)|done]|]. split; [|exact Er].
  destruct (pages_pos (ctl_page_size (ar_ctrl ref)) qs' Hps). unfold new_queue. cbn [q_no q_qs q_head q_tail q_phase q_db q_es].
  split_and!; try done; try lia.
Qed.

Lemma sq_create_inv ref old cq id dma offset qs need_prp w q w' :
  0 < ctl_page_size (ar_ctrl ref) ->
  nvm_admin_sq_create addr (Some ref) old cq id dma offset qs need_prp w = (0, q, w') ->
  exists qs' cpl, ((qs <> 0 -> qs' = qs) /\ q_vaddr q = NVM_DMA_OFFSET addr dma offset /\ q_ioaddr q = nth (Z.to_nat offset) (dma_ioaddrs dma) 0) /\
    new_queue false (ar_ctrl ref) id dma offset qs' q /\
    nvm_raw_rpc ref (admin_sq_create zero_cmd q cq (nth (Z.to_nat offset) (dma_ioaddrs dma) 0) need_prp) zero_cpl w = (0, cpl, w').
Proof.
  intros Hps E. unfold nvm_admin_sq_create in E. destruct (id =? 0); [by injection E|]. cbv zeta in E.
  match type of E with context [if qs =? 0 then ?a else qs] => set (qs' := if qs =? 0 then a else qs) in * end.
  destruct ((qs' <? 2) || (qs' >? 65536) || (qs' >? ctl_max_qs (ar_ctrl ref))) eqn:Eq; [by injection E|].
  destruct (addr _ =? 0); [by injection E|].
  match type of E with context [if ?b then _ else _] => destruct b eqn:Eb; [by injection E|] end.
  unfold nvm_queue_clear in E. rewrite Eq in E. cbn -[nvm_raw_rpc admin_sq_create Z.pow] in E.
  destruct (nvm_raw_rpc _ _ _ _) as [[st cpl] w1] eqn:Er.
  destruct (nvm_ok st) eqn:Est; cbn in E; [|injection E as -> ->; by cbn in Est].
  apply Z.eqb_eq in Est as ->. injection E as <- <-. exists qs', cpl.
  split; [split; [unfold qs'; by destruct (Z.eqb_spec qs 0)|done]|]. split; [|exact Er].
  destruct (pages_pos (ctl_page_size (ar_ctrl ref)) qs' Hps). unfold new_queue. cbn [q_no q_qs q_head q_tail q_phase q_db q_es].
  split_and!; try done; try lia.
Qed.

(** The entries of a new queue lie inside the window. *)
Lemma new_queue_fits is_cq k id dma offset qs q :
  new_queue is_cq k id dma offset qs q -> 0 <= offset < 2 ^ 32 -> ctrl_wf k -> n_ioaddrs dma < 2 ^ 32 ->
  queue_wf q /\ exists n, q_es q * q_qs q <= ctl_page_size k * n /\ offset + n <= n_ioaddrs dma.
Proof.
  intros (? & Hq & Hh & Ht & Hph & [db Hdb] & Hes & Hqs & _ & Hn & Hfit) Hoff [Hps Hdiv] Hlen. split.
  - unfold queue_wf. rewrite Hq, Hh, Ht, Hph, Hes, Hdb. split_and!; try lia; try done; destruct is_cq; auto.
  - eexists. split; [|rewrite u64_id in Hfit; [exact Hfit|unfold is_word; lia]].
    rewrite Hq, Hes. assert (16 | ctl_page_size k) by (destruct Hdiv as [z ->]; exists (4 * z); lia).
    destruct is_cq; unfold NVM_CQ_PAGES, NVM_SQ_PAGES; rewrite u16_id by (unfold is_word; lia); apply pages_hold; done || lia.
Qed.

(** Creating a queue.  When [nvm_admin_cq_create] or [nvm_admin_sq_create] succeeds, exactly
    one command was sent, the controller reads it as the creation of this queue (number, size,
    base address, completion queue), and the caller's descriptor is empty, in phase 1, and
    lies inside the DMA window it was given. *)
Theorem admin_queue_create_ok is_cq ref old cq id dma offset qs need_prp w q w' :
  is_word 16 id -> is_word 16 (q_no cq) -> 0 <= offset < 2 ^ 32 -> 0 <= qs ->
  ctrl_wf (ar_ctrl ref) -> window_wf dma ->
  create_any is_cq ref old cq id dma offset qs need_prp w = (0, q, w') ->
  queue_wf q /\ q_no q = id /\ q_head q = 0 /\ q_tail q = 0 /\ q_phase q = 1 /\ q_qs q <= ctl_max_qs (ar_ctrl ref) /\
  (exists n, q_es q * q_qs q <= ctl_page_size (ar_ctrl ref) * n /\ offset + n <= n_ioaddrs dma) /\
  exists stub cmd cpl, ar_stub ref = Some stub /\ stub w cmd zero_cpl = (0, cpl, w') /\
    decode_create cmd = MkCreate (if is_cq then 5 else 1) id (q_qs q) (nth (Z.to_nat offset) (dma_ioaddrs dma) 0)
                          (negb need_prp) (if is_cq then 0 else q_no cq).
Proof.
  intros Hid Hcq Hoff Hqs [Hps Hdiv] [Hw Hn] E.
  assert (Hio : is_word 64 (nth (Z.to_nat offset) (dma_ioaddrs dma) 0)).
  { rewrite nth_lookup. destruct (_ !! _) as [a|] eqn:Ea; [|unfold is_word; cbn; lia]. rewrite Forall_lookup in Hw. by eapply Hw. }
  unfold create_any in E. destruct is_cq;
    [apply cq_create_inv in E as (qs' & cpl & _ & Hq & Er)|apply sq_create_inv in E as (qs' & cpl & _ & Hq & Er)]; try done;
    apply raw_rpc_ok in Er as (stub & Hs & Er);
    (destruct (new_queue_fits _ _ _ _ _ _ _ Hq Hoff (conj Hps Hdiv) Hn) as [Hwf Hfit]);
    destruct Hq as (Hno & Hq & ? & ? & ? & _ & _ & Hr & ? & _);
    (split_and!; [done|done|done|done|done|congruence|done|]);
    do 3 eexists; (split_and!; [exact Hs|exact Er|]).
  - rewrite admin_cq_create_decode, Hno; [done|congruence..|done].
  - rewrite admin_sq_create_decode, Hno; [done|congruence..|done|done].
Qed.

(** Refused queues.  A reserved queue number, a size outside the controller's limits or a
    window that does not reach the queue gives [EINVAL] before any command is sent, and no
    failing call touches the caller's descriptor. *)
Theorem admin_queue_create_refuses is_cq ref old cq id dma offset qs need_prp w st q w' :
  ctrl_wf (ar_ctrl ref) -> 0 <= offset < 2 ^ 32 -> n_ioaddrs dma < 2 ^ 32 ->
  create_any is_cq ref old cq id dma offset qs need_prp w = (st, q, w') ->
  (st <> 0 -> q = old) /\
  (id = 0 \/ qs = 1 \/ qs > 65536 \/ qs > ctl_max_qs (ar_ctrl ref) \/ n_ioaddrs dma <= offset \/
   addr (dma_vaddr dma) = 0 -> st = EINVAL /\ w' = w).
Proof.
  intros [Hps Hdiv] Hoff Hn E. unfold create_any in E. assert (Hlen : 0 <= n_ioaddrs dma) by (unfold n_ioaddrs; lia).
  destruct is_cq; [unfold nvm_admin_cq_create in E|unfold nvm_admin_sq_create in E].
  - destruct (id =? 0) eqn:Eid; [by injection E as <- <- <-|]. cbv zeta in E.
    destruct (_ || _ || _) eqn:Eq in E; [by injection E as <- <- <-|].
    destruct (addr _ =? 0) eqn:Ea; [by injection E as <- <- <-|].
    set (qs' := if qs =? 0 then _ else qs) in *.
    destruct (pages_pos (ctl_page_size (ar_ctrl ref)) qs' Hps) as [Hp _].
    destruct (_ || _ || _ || _) eqn:Eb in E; [by injection E as <- <- <-|].
    assert (Hno : ~ (id = 0 \/ qs = 1 \/ qs > 65536 \/ qs > ctl_max_qs (ar_ctrl ref) \/ n_ioaddrs dma <= offset \/
      addr (dma_vaddr dma) = 0)).
    { rewrite u64_id in Eb by (unfold is_word; lia). unfold qs' in *. destruct (Z.eqb_spec qs 0); lia. }
    unfold nvm_queue_clear in E. fold qs' in E. rewrite Eq in E. cbn -[nvm_raw_rpc admin_cq_create Z.pow] in E.
    destruct (nvm_raw_rpc _ _ _ _) as [[st' cpl] w1]. split; [|by intros ?%Hno].
    destruct (nvm_ok st') eqn:Est; cbn in E; injection E as <- <- <-; done.
  - destruct (id =? 0) eqn:Eid; [by injection E as <- <- <-|]. cbv zeta in E.
    destruct (_ || _ || _) eqn:Eq in E; [by injection E as <- <- <-|].
    destruct (addr _ =? 0) eqn:Ea; [by injection E as <- <- <-|].
    set (qs' := if qs =? 0 then _ else qs) in *.
    destruct (pages_pos (ctl_page_size (ar_ctrl ref)) qs' Hps) as [_ Hp].
    destruct (_ || _ || _ || _) eqn:Eb in E; [by injection E as <- <- <-|].
    assert (Hno : ~ (id = 0 \/ qs = 1 \/ qs > 65536 \/ qs > ctl_max_qs (ar_ctrl ref) \/ n_ioaddrs dma <= offset \/
      addr (dma_vaddr dma) = 0)).
    { rewrite u64_id in Eb by (unfold is_word; lia). unfold qs' in *. destruct (Z.eqb_spec qs 0); lia. }
    unfold nvm_queue_clear in E. fold qs' in E. rewrite Eq in E. cbn -[nvm_raw_rpc admin_sq_create Z.pow] in E.
    destruct (nvm_raw_rpc _ _ _ _) as [[st' cpl] w1]. split; [|by intros ?%Hno].
    destruct (nvm_ok st') eqn:Est; cbn in E; injection E as <- <- <-; done.
Qed.

(** A queue is deleted at most once: a successful delete clears the doorbell pointer, and
    every later delete is refused with [EINVAL] and sends nothing. *)
Theorem admin_queue_delete_once ref q cq w q' w' w2 :
  nvm_admin_cq_delete ref q w = (0, q', w') \/ nvm_admin_sq_delete ref q cq w = (0, q', w') ->
  nvm_admin_cq_delete ref q' w2 = (EINVAL, q', w2) /\ nvm_admin_sq_delete ref q' cq w2 = (EINVAL, q', w2).
Proof.
  assert (forall q, q_db q = None ->
    nvm_admin_cq_delete ref q w2 = (EINVAL, q, w2) /\ nvm_admin_sq_delete ref q cq w2 = (EINVAL, q, w2)) as L.
  { intros p Hp. unfold nvm_admin_cq_delete, nvm_admin_sq_delete. rewrite Hp. split; [done|]. by destruct (cq ≫= q_db). }
  intros E. apply L. unfold nvm_admin_cq_delete, nvm_admin_sq_delete in E. destruct E as [E|E].
  - destruct (q_db q); [|by injection E].
    destruct (nvm_raw_rpc _ _ _ _) as [[st cpl] w1]. destruct (nvm_ok st) eqn:Est; cbn in E.
    + by injection E as <- _.
    + injection E as -> _ _. done.
  - destruct (cq ≫= q_db); [|by injection E]. destruct (q_db q); [|by injection E].
    destruct (nvm_raw_rpc _ _ _ _) as [[st cpl] w1]. destruct (nvm_ok st) eqn:Est; cbn in E.
    + by injection E as <- _.
    + injection E as -> _ _. done.
Qed.

(** A controller that grants what [Set Features] asks for: it answers with the requested numbers in
    the format of the request (completion queues in the upper half). *)
Definition granting (w : W) (cmd cpl : list Z) : Z * list Z * W := (0, <[0%nat := dword cmd 11]> cpl, w).

(** The numbers of queues come back exchanged: when the controller grants the request,
    [nvm_admin_request_num_queues] stores the number of submission queues in [n_cqs] and the
    number of completion queues in [n_sqs]. *)
Theorem num_queues_exchanged k n_cqs n_sqs w :
  1 <= n_cqs < 2 ^ 16 -> 1 <= n_sqs < 2 ^ 16 ->
  nvm_admin_request_num_queues (MkAqRef k (Some granting)) n_cqs n_sqs w = (0, n_sqs, n_cqs, w).
Proof.
  intros Hc Hs. unfold nvm_admin_request_num_queues.
  destruct (Z.eqb_spec n_cqs 0); [lia|]. destruct (Z.eqb_spec n_sqs 0); [lia|]. cbn -[Z.pow u16 u32 Z.shiftl Z.shiftr Z.lor Z.land NVM_ERR_PACK].
  set (d := u32 (Z.lor (Z.shiftl (n_cqs - 1) 16) (n_sqs - 1))).
  assert (E : d = (n_cqs - 1) * 2 ^ 16 + (n_sqs - 1)).
  { unfold d. rewrite lor_shiftl_add by lia. apply u32_id. unfold is_word. lia. }
  assert (P : NVM_ERR_PACK (Some [d; 0; 0; 0]) 0 = 0) by reflexivity.
  rewrite P. cbn -[Z.pow u16 Z.shiftr Z.land]. rewrite Z.shiftr_div_pow2 by lia.
  change 65535 with (2 ^ 16 - 1). rewrite land_ones_mod by lia. rewrite E.
  destruct (unpack16 (n_cqs - 1) (n_sqs - 1)) as [-> ->]; [unfold is_word; lia|].
  rewrite !Z.sub_add, !u16_id by (unfold is_word; lia). done.
Qed.
End queues.

(** ** Identify data *)

(** The little-endian bytes of a word. *)
Fixpoint le_bytes (n : nat) (z : Z) : list Z :=
  match n with O => [] | S n => z mod 256 :: le_bytes n (z / 256) end.

Lemma le_bytes_length n z : length (le_bytes n z) = n.
Proof. revert z. induction n as [|n IH]; intros; [done|]. cbn. by rewrite IH. Qed.

Lemma le_le_bytes l1 n z l2 :
  0 <= z < 256 ^ Z.of_nat n -> le (l1 ++ le_bytes n z ++ l2) (length l1) n = z.
Proof.
  revert l1 z. induction n as [|n IH]; intros l1 z Hz; cbn [le le_bytes]; [cbn in Hz; lia|].
  rewrite Nat2Z.inj_succ, Z.pow_succ_r in Hz by lia.
  rewrite app_nth2, Nat.sub_diag by lia. cbn [nth app].
  pose proof (IH (l1 ++ [z mod 256]) (z / 256)) as E. rewrite <- app_assoc, length_app, Nat.add_1_r in E. cbn [app] in E.
  rewrite E; [pose proof (Z.div_mod z 256); lia|].
  split; [apply Z.div_pos; lia|apply Z.div_lt_upper_bound; lia].
Qed.

(** A namespace as the NVMe specification describes it: sizes in blocks, the index of the
    format in use, and sixteen formats (metadata size, data size exponent, relative performance). *)
Record identify_ns := MkIdNs {
  id_nsze : Z; id_ncap : Z; id_nuse : Z; id_nsfeat : Z; id_nlbaf : Z; id_flbas : Z; id_rest : list Z;
  id_lbaf : list (Z * Z * Z); id_tail : list Z
}.

Definition lbaf_word (f : Z * Z * Z) : Z := let '(ms, lbads, rp) := f in ms + 2 ^ 16 * lbads + 2 ^ 24 * rp.

Definition ns_page (n : identify_ns) : list Z :=
  le_bytes 8 (id_nsze n) ++ le_bytes 8 (id_ncap n) ++ le_bytes 8 (id_nuse n) ++
  [id_nsfeat n; id_nlbaf n; id_flbas n] ++ id_rest n ++
  concat (le_bytes 4 ∘ lbaf_word <$> id_lbaf n) ++ id_tail n.

Record identify_ns_ok (n : identify_ns) : Prop := {
  in_nsze : is_word 64 (id_nsze n); in_ncap : is_word 64 (id_ncap n); in_nuse : is_word 64 (id_nuse n);
  in_flbas : is_word 8 (id_flbas n); in_rest : length (id_rest n) = 101%nat; in_lbaf : length (id_lbaf n) = 16%nat;
  in_lbaf_ok : Forall (fun '(ms, lbads, rp) => is_word 16 ms /\ 0 <= lbads <= 30 /\ is_word 8 rp) (id_lbaf n)
}.

Lemma concat_le_split fs i f :
  fs !! i = Some f ->
  exists l1 l2, concat (le_bytes 4 ∘ lbaf_word <$> fs) = l1 ++ le_bytes 4 (lbaf_word f) ++ l2 /\ length l1 = (4 * i)%nat.
Proof.
  revert i. induction fs as [|g fs IH]; intros [|i] E; try done; cbn in E.
  - injection E as ->. exists [], (concat (le_bytes 4 ∘ lbaf_word <$> fs)). done.
  - destruct (IH i E) as (l1 & l2 & El & Hl). exists (le_bytes 4 (lbaf_word g) ++ l1), l2. cbn [fmap list_fmap concat].
    rewrite El, app_assoc. split; [done|]. rewrite length_app, Hl, le_bytes_length. lia.
Qed.

Lemma lbaf_fields ms lbads rp :
  is_word 16 ms -> is_word 8 lbads -> is_word 8 rp ->
  let v := lbaf_word (ms, lbads, rp) in 0 <= v < 2 ^ 32 /\ RB v 23 16 = lbads /\ RB v 15 0 = ms.
Proof.
  unfold is_word. intros H1 H2 H3. cbv zeta. unfold lbaf_word. split; [lia|]. rewrite !RB_spec by lia. split.
  - replace (ms + 2 ^ 16 * lbads + 2 ^ 24 * rp) with (ms + (lbads + rp * 2 ^ 8) * 2 ^ 16) by lia.
    rewrite Z.div_add, Z.div_small, Z.add_0_l by lia. change (23 - 16 + 1) with 8.
    rewrite Z.mod_add by lia. apply Z.mod_small. lia.
  - change (15 - 0 + 1) with 16. rewrite Z.div_1_r.
    replace (ms + 2 ^ 16 * lbads + 2 ^ 24 * rp) with (ms + (lbads + 2 ^ 8 * rp) * 2 ^ 16) by lia.
    rewrite Z.mod_add by lia. apply Z.mod_small. lia.
Qed.

(** Identifying a namespace is a round trip: whatever namespace the controller describes in
    the NVMe format, [nvm_admin_ns_info] reports its size, capacity, utilization and the block
    and metadata size of the format in use. *)
Theorem ns_info_roundtrip {W} (page : W -> list Z) clear (ref : aq_ref) stub ns_id ioaddr w cpl w' n ms lbads rp :
  ar_stub ref = Some stub -> ioaddr <> 0 ->
  stub (clear w) (admin_identify_ns zero_cmd ns_id ioaddr) zero_cpl = (0, cpl, w') -> NVM_ERR_OK cpl = true ->
  page w' = ns_page n -> identify_ns_ok n ->
  id_lbaf n !! Z.to_nat (id_flbas n mod 16) = Some (ms, lbads, rp) ->
  nvm_admin_ns_info page clear ref true ns_id true ioaddr w =
    (0, Some (MkNsInfo ns_id (id_nsze n) (id_ncap n) (id_nuse n) (2 ^ lbads) ms), w').
Proof.
  intros Hstub Hio Hs Hok Hpage [H1 H2 H3 H4 H5 H6 H7] Hf. unfold nvm_admin_ns_info. cbn [negb orb].
  rewrite (proj2 (Z.eqb_neq ioaddr 0) Hio). unfold nvm_raw_rpc. rewrite Hstub, Hs.
  unfold NVM_ERR_OK in Hok. apply andb_true_iff in Hok as [Hsct Hsc]. apply Z.eqb_eq in Hsct, Hsc.
  assert (E0 : NVM_ERR_PACK (Some cpl) 0 = 0) by (unfold NVM_ERR_PACK, NVM_ERR_STATUS; by rewrite Hsct, Hsc).
  rewrite E0. cbn [nvm_ok negb Z.eqb]. rewrite Hpage.
  rewrite Forall_lookup in H7. pose proof (H7 _ _ Hf) as (Hms & Hl & Hrp). cbn in Hms, Hl, Hrp.
  destruct (lbaf_fields ms lbads rp Hms ltac:(unfold is_word; lia) Hrp) as (Hw & Hf1 & Hf2).
  destruct (concat_le_split _ _ _ Hf) as (l1 & l2 & El & Hl1).
  assert (E26 : nth 26 (ns_page n) 0 = id_flbas n).
  { reflexivity. }
  assert (Efmt : u8 (RB (id_flbas n) 3 0) = id_flbas n mod 16).
  { rewrite RB_spec, Z.div_1_r by lia. change (2 ^ (3 - 0 + 1)) with 16.
    apply u8_id. pose proof (Z.mod_pos_bound (id_flbas n) 16). unfold is_word. lia. }
  assert (Elb : le (ns_page n) (128 + 4 * Z.to_nat (id_flbas n mod 16)) 4 = lbaf_word (ms, lbads, rp)).
  { unfold ns_page. rewrite El, !app_assoc, <- app_assoc, <- app_assoc.
    match goal with |- le (?l ++ _) _ _ = _ => replace (128 + 4 * _)%nat with (length l) end; [by apply le_le_bytes|].
    rewrite !length_app, !le_bytes_length, H5, Hl1. cbn [length]. lia. }
  assert (Es : le (ns_page n) 0 8 = id_nsze n /\ le (ns_page n) 8 8 = id_ncap n /\ le (ns_page n) 16 8 = id_nuse n).
  { unfold ns_page. split_and!.
    - by apply (le_le_bytes []).
    - pose proof (le_le_bytes (le_bytes 8 (id_nsze n)) 8 (id_ncap n)) as L. rewrite le_bytes_length in L. by apply L.
    - rewrite app_assoc. pose proof (le_le_bytes (le_bytes 8 (id_nsze n) ++ le_bytes 8 (id_ncap n)) 8 (id_nuse n)) as L.
      rewrite length_app, !le_bytes_length in L. by apply L. }
  destruct Es as (Es1 & Es2 & Es3).
  rewrite E26, Efmt, Elb, Es1, Es2, Es3, Hf1, Hf2, Z.shiftl_1_l. done.
Qed.

(** ** Witnesses *)

Definition example_k : nvm_ctrl_t := MkCtrl 4096 0 10000 4096 8192 0x7f0000000000.
(** A stub that records the commands and reports success. *)
Definition recording (w : list (list Z)) (cmd cpl : list Z) : Z * list Z * list (list Z) := (0, cpl, w ++ [cmd]).
Definition example_ref : aq_ref := MkAqRef example_k (Some recording).
Definition example_addr (p : void_ptr) : Z := match p with Alloc n => 4096 * Z.of_nat n | User a => a end.
Definition example_dma : nvm_dma_t := MkDma (User 0x10000) true true 4096 [0x20000; 0x21000; 0x22000; 0x23000].
Definition no_queue : nvm_queue_t := MkQueue 0 0 0 0 0 0 0 false 0 0 0 0 None 0 0.
Definition example_cq1 : nvm_queue_t := snd (fst (nvm_admin_cq_create example_addr (Some example_ref) no_queue 1 example_dma 0 256 false [])).

Lemma admin_queue_create_ok_witness :
  exists q w, create_any example_addr false example_ref no_queue example_cq1 1 example_dma 1 64 false [] = (0, q, w) /\
    queue_wf q /\ (exists n, q_es q * q_qs q <= 4096 * n /\ 1 + n <= n_ioaddrs example_dma).
Proof.
  assert (E : exists q w, create_any example_addr false example_ref no_queue example_cq1 1 example_dma 1 64 false [] = (0, q, w))
    by (do 2 eexists; vm_compute; reflexivity).
  destruct E as (q & w & E). exists q, w. split; [exact E|].
  destruct (admin_queue_create_ok example_addr false example_ref no_queue example_cq1 1 example_dma 1 64 false [] q w)
    as (Hq & _ & _ & _ & _ & _ & Hfit & _);
    [vm_compute; split; congruence|vm_compute; split; congruence|vm_compute; split; congruence|done
    |split; [done|exists 64; done]|split; [repeat constructor; vm_compute; congruence|done]|exact E|].
  split; [exact Hq|exact Hfit].
Defined.

Lemma admin_queue_create_refuses_witness :
  exists q w, create_any example_addr true example_ref no_queue no_queue 1 example_dma 4 64 false [] = (EINVAL, q, w) /\ q = no_queue /\ w = [].
Proof.
  assert (E : exists st q w, create_any example_addr true example_ref no_queue no_queue 1 example_dma 4 64 false [] = (st, q, w))
    by (do 3 eexists; vm_compute; reflexivity).
  destruct E as (st & q & w & E).
  destruct (admin_queue_create_refuses example_addr true example_ref no_queue no_queue 1 example_dma 4 64 false [] st q w)
    as [H1 H2]; [split; [done|exists 64; done]|lia|done|exact E|].
  destruct H2 as [-> ->]; [vm_compute; intuition congruence|]. exists q, []. split; [exact E|]. split; [apply H1; done|done].
Defined.

Lemma admin_queue_delete_once_witness :
  exists q' w', nvm_admin_cq_delete example_ref example_cq1 [] = (0, q', w') /\
    nvm_admin_cq_delete example_ref q' w' = (EINVAL, q', w').
Proof.
  assert (E : exists q w, nvm_admin_cq_delete example_ref example_cq1 [] = (0, q, w)) by (do 2 eexists; vm_compute; reflexivity).
  destruct E as (q & w & E). exists q, w. split; [exact E|].
  apply (admin_queue_delete_once example_ref example_cq1 None [] q w w). left. exact E.
Defined.

Lemma num_queues_exchanged_witness :
  nvm_admin_request_num_queues (MkAqRef example_k (Some granting)) 16 32 tt = (0, 32, 16, tt).
Proof. apply (num_queues_exchanged example_k 16 32 tt); lia. Defined.

Definition example_ns : identify_ns :=
  MkIdNs 1000 900 800 0 1 1 (repeat 0 101) ((8, 9, 0) :: (0, 12, 0) :: repeat (0, 0, 0) 14) [].

Lemma ns_info_roundtrip_witness :
  nvm_admin_ns_info (W := list Z) (fun w => w) (fun _ => [])
    (MkAqRef example_k (Some (fun w cmd cpl => (0, cpl, ns_page example_ns)))) true 1 true 4096 [] =
  (0, Some (MkNsInfo 1 1000 900 800 4096 0), ns_page example_ns).
Proof.
  apply (ns_info_roundtrip (fun w => w) (fun _ => []) (MkAqRef example_k (Some (fun w cmd cpl => (0, cpl, ns_page example_ns))))
    (fun w cmd cpl => (0, cpl, ns_page example_ns)) 1 4096 [] zero_cpl (ns_page example_ns) example_ns 0 12 0);
    try reflexivity; [lia|].
  split; try (vm_compute; split; congruence); try reflexivity.
  repeat constructor; vm_compute; congruence.
Defined.
End Admin.
