(* ===== verification/GpuSetup.v ===== *)
(** Setting up a controller and its queue pairs for the GPU: [src/include/buffer.h],
    [queue.h] and [ctrl.h].

    The constructors call the host library ([Host], [Dma]), send admin commands ([Rpc],
    [Admin]) and allocate device memory.  A C++ exception is the result [Thrown]; on the
    way out the members built so far are destroyed.  Allocations of the C++ runtime do
    not fail. *)
From Stdlib Require Import ZArith Lia List Bool.
From stdpp Require Import base list gmap gmultiset numbers functions.
From S2P Require Import Prelude Exec NvmUtil NvmCmd NvmError NvmQueue Host Dma Rpc Admin.
Import Host Dma Rpc Admin.

Import ListNotations.
Local Open Scope Z_scope.

(** What the code relies on from CUDA and the allocator, given what is allocated: device
    allocations by address with their size, host allocations by address. *)
Class Cuda := {
  cuda_malloc : gmap Z Z -> Z -> option Z;
  cuda_malloc_range live size a : cuda_malloc live size = Some a -> 0 < a /\ a + size <= 2 ^ 48 /\ live !! a = None;
  cuda_malloc_apart live size a b n :
    cuda_malloc live size = Some a -> 0 < size -> live !! b = Some n -> a + size <= b \/ b + n <= a;
  host_malloc : gset Z -> Z -> option Z;
  host_malloc_new live size a : host_malloc live size = Some a -> 0 < a < 2 ^ 64 /\ a ∉ live;
  device_pointer : Z -> Z             (** [cudaHostGetDevicePointer] *)
}.

Module Setup.

(** ** State *)

Record gpu_state := MkGpu {
  gs_rpc : rpc_state;
  gs_dev : gmap Z Z;                  (** live device allocations *)
  gs_mem : Z -> Z;                    (** device memory, by byte *)
  gs_host : gset Z;                   (** live host allocations *)
  gs_fds : Z;                         (** descriptors the constructor has open *)
  gs_windows : list Z;                (** register windows registered with CUDA *)
  gs_page : list Z;                   (** the page identify commands fill *)
  gs_cmds : list (list Z);            (** admin commands sent *)
  gs_mismatched : nat                 (** arrays made with [new[]] that [delete] has released *)
}.

Definition set_rpc (s : gpu_state) v := MkGpu v (gs_dev s) (gs_mem s) (gs_host s) (gs_fds s) (gs_windows s) (gs_page s) (gs_cmds s) (gs_mismatched s).
Definition set_dev (s : gpu_state) v := MkGpu (gs_rpc s) v (gs_mem s) (gs_host s) (gs_fds s) (gs_windows s) (gs_page s) (gs_cmds s) (gs_mismatched s).
Definition set_mem (s : gpu_state) v := MkGpu (gs_rpc s) (gs_dev s) v (gs_host s) (gs_fds s) (gs_windows s) (gs_page s) (gs_cmds s) (gs_mismatched s).
Definition set_hostmem (s : gpu_state) v := MkGpu (gs_rpc s) (gs_dev s) (gs_mem s) v (gs_fds s) (gs_windows s) (gs_page s) (gs_cmds s) (gs_mismatched s).
Definition set_gfds (s : gpu_state) v := MkGpu (gs_rpc s) (gs_dev s) (gs_mem s) (gs_host s) v (gs_windows s) (gs_page s) (gs_cmds s) (gs_mismatched s).
Definition set_windows (s : gpu_state) v := MkGpu (gs_rpc s) (gs_dev s) (gs_mem s) (gs_host s) (gs_fds s) v (gs_page s) (gs_cmds s) (gs_mismatched s).
Definition set_page (s : gpu_state) v := MkGpu (gs_rpc s) (gs_dev s) (gs_mem s) (gs_host s) (gs_fds s) (gs_windows s) v (gs_cmds s) (gs_mismatched s).
Definition set_cmds (s : gpu_state) v := MkGpu (gs_rpc s) (gs_dev s) (gs_mem s) (gs_host s) (gs_fds s) (gs_windows s) (gs_page s) v (gs_mismatched s).
Definition set_mismatched (s : gpu_state) v := MkGpu (gs_rpc s) (gs_dev s) (gs_mem s) (gs_host s) (gs_fds s) (gs_windows s) (gs_page s) (gs_cmds s) v.

Abbreviation G := (ST gpu_state).

(** A call of the library; the outcome of the next fallible primitive. *)
Definition rpc {A} (m : R A) : G A := fun s =>
  match m (gs_rpc s) with Some (a, r) => Some (a, set_rpc s r) | None => None end.
Definition lib {A} (m : M A) : G A := rpc (lift m).
Definition fallible : G Z := lib attempt.

(** The result of code that may throw. *)
Inductive res (A : Type) := Ok (a : A) | Thrown.
Arguments Ok {A}.
Arguments Thrown {A}.

(** [m], then [k]; when [m] throws, [unwind] runs first. *)
Definition guard {A B} (m : G (res A)) (unwind : G unit) (k : A -> G (res B)) : G (res B) :=
  r ← m; match r with Ok a => k a | Thrown => unwind;; mret Thrown end.
Definition throw_unless {B} (ok : bool) (unwind : G unit) (k : G (res B)) : G (res B) :=
  if ok then k else unwind;; mret Thrown.

Definition bytes (a n i : Z) : bool := (a <=? i) && (i <? a + n).

Section setup.
Context {K : Kernel} {C : Cuda}.

(** ** CUDA *)

(** An allocation of no bytes gives the null pointer. *)
Definition cudaMalloc (size : Z) : G (option Z) := fun s =>
  if size =? 0 then Some (Some 0, s)
  else
    match cuda_malloc (gs_dev s) size with
    | Some a => Some (Some a, set_dev s (<[a := size]> (gs_dev s)))
    | None => Some (None, s)
    end.

(** Freeing anything else than a live allocation is an error the callers ignore. *)
Definition cudaFree (p : Z) : G unit := st_modify (fun s => set_dev s (delete p (gs_dev s))).

Definition cudaMemset (p value size : Z) : G Z :=
  e ← fallible;
  if negb (e =? 0) then mret e
  else st_modify (fun s => set_mem s (fun i => if bytes p size i then value else gs_mem s i));; mret 0.

(** [posix_memalign] and [cudaHostAlloc], [free] and [cudaFreeHost]. *)
Definition host_alloc (size : Z) : G (option Z) := fun s =>
  match host_malloc (gs_host s) size with
  | Some a => Some (Some a, set_hostmem s (gs_host s ∪ {[a]}))
  | None => Some (None, s)
  end.
Definition host_free (p : Z) : G unit :=
  s ← st_get;
  if bool_decide (p ∈ gs_host s) then st_modify (fun s => set_hostmem s (gs_host s ∖ {[p]})) else crash.

(** ** [buffer.h] *)

(** What the deleter of a shared pointer frees. *)
Inductive memory := HostMem (buffer : Z) | DevMem (origPtr : Z).
Record DmaPtr := MkDmaPtr { dp_dma : nat; dp_mem : memory }.
Record BufferPtr := MkBufferPtr { bp_ptr : Z; bp_mem : memory }.

Definition free_memory (m : memory) : G unit :=
  match m with HostMem b => host_free b | DevMem p => cudaFree p end.
Definition release_dma (p : DmaPtr) : G unit :=
  lib (nvm_dma_unmap (Some (dp_dma p)));; free_memory (dp_mem p).
Definition release_buffer (p : BufferPtr) : G unit := free_memory (bp_mem p).

(** Returns [bufferPtr] and [origPtr]. *)
Definition getDeviceMemory (device size : Z) : G (res (Z * Z)) :=
  err ← fallible;                     (** [cudaSetDevice] *)
  if negb (err =? 0) then mret Thrown
  else
    let size := u64 (size + 64 * 1024) in
    r ← cudaMalloc size;
    match r with
    | None => mret Thrown
    | Some bufferPtr =>
        err ← fallible;               (** [cudaPointerGetAttributes] *)
        if negb (err =? 0) then cudaFree bufferPtr;; mret Thrown
        else
          let origPtr := bufferPtr in
          let bufferPtr := Z.land (u64 (bufferPtr + 64 * 1024)) 0xffffffffff0000 in
          mret (Ok (bufferPtr, origPtr))
    end.

Definition getDeviceMemory2 (device size : Z) : G (res (Z * Z)) :=
  let size := u64 (size + 128) in
  err ← fallible;
  if negb (err =? 0) then mret Thrown
  else
    r ← cudaMalloc size;
    match r with
    | None => mret Thrown
    | Some bufferPtr =>
        err ← cudaMemset bufferPtr 0 size;
        if negb (err =? 0) then cudaFree bufferPtr;; mret Thrown
        else
          let origPtr := bufferPtr in
          let bufferPtr := Z.land (u64 (bufferPtr + 128)) 0xffffffffffffe0 in
          mret (Ok (bufferPtr, origPtr))
    end.

Definition createDma_host (ctrl : nat) (size : Z) : G (res DmaPtr) :=
  b ← host_alloc size;
  match b with
  | None => mret Thrown
  | Some buffer =>
      r ← lib (nvm_dma_map_host ctrl (User buffer) size);
      match r with
      | (0, Some dma) => mret (Ok (MkDmaPtr dma (HostMem buffer)))
      | _ => host_free buffer;; mret Thrown
      end
  end.

Definition set_vaddr (d : nvm_dma_t) (v : void_ptr) : nvm_dma_t :=
  MkDma v (dma_local d) (dma_contiguous d) (dma_page_size d) (dma_ioaddrs d).

(** [dma->vaddr = p]. *)
Definition store_vaddr (dma : nat) (p : Z) : M unit :=
  h ← get; ct ← deref (h_conts h !! dma);
  modify (fun h => set_conts h (<[dma := MkCont (ct_map ct) (set_vaddr (ct_handle ct) (User p))]> (h_conts h))).

Definition createDma (ctrl : nat) (size cudaDevice : Z) : G (res DmaPtr) :=
  if cudaDevice <? 0 then createDma_host ctrl size
  else
    m ← getDeviceMemory cudaDevice size;
    match m with
    | Thrown => mret Thrown
    | Ok (bufferPtr, origPtr) =>
        r ← lib (nvm_dma_map_device ctrl (User bufferPtr) size);
        match r with
        | (0, Some dma) =>
            err ← cudaMemset bufferPtr 0 size;
            if negb (err =? 0) then cudaFree bufferPtr;; mret Thrown
            else
              lib (store_vaddr dma bufferPtr);;
              mret (Ok (MkDmaPtr dma (DevMem origPtr)))
        | _ => mret Thrown
        end
    end.

Definition createBuffer_host (size : Z) : G (res BufferPtr) :=
  b ← host_alloc size;
  mret (match b with Some buffer => Ok (MkBufferPtr buffer (HostMem buffer)) | None => Thrown end).

Definition createBuffer (size cudaDevice : Z) : G (res BufferPtr) :=
  if cudaDevice <? 0 then createBuffer_host size
  else
    m ← getDeviceMemory2 cudaDevice size;
    mret (match m with Ok (bufferPtr, origPtr) => Ok (MkBufferPtr bufferPtr (DevMem origPtr)) | Thrown => Thrown end).

(** ** Admin commands *)

(** The controller: what the polls of the [n]-th command find, and the identify page after
    it; the addresses of the library's buffers; a fresh queue descriptor. *)
Context (dev : nat -> device) (identify : nat -> list Z -> list Z -> list Z) (lib_addr : nat -> Z) (blank_queue : nvm_queue_t).
(** The capability and version registers, the host's page size, and the register window. *)
Context (cap ver page_size mm_ptr : Z).

Definition addr (p : void_ptr) : Z := match p with Alloc n => lib_addr n | User a => a end.

Definition execute (ref : nat) (cmd : list Z) : G (Z * option (list Z)) :=
  s ← st_get;
  r ← deref (rs_refs (gs_rpc s) !! ref);
  match rf_data r with
  | LocalData a =>
      admin ← deref (rs_admins (gs_rpc s) !! a);
      let n := length (gs_cmds s) in
      x ← deref (execute_command admin cmd (dev n));
      let '(err, cpl, admin) := x in
      rpc (st_modify (fun s => set_admins s (<[a := admin]> (rs_admins s))));;
      st_modify (fun s => set_cmds (set_page s (identify n cmd (gs_page s))) (gs_cmds s ++ [cmd]));;
      mret (err, cpl)
  | _ => crash
  end.

(** The world of [Admin]: [None] once a command has met undefined behaviour. *)
Definition world : Type := option gpu_state.
Definition world_page (w : world) : list Z := match w with Some s => gs_page s | None => [] end.
Definition world_clear (w : world) : world := (fun s => set_page s (repeat 0 0x1000)) <$> w.

Definition admin_stub (ref : nat) (w : world) (cmd cpl : list Z) : Z * list Z * world :=
  match w ≫= execute ref cmd with
  | Some (err, o, s) => (err, default cpl o, Some s)
  | None => (0, cpl, None)
  end.

Definition aq_of (r : nvm_admin_reference) (ref : nat) (k : controller) : aq_ref (W := world) :=
  MkAqRef (c_handle k) (match rf_stub r with Some execute_command_stub => Some (admin_stub ref) | _ => None end).

(** A call of [Admin] on the reference [ref]. *)
Definition with_admin {A} (ref : nat) (f : aq_ref (W := world) -> world -> A * world) : G A := fun s =>
  match rs_refs (gs_rpc s) !! ref with
  | None => None
  | Some r =>
      match h_ctrls (hp (rs_host (gs_rpc s))) !! rf_ctrl r with
      | None => None
      | Some k => match f (aq_of r ref k) (Some s) with (a, Some s') => Some (a, s') | (_, None) => None end
      end
  end.

(** ** [queue.h] *)

Definition MAX_SQ_ENTRIES_64K : Z := 64 * 1024 / 64.
Definition MAX_CQ_ENTRIES_64K : Z := 64 * 1024 / 16.
Definition sizeof_padded_struct : Z := 32.

(** An unsigned argument as [int]. *)
Definition to_int (z : Z) : Z := if z <? 2 ^ 31 then z else z - 2 ^ 32.

(** [sq_size] and [cq_size]; the capability register is read again for each. *)
Definition queue_entries (max queueDepth : Z) : Z :=
  let cqr := Z.land cap 0x10000 =? 0x10000 in
  let entries := cap mod 2 ^ 16 + 1 in
  let size := if cqr then (if max <=? entries then max else entries) else entries in
  Z.min queueDepth size.

(** The members of a [QueuePair] with a destructor, in the order of their declaration. *)
Record qp_members := MkMembers {
  sq_mem : option DmaPtr; cq_mem : option DmaPtr; sq_tickets : option BufferPtr; sq_tail_mark : option BufferPtr;
  sq_cid : option BufferPtr; cq_head_mark : option BufferPtr; cq_pos_locks : option BufferPtr
}.

Definition release_opt {A} (f : A -> G unit) (o : option A) : G unit := match o with Some a => f a | None => mret tt end.

(** Members are destroyed in the reverse order. *)
Definition release_members (m : qp_members) : G unit :=
  release_opt release_buffer (cq_pos_locks m);; release_opt release_buffer (cq_head_mark m);;
  release_opt release_buffer (sq_cid m);; release_opt release_buffer (sq_tail_mark m);;
  release_opt release_buffer (sq_tickets m);;
  release_opt release_dma (cq_mem m);; release_opt release_dma (sq_mem m).

(** What the GPU code needs of a queue beside its descriptor. *)
Record gpu_queue := MkGpuQueue {
  gq_queue : nvm_queue_t; gq_qs_minus_1 : Z; gq_qs_log2 : Z;
  gq_tickets : Z; gq_tail_mark : Z; gq_cid : Z; gq_head_mark : Z; gq_pos_locks : Z
}.

Record QueuePair := MkQueuePair {
  qp_pageSize : Z; qp_block_size : Z; qp_block_size_log : Z; qp_block_size_minus_1 : Z; qp_nvmNamespace : Z;
  qp_sq : gpu_queue; qp_cq : gpu_queue; qp_id : Z; qp_members_of : qp_members
}.

(** The marks, locks, tickets and identifiers of both queues, in device memory. *)
Definition init_gpu_specific_struct (sq cq : nvm_queue_t) (m : qp_members) (cudaDevice : Z)
    : G (res (gpu_queue * gpu_queue * qp_members)) :=
  let n q := u64 (q_qs q * sizeof_padded_struct) in
  let device := to_int cudaDevice in
  guard (createBuffer (n sq) device) (release_members m) (fun tickets =>
  let m := MkMembers (sq_mem m) (cq_mem m) (Some tickets) None None None None in
  guard (createBuffer (n sq) device) (release_members m) (fun tail_mark =>
  let m := MkMembers (sq_mem m) (cq_mem m) (Some tickets) (Some tail_mark) None None None in
  guard (createBuffer (65536 * sizeof_padded_struct) device) (release_members m) (fun cid =>
  let m := MkMembers (sq_mem m) (cq_mem m) (Some tickets) (Some tail_mark) (Some cid) None None in
  guard (createBuffer (n cq) device) (release_members m) (fun head_mark =>
  let m := MkMembers (sq_mem m) (cq_mem m) (Some tickets) (Some tail_mark) (Some cid) (Some head_mark) None in
  guard (createBuffer (n cq) device) (release_members m) (fun pos_locks =>
  let m := MkMembers (sq_mem m) (cq_mem m) (Some tickets) (Some tail_mark) (Some cid) (Some head_mark) (Some pos_locks) in
  mret (Ok (MkGpuQueue sq (u32 (q_qs sq - 1)) (Z.log2 (q_qs sq)) (bp_ptr tickets) (bp_ptr tail_mark) (bp_ptr cid) 0 0,
            MkGpuQueue cq (u32 (q_qs cq - 1)) (Z.log2 (q_qs cq)) 0 0 0 (bp_ptr head_mark) (bp_ptr pos_locks), m))))))).

(** [dma.get()]. *)
Definition dma_of (p : DmaPtr) : G nvm_dma_t :=
  s ← st_get; ct ← deref (h_conts (hp (rs_host (gs_rpc s))) !! dp_dma p); mret (ct_handle ct).

(** The device's pointer to the doorbell of [q]. *)
Definition device_doorbell (q : nvm_queue_t) : G (res nvm_queue_t) :=
  err ← fallible;
  mret (if negb (err =? 0) then Thrown else Ok (set_db q (device_pointer <$> q_db q))).

(** The queues in their memory: admin commands and doorbells. *)
Definition create_queues (aq_ref : nat) (id sq_size cq_size : Z) (sq_mem cq_mem : DmaPtr) : G (res (nvm_queue_t * nvm_queue_t)) :=
  cq_dma ← dma_of cq_mem;
  r ← with_admin aq_ref (fun ref => nvm_admin_cq_create addr (Some ref) blank_queue id cq_dma 0 cq_size false);
  let '(status, cq) := r in
  throw_unless (nvm_ok status) (mret tt) (
  guard (device_doorbell cq) (mret tt) (fun cq =>
  sq_dma ← dma_of sq_mem;
  r ← with_admin aq_ref (fun ref => nvm_admin_sq_create addr (Some ref) blank_queue cq id sq_dma 0 sq_size false);
  let '(status, sq) := r in
  throw_unless (nvm_ok status) (mret tt) (
  guard (device_doorbell sq) (mret tt) (fun sq => mret (Ok (sq, cq)))))).

Definition new_QueuePair (ctrl : nat) (cudaDevice : Z) (ns : nvm_ns_info) (info : nvm_ctrl_info) (aq_ref : nat)
    (id queueDepth : Z) : G (res QueuePair) :=
  let sq_size := queue_entries MAX_SQ_ENTRIES_64K queueDepth in
  let cq_size := queue_entries MAX_CQ_ENTRIES_64K queueDepth in
  let sq_mem_size := u64 (sq_size * sizeof_nvm_cmd_t) in
  let cq_mem_size := u64 (cq_size * sizeof_nvm_cpl_t) in
  let device := to_int cudaDevice in
  guard (createDma ctrl (NVM_PAGE_ALIGN sq_mem_size (Z.shiftl 1 16)) device) (mret tt) (fun sq_mem =>
  let m := MkMembers (Some sq_mem) None None None None None None in
  guard (createDma ctrl (NVM_PAGE_ALIGN cq_mem_size (Z.shiftl 1 16)) device) (release_members m) (fun cq_mem =>
  let m := MkMembers (Some sq_mem) (Some cq_mem) None None None None None in
  guard (create_queues aq_ref id sq_size cq_size sq_mem cq_mem) (release_members m) (fun q =>
  let '(sq, cq) := q in
  guard (init_gpu_specific_struct sq cq m cudaDevice) (mret tt) (fun x =>
  let '(gsq, gcq, m) := x in
  mret (Ok (MkQueuePair (u32 (ci_page_size info)) (u32 (ni_lba_data_size ns)) (Z.log2 (ni_lba_data_size ns))
              (u32 (ni_lba_data_size ns - 1)) (ni_ns_id ns) gsq gcq id m)))))).

(** ** [ctrl.h] *)

Definition MAX_QUEUES : Z := 1024.
(** Sizes of the structures that are copied to the device. *)
Context (sizeof_QueuePair sizeof_Controller : Z).

(** [ct_d_qps]: the device's array; a failed allocation is only printed and leaves the
    pointer uninitialised ([None]), and using it is undefined.  [ct_copied]: which of the
    array's elements were copied. *)
Record Controller := MkCtl {
  ct_ctrl : nat; ct_aq_ref : nat; ct_aq_mem : DmaPtr; ct_info : nvm_ctrl_info; ct_ns : nvm_ns_info;
  ct_n_sqs : Z; ct_n_cqs : Z; ct_n_qps : Z; ct_deviceId : Z; ct_h_qps : list QueuePair; ct_d_qps : option Z;
  ct_copied : list bool; ct_page_size : Z; ct_blk_size : Z; ct_blk_size_log : Z; ct_d_ctrl_buff : BufferPtr
}.

Definition initializeController (ctrl : nat) (aq_mem : DmaPtr) (ns_id : Z)
    : G (res (nat * nvm_ctrl_info * nvm_ns_info * Z * Z)) :=
  r ← rpc (nvm_aq_create addr blank_queue ctrl (dp_dma aq_mem));
  match r with
  | (0, Some ref) =>
      dma ← dma_of aq_mem;
      ioaddr ← deref (dma_ioaddrs dma !! 2%nat);
      let ptr := negb (NVM_DMA_OFFSET addr dma 2 =? 0) in
      r ← with_admin ref (fun aq w => nvm_admin_ctrl_info world_page world_clear aq cap ver true ptr ioaddr w);
      let '(status, o) := r in
      throw_unless (nvm_ok status) (mret tt) (
      info ← deref o;
      r ← with_admin ref (fun aq w => nvm_admin_ns_info world_page world_clear aq true ns_id ptr ioaddr w);
      let '(status, o) := r in
      throw_unless (nvm_ok status) (mret tt) (
      ns ← deref o;
      r ← with_admin ref (fun aq w => nvm_admin_get_num_queues aq 0 0 w);
      let '(status, n_cqs, n_sqs) := r in
      throw_unless (nvm_ok status) (mret tt) (
      mret (Ok (ref, info, ns, n_cqs, n_sqs)))))
  | _ => mret Thrown
  end.

(** The reference's arguments are the numbers of completion and of submission queues, in
    this order; the two are passed the other way round. *)
Definition reserveQueues (ref : nat) (numSubs numCpls : Z) : G (res (Z * Z)) :=
  r ← with_admin ref (fun aq w => nvm_admin_request_num_queues aq numSubs numCpls w);
  let '(status, numSubs, numCpls) := r in
  mret (if nvm_ok status then Ok (numSubs, numCpls) else Thrown).

(** The overloads that ask for the numbers the controller has reported. *)
Definition reserveQueues_subs (c : Controller) (numSubs : Z) : G (res (Z * Z)) := reserveQueues (ct_aq_ref c) numSubs (ct_n_cqs c).
Definition reserveQueues_all (c : Controller) : G (res (Z * Z)) := reserveQueues (ct_aq_ref c) (ct_n_sqs c) (ct_n_cqs c).

(** Reading and clearing the access counter at the start of the controller's copy; errors are printed. *)
Definition print_reset_stats (c : Controller) : G unit :=
  _ ← fallible;
  _ ← cudaMemset (bp_ptr (ct_d_ctrl_buff c)) 0 8;
  mret tt.

(** The loop that creates the queue pairs [i + 1, ..., n_qps]. *)
Fixpoint new_queue_pairs (todo : nat) (i : Z) (ctrl : nat) (cudaDevice : Z) (ns : nvm_ns_info) (info : nvm_ctrl_info)
    (ref : nat) (queueDepth : Z) (d_qps : option Z) (unwind : G unit) (done : list QueuePair) (copied : list bool)
    : G (res (list QueuePair * list bool)) :=
  match todo with
  | O => mret (Ok (done, copied))
  | S todo =>
      guard (new_QueuePair ctrl cudaDevice ns info ref (u16 (i + 1)) queueDepth) unwind (fun qp =>
      _ ← deref d_qps;
      e ← fallible;                   (** [cudaMemcpy] to [d_qps + i]; its error is printed *)
      new_queue_pairs todo (i + 1) ctrl cudaDevice ns info ref queueDepth d_qps unwind (done ++ [qp])
        (copied ++ [e =? 0]))
  end.

Definition open_path : G (res unit) :=
  e ← fallible;
  if negb (e =? 0) then mret Thrown else st_modify (fun s => set_gfds s (gs_fds s + 1));; mret (Ok tt).
Definition close_fd : G unit := st_modify (fun s => set_gfds s (gs_fds s - 1)).

(** The constructor once the admin queues work: the register window, the number of queue
    pairs, the queue pairs, the copy of the controller. *)
Definition start_queues (ctrl : nat) (k : nvm_ctrl_t) (aq_mem : DmaPtr) (ref : nat) (info : nvm_ctrl_info) (ns : nvm_ns_info)
    (cudaDevice queueDepth numQueues : Z) : G (res Controller) :=
  let unwind := release_dma aq_mem in
  err ← fallible;                     (** [cudaHostRegister] *)
  throw_unless (err =? 0) unwind (
  st_modify (fun s => set_windows s (gs_windows s ++ [ctl_mm_ptr k]));;
  guard (reserveQueues ref MAX_QUEUES MAX_QUEUES) unwind (fun x =>
  let '(n_sqs, n_cqs) := x in
  let n_qps := Z.min (Z.min n_sqs n_cqs) (u16 numQueues) in
  d_qps ← cudaMalloc (u64 (sizeof_QueuePair * n_qps));
  guard (new_queue_pairs (Z.to_nat n_qps) 0 ctrl cudaDevice ns info ref queueDepth d_qps unwind [] []) (mret tt) (fun x =>
  let '(qps, copied) := x in
  close_fd;;
  guard (createBuffer sizeof_Controller (to_int cudaDevice)) unwind (fun d_ctrl_buff =>
  _ ← fallible;                       (** [cudaMemcpy] of the controller *)
  mret (Ok (MkCtl ctrl ref aq_mem info ns n_sqs n_cqs n_qps cudaDevice qps d_qps copied
              (u32 (ctl_page_size k)) (u32 (ni_lba_data_size ns)) (Z.log2 (u32 (ni_lba_data_size ns))) d_ctrl_buff)))))).

(** Of the members only [aq_mem] and [d_ctrl_buff] have destructors: a constructor that
    throws keeps the descriptor, the controller, the admin reference and the queue pairs. *)
Definition new_Controller (ns_id cudaDevice queueDepth numQueues : Z) : G (res Controller) :=
  guard open_path (mret tt) (fun _ =>
  r ← lib (nvm_ctrl_init cap page_size mm_ptr);
  match r with
  | (0, Some ctrl) =>
      s ← st_get; k ← deref (h_ctrls (hp (rs_host (gs_rpc s))) !! ctrl);
      guard (createDma_host ctrl (u64 (ctl_page_size (c_handle k) * 3))) (mret tt) (fun aq_mem =>
      guard (initializeController ctrl aq_mem ns_id) (release_dma aq_mem) (fun x =>
      let '(ref, info, ns, _, _) := x in
      start_queues ctrl (c_handle k) aq_mem ref info ns cudaDevice queueDepth numQueues))
  | _ => mret Thrown
  end).

Fixpoint delete_queue_pairs (qps : list QueuePair) : G unit :=
  match qps with [] => mret tt | qp :: qps => release_members (qp_members_of qp);; delete_queue_pairs qps end.

Definition delete_Controller (c : Controller) : G unit :=
  d_qps ← deref (ct_d_qps c);
  cudaFree d_qps;;
  delete_queue_pairs (ct_h_qps c);;
  rpc (nvm_aq_destroy (Some (ct_aq_ref c)));;
  lib (nvm_ctrl_free (Some (ct_ctrl c)));;
  release_buffer (ct_d_ctrl_buff c);;
  release_dma (ct_aq_mem c).
End setup.
End Setup.
