(* ===== verification/GpuSetupInv.v ===== *)
(** What the set-up code of [GpuSetup] holds: live handles and allocations as a list of
    resources, and the specifications of [buffer.h] on it. *)
From Stdlib Require Import ZArith Lia List Bool.
From stdpp Require Import base list gmap gmultiset numbers functions.
From S2P Require Import Prelude Exec NvmUtil NvmCmd NvmError NvmQueue Host Dma DmaSpec DmaInv DmaApi Rpc Admin GpuSetup.
Import Host Dma DmaSpec DmaInv DmaApi Rpc Admin Setup.

Import ListNotations.
Local Open Scope Z_scope.

Module SetupInv.

(** ** Resources *)

Inductive resource := RCont (x : nat) (ct : container) | RDev (a n : Z) | RHost (a : Z).

Definition conts_of (l : list resource) : list (nat * container) :=
  omap (fun r => match r with RCont x ct => Some (x, ct) | _ => None end) l.
Definition devs_of (l : list resource) : list (Z * Z) := omap (fun r => match r with RDev a n => Some (a, n) | _ => None end) l.
Definition hosts_of (l : list resource) : list Z := omap (fun r => match r with RHost a => Some a | _ => None end) l.

Arguments conts_of : simpl never.
Arguments devs_of : simpl never.
Arguments hosts_of : simpl never.

Definition hst (s : gpu_state) : host := rs_host (gs_rpc s).

(** Device allocations are not empty and do not overlap. *)
Definition apart (l : list (Z * Z)) : Prop :=
  (forall a n, (a, n) ∈ l -> 0 < a /\ 0 < n) /\
  (forall a n b m, (a, n) ∈ l -> (b, m) ∈ l -> a <> b -> a + n <= b \/ b + m <= a).

(** Exactly the resources [l] are live, and the host library's invariant holds. *)
Record holds (own : nat -> Z) (l : list resource) (s : gpu_state) : Prop := {
  ho_good : good own (hst s);
  ho_conts_nodup : NoDup (conts_of l).*1;
  ho_conts : h_conts (hp (hst s)) = list_to_map (conts_of l);
  ho_devs_nodup : NoDup (devs_of l).*1;
  ho_devs : gs_dev s = list_to_map (devs_of l);
  ho_apart : apart (devs_of l);
  ho_hosts_nodup : NoDup (hosts_of l);
  ho_hosts : gs_host s = list_to_set (hosts_of l)
}.

(** The handle of a controller. *)
Definition ctl (s : gpu_state) (c : nat) (hd : nvm_ctrl_t) : Prop :=
  exists k, h_ctrls (hp (hst s)) !! c = Some k /\ c_handle k = hd.

(** Everything else is as before: the references and admin queue pairs, the handles of
    controllers somebody holds; zeroed device memory stays zero. *)
Record quiet (own : nat -> Z) (s s' : gpu_state) : Prop := {
  qu_refs : rs_refs (gs_rpc s') = rs_refs (gs_rpc s);
  qu_admins : rs_admins (gs_rpc s') = rs_admins (gs_rpc s);
  qu_fds : gs_fds s' = gs_fds s;
  qu_windows : gs_windows s' = gs_windows s;
  qu_cmds : gs_cmds s' = gs_cmds s;
  qu_page : gs_page s' = gs_page s;
  qu_next : (next (hst s) <= next (hst s'))%nat;
  qu_ctl c hd : 1 <= own c -> ctl s c hd -> ctl s' c hd;
  qu_zero i : gs_mem s i = 0 -> gs_mem s' i = 0
}.

#[export] Instance quiet_preorder own : PreOrder (quiet own).
Proof.
  split; [intros s; by split|]. intros s1 s2 s3 [] []. split; try congruence; [lia|auto..].
Qed.

(** The state after a primitive of the host library that changes no object. *)
Definition tick (s : gpu_state) (h : host) : gpu_state := set_rpc s (set_host (gs_rpc s) h).

Lemma wp_rpc {A} (m : R A) (Q : A -> gpu_state -> Prop) s :
  wp m (fun a r => Q a (set_rpc s r)) (gs_rpc s) -> wp (rpc m) Q s.
Proof. intros (a & r & E & H)%wp_total. eapply wp_eq; [|exact H]. unfold rpc. by rewrite E. Qed.

Lemma wp_lib {A} (m : M A) (Q : A -> gpu_state -> Prop) s :
  wp m (fun a h => Q a (tick s h)) (hst s) -> wp (lib m) Q s.
Proof. intros H. apply wp_rpc, wp_lift. exact H. Qed.

Lemma wp_fallible (Q : Z -> gpu_state -> Prop) s :
  (forall e h, hp h = hp (hst s) -> next h = next (hst s) -> Q e (tick s h)) -> wp fallible Q s.
Proof.
  intros H. apply wp_lib. unfold hst in *. destruct (rs_host (gs_rpc s)) as [h n [|e l]]; eapply wp_eq; try done; by apply H.
Qed.

Lemma wp_guard {A B} (m : G (res A)) u (k : A -> G (res B)) Q s :
  wp m (fun r s' => match r with Ok a => wp (k a) Q s' | Thrown => wp (u;; mret Thrown) Q s' end) s -> wp (guard m u k) Q s.
Proof. intros H. apply wp_bind. eapply wp_mono; [exact H|]. by intros [a|] s'. Qed.

Lemma wpi_guard {A B} P (m : G (res A)) u (k : A -> G (res B)) Q s :
  wp_if P m (fun r s' => match r with Ok a => wp_if P (k a) Q s' | Thrown => wp_if P (u;; mret Thrown) Q s' end) s ->
  wp_if P (guard m u k) Q s.
Proof. intros H. apply wpi_bind. eapply wpi_mono; [exact H|]. by intros [a|] s'. Qed.

(** ** Lists of resources *)

Section lists.
Context (own : nat -> Z).

Lemma holds_perm l l' s : l ≡ₚ l' -> holds own l s -> holds own l' s.
Proof.
  intros P [G1 N1 E1 N2 E2 A N3 E3].
  assert (Pc : conts_of l ≡ₚ conts_of l') by (by apply omap_Permutation).
  assert (Pd : devs_of l ≡ₚ devs_of l') by (by apply omap_Permutation).
  assert (Ph : hosts_of l ≡ₚ hosts_of l') by (by apply omap_Permutation).
  split; try done.
  - by rewrite <- Pc.
  - rewrite E1. by apply list_to_map_proper.
  - by rewrite <- Pd.
  - rewrite E2. by apply list_to_map_proper.
  - destruct A as [A1 A2]. split; [intros a n|intros a n b m]; rewrite <- Pd; [apply A1|apply A2].
  - by rewrite <- Ph.
  - rewrite E3. by rewrite Ph.
Qed.

Lemma holds_same l s s' :
  holds own l s -> hp (hst s') = hp (hst s) -> (next (hst s) <= next (hst s'))%nat -> gs_dev s' = gs_dev s ->
  gs_host s' = gs_host s -> holds own l s'.
Proof.
  intros [G1 N1 E1 N2 E2 A N3 E3] Eh Hn Ed Eo. split; try done; [|by rewrite Eh|by rewrite Ed|by rewrite Eo].
  by eapply good_same.
Qed.

Lemma holds_cont x ct l s : holds own (RCont x ct :: l) s -> h_conts (hp (hst s)) !! x = Some ct.
Proof. intros H. rewrite (ho_conts _ _ _ H). cbn. apply lookup_insert_eq. Qed.

Lemma holds_elem x ct l s : holds own l s -> RCont x ct ∈ l -> h_conts (hp (hst s)) !! x = Some ct.
Proof.
  intros H (l1 & l2 & ->)%list_elem_of_split. apply (holds_cont x ct (l1 ++ l2)). eapply holds_perm; [|exact H]. symmetry. apply Permutation_middle.
Qed.

Lemma holds_size l s : holds own l s -> Z.of_nat (size (h_conts (hp (hst s)))) <= Z.of_nat (length l).
Proof.
  intros H. rewrite (ho_conts _ _ _ H), map_size_list_to_map by apply H. unfold conts_of.
  clear H. induction l as [|[] l IH]; cbn in *; lia.
Qed.
End lists.

(** ** Counters *)

Lemma cnt_le {A} (P : A -> Prop) `{forall x, Decision (P x)} (m : gmap nat A) : cnt P m <= Z.of_nat (size m).
Proof. unfold cnt. apply inj_le, map_subseteq_size, map_filter_subseteq. Qed.

(** Every mapping has a handle. *)
Lemma maps_le_conts own h : ok own h -> (size (h_maps h) <= size (h_conts h))%nat.
Proof.
  intros O. rewrite <- !length_map_to_list, <- (length_fmap fst), <- (length_fmap (fun p => ct_map (snd p)) (map_to_list (h_conts h))).
  apply NoDup_incl_length; [apply NoDup_ListNoDup, NoDup_fst_map_to_list|].
  intros m Hm. rewrite <- list_elem_of_In in *. apply list_elem_of_fmap in Hm as ([m' md] & -> & Hm%elem_of_map_to_list). cbn.
  destruct (om_count _ (ok_m _ _ O) _ _ Hm) as [E Hpos]. unfold users, cnt in E.
  destruct (decide (filter (fun p => ct_map p.2 = m') (h_conts h) = ∅)) as [Hf|Hf]; [rewrite Hf, map_size_empty in E; lia|].
  apply map_choose in Hf as (x & ct & [Hx Hct]%map_lookup_filter_Some). apply list_elem_of_fmap. exists (x, ct).
  split; [done|by apply elem_of_map_to_list].
Qed.
(** ** Taking and giving back resources *)

Section resources.
Context (own : nat -> Z).

Lemma holds_add_cont x ct l s h :
  holds own l s -> good own h -> h_conts (hp h) = <[x := ct]> (h_conts (hp (hst s))) -> h_conts (hp (hst s)) !! x = None ->
  holds own (RCont x ct :: l) (tick s h).
Proof.
  intros [G1 N1 E1 N2 E2 A N3 E3] Gh E Hx. split; try done; change (conts_of _) with ((x, ct) :: conts_of l); cbn [fmap list_fmap fst].
  - apply list.NoDup_cons. split; [|done]. apply (not_elem_of_list_to_map (M := gmap nat)). by rewrite <- E1.
  - change (hp (hst (tick s h))) with (hp h). by rewrite E, E1.
Qed.

Lemma holds_del_cont own' x ct l s h :
  holds own (RCont x ct :: l) s -> good own' h -> h_conts (hp h) = delete x (h_conts (hp (hst s))) ->
  holds own' l (tick s h).
Proof.
  intros [G1 N1 E1 N2 E2 A N3 E3] Gh E. change (conts_of _) with ((x, ct) :: conts_of l) in *. apply list.NoDup_cons in N1 as [Hx N1]. split; try done.
  change (hp (hst (tick s h))) with (hp h). rewrite E, E1. cbn. apply delete_insert_id. by apply (not_elem_of_list_to_map (M := gmap nat)).
Qed.

Lemma holds_add_host a l s :
  holds own l s -> a ∉ gs_host s -> holds own (RHost a :: l) (set_hostmem s (gs_host s ∪ {[a]})).
Proof.
  intros [G1 N1 E1 N2 E2 A N3 E3] Ha. split; try done; change (hosts_of _) with (a :: hosts_of l); cbn [gs_host set_hostmem].
  - apply list.NoDup_cons. split; [|done]. rewrite E3 in Ha. by rewrite elem_of_list_to_set in Ha.
  - rewrite E3. set_solver.
Qed.

Lemma holds_del_host a l s :
  holds own (RHost a :: l) s -> (a ∈ gs_host s) /\ holds own l (set_hostmem s (gs_host s ∖ {[a]})).
Proof.
  intros [G1 N1 E1 N2 E2 A N3 E3]. change (hosts_of _) with (a :: hosts_of l) in *. apply list.NoDup_cons in N3 as [Ha N3]. split; [set_solver|]. split; try done. cbn.
  rewrite E3. apply set_eq. intros b. rewrite elem_of_difference, !elem_of_list_to_set, elem_of_cons, elem_of_singleton.
  split; [tauto|]. intros Hb. split; [by right|]. by intros ->.
Qed.

Lemma holds_add_dev {C : Cuda} a n l s :
  holds own l s -> 0 < n -> cuda_malloc (gs_dev s) n = Some a -> holds own (RDev a n :: l) (set_dev s (<[a := n]> (gs_dev s))).
Proof.
  intros [G1 N1 E1 N2 E2 [A1 A2] N3 E3] Hn E. destruct (cuda_malloc_range _ _ _ E) as (Hp & _ & Ha). rewrite E2 in Ha.
  assert (Hin : forall b m, (b, m) ∈ devs_of l -> gs_dev s !! b = Some m) by (intros b m H; rewrite E2; by apply elem_of_list_to_map_1).
  split; try done; change (devs_of _) with ((a, n) :: devs_of l); cbn [fmap list_fmap fst gs_dev set_dev].
  - apply list.NoDup_cons. split; [by apply (not_elem_of_list_to_map (M := gmap Z))|done].
  - by rewrite E2.
  - split; [intros b m [[= -> ->]|?]%elem_of_cons; [done|by apply A1]|]. intros b m b' m'. rewrite !elem_of_cons.
    intros [[= -> ->]|H] [[= -> ->]|H'] Hne; [done| | |by apply (A2 b m b' m')].
    + by apply (cuda_malloc_apart _ _ _ _ _ E Hn (Hin _ _ H')).
    + destruct (cuda_malloc_apart _ _ _ _ _ E Hn (Hin _ _ H)); auto.
Qed.

Lemma holds_del_dev a n l s :
  holds own (RDev a n :: l) s -> holds own l (set_dev s (delete a (gs_dev s))).
Proof.
  intros [G1 N1 E1 N2 E2 [A1 A2] N3 E3]. change (devs_of _) with ((a, n) :: devs_of l) in *.
  apply list.NoDup_cons in N2 as [Ha N2]. split; try done; cbn [gs_dev set_dev].
  - rewrite E2. cbn. apply delete_insert_id. by apply (not_elem_of_list_to_map (M := gmap Z)).
  - split; [intros b m H; apply A1|intros b m b' m' H H'; apply A2]; by apply elem_of_cons; right.
Qed.

(** Freeing what is not the address of an allocation. *)
Lemma holds_del_none a l s :
  holds own l s -> (forall n, (a, n) ∉ devs_of l) -> holds own l (set_dev s (delete a (gs_dev s))).
Proof.
  intros H Ha. eapply holds_same; [done|done|done| |done]. cbn. apply delete_id. rewrite (ho_devs _ _ _ H).
  apply (not_elem_of_list_to_map (M := gmap Z)). intros ([b n] & -> & Hb)%list_elem_of_fmap. by apply (Ha n).
Qed.

(** The counters of controller [c] have room for [n] more resources. *)
Definition roomy (c : nat) (n : Z) (l : list resource) : Prop := 1 <= own c /\ own c + Z.of_nat (length l) + n < 2 ^ 32 - 1.

Lemma roomy_usable c l s : holds own l s -> roomy c 0 l -> usable own (hp (hst s)) c.
Proof.
  intros H [? ?]. split; [done|]. pose proof (maps_le_conts own _ (g_ok _ _ (ho_good _ _ _ H))). pose proof (holds_size own l s H).
  pose proof (cnt_le (fun md => m_ctrl md = c) (h_maps (hp (hst s)))). unfold refs. lia.
Qed.
End resources.

(** The resource a deleter frees. *)
Definition frees (m : memory) (r : resource) : Prop :=
  match m with HostMem b => r = RHost b | DevMem p => exists n, r = RDev p n end.

Lemma quiet_tick own s h : hp h = hp (hst s) -> (next (hst s) <= next h)%nat -> quiet own s (tick s h).
Proof. intros E. split; try done. intros c hd _ (k & Hk & ?). exists k. change (hp (hst (tick s h))) with (hp h). by rewrite E. Qed.

Lemma quiet_dev own s v : quiet own s (set_dev s v).
Proof. by split. Qed.

Lemma quiet_hostmem own s v : quiet own s (set_hostmem s v).
Proof. by split. Qed.
Lemma holds_tick own l s h :
  holds own l s -> hp h = hp (hst s) -> (next (hst s) <= next h)%nat -> holds own l (tick s h).
Proof. intros H E Hn. by eapply holds_same. Qed.

(** ** Aligned addresses *)

Lemma land_field z k m : 0 <= k -> 0 <= m -> Z.land z (Z.shiftl (Z.ones m) k) = Z.shiftl (Z.shiftr z k mod 2 ^ m) k.
Proof.
  intros Hk Hm. apply Z.bits_inj'. intros i Hi. rewrite Z.land_spec, !Z.shiftl_spec by done.
  destruct (Z.ltb_spec i k); [rewrite !(Z.testbit_neg_r _ (i - k)) by lia; apply andb_false_r|].
  rewrite <- Z.land_ones, Z.land_spec, Z.shiftr_spec by lia. by rewrite Z.sub_add.
Qed.

(** The next multiple of [2^k] after [a]; the masks of [buffer.h] keep 56 bits. *)
Lemma align_up a k m mask :
  mask = Z.shiftl (Z.ones m) k -> 0 <= k -> k + m = 56 -> 0 <= a -> a + 2 ^ k < 2 ^ 56 -> 0 <= m ->
  let b := Z.land a mask in b mod 2 ^ k = 0 /\ a - 2 ^ k < b <= a.
Proof.
  intros -> Hk Hm Ha Hb Hm0. cbn zeta. rewrite land_field, Z.shiftl_mul_pow2, Z.shiftr_div_pow2 by done.
  assert (E : 2 ^ 56 = 2 ^ k * 2 ^ m) by (rewrite <- Z.pow_add_r by done; by f_equal).
  assert (0 < 2 ^ k) by lia. rewrite (Z.mod_small (a / 2 ^ k)).
  - split; [apply Z.mod_mul; lia|]. pose proof (Z.div_mod a (2 ^ k)). pose proof (Z.mod_pos_bound a (2 ^ k)). lia.
  - split; [apply Z.div_pos; lia|]. apply Z.div_lt_upper_bound; lia.
Qed.

(** ** [buffer.h] *)

Section buffer.
Context {K : Kernel} {C : Cuda} (own : nat -> Z).

Lemma cudaMemset_spec p n l s :
  holds own l s ->
  wp (cudaMemset p 0 n) (fun e s' => quiet own s s' /\ holds own l s' /\ hp (hst s') = hp (hst s) /\
    (e = 0 -> forall i, p <= i < p + n -> gs_mem s' i = 0)) s.
Proof.
  intros H. unfold cudaMemset. apply wp_bind, wp_fallible. intros e h Eh En.
  pose proof (holds_tick _ _ _ h H Eh ltac:(lia)) as H1. pose proof (quiet_tick own s h Eh ltac:(lia)) as Q1.
  destruct (Z.eqb_spec e 0) as [->|]; cbn [negb]; [|apply wp_ret; by split_and!].
  apply wp_bind, wp_st_modify, wp_ret. split_and!; [|by eapply (holds_same own)|done|].
  - destruct Q1. split; try done. cbn. intros i Hi. by destruct (bytes p n i).
  - intros _ i Hi. cbn. unfold bytes. by rewrite (proj2 (Z.leb_le _ _)), (proj2 (Z.ltb_lt _ _)) by lia.
Qed.

Lemma cudaMalloc_spec n l s :
  holds own l s -> 0 < n ->
  wp (cudaMalloc n) (fun r s' => quiet own s s' /\
    match r with
    | Some a => 0 < a /\ a + n <= 2 ^ 48 /\ holds own (RDev a n :: l) s'
    | None => s' = s
    end) s.
Proof.
  intros H Hn. destruct (cuda_malloc (gs_dev s) n) as [a|] eqn:E.
  - eapply wp_eq; [unfold cudaMalloc; by rewrite (proj2 (Z.eqb_neq n 0)), E by lia|]. destruct (cuda_malloc_range _ _ _ E) as (? & ? & _).
    split; [apply quiet_dev|]. split_and!; [done..|]. by apply (holds_add_dev own (C := C)).
  - eapply wp_eq; [unfold cudaMalloc; by rewrite (proj2 (Z.eqb_neq n 0)), E by lia|]. done.
Qed.

Lemma cudaFree_spec a n l s : holds own (RDev a n :: l) s -> wp (cudaFree a) (fun _ s' => quiet own s s' /\ holds own l s') s.
Proof. intros H. apply wp_st_modify. split; [apply quiet_dev|by eapply holds_del_dev]. Qed.

Lemma getDeviceMemory_spec d size l s :
  holds own l s -> 0 <= size < 2 ^ 63 ->
  wp (getDeviceMemory d size) (fun r s' => quiet own s s' /\
    match r with
    | Ok (b, o) => exists n, holds own (RDev o n :: l) s' /\ b mod 65536 = 0 /\ o <= b /\ b + size <= o + n
    | Thrown => holds own l s'
    end) s.
Proof.
  intros H Hs. unfold getDeviceMemory. apply wp_bind, wp_fallible. intros e h Eh En.
  pose proof (holds_tick _ _ _ h H Eh ltac:(lia)) as H1. pose proof (quiet_tick own s h Eh ltac:(lia)) as Q1.
  destruct (e =? 0); cbn [negb]; [|by apply wp_ret]. rewrite (u64_id (size + _)) by word_lia.
  apply wp_bind. eapply wp_mono; [by apply cudaMalloc_spec; [|lia]|]. intros [a|] s2 [Q2 H2]; [|apply wp_ret; by subst].
  destruct H2 as (Ha & Hb & H2). apply wp_bind, wp_fallible. intros e2 h2 Eh2 En2.
  pose proof (holds_tick _ _ _ h2 H2 Eh2 ltac:(lia)) as H3. pose proof (quiet_tick own s2 h2 Eh2 ltac:(lia)) as Q3.
  assert (Q : quiet own s (tick s2 h2)) by (by etransitivity; [|etransitivity]).
  destruct (e2 =? 0); cbn [negb].
  - apply wp_ret. split; [done|]. exists (size + 64 * 1024). rewrite (u64_id (a + _)) by word_lia.
    destruct (align_up (a + 64 * 1024) 16 40 0xffffffffff0000) as [A1 A2]; try done; try lia.
    split_and!; [done|exact A1|lia..].
  - apply wp_bind. eapply wp_mono; [by eapply cudaFree_spec|]. intros _ s4 [Q4 H4]. apply wp_ret. split; [|done]. by etransitivity.
Qed.

Lemma getDeviceMemory2_spec d size l s :
  holds own l s -> 0 <= size < 2 ^ 63 ->
  wp (getDeviceMemory2 d size) (fun r s' => quiet own s s' /\
    match r with
    | Ok (b, o) => exists n, holds own (RDev o n :: l) s' /\ b mod 32 = 0 /\ o <= b /\ b + size <= o + n /\
        forall i, b <= i < b + size -> gs_mem s' i = 0
    | Thrown => holds own l s'
    end) s.
Proof.
  intros H Hs. unfold getDeviceMemory2. rewrite (u64_id (size + _)) by word_lia. apply wp_bind, wp_fallible. intros e h Eh En.
  pose proof (holds_tick _ _ _ h H Eh ltac:(lia)) as H1. pose proof (quiet_tick own s h Eh ltac:(lia)) as Q1.
  destruct (e =? 0); cbn [negb]; [|by apply wp_ret].
  apply wp_bind. eapply wp_mono; [by apply cudaMalloc_spec; [|lia]|]. intros [a|] s2 [Q2 H2]; [|apply wp_ret; by subst].
  destruct H2 as (Ha & Hb & H2). apply wp_bind. eapply wp_mono; [by eapply cudaMemset_spec|]. intros e2 s3 (Q3 & H3 & _ & Z3).
  assert (Q : quiet own s s3) by (by etransitivity; [|etransitivity]).
  destruct (Z.eqb_spec e2 0) as [->|]; cbn [negb].
  - apply wp_ret. split; [done|]. exists (size + 128). rewrite (u64_id (a + _)) by word_lia.
    destruct (align_up (a + 128) 5 51 0xffffffffffffe0) as [A1 A2]; try done; try lia.
    split_and!; [done|exact A1|lia|lia|]. intros i Hi. apply Z3; lia.
  - apply wp_bind. eapply wp_mono; [by eapply cudaFree_spec|]. intros _ s4 [Q4 H4]. apply wp_ret. split; [|done]. by etransitivity.
Qed.

Lemma free_memory_spec m r l s :
  frees m r -> holds own (r :: l) s -> wp (free_memory m) (fun _ s' => quiet own s s' /\ holds own l s' /\ hst s' = hst s) s.
Proof.
  intros F H. destruct m as [b|o]; cbn in *.
  - subst r. destruct (holds_del_host _ _ _ _ H) as [Hb H']. unfold host_free. apply wp_bind, wp_st_get.
    rewrite bool_decide_true by done. apply wp_st_modify. split; [apply quiet_hostmem|done].
  - destruct F as [n ->]. apply wp_st_modify. split; [apply quiet_dev|]. split; [by eapply holds_del_dev|done].
Qed.

Lemma release_buffer_spec p r l s :
  frees (bp_mem p) r -> holds own (r :: l) s -> wp (release_buffer p) (fun _ s' => quiet own s s' /\ holds own l s') s.
Proof. intros F H. eapply wp_mono; [by eapply free_memory_spec|]. by intros _ s' (? & ? & _). Qed.

(** Releasing a handle keeps the controllers somebody holds. *)
Lemma released_ctrl h x m md k c k' :
  h_ctrls h !! m_ctrl md = Some k -> h_ctrls (released h x m md k) !! c = Some k' ->
  exists k0, h_ctrls h !! c = Some k0 /\ c_handle k' = c_handle k0.
Proof.
  intros Hk. unfold released, drop_ref, close_ctrl. destruct (m_count md =? 1); cbn; [|by eauto].
  destruct (free_range_rest h md) as [Ec _]. destruct (c_count k =? 1); cbn.
  - destruct (c_device k); cbn; rewrite Ec; intros [_ ?]%lookup_delete_Some; eauto.
  - rewrite Ec. intros [[<- <-]|[_ ?]]%lookup_insert_Some; eauto.
Qed.

Lemma release_dma_spec p ct r l s :
  frees (dp_mem p) r -> holds own (RCont (dp_dma p) ct :: r :: l) s ->
  wp (release_dma p) (fun _ s' => quiet own s s' /\ holds own l s') s.
Proof.
  intros F H. pose proof (holds_cont _ _ _ _ _ H) as Hx. pose proof (ho_good _ _ _ H) as Gd.
  destruct (ok_h _ _ (g_ok _ _ Gd) _ _ Hx) as (md & k & va & rg & Hm & Hk & _).
  apply wp_bind, wp_lib. eapply wp_mono; [by eapply nvm_dma_unmap_spec|]. intros _ h1 ->.
  pose proof (good_released _ _ _ _ _ _ Gd Hx Hm Hk) as G1. set (h1 := upd _ _) in *.
  assert (H1 : holds own (r :: l) (tick s h1)).
  { eapply holds_del_cont; [done..|]. unfold h1, released. cbn. by destruct (_ =? _). }
  assert (Q1 : quiet own s (tick s h1)).
  { split; try done. intros c hd Hc (k0 & Hk0 & <-). destruct (proj2 (oc_own _ _ (ok_c _ _ (g_ok _ _ G1)) c)) as [k' Hk']; [lia|].
    exists k'. split; [done|]. destruct (released_ctrl _ _ _ _ _ _ _ Hk Hk') as (k1 & Hk1 & E). rewrite Hk0 in Hk1. by injection Hk1 as ->. }
  eapply wp_mono; [by eapply free_memory_spec|]. intros _ s2 (Q2 & H2 & _). split; [by etransitivity|done].
Qed.

Lemma createBuffer_spec size d l s :
  holds own l s -> 0 <= size < 2 ^ 63 ->
  wp (createBuffer size d) (fun r s' => quiet own s s' /\
    match r with
    | Ok p => exists r, frees (bp_mem p) r /\ holds own (r :: l) s' /\
        (0 <= d -> exists o n, r = RDev o n /\ bp_ptr p mod 32 = 0 /\ o <= bp_ptr p /\ bp_ptr p + size <= o + n /\
           forall i, bp_ptr p <= i < bp_ptr p + size -> gs_mem s' i = 0)
    | Thrown => holds own l s'
    end) s.
Proof.
  intros H Hs. unfold createBuffer. destruct (Z.ltb_spec d 0).
  - unfold createBuffer_host, host_alloc. apply wp_bind. destruct (host_malloc (gs_host s) size) as [a|] eqn:E.
    + eapply wp_eq; [by rewrite E|]. apply wp_ret. split; [apply quiet_hostmem|]. exists (RHost a). split_and!; [done| |lia].
      destruct (host_malloc_new _ _ _ E). by apply holds_add_host.
    + eapply wp_eq; [by rewrite E|]. by apply wp_ret.
  - apply wp_bind. eapply wp_mono; [by apply getDeviceMemory2_spec|]. intros [[b o]|] s1 [Q1 H1]; apply wp_ret; [|done].
    destruct H1 as (n & H1 & A). split; [done|]. exists (RDev o n). split_and!; [by exists n|done|]. intros _. exists o, n. done.
Qed.

(** The handle of a range the kernel has mapped for controller [c]. *)
Definition dma_for (hd : nvm_ctrl_t) (im : ioctl_mapping) (d : nvm_dma_t) : Prop :=
  exists io, addrs_ok (va_n_pages (im_range im)) io /\ d = handle_of hd (im_range im) (negb (va_remote (im_range im))) io.

(** A successful mapping call. *)
Lemma created_holds c k D l s h x :
  holds own l s -> roomy own c 0 l -> h_ctrls (hp (hst s)) !! c = Some k -> (next (hst s) <= next h)%nat ->
  created (hst s) c k D h x ->
  exists ct im, D im /\ dma_for (c_handle k) im (ct_handle ct) /\ holds own (RCont x ct :: l) (tick s h) /\ quiet own s (tick s h).
Proof.
  intros H Ro Hk Hn HN. pose proof (ho_good _ _ _ H) as Gd. pose proof (roomy_usable _ _ _ _ H Ro) as V.
  destruct (usable_ctrl _ _ _ Gd V) as (k' & Hk' & Hc & _ & _). rewrite Hk in Hk'. injection Hk' as <-.
  pose proof (good_created own (hst s) c k D h x Gd Hk ltac:(lia) Hn HN) as G1.
  destruct HN as (d & im & m & io & HD & _ & _ & Hx & _ & _ & _ & _ & Hio & E).
  destruct (new_md_eq (hp (hst s)) d im) as (bufs & Em & _).
  eexists _, im. split_and!; [exact HD| |eapply holds_add_cont; [done|exact G1|rewrite E, Em; cbn; reflexivity|]|].
  - by exists io.
  - eapply below_cont; [apply Gd|lia].
  - split; try done. intros c' hd _ (k' & Hk' & <-). unfold ctl. change (hp (hst (tick s h))) with (hp h). rewrite E, Em. cbn.
    destruct (decide (c' = c)) as [->|]; [rewrite lookup_insert_eq|rewrite lookup_insert_ne by done; by eauto].
    eexists. split; [done|]. cbn. rewrite Hk in Hk'. by injection Hk' as ->.
Qed.

(** A mapping call of the library: it fails and changes nothing, or adds a handle. *)
Lemma map_spec c hd l s (m : M (Z * option nat)) (D : ioctl_mapping -> Prop) :
  holds own l s -> roomy own c 0 l -> ctl s c hd ->
  (forall k, h_ctrls (hp (hst s)) !! c = Some k -> c_handle k = hd -> 1 <= c_count k < 2 ^ 32 - 1 ->
     has_device (hp (hst s)) k -> 0 < ctl_page_size hd < 2 ^ 64 -> wp m (outcome (hst s) (created (hst s) c k D)) (hst s)) ->
  wp (lib m) (fun r s' => quiet own s s' /\
    (fst r <> 0 /\ holds own l s' \/
     exists x ct im, r = (0, Some x) /\ D im /\ dma_for hd im (ct_handle ct) /\ holds own (RCont x ct :: l) s')) s.
Proof.
  intros H Ro (k & Hk & <-) Hm. destruct (usable_ctrl _ _ _ (ho_good _ _ _ H) (roomy_usable _ _ _ _ H Ro)) as (k' & Hk' & Hc & Hd & Hp).
  rewrite Hk in Hk'. injection Hk' as <-. apply wp_lib. eapply wp_mono; [by apply (Hm k)|].
  intros [e o] h [Hn [(He & Ho & E)|(x & [= -> ->] & HN)]]; cbn in *.
  - split; [by apply quiet_tick|]. left. split; [done|by apply holds_tick].
  - destruct (created_holds c k D l s h x H Ro Hk Hn HN) as (ct & im & ? & ? & ? & ?). split; [done|]. right. by exists x, ct, im.
Qed.

Lemma createDma_host_spec c hd size l s :
  holds own l s -> roomy own c 2 l -> ctl s c hd ->
  wp (createDma_host c size) (fun r s' => quiet own s s' /\
    match r with
    | Ok p => exists b ct, dp_mem p = HostMem b /\ 0 < b < 2 ^ 64 /\
        dma_for hd (descriptor (ctl_page_size hd) MAP_TYPE_HOST (User b) (NVM_CTRL_ALIGN (ctl_page_size hd) size)) (ct_handle ct) /\
        holds own (RCont (dp_dma p) ct :: RHost b :: l) s'
    | Thrown => holds own l s'
    end) s.
Proof.
  intros H [Ro1 Ro2] Hc. unfold createDma_host, host_alloc. apply wp_bind. destruct (host_malloc (gs_host s) size) as [b|] eqn:E.
  2: { eapply wp_eq; [by rewrite E|]. by apply wp_ret. }
  eapply wp_eq; [by rewrite E|]. destruct (host_malloc_new _ _ _ E) as [Hb Hn].
  pose proof (holds_add_host own b l s H Hn) as H1. set (s1 := set_hostmem s _) in *.
  apply wp_bind. eapply wp_mono.
  { apply (map_spec c hd (RHost b :: l) s1 _ (fun im => im = descriptor (ctl_page_size hd) MAP_TYPE_HOST (User b)
      (NVM_CTRL_ALIGN (ctl_page_size hd) size) /\ va_n_pages (im_range im) <> 0) H1); [split; cbn; lia|done|].
    intros k Hk <- ? ? ?. apply (nvm_dma_map_host_spec (hst s1) c k); try done. apply H. }
  intros [e o] s2 [Q2 [[He H2]|(x & ct & im & [= -> ->] & [-> _] & Hd & H2)]]; cbn in *.
  - destruct (holds_del_host _ _ _ _ H2) as [Hb2 H3].
    assert (Q : quiet own s (set_hostmem s2 (gs_host s2 ∖ {[b]})))
      by (etransitivity; [apply quiet_hostmem|etransitivity; [exact Q2|apply quiet_hostmem]]).
    assert (wp (host_free b;; mret Thrown) (fun r s' => quiet own s s' /\ match r : res DmaPtr with Ok _ => False | Thrown => holds own l s' end) s2) as W.
    { apply wp_bind, wp_bind, wp_st_get. rewrite bool_decide_true by done. apply wp_st_modify, wp_ret. by split. }
    destruct e; [done|..]; (eapply wp_mono; [exact W|]; by intros [?|] s' [? ?]).
  - apply wp_ret. split; [etransitivity; [apply quiet_hostmem|exact Q2]|]. by exists b, ct.
Qed.

Lemma store_vaddr_same x ct l s b :
  holds own (RCont x ct :: l) s -> dma_vaddr (ct_handle ct) = User b ->
  wp (lib (store_vaddr x b)) (fun _ s' => quiet own s s' /\ holds own (RCont x ct :: l) s' /\ gs_mem s' = gs_mem s) s.
Proof.
  intros H E. pose proof (holds_cont _ _ _ _ _ H) as Hx. apply wp_lib. unfold store_vaddr.
  apply wp_bind. eapply wp_eq; [done|]. apply wp_bind. eapply wp_deref; [exact Hx|]. eapply wp_eq; [done|].
  assert (Eh : set_conts (hp (hst s)) (<[x := MkCont (ct_map ct) (set_vaddr (ct_handle ct) (User b))]> (h_conts (hp (hst s)))) = hp (hst s)).
  { rewrite (insert_id _ _ (MkCont _ _)); [by destruct (hp (hst s))|]. rewrite Hx. destruct ct as [m []]. cbn in *. by subst. }
  split; [|split; [|done]]; [apply quiet_tick|apply holds_tick]; done.
Qed.

(** On failure what was allocated before stays allocated. *)
Lemma createDma_spec c hd size d l s :
  holds own l s -> roomy own c 2 l -> ctl s c hd -> 0 <= size < 2 ^ 63 ->
  wp (createDma c size d) (fun r s' => quiet own s s' /\
    match r with
    | Ok p => exists ct r, frees (dp_mem p) r /\ holds own (RCont (dp_dma p) ct :: r :: l) s' /\
        (0 <= d -> exists b o n, r = RDev o n /\ b mod 65536 = 0 /\ o <= b /\ b + size <= o + n /\
           dma_for hd (descriptor 65536 MAP_TYPE_CUDA (User b) size) (ct_handle ct) /\
           forall i, b <= i < b + size -> gs_mem s' i = 0)
    | Thrown => exists l', (length l' <= 2)%nat /\ holds own (l' ++ l) s'
    end) s.
Proof.
  intros H [Ro1 Ro2] Hc Hs. unfold createDma. destruct (Z.ltb_spec d 0).
  { eapply wp_mono; [by apply (createDma_host_spec c hd)|]. intros [p|] s1 [Q1 H1]; (split; [done|]).
    - destruct H1 as (b & ct & Em & _ & _ & H1). exists ct, (RHost b). rewrite Em. split_and!; [done..|lia].
    - exists []. split; [cbn; lia|done]. }
  apply wp_bind. eapply wp_mono; [by apply getDeviceMemory_spec|]. intros [[b o]|] s1 [Q1 H1].
  2: { apply wp_ret. split; [done|]. exists []. split; [cbn; lia|done]. }
  destruct H1 as (n & H1 & Hb & Ho & Hn). pose proof (qu_ctl _ _ _ Q1 c hd Ro1 Hc) as Hc1.
  apply wp_bind. eapply wp_mono.
  { apply (map_spec c hd (RDev o n :: l) s1 _ (fun im => im = descriptor 65536 MAP_TYPE_CUDA (User b) size /\
      va_n_pages (im_range im) <> 0) H1); [split; cbn; lia|done|].
    intros k Hk <- ? ? ?. apply (nvm_dma_map_device_spec (hst s1) c k); try done. apply H1. }
  intros [e ox] s2 [Q2 [[He H2]|(x & ct & im & [= -> ->] & [-> Hnz] & Hd & H2)]]; cbn in *.
  - assert (wp (mret Thrown) (fun r s' => quiet own s s' /\ match r : res DmaPtr with Ok _ => False | Thrown => exists l', (length l' <= 2)%nat /\ holds own (l' ++ l) s' end) s2) as W.
    { apply wp_ret. split; [by etransitivity|]. exists [RDev o n]. split; [cbn; lia|done]. }
    destruct e; [done|..]; (eapply wp_mono; [exact W|]; by intros [?|] s' [? ?]).
  - apply wp_bind. eapply wp_mono; [by eapply cudaMemset_spec|]. intros e s3 (Q3 & H3 & _ & Z3).
    assert (Q : quiet own s s3) by (by etransitivity; [|etransitivity]). destruct (Z.eqb_spec e 0) as [->|]; cbn [negb].
    + apply wp_bind. eapply wp_mono; [apply (store_vaddr_same x ct _ _ b H3); destruct Hd as (io & _ & ->); done|].
      intros _ s4 (Q4 & H4 & M4). apply wp_ret. split; [by etransitivity|]. exists ct, (RDev o n). split_and!; [by exists n|done|].
      intros _. exists b, o, n. split_and!; try done. rewrite M4. by apply Z3.
    + apply wp_bind, wp_st_modify, wp_ret. split; [etransitivity; [exact Q|apply quiet_dev]|].
      destruct (decide (b = o)) as [->|Hne].
      * exists [RCont x ct]. split; [cbn; lia|]. eapply (holds_del_dev own o n), (holds_perm own (RCont x ct :: RDev o n :: l)); [|done]. apply Permutation_swap.
      * exists [RCont x ct; RDev o n]. split; [cbn; lia|]. apply holds_del_none; [done|]. intros n' Hin.
        destruct (ho_apart _ _ _ H3) as [A1 A2]. destruct (A1 b n' Hin). assert (size <> 0) by (intros ->; by apply Hnz).
        destruct (A2 b n' o n Hin); [by apply list_elem_of_here|done|lia..].
Qed.
End buffer.
End SetupInv.
