(* ===== verification/GpuQueuePair.v ===== *)
(** Admin commands and queue pairs of [GpuSetup]: what a command changes, what a
    [QueuePair] holds, and what the GPU code can rely on in one. *)
From Stdlib Require Import ZArith Lia List Bool.
From stdpp Require Import base list gmap gmultiset numbers functions.
From S2P Require Import Prelude Exec NvmUtil NvmCmd NvmError NvmQueue Host Dma DmaSpec DmaInv DmaApi Rpc Admin GpuSetup GpuSetupInv.
Import Host Dma DmaSpec DmaInv DmaApi Rpc Admin Setup SetupInv.

Import ListNotations.
Local Open Scope Z_scope.

Module QueuePairs.

(** ** Admin commands *)

(** As [quiet], but the queue pair [a] may have carried commands. *)
Record calm (own : nat -> Z) (a : nat) (s s' : gpu_state) : Prop := {
  ca_refs : rs_refs (gs_rpc s') = rs_refs (gs_rpc s);
  ca_admins la : rs_admins (gs_rpc s) !! a = Some la ->
    exists la', rs_admins (gs_rpc s') = <[a := la']> (rs_admins (gs_rpc s)) /\ la_qmem la' = la_qmem la;
  ca_fds : gs_fds s' = gs_fds s;
  ca_windows : gs_windows s' = gs_windows s;
  ca_cmds : exists cmds, gs_cmds s' = gs_cmds s ++ cmds;
  ca_next : (next (hst s) <= next (hst s'))%nat;
  ca_ctl c hd : 1 <= own c -> ctl s c hd -> ctl s' c hd;
  ca_zero i : gs_mem s i = 0 -> gs_mem s' i = 0
}.

#[export] Instance calm_preorder own a : PreOrder (calm own a).
Proof.
  split.
  - intros s. split; try done.
    + intros la Hla. exists la. by rewrite insert_id.
    + exists []. by rewrite app_nil_r.
  - intros s1 s2 s3 [R1 A1 F1 W1 [l1 C1] N1 T1 Z1] [R2 A2 F2 W2 [l2 C2] N2 T2 Z2]. split; try congruence; try auto; [|exists (l1 ++ l2); by rewrite C2, C1, app_assoc|lia].
    intros la Hla. destruct (A1 la Hla) as (la1 & E1 & Q1). destruct (A2 la1) as (la2 & E2 & Q2); [by rewrite E1, lookup_insert_eq|].
    exists la2. rewrite E2, E1, insert_insert_eq. split; [done|congruence].
Qed.

Lemma quiet_calm own a s s' : quiet own s s' -> calm own a s s'.
Proof.
  intros []. split; try done; [|exists []; by rewrite app_nil_r]. intros la Hla. exists la. rewrite insert_id; [done|congruence].
Qed.

(** The reference [ref] of controller [c] is bound to the idle queue pair [a], whose memory is the handle [x]. *)
Definition ready (ref c a x : nat) (s : gpu_state) : Prop :=
  rs_refs (gs_rpc s) !! ref = Some (local_ref c a) /\
  exists la, rs_admins (gs_rpc s) !! a = Some la /\ la_qmem la = x /\ admin_idle la /\
    0 <= la_timeout la /\ la_timeout la * 1000000 < 2 ^ 64.

Lemma ready_quiet own ref c a x s s' : quiet own s s' -> ready ref c a x s -> ready ref c a x s'.
Proof. intros Q [Hr Ha]. unfold ready. by rewrite (qu_refs _ _ _ Q), (qu_admins _ _ _ Q). Qed.

(** One command: it changes the queue pair, the identify page and the log. *)
Definition talked (a : nat) (cmds : list (list Z)) (s s' : gpu_state) : Prop :=
  exists la la' page, rs_admins (gs_rpc s) !! a = Some la /\ la_qmem la' = la_qmem la /\
    s' = set_cmds (set_page (set_rpc s (set_admins (gs_rpc s) (<[a := la']> (rs_admins (gs_rpc s))))) page) (gs_cmds s ++ cmds).

Lemma talked_calm own a cmds s s' : talked a cmds s s' -> calm own a s s'.
Proof.
  intros (la & la' & page & Ha & E & ->). split; try done; [|by exists cmds].
  intros la0 Hla0. exists la'. rewrite Ha in Hla0. by injection Hla0 as <-.
Qed.

Lemma talked_holds own a cmds l s s' : talked a cmds s s' -> holds own l s -> holds own l s'.
Proof. intros (la & la' & page & _ & _ & ->) H. by eapply holds_same. Qed.

Lemma talked_heap a cmds s s' : talked a cmds s s' -> hst s' = hst s /\ gs_mem s' = gs_mem s /\ gs_cmds s' = gs_cmds s ++ cmds.
Proof. by intros (la & la' & page & _ & _ & ->). Qed.

Section admin.
Context (dev : nat -> device) (identify : nat -> list Z -> list Z -> list Z).

Lemma execute_command_rest admin cmd d err cpl admin' :
  execute_command admin cmd d = Some (err, cpl, admin') -> la_qmem admin' = la_qmem admin /\ la_timeout admin' = la_timeout admin.
Proof.
  unfold execute_command. destruct (nvm_sq_enqueue _) as [[p|] q]; [|by intros [= <- <- <-]].
  destruct (nvm_sq_submit q) as [db q']. destruct (d _ _ _) as [mems mem].
  destruct (nvm_cq_dequeue_block _ _ _) as [[[x|] acq]|]; [|by intros [= <- <- <-]|done].
  destruct (nvm_cq_update acq). by intros [= <- <- <-].
Qed.

(** A command on an idle queue pair; it stays idle unless the command times out. *)
Lemma raw_rpc_spec ref c a x k cmd cpl s :
  ready ref c a x s ->
  exists st cpl' s', nvm_raw_rpc (aq_of dev identify (local_ref c a) ref k) cmd cpl (Some s) = (st, cpl', Some s') /\
    talked a [cmd] s s' /\ (st = 0 -> ready ref c a x s').
Proof.
  intros [Hr (la & Ha & Hx & Hi & Ht0 & Ht1)].
  destruct (execute_command_spec la cmd (dev (length (gs_cmds s))) Hi Ht0 Ht1) as (cid & err & o & la' & E & H).
  destruct (execute_command_rest _ _ _ _ _ _ E) as [Eq Et].
  unfold nvm_raw_rpc, aq_of, local_ref. cbn [ar_stub rf_stub]. unfold admin_stub. cbn [mbind option_bind].
  unfold execute. unfold mbind, ST_bind, st_get, deref. rewrite Hr. cbn [rf_data local_ref]. cbn -[execute_command]. rewrite Ha. cbn -[execute_command].
  rewrite E. cbn. eexists _, _, _. split; [done|]. split; [by exists la, la', (identify (length (gs_cmds s)) cmd (gs_page s))|].
  intros E0%err_pack_zero. split; [done|]. exists la'. cbn. rewrite lookup_insert_eq. split_and!; try done; [congruence| |lia..].
  destruct (dev _ _ _ _) as [mems mem]. destruct H as [(-> & _ & _)|(j & y & _ & _ & _ & _ & _ & Hidle)]; [done|exact Hidle].
Qed.

Lemma wp_with_admin {A} ref c a x (f : aq_ref -> world -> A * world) Q s hd :
  ready ref c a x s -> ctl s c hd ->
  (forall k, c_handle k = hd -> exists v s', f (aq_of dev identify (local_ref c a) ref k) (Some s) = (v, Some s') /\ Q v s') ->
  wp (with_admin dev identify ref f) Q s.
Proof.
  intros [Hr _] (k & Hk & E) H. destruct (H k E) as (v & s' & Ef & HQ). eapply wp_eq; [|exact HQ].
  unfold with_admin. rewrite Hr. cbn [rf_ctrl local_ref]. unfold hst in Hk. by rewrite Hk, Ef.
Qed.

Lemma talked_nothing ref c a x s : ready ref c a x s -> talked a [] s s.
Proof.
  intros [_ (la & Ha & _)]. exists la, la, (gs_page s). split_and!; [done..|]. rewrite insert_id, app_nil_r by done.
  by destruct s as [[]].
Qed.

Lemma talked_page ref c a x s v : ready ref c a x s -> ready ref c a x (set_page s v) /\ talked a [] s (set_page s v).
Proof.
  intros R. split; [done|]. destruct R as [_ (la & Ha & _)]. exists la, la, v. split_and!; [done..|].
  rewrite insert_id, app_nil_r by done. by destruct s as [[]].
Qed.

Lemma talked_trans a l1 l2 s1 s2 s3 : talked a l1 s1 s2 -> talked a l2 s2 s3 -> talked a (l1 ++ l2) s1 s3.
Proof.
  intros (la1 & la2 & p1 & H1 & Q1 & ->) (la3 & la4 & p2 & H2 & Q2 & ->). cbn in H2. rewrite lookup_insert_eq in H2. injection H2 as <-.
  exists la1, la4, p2. split_and!; [done|congruence|]. cbn. by rewrite insert_insert_eq, app_assoc.
Qed.

(** The outcome of a call of [Admin]: the world it leaves, idle again when it succeeds. *)
Definition answered (ref c a x : nat) (s s' : gpu_state) (st : Z) : Prop :=
  (exists cmds, talked a cmds s s') /\ (nvm_ok st = true -> ready ref c a x s').

Lemma answered_refused ref c a x s st : ready ref c a x s -> st <> 0 -> answered ref c a x s s st.
Proof.
  intros R E. split; [exists []; by eapply talked_nothing|]. unfold nvm_ok. intros H%Z.eqb_eq. done.
Qed.

Section calls.
Context (ref c a x : nat) (k : controller) (s : gpu_state) (R : ready ref c a x s).
Let aq := aq_of dev identify (local_ref c a) ref k.

Lemma rpc_answered cmd cpl :
  exists st cpl' s', nvm_raw_rpc aq cmd cpl (Some s) = (st, cpl', Some s') /\ answered ref c a x s s' st.
Proof.
  destruct (raw_rpc_spec ref c a x k cmd cpl s R) as (st & cpl' & s' & E & T & H). exists st, cpl', s'. split; [done|].
  split; [by exists [cmd]|]. intros E0%Z.eqb_eq. auto.
Qed.

Lemma cq_create_answered addr old id dma offset qs np :
  exists st q s', nvm_admin_cq_create addr (Some aq) old id dma offset qs np (Some s) = (st, q, Some s') /\ answered ref c a x s s' st.
Proof.
  unfold nvm_admin_cq_create. cbv zeta.
  match goal with |- context [if qs =? 0 then ?v else qs] => set (qs' := if qs =? 0 then v else qs) in * end.
  repeat lazymatch goal with
  | |- context [if ?b then (?st, ?q, Some s) else _] => destruct b eqn:?; [exists st, q, s; split; [done|by apply answered_refused]|]
  end.
  unfold nvm_queue_clear. rewrite Heqb0. cbn -[nvm_raw_rpc admin_cq_create Z.pow].
  match goal with |- context [nvm_raw_rpc _ ?cmd ?cpl0 _] => destruct (rpc_answered cmd cpl0) as (st & cpl & s' & E & A) end.
  unfold aq in *. rewrite E.
  destruct (nvm_ok st) eqn:Est; cbn; eexists _, _, s'; (split; [done|]); [|done]. by apply Z.eqb_eq in Est as ->.
Qed.

Lemma sq_create_answered addr old cq id dma offset qs np :
  exists st q s', nvm_admin_sq_create addr (Some aq) old cq id dma offset qs np (Some s) = (st, q, Some s') /\ answered ref c a x s s' st.
Proof.
  unfold nvm_admin_sq_create. cbv zeta.
  match goal with |- context [if qs =? 0 then ?v else qs] => set (qs' := if qs =? 0 then v else qs) in * end.
  repeat lazymatch goal with
  | |- context [if ?b then (?st, ?q, Some s) else _] => destruct b eqn:?; [exists st, q, s; split; [done|by apply answered_refused]|]
  end.
  unfold nvm_queue_clear. rewrite Heqb0. cbn -[nvm_raw_rpc admin_sq_create Z.pow].
  match goal with |- context [nvm_raw_rpc _ ?cmd ?cpl0 _] => destruct (rpc_answered cmd cpl0) as (st & cpl & s' & E & A) end.
  unfold aq in *. rewrite E.
  destruct (nvm_ok st) eqn:Est; cbn; eexists _, _, s'; (split; [done|]); [|done]. by apply Z.eqb_eq in Est as ->.
Qed.


Lemma rpc_answered_cleared cmd cpl :
  exists st cpl' s', nvm_raw_rpc aq cmd cpl (world_clear (Some s)) = (st, cpl', Some s') /\ answered ref c a x s s' st.
Proof.
  destruct (talked_page ref c a x s (repeat 0 0x1000) R) as [R' T].
  destruct (raw_rpc_spec ref c a x k cmd cpl (set_page s (repeat 0 0x1000)) R') as (st & cpl' & s' & E & T' & H).
  exists st, cpl', s'. split; [exact E|]. split; [exists ([] ++ [cmd]); by eapply talked_trans|]. intros E0%Z.eqb_eq. auto.
Qed.

Lemma ctrl_info_answered cap ver ptr io :
  exists st o s', nvm_admin_ctrl_info world_page world_clear aq cap ver true ptr io (Some s) = (st, o, Some s') /\
    answered ref c a x s s' st /\ (nvm_ok st = true -> is_Some o).
Proof.
  unfold nvm_admin_ctrl_info. cbv zeta. destruct (negb true || negb ptr || (io =? 0)).
  { eexists _, _, s. split; [done|]. split; [by apply answered_refused|done]. }
  destruct (rpc_answered_cleared (admin_identify_ctrl zero_cmd io) zero_cpl) as (st & cpl & s' & -> & A).
  destruct (nvm_ok st) eqn:Est; cbn [negb]; eexists _, _, s'; (split; [reflexivity|]); [|by rewrite Est].
  apply Z.eqb_eq in Est as ->. split; [done|by eauto].
Qed.

Lemma ns_info_answered ns_id ptr io :
  exists st o s', nvm_admin_ns_info world_page world_clear aq true ns_id ptr io (Some s) = (st, o, Some s') /\
    answered ref c a x s s' st /\
    (nvm_ok st = true -> exists ns e, o = Some ns /\ ni_ns_id ns = ns_id /\ 0 <= e < 256 /\ ni_lba_data_size ns = 2 ^ e).
Proof.
  unfold nvm_admin_ns_info. cbv zeta. destruct (negb true || negb ptr || (io =? 0)).
  { eexists _, _, s. split; [done|]. split; [by apply answered_refused|done]. }
  destruct (rpc_answered_cleared (admin_identify_ns zero_cmd ns_id io) zero_cpl) as (st & cpl & s' & -> & A).
  destruct (nvm_ok st) eqn:Est; cbn [negb]; eexists _, _, s'; (split; [reflexivity|]); [|by rewrite Est].
  apply Z.eqb_eq in Est as ->. split; [done|]. intros _. eexists _, _. split_and!; [done|done| | |cbn [ni_lba_data_size]; apply Z.shiftl_1_l].
  all: rewrite RB_spec by lia; pose proof (Z.mod_pos_bound); change (23 - 16 + 1) with 8; change 256 with (2 ^ 8); apply Z.mod_pos_bound; lia.
Qed.

Lemma get_num_queues_answered n_cqs n_sqs :
  exists st n m s', nvm_admin_get_num_queues aq n_cqs n_sqs (Some s) = (st, n, m, Some s') /\ answered ref c a x s s' st.
Proof.
  unfold nvm_admin_get_num_queues. cbv zeta.
  destruct (rpc_answered (admin_current_num_queues zero_cmd false 0 0) zero_cpl) as (st & cpl & s' & E & A). unfold aq in *. rewrite E.
  destruct (nvm_ok st) eqn:Est; cbn [negb]; eexists _, _, _, s'; (split; [reflexivity|]); [|done].
  by apply Z.eqb_eq in Est as ->.
Qed.

Lemma request_num_queues_answered n_cqs n_sqs :
  exists st n m s', nvm_admin_request_num_queues aq n_cqs n_sqs (Some s) = (st, n, m, Some s') /\ answered ref c a x s s' st /\
    (nvm_ok st = true -> 0 <= n < 65536 /\ 0 <= m < 65536).
Proof.
  unfold nvm_admin_request_num_queues. cbv zeta. destruct ((n_cqs =? 0) || (n_sqs =? 0)).
  { eexists _, _, _, s. split; [done|]. split; [by apply answered_refused|done]. }
  destruct (rpc_answered (admin_current_num_queues zero_cmd true n_cqs n_sqs) zero_cpl) as (st & cpl & s' & E & A). unfold aq in *. rewrite E.
  destruct (Z.eqb_spec st 0) as [->|]; cbn [negb]; eexists _, _, _, s'; (split; [reflexivity|]); (split; [done|]).
  - intros _. split; apply u16_range.
  - unfold nvm_ok. by rewrite (proj2 (Z.eqb_neq st 0)).
Qed.
End calls.
End admin.

(** ** Members *)

Definition dma_res (o : option DmaPtr) (l : list resource) : Prop :=
  match o with Some p => exists ct r, frees (dp_mem p) r /\ l = [RCont (dp_dma p) ct; r] | None => l = [] end.
Definition buf_res (o : option BufferPtr) (l : list resource) : Prop :=
  match o with Some p => exists r, frees (bp_mem p) r /\ l = [r] | None => l = [] end.

(** What the members of a queue pair hold, the last one first. *)
Definition members_own (m : qp_members) (l : list resource) : Prop :=
  exists l1 l2 l3 l4 l5 l6 l7,
    dma_res (sq_mem m) l1 /\ dma_res (cq_mem m) l2 /\ buf_res (sq_tickets m) l3 /\ buf_res (sq_tail_mark m) l4 /\
    buf_res (sq_cid m) l5 /\ buf_res (cq_head_mark m) l6 /\ buf_res (cq_pos_locks m) l7 /\
    l = l7 ++ l6 ++ l5 ++ l4 ++ l3 ++ l2 ++ l1.

(** Byte ranges inside the device allocations of [l], one in each. *)
Definition inside (rs : list (Z * Z)) (l : list resource) : Prop :=
  Forall2 (fun r a => a.1 <= r.1 /\ r.1 + r.2 <= a.1 + a.2) rs (devs_of l).

Definition zeroed (s : gpu_state) (r : Z * Z) : Prop := forall i, r.1 <= i < r.1 + r.2 -> gs_mem s i = 0.

Definition disjoint_ranges (rs : list (Z * Z)) : Prop :=
  forall i j r q, rs !! i = Some r -> rs !! j = Some q -> i <> j -> r.1 + r.2 <= q.1 \/ q.1 + q.2 <= r.1.

Lemma devs_of_app l l' : devs_of (l ++ l') = devs_of l ++ devs_of l'.
Proof. apply omap_app. Qed.

Lemma inside_disjoint own rs l l' s : holds own (l ++ l') s -> inside rs l -> disjoint_ranges rs.
Proof.
  intros H Hi i j r q Er Eq Hne. unfold inside in Hi.
  destruct (Forall2_lookup_l _ _ _ _ _ Hi Er) as (a & Ea & Ha). destruct (Forall2_lookup_l _ _ _ _ _ Hi Eq) as (b & Eb & Hb).
  pose proof (ho_devs_nodup _ _ _ H) as N. destruct (ho_apart _ _ _ H) as [_ A]. rewrite devs_of_app in *.
  assert (Hab : a.1 <> b.1).
  { intros E. apply Hne. eapply (NoDup_lookup _ i j a.1 N); rewrite list_lookup_fmap.
    - by rewrite lookup_app_l, Ea by (by eapply lookup_lt_Some).
    - by rewrite lookup_app_l, Eb, E by (by eapply lookup_lt_Some). }
  destruct (A a.1 a.2 b.1 b.2) as [?|?]; [..|lia|lia]; try done; apply elem_of_app; left; [destruct a|destruct b]; by eapply list_elem_of_lookup_2.
Qed.

Lemma zeroed_mono s s' r : (forall i, gs_mem s i = 0 -> gs_mem s' i = 0) -> zeroed s r -> zeroed s' r.
Proof. intros H Hz i Hi. auto. Qed.

Section members.
Context {K : Kernel} {C : Cuda} (own : nat -> Z).

Lemma release_opt_dma o l1 l s :
  dma_res o l1 -> holds own (l1 ++ l) s -> wp (release_opt release_dma o) (fun _ s' => quiet own s s' /\ holds own l s') s.
Proof.
  destruct o as [p|]; cbn; [|by intros -> H; apply wp_ret]. intros (ct & r & F & ->) H. by eapply release_dma_spec.
Qed.

Lemma release_opt_buf o l1 l s :
  buf_res o l1 -> holds own (l1 ++ l) s -> wp (release_opt release_buffer o) (fun _ s' => quiet own s s' /\ holds own l s') s.
Proof.
  destruct o as [p|]; cbn; [|by intros -> H; apply wp_ret]. intros (r & F & ->) H. by eapply release_buffer_spec.
Qed.

Lemma release_members_spec m l0 l s :
  members_own m l0 -> holds own (l0 ++ l) s -> wp (release_members m) (fun _ s' => quiet own s s' /\ holds own l s') s.
Proof.
  intros (l1 & l2 & l3 & l4 & l5 & l6 & l7 & M1 & M2 & M3 & M4 & M5 & M6 & M7 & ->). rewrite <- !app_assoc. intros H. unfold release_members.
  apply wp_bind. eapply wp_mono; [by eapply release_opt_buf|]. intros _ s1 [Q1 H1].
  apply wp_bind. eapply wp_mono; [by eapply release_opt_buf|]. intros _ s2 [Q2 H2].
  apply wp_bind. eapply wp_mono; [by eapply release_opt_buf|]. intros _ s3 [Q3 H3].
  apply wp_bind. eapply wp_mono; [by eapply release_opt_buf|]. intros _ s4 [Q4 H4].
  apply wp_bind. eapply wp_mono; [by eapply release_opt_buf|]. intros _ s5 [Q5 H5].
  apply wp_bind. eapply wp_mono; [by eapply release_opt_dma|]. intros _ s6 [Q6 H6].
  eapply wp_mono; [by eapply release_opt_dma|]. intros _ s7 [Q7 H7].
  split; [|done]. do 6 (etransitivity; [eassumption|]). done.
Qed.

(** Building the next buffer of a queue pair. *)
Lemma guard_buffer {B} size d m l0 l (k : BufferPtr -> G (res B)) Q s :
  holds own (l0 ++ l) s -> 0 <= size < 2 ^ 63 -> members_own m l0 ->
  (forall p r s', quiet own s s' -> frees (bp_mem p) r -> holds own ((r :: l0) ++ l) s' ->
     (0 <= d -> bp_ptr p mod 32 = 0 /\ zeroed s' (bp_ptr p, size) /\ forall rs, inside rs l0 -> inside ((bp_ptr p, size) :: rs) (r :: l0)) ->
     wp (k p) Q s') ->
  (forall s', quiet own s s' -> holds own l s' -> Q Thrown s') ->
  wp (guard (createBuffer size d) (release_members m) k) Q s.
Proof.
  intros H Hs Hm Hk Ht. apply wp_guard. eapply wp_mono; [by apply createBuffer_spec|]. intros [p|] s1 [Q1 H1].
  - destruct H1 as (r & F & H1 & D). apply (Hk p r); [done..|]. intros Hd. destruct (D Hd) as (o & n & -> & A & E1 & E2 & Z).
    split_and!; [done|done|]. intros rs Hi. unfold inside. change (devs_of (RDev o n :: l0)) with ((o, n) :: devs_of l0). by constructor.
  - apply wp_bind. eapply wp_mono; [by eapply release_members_spec|]. intros _ s2 [Q2 H2]. apply wp_ret, Ht; [by etransitivity|done].
Qed.

(** The marks, locks, tickets and identifiers of a queue pair. *)
Definition gpu_arrays (sq cq : gpu_queue) : list (Z * Z) :=
  let n q := q_qs (gq_queue q) * sizeof_padded_struct in
  [(gq_pos_locks cq, n cq); (gq_head_mark cq, n cq); (gq_cid sq, 65536 * sizeof_padded_struct);
   (gq_tail_mark sq, n sq); (gq_tickets sq, n sq)].

Lemma init_spec sq cq m l0 d l s :
  holds own (l0 ++ l) s -> members_own m l0 -> m = MkMembers (sq_mem m) (cq_mem m) None None None None None ->
  0 <= q_qs sq <= 65536 -> 0 <= q_qs cq <= 65536 ->
  wp (init_gpu_specific_struct sq cq m d) (fun r s' => quiet own s s' /\
    match r with
    | Ok (gsq, gcq, m') => exists l1, members_own m' (l1 ++ l0) /\ holds own ((l1 ++ l0) ++ l) s' /\
        sq_mem m' = sq_mem m /\ cq_mem m' = cq_mem m /\ length l1 = 5%nat /\
        gq_queue gsq = sq /\ gq_queue gcq = cq /\ gq_qs_minus_1 gsq = u32 (q_qs sq - 1) /\ gq_qs_log2 gsq = Z.log2 (q_qs sq) /\
        gq_qs_minus_1 gcq = u32 (q_qs cq - 1) /\ gq_qs_log2 gcq = Z.log2 (q_qs cq) /\
        (0 <= to_int d -> Forall (zeroed s') (gpu_arrays gsq gcq) /\ Forall (fun r => r.1 mod 32 = 0) (gpu_arrays gsq gcq) /\
           forall rs, inside rs l0 -> inside (gpu_arrays gsq gcq ++ rs) (l1 ++ l0))
    | Thrown => holds own l s'
    end) s.
Proof.
  intros H Hm Em Hq1 Hq2. destruct Hm as (l1 & l2 & l3 & l4 & l5 & l6 & l7 & M1 & M2 & M3 & M4 & M5 & M6 & M7 & El).
  rewrite Em in M3, M4, M5, M6, M7. cbn in M3, M4, M5, M6, M7. subst l3 l4 l5 l6 l7. cbn [app] in El. rewrite Em.
  set (s0 := sq_mem m) in *. set (c0 := cq_mem m) in *. unfold init_gpu_specific_struct. cbn [sq_mem cq_mem].
  assert (E1 : u64 (q_qs sq * sizeof_padded_struct) = q_qs sq * sizeof_padded_struct) by (unfold sizeof_padded_struct; word_lia).
  assert (E2 : u64 (q_qs cq * sizeof_padded_struct) = q_qs cq * sizeof_padded_struct) by (unfold sizeof_padded_struct; word_lia).
  rewrite E1, E2. assert (Hn1 : 0 <= q_qs sq * sizeof_padded_struct < 2 ^ 63) by (unfold sizeof_padded_struct; lia).
  assert (Hn2 : 0 <= q_qs cq * sizeof_padded_struct < 2 ^ 63) by (unfold sizeof_padded_struct; lia).
  eapply (guard_buffer _ _ _ l0 l); [done|done|exists l1, l2, [], [], [], [], []; by rewrite El| |done].
  intros p1 r1 s1 Q1 F1 H1 D1.
  eapply (guard_buffer _ _ _ (r1 :: l0) l); [done|done|exists l1, l2, [r1], [], [], [], []; rewrite El; split_and!; try done; by exists r1| |].
  2: { intros s' Q' H'. split; [by etransitivity|done]. }
  intros p2 r2 s2 Q2 F2 H2 D2.
  eapply (guard_buffer _ _ _ (r2 :: r1 :: l0) l);
    [done|done|exists l1, l2, [r1], [r2], [], [], []; rewrite El; split_and!; try done; [by exists r1|by exists r2]| |].
  2: { intros s' Q' H'. split; [by etransitivity; [|etransitivity]|done]. }
  intros p3 r3 s3 Q3 F3 H3 D3.
  eapply (guard_buffer _ _ _ (r3 :: r2 :: r1 :: l0) l);
    [done|done|exists l1, l2, [r1], [r2], [r3], [], []; rewrite El; split_and!; try done; [by exists r1|by exists r2|by exists r3]| |].
  2: { intros s' Q' H'. split; [by etransitivity; [|etransitivity; [|etransitivity]]|done]. }
  intros p4 r4 s4 Q4 F4 H4 D4.
  eapply (guard_buffer _ _ _ (r4 :: r3 :: r2 :: r1 :: l0) l);
    [done|done|exists l1, l2, [r1], [r2], [r3], [r4], []; rewrite El; split_and!; try done; [by exists r1|by exists r2|by exists r3|by exists r4]| |].
  2: { intros s' Q' H'. split; [by etransitivity; [|etransitivity; [|etransitivity; [|etransitivity]]]|done]. }
  intros p5 r5 s5 Q5 F5 H5 D5.
  assert (Q25 : quiet own s2 s5) by (by etransitivity; [|etransitivity]). assert (Q15 : quiet own s1 s5) by (by etransitivity).
  apply wp_ret. split; [by etransitivity|]. exists [r5; r4; r3; r2; r1]. cbn -[Z.mul]. split_and!; try done.
  - exists l1, l2, [r1], [r2], [r3], [r4], [r5]. rewrite El. split_and!; try done; eexists; done.
  - intros Hd. destruct (D1 Hd) as (A1 & Z1 & I1). destruct (D2 Hd) as (A2 & Z2 & I2). destruct (D3 Hd) as (A3 & Z3 & I3).
    destruct (D4 Hd) as (A4 & Z4 & I4). destruct (D5 Hd) as (A5 & Z5 & I5). unfold gpu_arrays. cbn -[Z.mul]. split_and!.
    + repeat apply Forall_cons; try done.
      * eapply zeroed_mono; [|done]. apply Q5.
      * eapply zeroed_mono; [|done]. apply (qu_zero own s3). by etransitivity.
      * eapply zeroed_mono; [|done]. by apply (qu_zero own s2).
      * eapply zeroed_mono; [|done]. by apply (qu_zero own s1).
    + repeat apply Forall_cons; done.
    + intros rs Hrs. by apply I5, I4, I3, I2, I1.
Qed.
End members.

(** ** Creating queues *)

Section create.
Context (dev : nat -> device) (identify : nat -> list Z -> list Z -> list Z) (lib_addr : nat -> Z) (blank : nvm_queue_t).
Context (ref c a x : nat) (hd : nvm_ctrl_t) (Hps : 0 < ctl_page_size hd).

(** The descriptor of a queue created at the start of [dma]. *)
Definition queue_of (is_cq : bool) (id : Z) (dma : nvm_dma_t) (qs : Z) (q : nvm_queue_t) : Prop :=
  q_vaddr q = NVM_DMA_OFFSET (addr lib_addr) dma 0 /\ q_ioaddr q = nth 0 (dma_ioaddrs dma) 0 /\ new_queue is_cq hd id dma 0 qs q.

Lemma cq_create_spec id dma qs s :
  ready ref c a x s -> ctl s c hd -> qs <> 0 ->
  wp (with_admin dev identify ref (fun r => nvm_admin_cq_create (addr lib_addr) (Some r) blank id dma 0 qs false)) (fun v s' =>
    exists cmds, talked a cmds s s' /\
      (nvm_ok v.1 = true -> ready ref c a x s' /\ queue_of true id dma qs v.2 /\
         cmds = [admin_cq_create zero_cmd v.2 (q_ioaddr v.2) false])) s.
Proof.
  intros R Hc Hqs. eapply wp_with_admin; [done..|]. intros k Ek.
  destruct (cq_create_answered dev identify ref c a x k s R (addr lib_addr) blank id dma 0 qs false) as (st & q & s' & E & A).
  exists (st, q), s'. split; [exact E|]. destruct (nvm_ok st) eqn:Est; cbn [fst snd].
  - apply Z.eqb_eq in Est as ->. apply cq_create_inv in E as (qs' & cpl & (Eq & Ev & Ei) & Nq & E); [|cbn; by rewrite Ek].
    rewrite Eq in Nq by done. cbn [ar_ctrl aq_of] in Nq. rewrite Ek in Nq.
    match type of E with nvm_raw_rpc _ ?cmd _ _ = _ => destruct (raw_rpc_spec dev identify ref c a x k cmd zero_cpl s R) as (st & cpl' & s2 & E2 & T & H) end.
    rewrite E in E2. injection E2 as <- <- <-. eexists. split; [exact T|]. intros _. split_and!; [by apply H|by split|]. by rewrite Ei.
  - destruct A as [[cmds T] _]. exists cmds. split; [done|]. by rewrite Est.
Qed.

Lemma sq_create_spec cq id dma qs s :
  ready ref c a x s -> ctl s c hd -> qs <> 0 ->
  wp (with_admin dev identify ref (fun r => nvm_admin_sq_create (addr lib_addr) (Some r) blank cq id dma 0 qs false)) (fun v s' =>
    exists cmds, talked a cmds s s' /\
      (nvm_ok v.1 = true -> ready ref c a x s' /\ queue_of false id dma qs v.2 /\
         cmds = [admin_sq_create zero_cmd v.2 cq (q_ioaddr v.2) false])) s.
Proof.
  intros R Hc Hqs. eapply wp_with_admin; [done..|]. intros k Ek.
  destruct (sq_create_answered dev identify ref c a x k s R (addr lib_addr) blank cq id dma 0 qs false) as (st & q & s' & E & A).
  exists (st, q), s'. split; [exact E|]. destruct (nvm_ok st) eqn:Est; cbn [fst snd].
  - apply Z.eqb_eq in Est as ->. apply sq_create_inv in E as (qs' & cpl & (Eq & Ev & Ei) & Nq & E); [|cbn; by rewrite Ek].
    rewrite Eq in Nq by done. cbn [ar_ctrl aq_of] in Nq. rewrite Ek in Nq.
    match type of E with nvm_raw_rpc _ ?cmd _ _ = _ => destruct (raw_rpc_spec dev identify ref c a x k cmd zero_cpl s R) as (st & cpl' & s2 & E2 & T & H) end.
    rewrite E in E2. injection E2 as <- <- <-. eexists. split; [exact T|]. intros _. split_and!; [by apply H|by split|]. by rewrite Ei.
  - destruct A as [[cmds T] _]. exists cmds. split; [done|]. by rewrite Est.
Qed.
End create.

(** The bus addresses of the first GPU page of a mapping are consecutive. *)
Lemma first_page_bus hd b size d j :
  dma_for hd (descriptor 65536 MAP_TYPE_CUDA (User b) size) d -> 0 < size < 2 ^ 63 ->
  0 < ctl_page_size hd -> (ctl_page_size hd | 65536) -> Z.of_nat j * ctl_page_size hd < 65536 ->
  dma_ioaddrs d !! j = Some (u64 (nth 0 (dma_ioaddrs d) 0 + Z.of_nat j * ctl_page_size hd)).
Proof.
  intros (io & [Hlen Hw] & ->) Hs Hps [z Hz] Hj. cbn -[NVM_PAGE_ALIGN] in *. set (ps := ctl_page_size hd) in *.
  set (n := (size + 2 ^ 16 - 1) / 2 ^ 16) in *.
  assert (E0 : NVM_PAGE_ALIGN size 65536 / 65536 = n).
  { change 65536 with (2 ^ 16). rewrite NVM_PAGE_ALIGN_spec by lia. rewrite Z.mul_comm. apply Z.div_mul. lia. }
  rewrite E0 in *. assert (Hn : 1 <= n < 2 ^ 48) by (unfold n; split; [apply Z.div_le_lower_bound|apply Z.div_lt_upper_bound]; lia).
  rewrite (u64_id (65536 * n)) by word_lia. assert (En : 65536 * n / ps = z * n) by (rewrite Hz, (Z.mul_comm z), <- Z.mul_assoc, Z.mul_comm, Z.div_mul; lia).
  rewrite En. assert (0 < z) by nia. assert (Z.of_nat j < z) by nia.
  unfold bus_list. rewrite list_lookup_fmap, lookup_seq_lt by nia. cbn. rewrite nth_lookup, list_lookup_fmap, lookup_seq_lt by nia. cbn.
  unfold bus. rewrite (Z.div_small (Z.of_nat j * ps)), (Z.mod_small (Z.of_nat j * ps)) by nia. cbn.
  rewrite Z.add_0_r. unfold u64. by rewrite wrap_add_l.
Qed.
(** ** Queue pairs *)

(** What the controller and the GPU know of a new queue pair: sizes, masks, and the two
    commands the controller was sent. *)
Record qp_good (hd : nvm_ctrl_t) (cap depth id : Z) (s0 s : gpu_state) (qp : QueuePair) : Prop := {
  qg_sq : q_qs (gq_queue (qp_sq qp)) = queue_entries cap MAX_SQ_ENTRIES_64K depth;
  qg_cq : q_qs (gq_queue (qp_cq qp)) = queue_entries cap MAX_CQ_ENTRIES_64K depth;
  qg_size q : q = qp_sq qp \/ q = qp_cq qp ->
    2 <= q_qs (gq_queue q) <= 65536 /\ q_qs (gq_queue q) <= ctl_max_qs hd /\
    gq_qs_minus_1 q = q_qs (gq_queue q) - 1 /\ gq_qs_log2 q = Z.log2 (q_qs (gq_queue q));
  qg_es : q_es (gq_queue (qp_sq qp)) = sizeof_nvm_cmd_t /\ q_es (gq_queue (qp_cq qp)) = sizeof_nvm_cpl_t;
  qg_told : exists c1 c2, gs_cmds s = gs_cmds s0 ++ [c1; c2] /\
    decode_create c1 = MkCreate 5 id (q_qs (gq_queue (qp_cq qp))) (q_ioaddr (gq_queue (qp_cq qp))) true 0 /\
    decode_create c2 = MkCreate 1 id (q_qs (gq_queue (qp_sq qp))) (q_ioaddr (gq_queue (qp_sq qp))) true id
}.

(** The bytes of a queue. *)
Definition queue_range (q : gpu_queue) : Z * Z := (q_vaddr (gq_queue q), q_es (gq_queue q) * q_qs (gq_queue q)).
Definition qp_ranges (qp : QueuePair) : list (Z * Z) :=
  gpu_arrays (qp_sq qp) (qp_cq qp) ++ [queue_range (qp_cq qp); queue_range (qp_sq qp)].

(** The bus addresses of a queue of up to 64 KiB are consecutive from the address the controller has. *)
Definition bus_contiguous (hd : nvm_ctrl_t) (s : gpu_state) (o : option DmaPtr) (q : nvm_queue_t) : Prop :=
  exists p ct, o = Some p /\ h_conts (hp (hst s)) !! dp_dma p = Some ct /\
    (q_es q * q_qs q <= 65536 -> (ctl_page_size hd | 65536) ->
     forall j, Z.of_nat j * ctl_page_size hd < q_es q * q_qs q ->
       dma_ioaddrs (ct_handle ct) !! j = Some (u64 (q_ioaddr q + Z.of_nat j * ctl_page_size hd))).

Record qp_memory (hd : nvm_ctrl_t) (s : gpu_state) (qp : QueuePair) : Prop := {
  qm_zero : Forall (zeroed s) (qp_ranges qp);
  qm_disjoint : disjoint_ranges (qp_ranges qp);
  qm_sq : bus_contiguous hd s (sq_mem (qp_members_of qp)) (gq_queue (qp_sq qp));
  qm_cq : bus_contiguous hd s (cq_mem (qp_members_of qp)) (gq_queue (qp_cq qp))
}.

Lemma queue_entries_range cap max depth : 0 < max <= 65536 -> 1 <= depth -> 1 <= queue_entries cap max depth <= 65536.
Proof.
  intros Hm Hd. unfold queue_entries. cbv zeta. pose proof (Z.mod_pos_bound cap (2 ^ 16)).
  repeat match goal with |- context [if ?b then _ else _] => destruct b end; lia.
Qed.

(** Memory of [n] entries of [es] bytes, in whole GPU pages. *)
Lemma queue_memory_size n es :
  1 <= n <= 65536 -> 0 < es <= 64 ->
  let size := NVM_PAGE_ALIGN (u64 (n * es)) (Z.shiftl 1 16) in n * es <= size /\ 0 < size < 2 ^ 63.
Proof.
  intros Hn He. cbn zeta. rewrite u64_id by (unfold is_word; nia). change (Z.shiftl 1 16) with (2 ^ 16).
  rewrite NVM_PAGE_ALIGN_spec by nia. pose proof (Z.div_mod (n * es + 2 ^ 16 - 1) (2 ^ 16)).
  pose proof (Z.mod_pos_bound (n * es + 2 ^ 16 - 1) (2 ^ 16)). nia.
Qed.

Lemma holds_words own x ct l s : holds own (RCont x ct :: l) s -> is_word 64 (nth 0 (dma_ioaddrs (ct_handle ct)) 0).
Proof.
  intros H. destruct (ok_h _ _ (g_ok _ _ (ho_good _ _ _ H)) _ _ (holds_cont _ _ _ _ _ H)) as (md & k & va & r & _ & _ & _ & _ & D).
  destruct D as (_ & _ & _ & _ & Hw & _). destruct (dma_ioaddrs (ct_handle ct)) as [|io0 ios]; [done|]. by apply Forall_inv in Hw.
Qed.

Section queue_pair.
Context {K : Kernel} {C : Cuda} (own : nat -> Z).
Context (dev : nat -> device) (identify : nat -> list Z -> list Z -> list Z) (lib_addr : nat -> Z) (blank : nvm_queue_t) (cap : Z).
Context (ref c a x : nat) (hd : nvm_ctrl_t) (Hps : 0 < ctl_page_size hd) (Hown : 1 <= own c).

Lemma dma_of_spec p ct l s (Q : nvm_dma_t -> gpu_state -> Prop) :
  holds own (RCont (dp_dma p) ct :: l) s -> Q (ct_handle ct) s -> wp (dma_of p) Q s.
Proof.
  intros H HQ. apply wp_bind, wp_st_get, wp_bind. eapply wp_deref; [exact (holds_cont _ _ _ _ _ H)|]. by apply wp_ret.
Qed.

Lemma device_doorbell_spec q l s :
  holds own l s ->
  wp (device_doorbell q) (fun r s' => quiet own s s' /\ holds own l s' /\ hp (hst s') = hp (hst s) /\ gs_mem s' = gs_mem s /\
    match r with Ok q' => exists db, q' = set_db q db | Thrown => True end) s.
Proof.
  intros H. apply wp_bind, wp_fallible. intros e h Eh En. apply wp_ret.
  split_and!; [apply quiet_tick; [done|lia]|apply holds_tick; [done..|lia]|done|done|]. destruct (e =? 0); cbn; by eauto.
Qed.

(** Unwinding from a throw: the members are released, the rest stays. *)
Lemma unwind_spec {B} m l0 l l1 s0 s (Q : res B -> gpu_state -> Prop) :
  members_own m l0 -> holds own l1 s -> l1 ≡ₚ l0 ++ l -> calm own a s0 s ->
  (forall s', calm own a s0 s' -> holds own l s' -> Q Thrown s') -> wp (release_members m;; mret Thrown) Q s.
Proof.
  intros M H P Q0 HQ. apply wp_bind. eapply wp_mono; [eapply release_members_spec; [done|by eapply holds_perm]|].
  intros _ s' [Q' H']. apply wp_ret, HQ; [|done]. etransitivity; [done|]. by apply quiet_calm.
Qed.

(** What a queue's memory gives once its descriptor is filled in. *)
Lemma queue_bus is_cq id p ct b size qs q s :
  h_conts (hp (hst s)) !! dp_dma p = Some ct -> dma_for hd (descriptor 65536 MAP_TYPE_CUDA (User b) size) (ct_handle ct) ->
  0 < size < 2 ^ 63 -> queue_of lib_addr hd is_cq id (ct_handle ct) qs q ->
  q_vaddr q = b /\ forall db, bus_contiguous hd s (Some p) (set_db q db).
Proof.
  intros Hx D Hs (Ev & Ei & N). split.
  - rewrite Ev. destruct D as (io & _ & ->). unfold NVM_DMA_OFFSET. cbn. lia.
  - intros db. exists p, ct. split_and!; [done..|]. cbn. intros Hle Hdiv j Hj. rewrite Ei. eapply first_page_bus; [done..|lia].
Qed.

Lemma create_queues_spec id p1 ct1 p2 ct2 l s qs1 qs2 :
  holds own (RCont (dp_dma p2) ct2 :: RCont (dp_dma p1) ct1 :: l) s -> ready ref c a x s -> ctl s c hd ->
  is_word 16 id -> qs1 <> 0 -> qs2 <> 0 ->
  wp (create_queues dev identify lib_addr blank ref id qs1 qs2 p1 p2) (fun r s' =>
    calm own a s s' /\ holds own (RCont (dp_dma p2) ct2 :: RCont (dp_dma p1) ct1 :: l) s' /\ gs_mem s' = gs_mem s /\
    match r with
    | Ok (sq, cq) => ready ref c a x s' /\ exists sq0 cq0 db1 db2 cmd1 cmd2, sq = set_db sq0 db1 /\ cq = set_db cq0 db2 /\
        queue_of lib_addr hd false id (ct_handle ct1) qs1 sq0 /\ queue_of lib_addr hd true id (ct_handle ct2) qs2 cq0 /\
        gs_cmds s' = gs_cmds s ++ [cmd1; cmd2] /\
        decode_create cmd1 = MkCreate 5 id qs2 (q_ioaddr cq) true 0 /\ decode_create cmd2 = MkCreate 1 id qs1 (q_ioaddr sq) true id
    | Thrown => True
    end) s.
Proof.
  intros H R Hc Hid Hq1 Hq2. unfold create_queues. pose proof (Permutation_swap (RCont (dp_dma p1) ct1) (RCont (dp_dma p2) ct2) l) as P.
  pose proof (holds_words _ _ _ _ _ H) as W2. pose proof (holds_words _ _ _ _ _ (holds_perm _ _ _ _ P H)) as W1.
  apply wp_bind. eapply dma_of_spec; [exact H|]. apply wp_bind. eapply wp_mono; [by apply (cq_create_spec dev identify lib_addr blank ref c a x hd Hps)|].
  intros [st cq0] s1 (cmds1 & T1 & Ok1). cbn [fst snd] in Ok1. destruct (talked_heap _ _ _ _ T1) as (E1 & M1 & L1).
  pose proof (talked_holds _ _ _ _ _ _ T1 H) as H1. pose proof (talked_calm own _ _ _ _ T1) as Q1.
  unfold throw_unless. destruct (nvm_ok st); [|apply wp_bind, wp_ret, wp_ret; by split_and!].
  destruct (Ok1 eq_refl) as (R1 & N2 & ->). apply wp_guard. eapply wp_mono; [by eapply device_doorbell_spec|].
  intros r s2 (Q2 & H2 & E2 & M2' & D2). assert (Q12 : calm own a s s2) by (etransitivity; [done|by apply quiet_calm]).
  assert (M2 : gs_mem s2 = gs_mem s) by congruence.
  destruct r as [cq|]; [|apply wp_bind, wp_ret, wp_ret; by split_and!]. destruct D2 as [db2 ->].
  apply wp_bind. eapply dma_of_spec; [by eapply holds_perm|]. apply wp_bind.
  eapply wp_mono; [apply (sq_create_spec dev identify lib_addr blank ref c a x hd Hps); [by eapply ready_quiet| |done]|].
  { destruct Hc as (k & Hk & ?). exists k. by rewrite E2, E1. }
  intros [st' sq0] s3 (cmds2 & T3 & Ok3). cbn [fst snd] in Ok3. destruct (talked_heap _ _ _ _ T3) as (E3 & M3 & L3).
  pose proof (talked_holds _ _ _ _ _ _ T3 H2) as H3. pose proof (talked_calm own _ _ _ _ T3) as Q3.
  assert (Q13 : calm own a s s3) by (by etransitivity). assert (M13 : gs_mem s3 = gs_mem s) by congruence.
  destruct (nvm_ok st'); [|apply wp_bind, wp_ret, wp_ret; by split_and!].
  destruct (Ok3 eq_refl) as (R3 & N1 & ->). apply wp_guard. eapply wp_mono; [by eapply device_doorbell_spec|].
  intros r s4 (Q4 & H4 & E4 & M4' & D4). assert (Q14 : calm own a s s4) by (etransitivity; [done|by apply quiet_calm]).
  assert (M4 : gs_mem s4 = gs_mem s) by congruence.
  destruct r as [sq|]; [|apply wp_bind, wp_ret, wp_ret; by split_and!]. destruct D4 as [db1 ->]. apply wp_ret.
  do 3 (split; [done|]). split; [by eapply ready_quiet|]. exists sq0, cq0, db1, db2. eexists _, _. split_and!; [done..| | |].
  - rewrite (qu_cmds _ _ _ Q4), L3, (qu_cmds _ _ _ Q2), L1, <- app_assoc. done.
  - destruct N2 as (_ & Ei & No & Nq & _ & _ & _ & _ & _ & Nr & _). rewrite admin_cq_create_decode; [by rewrite No, Nq|by rewrite Nq|by rewrite No|by rewrite Ei].
  - destruct N1 as (_ & Ei & No & Nq & _ & _ & _ & _ & _ & Nr & _). destruct N2 as (_ & _ & No2 & _).
    rewrite admin_sq_create_decode; [cbn; by rewrite No, Nq, No2|by rewrite Nq|by rewrite No|cbn; by rewrite No2|by rewrite Ei].
Qed.

(** Device memory of a new queue pair. *)
Lemma qp_memory_of id qp l0 l s p1 ct1 p2 ct2 b1 b2 o1 m1 o2 m2 z1 z2 sq0 cq0 db1 db2 qs1 qs2 :
  holds own (l0 ++ l) s -> sq_mem (qp_members_of qp) = Some p1 -> cq_mem (qp_members_of qp) = Some p2 ->
  h_conts (hp (hst s)) !! dp_dma p1 = Some ct1 -> h_conts (hp (hst s)) !! dp_dma p2 = Some ct2 ->
  gq_queue (qp_sq qp) = set_db sq0 db1 -> gq_queue (qp_cq qp) = set_db cq0 db2 ->
  queue_of lib_addr hd false id (ct_handle ct1) qs1 sq0 -> queue_of lib_addr hd true id (ct_handle ct2) qs2 cq0 ->
  dma_for hd (descriptor 65536 MAP_TYPE_CUDA (User b1) z1) (ct_handle ct1) -> 0 < z1 < 2 ^ 63 -> qs1 * sizeof_nvm_cmd_t <= z1 ->
  dma_for hd (descriptor 65536 MAP_TYPE_CUDA (User b2) z2) (ct_handle ct2) -> 0 < z2 < 2 ^ 63 -> qs2 * sizeof_nvm_cpl_t <= z2 ->
  zeroed s (b1, z1) -> zeroed s (b2, z2) -> Forall (zeroed s) (gpu_arrays (qp_sq qp) (qp_cq qp)) ->
  o1 <= b1 /\ b1 + z1 <= o1 + m1 -> o2 <= b2 /\ b2 + z2 <= o2 + m2 ->
  (forall rs, Forall2 (fun r a => a.1 <= r.1 /\ r.1 + r.2 <= a.1 + a.2) rs [(o2, m2); (o1, m1)] ->
     inside (gpu_arrays (qp_sq qp) (qp_cq qp) ++ rs) l0) ->
  qp_memory hd s qp.
Proof.
  intros H M1 M2 X1 X2 E1 E2 N1 N2 D1 S1 L1 D2 S2 L2 Z1 Z2 Z B1 B2 I.
  destruct (queue_bus false id p1 ct1 b1 z1 qs1 sq0 s X1 D1 S1 N1) as [V1 C1].
  destruct (queue_bus true id p2 ct2 b2 z2 qs2 cq0 s X2 D2 S2 N2) as [V2 C2].
  destruct N1 as (_ & _ & _ & Q1 & _ & _ & _ & _ & Es1 & _). destruct N2 as (_ & _ & _ & Q2 & _ & _ & _ & _ & Es2 & _).
  assert (R1 : queue_range (qp_sq qp) = (b1, sizeof_nvm_cmd_t * qs1)) by (unfold queue_range; rewrite E1; cbn; by rewrite V1, Es1, Q1).
  assert (R2 : queue_range (qp_cq qp) = (b2, sizeof_nvm_cpl_t * qs2)) by (unfold queue_range; rewrite E2; cbn; by rewrite V2, Es2, Q2).
  split.
  - unfold qp_ranges. rewrite R1, R2. apply Forall_app. split; [done|]. repeat apply Forall_cons; [..|apply Forall_nil; done].
    + intros i Hi. apply Z2. cbn in *. lia.
    + intros i Hi. apply Z1. cbn in *. lia.
  - eapply inside_disjoint; [done|]. unfold qp_ranges. apply I. rewrite R1, R2. repeat constructor; cbn; lia.
  - rewrite M1, E1. apply C1.
  - rewrite M2, E2. apply C2.
Qed.

(** Memory of a queue on the device. *)
Definition on_device (d size : Z) (ct : container) (r : resource) (s : gpu_state) : Prop :=
  0 <= d -> exists b o n, r = RDev o n /\ o <= b /\ b + size <= o + n /\
    dma_for hd (descriptor 65536 MAP_TYPE_CUDA (User b) size) (ct_handle ct) /\ zeroed s (b, size).

(** The last part of the constructor. *)
Lemma qp_finish_spec d id depth l s s3 p1 ct1 r1 p2 ct2 r2 sq0 cq0 db1 db2 cmd1 cmd2 z1 z2 (mk : gpu_queue -> gpu_queue -> qp_members -> QueuePair) :
  let qs1 := queue_entries cap MAX_SQ_ENTRIES_64K depth in
  let qs2 := queue_entries cap MAX_CQ_ENTRIES_64K depth in
  let l0 := [RCont (dp_dma p2) ct2; r2; RCont (dp_dma p1) ct1; r1] in
  let m := MkMembers (Some p1) (Some p2) None None None None None in
  (forall gsq gcq m, qp_sq (mk gsq gcq m) = gsq /\ qp_cq (mk gsq gcq m) = gcq /\ qp_members_of (mk gsq gcq m) = m /\ qp_id (mk gsq gcq m) = id) ->
  members_own m l0 -> holds own (l0 ++ l) s3 -> ready ref c a x s3 -> calm own a s s3 ->
  queue_of lib_addr hd false id (ct_handle ct1) qs1 sq0 -> queue_of lib_addr hd true id (ct_handle ct2) qs2 cq0 ->
  gs_cmds s3 = gs_cmds s ++ [cmd1; cmd2] ->
  decode_create cmd1 = MkCreate 5 id qs2 (q_ioaddr cq0) true 0 -> decode_create cmd2 = MkCreate 1 id qs1 (q_ioaddr sq0) true id ->
  on_device (to_int d) z1 ct1 r1 s3 -> on_device (to_int d) z2 ct2 r2 s3 ->
  0 < z1 < 2 ^ 63 -> qs1 * sizeof_nvm_cmd_t <= z1 -> 0 < z2 < 2 ^ 63 -> qs2 * sizeof_nvm_cpl_t <= z2 ->
  wp (guard (init_gpu_specific_struct (set_db sq0 db1) (set_db cq0 db2) m d) (mret tt) (fun y =>
        let '(gsq, gcq, m) := y in mret (Ok (mk gsq gcq m)))) (fun r s' => calm own a s s' /\
    match r with
    | Ok qp => ready ref c a x s' /\ qp_id qp = id /\ qp_good hd cap depth id s s' qp /\
        (exists lq, members_own (qp_members_of qp) lq /\ length lq = 9%nat /\ holds own (lq ++ l) s') /\
        (0 <= to_int d -> qp_memory hd s' qp)
    | Thrown => exists l', (length l' <= 2)%nat /\ holds own (l' ++ l) s'
    end) s3.
Proof.
  intros qs1 qs2 l0 m Hmk Mo H R Q N1 N2 L3 T1 T2 D1 D2 S1 S1' S2 S2'.
  pose proof N1 as (_ & _ & _ & Eq1 & _ & _ & _ & _ & Es1 & B1 & X1 & _). pose proof N2 as (_ & _ & _ & Eq2 & _ & _ & _ & _ & Es2 & B2 & X2 & _).
  apply wp_guard. eapply wp_mono; [apply (init_spec own _ _ m l0 d l s3 H Mo eq_refl); cbn; lia|].
  intros [[[gsq gcq] m']|] s4 [Q4 H4]; [|apply wp_bind, wp_ret, wp_ret; split; [etransitivity; [done|by apply quiet_calm]|by exists []; split; [cbn; lia|]]].
  destruct H4 as (l1 & Mo' & H4 & Em1 & Em2 & Hl1 & Gs & Gc & Gm1 & Gl1 & Gm2 & Gl2 & Hdev). apply wp_ret.
  destruct (Hmk gsq gcq m') as (Ka & Kb & Kc & Kd). split; [etransitivity; [done|by apply quiet_calm]|].
  split_and!; [by eapply ready_quiet|done|..].
  - split; rewrite ?Ka, ?Kb, ?Gs, ?Gc; cbn; try done.
    + intros q [-> | ->]; rewrite ?Gs, ?Gc, ?Gm1, ?Gm2, ?Gl1, ?Gl2; cbn; rewrite ?Eq1, ?Eq2; (split_and!; [lia|lia|lia|apply u32_id; word_lia|done]).
    + exists cmd1, cmd2. rewrite (qu_cmds _ _ _ Q4), Eq1, Eq2. done.
  - exists (l1 ++ l0). rewrite Kc, length_app, Hl1. done.
  - intros Hd. destruct (Hdev Hd) as (Za & _ & Ia). destruct (D1 Hd) as (b1 & o1 & n1 & -> & O1 & O1' & F1 & Z1).
    destruct (D2 Hd) as (b2 & o2 & n2 & -> & O2 & O2' & F2 & Z2).
    eapply (qp_memory_of id _ (l1 ++ l0) l s4 p1 ct1 p2 ct2 b1 b2 o1 n1 o2 n2 z1 z2 sq0 cq0 db1 db2 qs1 qs2); rewrite ?Ka, ?Kb, ?Kc; try done.
    + eapply holds_elem; [exact H4|]. unfold l0. set_solver.
    + eapply holds_elem; [exact H4|]. unfold l0. set_solver.
    + eapply zeroed_mono; [|exact Z1]. apply Q4.
    + eapply zeroed_mono; [|exact Z2]. apply Q4.
Qed.

Lemma new_QueuePair_spec d ns info id depth l s :
  holds own l s -> roomy own c 4 l -> ctl s c hd -> ready ref c a x s -> is_word 16 id -> 1 <= depth ->
  wp (new_QueuePair dev identify lib_addr blank cap c d ns info ref id depth) (fun r s' => calm own a s s' /\
    match r with
    | Ok qp => ready ref c a x s' /\ qp_id qp = id /\ qp_good hd cap depth id s s' qp /\
        (exists lq, members_own (qp_members_of qp) lq /\ length lq = 9%nat /\ holds own (lq ++ l) s') /\
        (0 <= to_int d -> qp_memory hd s' qp)
    | Thrown => exists l', (length l' <= 2)%nat /\ holds own (l' ++ l) s'
    end) s.
Proof.
  intros H [Ro1 Ro2] Hc R Hid Hd. unfold new_QueuePair.
  pose proof (queue_entries_range cap MAX_SQ_ENTRIES_64K depth ltac:(done) Hd) as Hq1.
  pose proof (queue_entries_range cap MAX_CQ_ENTRIES_64K depth ltac:(done) Hd) as Hq2.
  set (qs1 := queue_entries cap MAX_SQ_ENTRIES_64K depth) in *. set (qs2 := queue_entries cap MAX_CQ_ENTRIES_64K depth) in *.
  destruct (queue_memory_size qs1 sizeof_nvm_cmd_t Hq1 ltac:(done)) as [Hz1 Hz1'].
  destruct (queue_memory_size qs2 sizeof_nvm_cpl_t Hq2 ltac:(done)) as [Hz2 Hz2'].
  set (z1 := NVM_PAGE_ALIGN (u64 (qs1 * sizeof_nvm_cmd_t)) _) in *. set (z2 := NVM_PAGE_ALIGN (u64 (qs2 * sizeof_nvm_cpl_t)) _) in *.
  apply wp_guard. eapply wp_mono; [apply (createDma_spec own c hd); [done|split; lia|done|lia]|].
  intros [p1|] s1 [Q1 H1]; [|apply wp_bind, wp_ret, wp_ret; split; [by apply quiet_calm|done]].
  destruct H1 as (ct1 & r1 & F1 & H1 & D1). pose proof (quiet_calm own a _ _ Q1) as C1.
  apply wp_guard. eapply wp_mono; [apply (createDma_spec own c hd); [done|split; cbn; lia|by apply (qu_ctl _ _ _ Q1)|lia]|].
  intros [p2|] s2 [Q2 H2].
  2: { destruct H2 as (l' & Hl' & H2). eapply (unwind_spec _ [RCont (dp_dma p1) ct1; r1] (l' ++ l) _ s); [|done| | |].
       - exists [RCont (dp_dma p1) ct1; r1], [], [], [], [], [], []. split_and!; try done. by exists ct1, r1.
       - rewrite Permutation_app_swap_app. done.
       - etransitivity; [exact C1|by apply quiet_calm].
       - intros s' ? ?. split; [done|]. by exists l'. }
  destruct H2 as (ct2 & r2 & F2 & H2 & D2). assert (Q12 : quiet own s s2) by (by etransitivity).
  set (l0 := [RCont (dp_dma p2) ct2; r2; RCont (dp_dma p1) ct1; r1]). set (m := MkMembers (Some p1) (Some p2) None None None None None).
  assert (Mo : members_own m l0).
  { exists [RCont (dp_dma p1) ct1; r1], [RCont (dp_dma p2) ct2; r2], [], [], [], [], []. split_and!; try done; by eexists _, _. }
  assert (P : l0 ++ l ≡ₚ RCont (dp_dma p2) ct2 :: RCont (dp_dma p1) ct1 :: r2 :: r1 :: l).
  { cbn. apply Permutation_skip, Permutation_swap. }
  apply wp_guard. eapply wp_mono; [eapply (create_queues_spec id p1 ct1 p2 ct2 (r2 :: r1 :: l) s2 qs1 qs2);
    [by eapply holds_perm|by eapply ready_quiet|by apply (qu_ctl _ _ _ Q12)|done|lia|lia]|].
  intros [[sq cq]|] s3 (C3 & H3 & M3 & O3).
  2: { eapply (unwind_spec m l0 l _ s); [done|exact H3|by rewrite P| |].
       - etransitivity; [|exact C3]. by apply quiet_calm.
       - intros s' ? ?. split; [done|]. exists []. split; [cbn; lia|done]. }
  destruct O3 as (R3 & sq0 & cq0 & db1 & db2 & cmd1 & cmd2 & -> & -> & N1 & N2 & L3 & T1 & T2).
  eapply (qp_finish_spec d id depth l s s3 p1 ct1 r1 p2 ct2 r2 sq0 cq0 db1 db2 cmd1 cmd2 z1 z2); try done.
  - eapply holds_perm; [symmetry; exact P|exact H3].
  - etransitivity; [|exact C3]. by apply quiet_calm.
  - by rewrite L3, (qu_cmds _ _ _ Q12).
  - intros Hdv. destruct (D1 Hdv) as (b & o & n & -> & _ & ? & ? & ? & Z). exists b, o, n. split_and!; try done.
    intros i Hi. rewrite M3. apply (qu_zero _ _ _ Q2). by apply Z.
  - intros Hdv. destruct (D2 Hdv) as (b & o & n & -> & _ & ? & ? & ? & Z). exists b, o, n. split_and!; try done.
    intros i Hi. rewrite M3. by apply Z.
Qed.
End queue_pair.
End QueuePairs.
