(* ===== verification/GpuController.v ===== *)
(** The lifetime of a [Controller] of [GpuSetup]: constructing one, from the descriptor to
    the last queue pair, and destroying it. *)
From Stdlib Require Import ZArith Lia List Bool.
From stdpp Require Import base list gmap gmultiset numbers functions.
From S2P Require Import Prelude Exec NvmUtil NvmCmd NvmError NvmQueue Host Dma DmaSpec DmaInv DmaApi Rpc Admin ParallelSq ParallelCq GpuSetup GpuSetupInv GpuQueuePair.
Import Host Dma DmaSpec DmaInv DmaApi Rpc Admin Setup SetupInv QueuePairs.

Import ListNotations.
Local Open Scope Z_scope.

Module Controllers.

(** ** Facts that stay *)

(** A queue pair as the GPU finds it: [qp_good] and, on the device, [qp_memory]. *)
Record qp_ok (hd : nvm_ctrl_t) (cap depth id d : Z) (s : gpu_state) (qp : QueuePair) : Prop := {
  qo_id : qp_id qp = id;
  qo_sq : q_qs (gq_queue (qp_sq qp)) = queue_entries cap MAX_SQ_ENTRIES_64K depth;
  qo_cq : q_qs (gq_queue (qp_cq qp)) = queue_entries cap MAX_CQ_ENTRIES_64K depth;
  qo_size q : q = qp_sq qp \/ q = qp_cq qp ->
    2 <= q_qs (gq_queue q) <= 65536 /\ q_qs (gq_queue q) <= ctl_max_qs hd /\
    gq_qs_minus_1 q = q_qs (gq_queue q) - 1 /\ gq_qs_log2 q = Z.log2 (q_qs (gq_queue q));
  qo_told : exists c1 c2 before after, gs_cmds s = before ++ [c1; c2] ++ after /\
    decode_create c1 = MkCreate 5 id (q_qs (gq_queue (qp_cq qp))) (q_ioaddr (gq_queue (qp_cq qp))) true 0 /\
    decode_create c2 = MkCreate 1 id (q_qs (gq_queue (qp_sq qp))) (q_ioaddr (gq_queue (qp_sq qp))) true id;
  qo_memory : 0 <= to_int d -> qp_memory hd s qp
}.

Lemma holds_lookup own l s x ct : holds own l s -> h_conts (hp (hst s)) !! x = Some ct -> RCont x ct ∈ l.
Proof.
  intros H. rewrite (ho_conts _ _ _ H). intros Hx%elem_of_list_to_map_2. unfold conts_of in Hx.
  apply list_elem_of_omap in Hx as ([] & Hin & [= <- <-]). done.
Qed.

Definition conts_kept (s s' : gpu_state) : Prop :=
  forall x ct, h_conts (hp (hst s)) !! x = Some ct -> h_conts (hp (hst s')) !! x = Some ct.

Lemma holds_kept own own' l l' s s' : holds own l s -> holds own' (l' ++ l) s' -> conts_kept s s'.
Proof.
  intros H H' x ct Hx. eapply holds_elem; [exact H'|]. apply elem_of_app. right. by eapply holds_lookup.
Qed.

Lemma bus_contiguous_kept hd s s' o q : conts_kept s s' -> bus_contiguous hd s o q -> bus_contiguous hd s' o q.
Proof. intros Hk (p & ct & E & Hx & H). exists p, ct. split_and!; auto. Qed.

Lemma qp_ok_mono hd cap depth id d s s' qp :
  (exists cmds, gs_cmds s' = gs_cmds s ++ cmds) -> (forall i, gs_mem s i = 0 -> gs_mem s' i = 0) -> conts_kept s s' ->
  qp_ok hd cap depth id d s qp -> qp_ok hd cap depth id d s' qp.
Proof.
  intros [l3 E3] Hm Hk [? ? ? ? (c1 & c2 & l1 & l2 & E & ? & ?) M]. split; try done.
  - exists c1, c2, l1, (l2 ++ l3). split_and!; [|done..]. by rewrite E3, E, <- !app_assoc.
  - intros Hd. destruct (M Hd) as [Hz D B1 B2]. split; [|done|by eapply bus_contiguous_kept..].
    eapply list.Forall_impl; [exact Hz|]. intros r Hr. by eapply zeroed_mono.
Qed.

Lemma qp_ok_kept own a hd cap depth id d s s' qp :
  calm own a s s' -> conts_kept s s' -> qp_ok hd cap depth id d s qp -> qp_ok hd cap depth id d s' qp.
Proof. intros Q. by apply qp_ok_mono; apply Q. Qed.

Lemma qp_good_ok own a hd cap depth id d s0 s s1 qp :
  qp_good hd cap depth id s0 s qp -> qp_id qp = id -> (0 <= to_int d -> qp_memory hd s qp) ->
  calm own a s s1 -> conts_kept s s1 -> qp_ok hd cap depth id d s1 qp.
Proof.
  intros [? ? ? _ (c1 & c2 & E & ? & ?)] ? M Q Hk. eapply qp_ok_kept; [done..|]. split; try done.
  exists c1, c2, (gs_cmds s0), []. by rewrite app_nil_r.
Qed.

(** ** The loop *)

(** What a list of queue pairs holds. *)
Inductive pairs_own : list QueuePair -> list resource -> Prop :=
  | po_nil : pairs_own [] []
  | po_cons qp qps l0 l : members_own (qp_members_of qp) l0 -> pairs_own qps l -> pairs_own (qp :: qps) (l0 ++ l).

Section controller.
Context {K : Kernel} {C : Cuda}.
Context (dev : nat -> device) (identify : nat -> list Z -> list Z -> list Z) (lib_addr : nat -> Z) (blank : nvm_queue_t).
Context (cap ver page_size mm_ptr : Z).

(** A throw: the library's invariant holds, and somebody still holds controller [c]. *)
Definition leaves (c : nat) (s : gpu_state) : Prop := exists own l, holds own l s /\ 1 <= own c.

Section loop.
Context (own : nat -> Z) (ref c a x : nat) (hd : nvm_ctrl_t) (Hps : 0 < ctl_page_size hd) (Hown : 1 <= own c).
Context (d depth : Z) (Hdepth : 1 <= depth) (ns : nvm_ns_info) (info : nvm_ctrl_info) (unwind : G unit) (base : list resource).
Context (Hunwind : forall l s, holds own (l ++ base) s -> wp unwind (fun _ s' => quiet own s s' /\ leaves c s') s).

Lemma new_queue_pairs_spec d_qps todo : forall i l s done copied,
  holds own (l ++ base) s -> roomy own c (9 * Z.of_nat todo + 4) (l ++ base) -> ctl s c hd -> ready ref c a x s -> 0 <= i ->
  wp (new_queue_pairs dev identify lib_addr blank cap todo i c d ns info ref depth (Some d_qps) unwind done copied) (fun r s' =>
    calm own a s s' /\
    match r with
    | Ok (qps, copied') => ready ref c a x s' /\
        exists new lq, qps = done ++ new /\ length new = todo /\ length copied' = (length copied + todo)%nat /\
          pairs_own new lq /\ length lq = (9 * todo)%nat /\ holds own (lq ++ l ++ base) s' /\
          (forall j qp, new !! j = Some qp -> qp_ok hd cap depth (u16 (i + Z.of_nat j + 1)) d s' qp)
    | Thrown => leaves c s'
    end) s.
Proof.
  induction todo as [|todo IH]; intros i l s done0 copied H [Ro1 Ro2] Hc R Hi; cbn [new_queue_pairs].
  { apply wp_ret. split; [done|]. split; [done|]. exists [], []. rewrite app_nil_r. split_and!; try done; try lia; constructor. }
  apply wp_guard. eapply wp_mono; [apply (new_QueuePair_spec own dev identify lib_addr blank cap ref c a x hd Hps Hown);
    [done|split; lia|done|done|apply u16_range|done]|].
  intros [qp|] s1 [Q1 H1].
  2: { destruct H1 as (l' & _ & H1). apply wp_bind. eapply wp_mono; [eapply (Hunwind (l' ++ l)); by rewrite <- app_assoc|].
       intros _ s2 [Q2 L2]. apply wp_ret. split; [|done]. etransitivity; [done|by apply quiet_calm]. }
  destruct H1 as (R1 & Eid & Good & (l1 & Mo & Hl1 & H1) & Mem).
  apply wp_bind. eapply wp_deref; [done|]. apply wp_bind, wp_fallible. intros e h Eh En.
  pose proof (holds_tick _ _ _ h H1 Eh ltac:(lia)) as H2. pose proof (quiet_tick own s1 h Eh ltac:(lia)) as Q2.
  rewrite app_assoc in H2. rewrite length_app in Ro2.
  eapply wp_mono; [apply (IH (i + 1) (l1 ++ l)); [done| |apply (qu_ctl _ _ _ Q2), (ca_ctl _ _ _ _ Q1); done|by eapply ready_quiet|lia]|].
  { split; [done|]. rewrite !length_app, Hl1. lia. }
  intros r s3 [Q3 O3]. assert (Q13 : calm own a s1 s3) by (etransitivity; [by apply quiet_calm|done]).
  split; [by etransitivity|]. destruct r as [[qps copied']|]; [|done].
  destruct O3 as (R3 & new & lq & -> & Hn & Hcp & Po & Hlq & H3 & Ok3). split; [done|].
  exists (qp :: new), (l1 ++ lq). rewrite <- app_assoc. cbn [length]. rewrite length_app in Hcp. cbn in Hcp.
  split_and!; try done; try lia.
  - by constructor.
  - rewrite length_app. lia.
  - eapply holds_perm; [|exact H3]. rewrite <- !app_assoc. apply Permutation_app_swap_app.
  - intros [|j] qp' Hj; cbn in Hj.
    + injection Hj as <-. replace (i + Z.of_nat 0 + 1) with (i + 1) by lia. eapply qp_good_ok; [done..|].
      eapply (holds_kept own own _ lq); [exact H1|]. by rewrite <- app_assoc in H3.
    + specialize (Ok3 j qp' Hj). by replace (i + Z.of_nat (S j) + 1) with (i + 1 + Z.of_nat j + 1) by lia.
Qed.
(** Without the device's array the first copy is undefined. *)
Lemma new_queue_pairs_uninitialised P todo i l s done copied Q :
  holds own (l ++ base) s -> roomy own c 4 (l ++ base) -> ctl s c hd -> ready ref c a x s -> ~ P ->
  (forall s', leaves c s' -> Q Thrown s') ->
  wp_if P (new_queue_pairs dev identify lib_addr blank cap (S todo) i c d ns info ref depth None unwind done copied) Q s.
Proof.
  intros H Ro Hc R HP HQ. cbn [new_queue_pairs].
  apply wpi_guard, wpi_wp. eapply wp_mono; [apply (new_QueuePair_spec own dev identify lib_addr blank cap ref c a x hd Hps Hown);
    [done|done|done|done|apply u16_range|done]|].
  intros [qp|] s1 [Q1 H1]; [by apply wpi_bind, wpi_crash|]. destruct H1 as (l' & _ & H1).
  apply wpi_first. eapply wp_mono; [eapply (Hunwind (l' ++ l)); by rewrite <- app_assoc|]. intros _ s2 [_ L2]. by apply wpi_wp, wp_ret, HQ.
Qed.
End loop.

(** ** Bringing the controller up *)

Lemma fits k hd :
  ctl_page_size hd = 2 ^ k -> 7 <= k <= 20 -> 2 ^ k / 16 <= ctl_max_qs hd -> queues_fit hd.
Proof.
  intros E Hk Hm. unfold queues_fit, sizeof_nvm_cmd_t, sizeof_nvm_cpl_t. rewrite E.
  replace (2 ^ k) with (2 ^ (k - 6) * 64) by (change 64 with (2 ^ 6); rewrite <- Z.pow_add_r by lia; f_equal; lia).
  replace (2 ^ (k - 6) * 64 / 16) with (2 ^ k / 16) by (f_equal; change 64 with (2 ^ 6); rewrite <- Z.pow_add_r by lia; f_equal; lia).
  rewrite Z.div_mul by lia. pose proof (Z.pow_le_mono_r 2 1 (k - 6) ltac:(lia) ltac:(lia)).
  pose proof (Z.pow_le_mono_r 2 k 20 ltac:(lia) ltac:(lia)). split_and!; [|lia| |done].
  - exists (2 ^ (22 - k)). rewrite <- Z.pow_add_r by lia. replace (22 - k + (k - 6)) with 16 by lia. done.
  - apply Z.div_le_upper_bound; lia.
Qed.

(** The memory of the admin queues has three pages. *)
Lemma aq_pages hd k b d :
  ctl_page_size hd = 2 ^ k -> 7 <= k <= 20 ->
  dma_for hd (descriptor (ctl_page_size hd) MAP_TYPE_HOST (User b) (NVM_CTRL_ALIGN (ctl_page_size hd) (u64 (ctl_page_size hd * 3)))) d ->
  length (dma_ioaddrs d) = 3%nat.
Proof.
  intros E Hk (io & _ & ->). cbn -[NVM_PAGE_ALIGN NVM_CTRL_ALIGN]. rewrite E. unfold NVM_CTRL_ALIGN, bus_list.
  pose proof (Z.pow_le_mono_r 2 k 20 ltac:(lia) ltac:(lia)). assert (0 < 2 ^ k) by lia. rewrite length_fmap, length_seq, (u64_id (2 ^ k * 3)) by word_lia.
  assert (A : NVM_PAGE_ALIGN (2 ^ k * 3) (2 ^ k) = 2 ^ k * 3).
  { rewrite NVM_PAGE_ALIGN_spec by lia. f_equal. symmetry. apply (Z.div_unique _ _ 3 (2 ^ k - 1)); lia. }
  rewrite A, A, (Z.mul_comm (2 ^ k) 3), Z.div_mul, u64_id, Z.mul_comm, Z.div_mul by (lia || word_lia). done.
Qed.

Lemma timeout_range c p m z : let t := ctl_timeout (init_handle c p m z) in 0 <= t /\ t * 1000000 < 2 ^ 64.
Proof.
  cbn. unfold CAP_TO. rewrite RB_spec by lia. change (31 - 24 + 1) with 8. pose proof (Z.mod_pos_bound (c / 2 ^ 24) (2 ^ 8) ltac:(lia)).
  rewrite u64_id by word_lia. change (2 ^ 8) with 256 in *. change (2 ^ 64) with 18446744073709551616. lia.
Qed.


(** A command of the set-up changes neither what is held nor the controllers. *)
Lemma answered_calm own ref c a x l s s' st :
  answered ref c a x s s' st -> holds own l s -> calm own a s s' /\ holds own l s'.
Proof. intros [[cmds T] _] H. split; [by eapply talked_calm|by eapply talked_holds]. Qed.

Lemma calm_ctl own a c hd s s' : calm own a s s' -> 1 <= own c -> ctl s c hd -> ctl s' c hd.
Proof. intros Q. apply Q. Qed.

(** The commands [initializeController] sends once the admin queues exist. *)
Lemma identify_spec own ref c a x hd ns_id ptr io l s (Q : res (nat * nvm_ctrl_info * nvm_ns_info * Z * Z) -> gpu_state -> Prop) :
  holds own l s -> 1 <= own c -> ctl s c hd -> ready ref c a x s ->
  (forall s', calm own a s s' -> holds own l s' -> Q Thrown s') ->
  (forall info ns n m e s', calm own a s s' -> holds own l s' -> ready ref c a x s' -> ni_ns_id ns = ns_id -> 0 <= e < 256 ->
     ni_lba_data_size ns = 2 ^ e -> Q (Ok (ref, info, ns, n, m)) s') ->
  wp (r ← with_admin dev identify ref (fun aq w => nvm_admin_ctrl_info world_page world_clear aq cap ver true ptr io w);
      let '(status, o) := r in
      throw_unless (nvm_ok status) (mret tt) (
      info ← deref o;
      r ← with_admin dev identify ref (fun aq w => nvm_admin_ns_info world_page world_clear aq true ns_id ptr io w);
      let '(status, o) := r in
      throw_unless (nvm_ok status) (mret tt) (
      ns ← deref o;
      r ← with_admin dev identify ref (fun aq w => nvm_admin_get_num_queues aq 0 0 w);
      let '(status, n_cqs, n_sqs) := r in
      throw_unless (nvm_ok status) (mret tt) (mret (Ok (ref, info, ns, n_cqs, n_sqs)))))) Q s.
Proof.
  intros H Ho Hc R HT HO. apply wp_bind. eapply wp_with_admin; [exact R|exact Hc|]. intros k _.
  destruct (ctrl_info_answered dev identify ref c a x k s R cap ver ptr io) as (st1 & o1 & s1 & -> & A1 & S1). eexists _, s1. split; [done|].
  destruct (answered_calm own _ _ _ _ l _ _ _ A1 H) as [Q1 H1]. unfold throw_unless.
  destruct (nvm_ok st1) eqn:E1; [|apply wp_bind, wp_ret, wp_ret; by apply HT].
  destruct (S1 eq_refl) as [info ->]. pose proof (proj2 A1 E1) as R1. pose proof (calm_ctl _ _ _ _ _ _ Q1 Ho Hc) as C1.
  apply wp_bind. eapply wp_deref; [done|]. apply wp_bind. eapply wp_with_admin; [exact R1|exact C1|]. intros k2 _.
  destruct (ns_info_answered dev identify ref c a x k2 s1 R1 ns_id ptr io) as (st2 & o2 & s2 & -> & A2 & S2). eexists _, s2. split; [done|].
  destruct (answered_calm own _ _ _ _ l _ _ _ A2 H1) as [Q2 H2]. assert (Q12 : calm own a s s2) by (by etransitivity).
  destruct (nvm_ok st2) eqn:E2; [|apply wp_bind, wp_ret, wp_ret; by apply HT].
  destruct (S2 eq_refl) as (ns & e & -> & Ens & He & Elba). pose proof (proj2 A2 E2) as R2. pose proof (calm_ctl _ _ _ _ _ _ Q12 Ho Hc) as C2.
  apply wp_bind. eapply wp_deref; [done|]. apply wp_bind. eapply wp_with_admin; [exact R2|exact C2|]. intros k3 _.
  destruct (get_num_queues_answered dev identify ref c a x k3 s2 R2 0 0) as (st3 & n & m & s3 & -> & A3). eexists _, s3. split; [done|].
  destruct (answered_calm own _ _ _ _ l _ _ _ A3 H2) as [Q3 H3]. assert (Q13 : calm own a s s3) by (by etransitivity).
  destruct (nvm_ok st3) eqn:E3; [|apply wp_bind, wp_ret, wp_ret; by apply HT].
  apply wp_ret. eapply HO; try done. by apply A3.
Qed.


(** What stays the same once the reference [ref] to the queue pair [a] has been added. *)
Record joined (ref c a x : nat) (hd : nvm_ctrl_t) (s s' : gpu_state) : Prop := {
  jo_ref : rs_refs (gs_rpc s) !! ref = None;
  jo_refs : rs_refs (gs_rpc s') = <[ref := local_ref c a]> (rs_refs (gs_rpc s));
  jo_admin : rs_admins (gs_rpc s) !! a = None;
  jo_admins : exists la, rs_admins (gs_rpc s') = <[a := la]> (rs_admins (gs_rpc s)) /\ la_qmem la = x;
  jo_ctl : ctl s' c hd
}.

Lemma joined_calm own ref c a x hd s s1 s2 : joined ref c a x hd s s1 -> calm own a s1 s2 -> 1 <= own c -> joined ref c a x hd s s2.
Proof.
  intros [? ? ? (la & Ea & Ex) ?] Q Ho. split; try done.
  - by rewrite (ca_refs _ _ _ _ Q).
  - destruct (ca_admins _ _ _ _ Q la) as (la' & E & Ex'); [rewrite Ea; apply lookup_insert_eq|]. exists la'. rewrite E, Ea, insert_insert_eq. split; congruence.
  - by eapply calm_ctl.
Qed.

Lemma aq_create_joined own c hd w ct l s :
  holds own l s -> roomy own c 1 l -> RCont w ct ∈ l -> ctl s c hd -> rpc_below (gs_rpc s) ->
  queues_fit hd -> 0 <= ctl_timeout hd -> ctl_timeout hd * 1000000 < 2 ^ 64 ->
  wp (rpc (nvm_aq_create (addr lib_addr) blank c w)) (fun r s' =>
    (gs_fds s' = gs_fds s /\ gs_windows s' = gs_windows s) /\
    ((fst r <> 0 /\ snd r = None /\ holds own l s') \/
    exists ref a x, r = (0, Some ref) /\ joined ref c a x hd s s' /\ ready ref c a x s' /\
      holds (<[c := own c + 1]> own) (RCont x ct :: l) s')) s.
Proof.
  intros H [Ro1 Ro2] Hin (k & Hk & <-) B F T0 T1. pose proof (holds_elem _ _ _ _ _ H Hin) as Hx. apply wp_rpc.
  eapply wp_mono; [apply (aq_create_spec (addr lib_addr) blank own (gs_rpc s) c k w ct (ho_good _ _ _ H) B); [|done|done|]|].
  { eapply (roomy_usable own c l s H). split; lia. }
  { pose proof (cnt_le (fun ct' => ct_map ct' = ct_map ct) (h_conts (hp (hst s)))). pose proof (holds_size _ _ _ H). unfold users, hst in *. lia. }
  intros [e o] s1 [Hn [(He & Ho & Eh & Er & Ea & _ & _)|(ref & a & la & [= -> ->] & Hr & Ha & Hx' & _ & _ & Er & Ea & _ & _ & G1 & Ec & Ek & Et & I & _)]].
  - split; [done|]. left. split_and!; [done|done|]. by eapply holds_same.
  - split; [done|]. right. exists ref, a, (la_qmem la). split; [done|]. split; [|split].
    + split; try done; [by exists la|]. eexists. change (hst (set_rpc s s1)) with (rs_host s1). rewrite Ek. split; [apply lookup_insert_eq|done].
    + split; cbn; [rewrite Er; apply lookup_insert_eq|]. exists la. rewrite Ea. split; [apply lookup_insert_eq|].
      split_and!; [done|by apply I|lia..].
    + destruct H as [G N1 E1 N2 E2 A N3 E3]. split; try done; change (conts_of (RCont _ _ :: l)) with ((la_qmem la, ct) :: conts_of l).
      * apply list.NoDup_cons. split; [|done]. apply (not_elem_of_list_to_map (M := gmap nat)). unfold hst in E1. by rewrite <- E1.
      * change (hst (set_rpc s s1)) with (rs_host s1). unfold hst in E1. by rewrite Ec, E1.
Qed.

Lemma initializeController_spec own c hd p ct b l s ns_id :
  let l0 := RCont (dp_dma p) ct :: RHost b :: l in
  holds own l0 s -> roomy own c 1 l0 -> ctl s c hd -> rpc_below (gs_rpc s) ->
  queues_fit hd -> 0 <= ctl_timeout hd -> ctl_timeout hd * 1000000 < 2 ^ 64 -> length (dma_ioaddrs (ct_handle ct)) = 3%nat ->
  wp (initializeController dev identify lib_addr blank cap ver c p ns_id) (fun r s' =>
    (gs_fds s' = gs_fds s /\ gs_windows s' = gs_windows s) /\
    match r with
    | Ok (ref, info, ns, _, _) => exists a x e, joined ref c a x hd s s' /\ ready ref c a x s' /\
        holds (<[c := own c + 1]> own) (RCont x ct :: l0) s' /\ ni_ns_id ns = ns_id /\ 0 <= e < 256 /\ ni_lba_data_size ns = 2 ^ e
    | Thrown => exists own' l', 1 <= own' c /\ holds own' (l' ++ l0) s'
    end) s.
Proof.
  intros l0 H Ro Hc B F T0 T1 Hl. unfold initializeController. apply wp_bind.
  eapply wp_mono; [apply (aq_create_joined own c hd (dp_dma p) ct l0); try done; apply elem_of_cons; by left|].
  intros [e o] s1 [Ef [(He & Ho & H1)|(ref & a & x & [= -> ->] & J & R & H1)]]; cbn in *.
  - subst o. assert (wp (mret (Thrown (A := nat * nvm_ctrl_info * nvm_ns_info * Z * Z)) : G _) (fun r s' => r = Thrown /\ (gs_fds s' = gs_fds s /\ gs_windows s' = gs_windows s) /\ exists own' l', 1 <= own' c /\ holds own' (l' ++ l0) s') s1) as W.
    { apply wp_ret. split; [done|]. split; [done|]. exists own, []. split; [apply Ro|done]. }
    destruct e; [done|..]; (eapply wp_mono; [exact W|]; by intros ? ? [-> ?]).
  - set (own1 := <[c := own c + 1]> own) in *. assert (Ho : 1 <= own1 c) by (unfold own1; rewrite fn_lookup_insert; destruct Ro; lia).
    pose proof (Permutation_swap (RCont x ct) (RCont (dp_dma p) ct) (RHost b :: l)) as P.
    apply wp_bind. eapply dma_of_spec; [eapply holds_perm; [symmetry; exact P|exact H1]|].
    destruct (lookup_lt_is_Some_2 (dma_ioaddrs (ct_handle ct)) 2) as [io Hio]; [lia|]. apply wp_bind. eapply wp_deref; [exact Hio|].
    eapply (identify_spec own1 ref c a x hd); [exact H1|done|apply J|done|..].
    + intros s2 Q2 H2. split; [by rewrite (ca_fds _ _ _ _ Q2), (ca_windows _ _ _ _ Q2)|]. exists own1, [RCont x ct]. done.
    + intros info ns n m e s2 Q2 H2 R2 Ens He El. split; [by rewrite (ca_fds _ _ _ _ Q2), (ca_windows _ _ _ _ Q2)|]. exists a, x, e. split_and!; try done; try lia. by eapply joined_calm.
Qed.


(** The device's array of queue pairs; there is none for no queue pair. *)
Definition array_res (p : Z) (l : list resource) : Prop := (exists n, l = [RDev p n]) \/ p = 0 /\ l = [].

Lemma cudaMalloc_array own n l s :
  holds own l s -> 0 <= n ->
  wp (cudaMalloc n) (fun o s' => quiet own s s' /\
    match o with
    | Some p => exists ld, array_res p ld /\ (length ld <= 1)%nat /\ holds own (ld ++ l) s'
    | None => n <> 0 /\ cuda_malloc (gs_dev s) n = None /\ s' = s
    end) s.
Proof.
  intros H Hn. destruct (decide (n = 0)) as [->|].
  - eapply wp_eq; [done|]. split; [done|]. exists []. split_and!; [by right|cbn; lia|done].
  - destruct (cuda_malloc (gs_dev s) n) as [p|] eqn:E.
    + assert (Er : cudaMalloc n s = Some (Some p, set_dev s (<[p := n]> (gs_dev s))))
        by (unfold cudaMalloc; by rewrite (proj2 (Z.eqb_neq n 0)), E by done).
      eapply wp_eq; [exact Er|]. destruct (wp_exec _ _ _ _ _ Er (cudaMalloc_spec own n l s H ltac:(lia))) as (Q & _ & _ & O).
      split; [done|]. exists [RDev p n]. split_and!; [left; by exists n|done|done].
    + eapply wp_eq; [unfold cudaMalloc; rewrite (proj2 (Z.eqb_neq n 0)), E by done; reflexivity|]. done.
Qed.

Lemma cudaFree_array own p ld l s :
  array_res p ld -> holds own (ld ++ l) s -> wp (cudaFree p) (fun _ s' => quiet own s s' /\ holds own l s') s.
Proof.
  intros [[n ->]|[-> ->]] H; [by eapply cudaFree_spec|]. apply wp_st_modify. split; [apply quiet_dev|].
  apply holds_del_none; [done|]. intros n Hin. apply (proj1 (ho_apart _ _ _ H)) in Hin. lia.
Qed.

Lemma reserveQueues_spec own ref c a x hd l s n m :
  holds own l s -> 1 <= own c -> ctl s c hd -> ready ref c a x s ->
  wp (reserveQueues dev identify ref n m) (fun r s' => calm own a s s' /\ holds own l s' /\
    match r with Ok (n', m') => ready ref c a x s' /\ 0 <= n' < 65536 /\ 0 <= m' < 65536 | Thrown => True end) s.
Proof.
  intros H Ho Hc R. apply wp_bind. eapply wp_with_admin; [exact R|exact Hc|]. intros k _.
  destruct (request_num_queues_answered dev identify ref c a x k s R n m) as (st & n' & m' & s1 & -> & A & B). eexists _, s1. split; [done|].
  destruct (answered_calm own _ _ _ _ l _ _ _ A H) as [Q1 H1]. apply wp_ret. do 2 (split; [done|]).
  destruct (nvm_ok st) eqn:E; [|done]. split; [by apply A|by apply B].
Qed.

(** The last member to go with a throw. *)
Lemma unwind_aq own c p ct b l0 l s :
  1 <= own c -> dp_mem p = HostMem b -> holds own (l ++ RCont (dp_dma p) ct :: RHost b :: l0) s ->
  wp (release_dma p) (fun _ s' => quiet own s s' /\ leaves c s') s.
Proof.
  intros Ho Em H. eapply wp_mono; [apply (release_dma_spec own p ct (RHost b) (l ++ l0)); [by rewrite Em|]|].
  - eapply holds_perm; [|exact H]. cbn. rewrite <- (Permutation_middle l), <- (Permutation_middle l). done.
  - intros _ s' [Q H']. split; [done|]. by exists own, (l ++ l0).
Qed.


(** A working controller: its queue pairs as asked for and granted, its window registered. *)
Record working (hd : nvm_ctrl_t) (d depth numQueues : Z) (s0 s : gpu_state) (x : Controller) : Prop := {
  wk_n : ct_n_qps x = Z.min (Z.min (ct_n_sqs x) (ct_n_cqs x)) (u16 numQueues);
  wk_granted : 0 <= ct_n_sqs x < 65536 /\ 0 <= ct_n_cqs x < 65536;
  wk_length : Z.of_nat (length (ct_h_qps x)) = ct_n_qps x;
  wk_pairs j qp : ct_h_qps x !! j = Some qp -> qp_ok hd cap depth (Z.of_nat j + 1) d s qp;
  wk_block : exists e, 0 <= e < 256 /\ ni_lba_data_size (ct_ns x) = 2 ^ e /\
    (e < 32 -> ct_blk_size x = 2 ^ e /\ ct_blk_size_log x = e);
  wk_windows : gs_windows s = gs_windows s0 ++ [ctl_mm_ptr hd]
}.

(** What the members of a controller hold. *)
Definition controller_own (x : Controller) (y : nat) (ct : container) (l : list resource) : Prop :=
  exists rb lq ld b p, frees (bp_mem (ct_d_ctrl_buff x)) rb /\ pairs_own (ct_h_qps x) lq /\
    ct_d_qps x = Some p /\ array_res p ld /\
    dp_mem (ct_aq_mem x) = HostMem b /\
    l = rb :: lq ++ (ld ++ [RCont y ct]) ++ [RCont (dp_dma (ct_aq_mem x)) ct; RHost b].

Context (sizeof_QueuePair sizeof_Controller : Z) (Hct : 0 <= sizeof_Controller < 2 ^ 63).

Lemma blk_size ns e : 0 <= e < 256 -> ni_lba_data_size ns = 2 ^ e ->
  exists e0, 0 <= e0 < 256 /\ ni_lba_data_size ns = 2 ^ e0 /\
    (e0 < 32 -> u32 (ni_lba_data_size ns) = 2 ^ e0 /\ Z.log2 (u32 (ni_lba_data_size ns)) = e0).
Proof.
  intros He E. exists e. split; [done|]. split; [done|]. intros H. rewrite E.
  pose proof (Z.pow_lt_mono_r 2 e 32 ltac:(lia) ltac:(lia) H). rewrite u32_id by (split; [lia|done]). by rewrite Z.log2_pow2 by lia.
Qed.

(** The allocation of the queue pairs' array on the device succeeds. *)
Definition array_allocates (s : gpu_state) : Prop :=
  forall n, 0 < n < 2 ^ 16 -> cuda_malloc (gs_dev s) (u64 (sizeof_QueuePair * n)) <> None.

Lemma holds_same_devs own own' l l' s s' :
  holds own l s -> holds own' l' s' -> devs_of l = devs_of l' -> gs_dev s = gs_dev s'.
Proof. intros H H' E. by rewrite (ho_devs _ _ _ H), (ho_devs _ _ _ H'), E. Qed.

Lemma start_queues_spec own ref c a x hd p ct b l s0 s info ns e d depth numQueues :
  let l0 := RCont (dp_dma p) ct :: RHost b :: l in
  holds own (RCont x ct :: l0) s -> roomy own c 600000 (RCont x ct :: l0) -> 0 < ctl_page_size hd -> dp_mem p = HostMem b ->
  joined ref c a x hd s0 s -> ready ref c a x s -> 1 <= depth -> 0 <= e < 256 -> ni_lba_data_size ns = 2 ^ e ->
  wp_if (array_allocates s) (start_queues dev identify lib_addr blank cap sizeof_QueuePair sizeof_Controller c hd p ref info ns d depth numQueues) (fun r s' =>
    match r with
    | Ok y => joined ref c a x hd s0 s' /\ gs_fds s' = gs_fds s - 1 /\ ct_ctrl y = c /\ ct_aq_ref y = ref /\
        working hd d depth numQueues s s' y /\ exists l', controller_own y x ct l' /\ holds own (l' ++ l) s'
    | Thrown => leaves c s'
    end) s.
Proof.
  intros l0 H [Ho Ro] Hps Em J R Hd He El. unfold start_queues. apply wpi_first, wp_fallible. intros err h Eh En.
  pose proof (holds_tick _ _ _ h H Eh ltac:(lia)) as H1. pose proof (quiet_tick own s h Eh ltac:(lia)) as Q1.
  pose proof (ready_quiet _ _ _ _ _ _ _ Q1 R) as R1. pose proof (joined_calm own _ _ _ _ _ _ _ _ J (quiet_calm _ _ _ _ Q1) Ho) as J1.
  unfold throw_unless. destruct (err =? 0).
  2: { apply wpi_first. eapply wp_mono; [eapply (unwind_aq own c p ct b l [RCont x ct]); done|]. intros _ s' [_ L]. by apply wpi_wp, wp_ret. }
  apply wpi_first, wp_st_modify. set (s1 := set_windows _ _). assert (J1' : joined ref c a x hd s0 s1) by (by destruct J1; split).
  assert (H1' : holds own (RCont x ct :: l0) s1) by (by eapply holds_same).
  apply wpi_guard, wpi_wp. eapply wp_mono; [apply (reserveQueues_spec own ref c a x hd _ s1 _ _ H1' Ho (jo_ctl _ _ _ _ _ _ _ J1') R1)|].
  intros [[n m]|] s2 (Q2 & H2 & O2).
  2: { apply wpi_first. eapply wp_mono; [eapply (unwind_aq own c p ct b l [RCont x ct]); done|]. intros _ s' [_ L]. by apply wpi_wp, wp_ret. }
  destruct O2 as (R2 & Hn & Hm). set (n_qps := Z.min (Z.min n m) (u16 numQueues)). pose proof (u16_range numQueues).
  assert (Hnq : 0 <= n_qps < 65536) by (unfold n_qps, is_word in *; lia).
  apply wpi_first. eapply wp_mono; [apply (cudaMalloc_array own _ _ s2 H2); apply u64_range|]. intros [d_qps|] s3 [Q3 O3].
  2: { destruct O3 as (Hne & Ef & ->). apply wpi_guard.
       assert (0 < n_qps) by (destruct (Z.eq_dec n_qps 0) as [E0|]; [rewrite E0, Z.mul_0_r in Hne; by destruct Hne|lia]).
       replace (Z.to_nat n_qps) with (S (Z.to_nat (n_qps - 1))) by lia.
       apply (new_queue_pairs_uninitialised own ref c a x hd Hps Ho d depth Hd ns info (release_dma p) l0 ltac:(intros; by eapply unwind_aq)
         _ _ _ [RCont x ct]); [done|split; [done|]; cbn [length app] in *; lia|by eapply calm_ctl; [exact Q2|done|apply J1']|done| |].
       - intros Ha. apply (Ha n_qps); [lia|]. by rewrite <- (holds_same_devs _ _ _ _ _ _ H2 H) by done.
       - intros s' L. by apply wpi_wp, wp_bind, wp_ret, wp_ret. }
  destruct O3 as (ld & Ld & Hld & H3). assert (Q23 : calm own a s1 s3) by (etransitivity; [exact Q2|by apply quiet_calm]).
  apply wpi_wp, wp_guard. eapply wp_mono; [eapply (new_queue_pairs_spec own ref c a x hd Hps Ho d depth Hd ns info
    (release_dma p) l0 ltac:(intros; by eapply unwind_aq) d_qps _ 0 (ld ++ [RCont x ct])); [by rewrite <- app_assoc| | |by eapply ready_quiet|lia]|].
  { split; [done|]. cbn [length] in Ro. rewrite !length_app. cbn [length]. lia. }
  { eapply calm_ctl; [exact Q23|done|apply J1']. }
  intros [[qps copied]|] s4 [Q4 O4]; [|by apply wp_bind, wp_ret, wp_ret].
  destruct O4 as (R4 & new & lq & -> & Hlen & _ & Po & _ & H4 & Ok4). apply wp_bind, wp_st_modify. set (s5 := set_gfds _ _).
  assert (H5 : holds own (lq ++ (ld ++ [RCont x ct]) ++ l0) s5) by (by eapply holds_same).
  apply wp_guard. eapply wp_mono; [by apply (createBuffer_spec own sizeof_Controller (to_int d) _ s5 H5)|].
  intros [buf|] s6 [Q6 O6].
  2: { apply wp_bind. eapply wp_mono; [eapply (unwind_aq own c p ct b l (lq ++ (ld ++ [RCont x ct]))); [done..|]; by rewrite <- app_assoc|].
       intros _ s' [_ L]. by apply wp_ret. }
  destruct O6 as (rb & F & H6 & _). apply wp_bind, wp_fallible. intros e7 h7 Eh7 En7. apply wp_ret.
  pose proof (holds_tick _ _ _ h7 H6 Eh7 ltac:(lia)) as H7. pose proof (quiet_tick own s6 h7 Eh7 ltac:(lia)) as Q7.
  assert (Q57 : quiet own s5 (tick s6 h7)) by (by etransitivity).
  assert (J5 : joined ref c a x hd s0 s5).
  { assert (J4 : joined ref c a x hd s0 s4) by (eapply (joined_calm own); [exact J1'|by etransitivity|done]). by destruct J4; split. }
  split; [eapply (joined_calm own); [exact J5|by apply quiet_calm|done]|].
  split; [rewrite (qu_fds _ _ _ Q57); cbn; by rewrite (ca_fds _ _ _ _ Q4), (ca_fds _ _ _ _ Q23)|].
  do 2 (split; [done|]). split.
  - split; cbn [ct_n_qps ct_n_sqs ct_n_cqs ct_h_qps ct_ns ct_blk_size ct_blk_size_log]; [done|done|cbn; lia| |by eapply blk_size|].
    + intros j qp Hj. cbn in Hj. pose proof (lookup_lt_Some _ _ _ Hj). pose proof (Ok4 j qp Hj) as Oj. rewrite u16_id in Oj by (split; lia).
      apply (qp_ok_mono _ _ _ _ _ s4); [by exists []; rewrite app_nil_r, (qu_cmds _ _ _ Q57)|exact (qu_zero _ _ _ Q57)| |exact Oj].
      exact (holds_kept own own _ [rb] _ _ H5 H7).
    + rewrite (qu_windows _ _ _ Q57). cbn. by rewrite (ca_windows _ _ _ _ Q4), (ca_windows _ _ _ _ Q23).
  - exists (rb :: lq ++ (ld ++ [RCont x ct]) ++ [RCont (dp_dma p) ct; RHost b]). split; [by exists rb, lq, ld, b, d_qps|].
    cbn. rewrite <- !app_assoc. rewrite <- !app_assoc in H7. exact H7.
Qed.


(** ** Taking the controller down *)

Lemma delete_queue_pairs_spec own qps lq l s :
  pairs_own qps lq -> holds own (lq ++ l) s -> wp (delete_queue_pairs qps) (fun _ s' => quiet own s s' /\ holds own l s') s.
Proof.
  intros P. revert s. induction P as [|qp qps l0 l1 M P IH]; intros s H; cbn [delete_queue_pairs]; [by apply wp_ret|].
  rewrite <- app_assoc in H. apply wp_bind. eapply wp_mono; [by eapply release_members_spec|]. intros _ s1 [Q1 H1].
  eapply wp_mono; [by apply IH|]. intros _ s2 [Q2 H2]. split; [by etransitivity|done].
Qed.

(** The admin reference and the controller are no longer held; [l] is. *)
Definition gone (own : nat -> Z) (c : nat) (l : list resource) (s0 s s' : gpu_state) : Prop :=
  holds (<[c := own c - 2]> own) l s' /\ rs_refs (gs_rpc s') = rs_refs (gs_rpc s0) /\ rs_admins (gs_rpc s') = rs_admins (gs_rpc s0) /\
  gs_fds s' = gs_fds s /\ gs_windows s' = gs_windows s /\ gs_cmds s' = gs_cmds s.

Lemma drop_controller_spec own ref c a x hd ct l s0 s (k : G unit) (Q : unit -> gpu_state -> Prop) :
  joined ref c a x hd s0 s -> holds own (RCont x ct :: l) s -> 2 <= own c ->
  (forall s', gone own c l s0 s s' -> wp k Q s') ->
  wp (rpc (nvm_aq_destroy (Some ref));; lib (nvm_ctrl_free (Some c));; k) Q s.
Proof.
  intros [Hr Er Ha (la & Ea & Ex) _] H Ho HQ. pose proof (holds_cont _ _ _ _ _ H) as Hx.
  apply wp_bind, wp_rpc. eapply wp_mono; [apply (aq_destroy_spec own (gs_rpc s) c ref a la ct (ho_good _ _ _ H)); [lia|..]|].
  { rewrite Er. apply lookup_insert_eq. }
  { rewrite Ea. apply lookup_insert_eq. }
  { by rewrite Ex. }
  intros _ s1 (G1 & En & Ec & Er1 & Ea1 & _). rewrite Ex in Ec. set (own1 := <[c := own c - 1]> own) in *.
  pose proof (holds_del_cont own own1 x ct l s (rs_host s1) H G1 Ec) as H1.
  destruct (proj2 (oc_own _ _ (ok_c _ _ (g_ok _ _ G1)) c)) as [k0 Hk]; [unfold own1; rewrite fn_lookup_insert; lia|].
  destruct (oc_count _ _ (ok_c _ _ (g_ok _ _ G1)) _ _ Hk) as [_ ?]. pose proof (proj1 (g_bounded _ _ G1) _ _ Hk).
  apply wp_bind, wp_lib. eapply wp_mono; [apply (ctrl_put_any_spec (rs_host s1) c k0 Hk); [lia|by eapply oc_dev; [apply G1|]]|].
  intros _ h ->. apply HQ. split; [|split_and!; try done].
  - assert (G2 : good (<[c := own c - 2]> own) (upd (rs_host s1) (drop_ref (hp (rs_host s1)) c k0))).
    { destruct (good_dropped own1 (rs_host s1) c k0 G1 Hk) as [O B Bd]; [unfold own1; rewrite fn_lookup_insert; lia|]. split; try done.
      eapply ok_ext; [|exact O]. intros c'. unfold own1. destruct (decide (c' = c)) as [->|]; rewrite ?fn_lookup_insert, ?fn_lookup_insert_ne by done; [lia|done]. }
    destruct H1 as [_ N1 E1 N2 E2 A N3 E3]. split; try done. cbn. by rewrite drop_ref_conts.
  - cbn. rewrite Er1, Er. by apply delete_insert_id.
  - cbn. rewrite Ea1, Ea. by apply delete_insert_id.
Qed.

Lemma delete_Controller_spec own a x hd ct l l' s0 s y :
  controller_own y x ct l' -> joined (ct_aq_ref y) (ct_ctrl y) a x hd s0 s -> holds own (l' ++ l) s -> 2 <= own (ct_ctrl y) ->
  wp (delete_Controller y) (fun _ s' => gone own (ct_ctrl y) l s0 s s') s.
Proof.
  intros (rb & lq & ld & b & p & F & Po & Ep & Ld & Em & ->) J H Ho. unfold delete_Controller. set (aq := dp_dma _) in *.
  apply wp_bind. eapply wp_deref; [exact Ep|].
  apply wp_bind. eapply wp_mono; [eapply (cudaFree_array own _ ld (lq ++ RCont x ct :: rb :: RCont aq ct :: RHost b :: l)); [done|]|].
  { eapply holds_perm; [|exact H]. cbn. rewrite <- !app_assoc. cbn. solve_Permutation. }
  intros _ s1 [Q1 H1]. apply wp_bind. eapply wp_mono; [by eapply delete_queue_pairs_spec|]. intros _ s2 [Q2 H2].
  assert (Q12 : quiet own s s2) by (by etransitivity). assert (J2 : joined (ct_aq_ref y) (ct_ctrl y) a x hd s0 s2).
  { eapply (joined_calm own); [exact J|by apply quiet_calm|lia]. }
  eapply (drop_controller_spec own _ _ a x hd ct); [exact J2|exact H2|done|]. intros s3 (H3 & Er & Ea & Ef & Ew & Em').
  apply wp_bind. eapply wp_mono; [by eapply release_buffer_spec|]. intros _ s4 [Q4 H4].
  eapply wp_mono; [eapply (release_dma_spec _ _ ct (RHost b)); [by rewrite Em|exact H4]|]. intros _ s5 [Q5 H5].
  destruct Q12, Q4, Q5. split_and!; [done|congruence..].
Qed.


(** ** The constructor *)

Lemma open_path_spec s n :
  wp open_path (fun r s' => exists h, hp h = hp (hst s) /\ next h = next (hst s) /\ nth n (faults h) 0 = nth (S n) (faults (hst s)) 0 /\
    s' = match r with Ok _ => set_gfds (tick s h) (gs_fds s + 1) | Thrown => tick s h end) s.
Proof.
  apply wp_bind, wp_lib. unfold hst. destruct (rs_host (gs_rpc s)) as [h m [|e f]] eqn:E; (eapply wp_eq; [done|]).
  - apply wp_bind, wp_st_modify, wp_ret. exists (MkHost h m []). split_and!; try done. cbn. by destruct n.
  - destruct (e =? 0); cbn [negb].
    + apply wp_bind, wp_st_modify, wp_ret. by exists (MkHost h m f).
    + apply wp_ret. by exists (MkHost h m f).
Qed.

Lemma rpc_below_quiet own s s' : quiet own s s' -> rpc_below (gs_rpc s) -> rpc_below (gs_rpc s').
Proof.
  intros Q B i Hi. rewrite (qu_refs _ _ _ Q), (qu_admins _ _ _ Q). apply B. pose proof (qu_next _ _ _ Q). unfold hst in *. lia.
Qed.

(** The controller and host the constructor can start with: pages of 128 bytes to 1 MiB
    whose completions fit a queue; a window the library does not hold yet, whose mapping
    succeeds. *)
Definition hd : nvm_ctrl_t := init_handle cap page_size mm_ptr NVM_CTRL_MEM_MINSIZE.

Record startable (own : nat -> Z) (l : list resource) (s : gpu_state) : Prop := {
  st_page : exists k, page_size = 2 ^ k /\ 7 <= k <= 20 /\ 2 ^ k / 16 <= u32 (CAP_MQES cap + 1);
  st_holds : holds own l s;
  st_below : rpc_below (gs_rpc s);
  st_window : (mm_ptr ∉ h_mms (hp (hst s))) /\ mm_ptr <> 0;
  st_mmap : nth 4 (faults (hst s)) 0 = 0;
  st_room : Z.of_nat (length l) < 2 ^ 31
}.

(** What a successful constructor leaves. *)
Definition constructed (own : nat -> Z) (l : list resource) (d depth numQueues : Z) (s s' : gpu_state) (y : Controller) : Prop :=
  gs_fds s' = gs_fds s /\ own (ct_ctrl y) = 0 /\ working hd d depth numQueues s s' y /\
  exists a x ct l', joined (ct_aq_ref y) (ct_ctrl y) a x hd s s' /\ controller_own y x ct l' /\
    holds (<[ct_ctrl y := 2]> own) (l' ++ l) s'.

(** What a constructor that throws leaves. *)
Definition thrown (own : nat -> Z) (l : list resource) (s s' : gpu_state) : Prop :=
  (holds own l s' /\ hp (hst s') = hp (hst s) /\ (gs_fds s' = gs_fds s \/ gs_fds s' = gs_fds s + 1)) \/
  exists c, h_ctrls (hp (hst s)) !! c = None /\ leaves c s'.

Lemma ctrl_init_opened own l s :
  holds own l s -> mm_ptr ∉ h_mms (hp (hst s)) -> mm_ptr <> 0 -> nth 3 (faults (hst s)) 0 = 0 -> 0 < page_size < 2 ^ 64 ->
  wp (lib (nvm_ctrl_init cap page_size mm_ptr)) (fun r s' => gs_fds s' = gs_fds s /\ gs_windows s' = gs_windows s /\
    rs_refs (gs_rpc s') = rs_refs (gs_rpc s) /\ rs_admins (gs_rpc s') = rs_admins (gs_rpc s) /\ (next (hst s) <= next (hst s'))%nat /\
    ((fst r <> 0 /\ snd r = None /\ hp (hst s') = hp (hst s) /\ holds own l s') \/
     exists c, r = (0, Some c) /\ own c = 0 /\ h_ctrls (hp (hst s)) !! c = None /\ ctl s' c hd /\ holds (<[c := 1]> own) l s')) s.
Proof.
  intros H Hm H0 Hf Hp. pose proof (ho_good _ _ _ H) as Gd. apply wp_lib.
  eapply wp_mono; [apply (nvm_ctrl_init_spec cap page_size mm_ptr (hst s) (g_below _ _ Gd)); done|].
  intros r h [Hn O]. do 4 (split; [done|]). split; [done|]. destruct O as [(He & Ho & E)|(c & dv & -> & Hd & Hc & _ & E)].
  - left. split_and!; try done. by eapply holds_tick.
  - right. exists c. assert (Hnone : h_ctrls (hp (hst s)) !! c = None) by (eapply below_ctrl; [apply Gd|lia]).
    assert (Ho : own c = 0).
    { destruct (oc_own _ _ (ok_c _ _ (g_ok _ _ Gd)) c) as [_ Hs]. destruct (decide (own c = 0)) as [|Hne]; [done|].
      destruct (Hs Hne) as [k Hk]. by rewrite Hk in Hnone. }
    split_and!; try done.
    + eexists. change (hst (tick s h)) with h. rewrite E. split; [apply lookup_insert_eq|done].
    + pose proof (good_opened own (hst s) h c dv mm_ptr hd Gd ltac:(lia) ltac:(lia) ltac:(done) E) as G1.
      destruct H as [_ N1 E1 N2 E2 A N3 E3]. split; try done. change (hst (tick s h)) with h. by rewrite E.
Qed.


Lemma holds_ext own own' l s : (forall c, own c = own' c) -> holds own l s -> holds own' l s.
Proof. intros E [[O B Bd] N1 E1 N2 E2 A N3 E3]. split; try done. split; try done. by eapply ok_ext. Qed.

Lemma new_Controller_spec own l s ns_id d depth numQueues :
  startable own l s -> 1 <= depth ->
  wp_if (array_allocates s) (new_Controller dev identify lib_addr blank cap ver page_size mm_ptr sizeof_QueuePair sizeof_Controller ns_id d depth numQueues)
    (fun r s' => match r with Ok y => constructed own l d depth numQueues s s' y | Thrown => thrown own l s s' end) s.
Proof.
  intros [(k & Hps & Hk & Hmq) H B [Hm H0] Hf Hroom] Hd. pose proof (Z.pow_le_mono_r 2 k 20 ltac:(lia) ltac:(lia)) as Hp1.
  pose proof (Z.pow_pos_nonneg 2 k ltac:(lia) ltac:(lia)) as Hp2. assert (Hp : 0 < page_size < 2 ^ 64) by lia.
  assert (Eps : ctl_page_size hd = 2 ^ k) by done. pose proof (fits k hd Eps Hk Hmq) as Fit.
  destruct (timeout_range cap page_size mm_ptr NVM_CTRL_MEM_MINSIZE) as [T0 T1]. fold hd in T0, T1.
  apply wpi_guard, wpi_wp. eapply wp_mono; [apply (open_path_spec s 3)|]. intros r s1 (h & Eh & En & Ef & ->).
  pose proof (holds_tick _ _ _ h H Eh ltac:(lia)) as H1. destruct r as [[]|]; [|apply wpi_wp, wp_bind, wp_ret, wp_ret; left; by split_and!; [..|left]].
  set (s1 := set_gfds _ _). assert (H1' : holds own l s1) by (by eapply holds_same).
  apply wpi_first. eapply wp_mono; [apply (ctrl_init_opened own l s1 H1'); [by change (hst s1) with h; rewrite Eh|done|change (hst s1) with h; congruence|done]|].
  intros [e o] s2 (Efd & Ew & Er & Ea & Hn & [(He & Ho & E2 & H2)|(c & [= -> ->] & Hoc & Hnone & C2 & H2)]); cbn [fst snd] in *.
  { subst o. assert (thrown own l s s2) as T by (left; split_and!; [done|by rewrite E2; change (hst s1) with h|by right; rewrite Efd]).
    destruct e; [done|by apply wpi_wp, wp_ret..]. }
  assert (Hnone' : h_ctrls (hp (hst s)) !! c = None) by (by change (hst s1) with h in Hnone; rewrite <- Eh).
  set (own1 := <[c := 1]> own) in *. assert (Ho1 : own1 c = 1) by apply fn_lookup_insert.
  destruct C2 as (kc & Hkc & Ekc). apply wpi_first, wp_st_get, wpi_first. eapply wp_deref; [exact Hkc|]. rewrite Ekc.
  assert (C2 : ctl s2 c hd) by (by exists kc). apply wpi_guard, wpi_wp.
  eapply wp_mono; [apply (createDma_host_spec own1 c hd _ l s2 H2); [split; lia|done]|]. intros [p|] s3 [Q3 O3].
  2: { apply wpi_wp, wp_bind, wp_ret, wp_ret. right. exists c. split; [done|]. exists own1, l. split; [done|lia]. }
  destruct O3 as (b & ct & Em & Hb & Dma & H3). pose proof (aq_pages hd k b _ Eps Hk Dma) as Hlen.
  assert (B3 : rpc_below (gs_rpc s3)).
  { eapply (rpc_below_quiet own1); [exact Q3|]. intros i Hi. rewrite Er, Ea. apply B. unfold hst in *. cbn in Hn. lia. }
  apply wpi_guard, wpi_wp. eapply wp_mono; [apply (initializeController_spec own1 c hd p ct b l s3 ns_id H3); try done|].
  { split; [lia|]. cbn [length]. lia. }
  { apply (qu_ctl _ _ _ Q3); [lia|done]. }
  intros [[[[[ref info] ns] n] m]|] s4 [[Efd4 Ew4] O4].
  2: { destruct O4 as (own' & l' & Ho' & H4). apply wpi_first. eapply wp_mono; [by eapply (unwind_aq own' c p ct b l l')|].
       intros _ s5 [_ L]. apply wpi_wp, wp_ret. right. by exists c. }
  destruct O4 as (a & x & e & J4 & R4 & H4 & _ & He & El). apply (holds_ext _ (<[c := 2]> own)) in H4.
  2: { intros c'. unfold own1. destruct (decide (c' = c)) as [->|]; by rewrite ?fn_lookup_insert, ?fn_lookup_insert_ne by done. }
  assert (J : joined ref c a x hd s s4).
  { destruct J4 as [J1 J2 J3 J4 J5]. rewrite (qu_refs _ _ _ Q3), Er in *. rewrite (qu_admins _ _ _ Q3), Ea in *. by split. }
  assert (Ed : gs_dev s4 = gs_dev s) by (by rewrite (ho_devs _ _ _ H4), (ho_devs _ _ _ H)).
  assert (Ea' : array_allocates s4 = array_allocates s) by (unfold array_allocates; by rewrite Ed). rewrite <- Ea'.
  eapply wpi_mono; [apply (start_queues_spec (<[c := 2]> own) ref c a x hd p ct b l s s4 info ns e); try done|].
  { split; rewrite fn_lookup_insert; [lia|]. cbn [length]. lia. }
  { rewrite Eps. lia. }
  intros [y|] s5 O5; [|right; by exists c]. destruct O5 as (J5 & Ef5 & <- & <- & [? ? ? ? ? Ew5] & l' & Own & H5).
  assert (gs_windows s4 = gs_windows s) as Ew' by (rewrite Ew4, (qu_windows _ _ _ Q3), Ew; done). rewrite Ew' in Ew5.
  split_and!; [rewrite Ef5, Efd4, (qu_fds _ _ _ Q3), Efd; cbn; lia|done|by split|]. by exists a, x, ct, l'.
Qed.


(** ** Theorems *)

Lemma holds_dev own l s o n : holds own l s -> gs_dev s !! o = Some n <-> RDev o n ∈ l.
Proof.
  intros H. rewrite (ho_devs _ _ _ H), <- elem_of_list_to_map by apply H. unfold devs_of. rewrite list_elem_of_omap. split.
  - by intros ([] & Hin & [= <- <-]).
  - intros Hin. by exists (RDev o n).
Qed.

(** Queue memory on the GPU: the buffer of a new DMA handle starts at a 64 KiB boundary,
    overlaps nothing that was allocated before, is cleared, and the handle describes it.
    A failure frees nothing that was allocated before. *)
Theorem device_buffer_apart own l s c hdl size d :
  holds own l s -> roomy own c 2 l -> ctl s c hdl -> 0 <= size < 2 ^ 63 -> 0 <= d ->
  wp (createDma c size d) (fun r s' =>
    (forall o n, gs_dev s !! o = Some n -> gs_dev s' !! o = Some n) /\
    match r with
    | Ok p => exists ct b, h_conts (hp (hst s')) !! dp_dma p = Some ct /\ dma_vaddr (ct_handle ct) = User b /\ b mod 65536 = 0 /\
        (forall i, b <= i < b + size -> gs_mem s' i = 0) /\
        (forall o n, gs_dev s !! o = Some n -> b + size <= o \/ o + n <= b)
    | Thrown => True
    end) s.
Proof.
  intros H Ro Hc Hs Hd. eapply wp_mono; [by apply (createDma_spec own c hdl size d l s H Ro Hc)|]. intros [p|] s' [_ O].
  - destruct O as (ct & r & _ & H' & Dev). destruct (Dev Hd) as (b & o & n & -> & Hb & Hob & Hbn & (io & _ & Eh) & Hz).
    split; [intros o' n'; rewrite (holds_dev _ _ _ _ _ H), (holds_dev _ _ _ _ _ H'), !elem_of_cons; auto|].
    exists ct, b. split; [by eapply holds_cont|]. split; [by rewrite Eh|]. do 2 (split; [done|]).
    intros o' n' Hin. pose proof (ho_apart _ _ _ H') as [_ A]. pose proof (ho_devs_nodup _ _ _ H') as N. cbn in N. apply list.NoDup_cons in N as [N _].
    rewrite (holds_dev _ _ _ _ _ H) in Hin. assert (Hl : (o', n') ∈ devs_of l) by (apply list_elem_of_omap; by exists (RDev o' n')).
    destruct (A o n o' n'); [apply elem_of_cons; by left|apply elem_of_cons; by right| |lia..].
    intros ->. apply N, list_elem_of_fmap. by exists (o', n').
  - destruct O as (l' & _ & H'). split; [|done]. intros o n. rewrite (holds_dev _ _ _ _ _ H), (holds_dev _ _ _ _ _ H'), elem_of_app. auto.
Qed.

(** C28: A controller that starts works.  For a controller and host that are [startable]
    (pages of 128 bytes to 1 MiB whose completions fit the controller's limit on queue
    entries; a new register window whose mapping succeeds) and when the device allocation
    of the queue pairs' array succeeds, which the code does not check, the constructor never
    runs into undefined behaviour; when it returns, there are as many queue pairs as were
    asked for and granted (the number asked for is truncated to 16 bits), numbered from 1.
    For each the controller was told its queues' sizes, identifiers and bus addresses,
    completion queue first; the sizes obey the controller's limits; on the GPU the queues
    and their marks, locks and tickets are cleared, do not overlap, and what fits a GPU page
    is contiguous on the bus.  The descriptor is closed. *)
Theorem controller_starts own l s ns_id d depth numQueues :
  startable own l s -> array_allocates s -> 1 <= depth ->
  wp (new_Controller dev identify lib_addr blank cap ver page_size mm_ptr sizeof_QueuePair sizeof_Controller ns_id d depth numQueues)
    (fun r s' => match r with Ok y => working hd d depth numQueues s s' y /\ gs_fds s' = gs_fds s | Thrown => True end) s.
Proof.
  intros St Ha Hd. eapply wp_mono; [by apply (wpi_total _ _ _ _ Ha), (new_Controller_spec own l)|].
  intros [y|] s' O; [|done]. by destruct O as (? & _ & ? & _).
Qed.

(** A constructor that returns has allocated the array: when the allocation has failed, it
    throws or stops at the first copy, which uses the uninitialised pointer. *)
Theorem controller_array_unchecked own l s ns_id d depth numQueues r s1 :
  startable own l s -> 1 <= depth ->
  new_Controller dev identify lib_addr blank cap ver page_size mm_ptr sizeof_QueuePair sizeof_Controller ns_id d depth numQueues s = Some (Ok r, s1) ->
  ct_d_qps r <> None.
Proof.
  intros St Hd E. pose proof (wpi_exec _ _ _ _ _ _ E (new_Controller_spec own l s ns_id d depth numQueues St Hd)) as (_ & _ & _ & a & x & ct & l' & _ & Own & _).
  destruct Own as (rb & lq & ld & b & p & _ & _ & -> & _). done.
Qed.

(** C29: Constructing and destroying a controller is a round trip: the handles, device and
    host allocations, references to controllers, admin references and queue pairs are what
    they were; from a state with none of them the library's heap ends empty.  The
    destructor sends no command, so the controller keeps queues whose memory is gone, and
    the window stays registered with CUDA. *)
Theorem controller_lifetime own l s ns_id d depth numQueues y s1 :
  startable own l s -> 1 <= depth ->
  new_Controller dev identify lib_addr blank cap ver page_size mm_ptr sizeof_QueuePair sizeof_Controller ns_id d depth numQueues s = Some (Ok y, s1) ->
  wp (delete_Controller y) (fun _ s2 =>
    holds own l s2 /\ rs_refs (gs_rpc s2) = rs_refs (gs_rpc s) /\ rs_admins (gs_rpc s2) = rs_admins (gs_rpc s) /\
    gs_fds s2 = gs_fds s /\ gs_cmds s2 = gs_cmds s1 /\ gs_windows s2 = gs_windows s ++ [mm_ptr] /\
    (l = [] -> (forall c, own c = 0) -> gs_dev s2 = ∅ /\ gs_host s2 = ∅ /\ hp (hst s2) = set_mms empty_heap (h_mms (hp (hst s2))))) s1.
Proof.
  intros St Hd E. pose proof (wpi_exec _ _ _ _ _ _ E (new_Controller_spec own l s ns_id d depth numQueues St Hd)) as (Ef & Ho & W & a & x & ct & l' & J & Own & H).
  eapply wp_mono; [eapply (delete_Controller_spec _ a x hd ct l l' s s1); [done..|]; rewrite fn_lookup_insert; lia|].
  intros _ s2 (H2 & Er & Ea & Ef2 & Ew2 & Em2). apply (holds_ext _ own) in H2.
  2: { intros c'. destruct (decide (c' = ct_ctrl y)) as [->|]; rewrite ?fn_lookup_insert, ?fn_lookup_insert_ne by done; [lia|done]. }
  split_and!; try congruence; [rewrite Ew2; apply W|]. intros -> Hz. split_and!; [apply H2|apply H2|].
  by apply (good_empty_heap own (hst s2)); [apply H2..|].
Qed.

(** A constructor that throws leaks, unless opening the device failed: either the
    descriptor stays open or a controller that did not exist before stays open.  The
    library's invariant still holds. *)
Theorem controller_throw_leaks own l s ns_id d depth numQueues s1 :
  startable own l s -> 1 <= depth ->
  new_Controller dev identify lib_addr blank cap ver page_size mm_ptr sizeof_QueuePair sizeof_Controller ns_id d depth numQueues s = Some (Thrown, s1) ->
  (exists own' l', holds own' l' s1) /\
  (hp (hst s1) = hp (hst s) /\ gs_fds s1 = gs_fds s \/ gs_fds s1 = gs_fds s + 1 \/
   exists c, h_ctrls (hp (hst s)) !! c = None /\ is_Some (h_ctrls (hp (hst s1)) !! c)).
Proof.
  intros St Hd E. destruct (wpi_exec _ _ _ _ _ _ E (new_Controller_spec own l s ns_id d depth numQueues St Hd)) as [(H & Eh & F)|(c & Hc & own' & l' & H & Ho)].
  - split; [by exists own, l|]. destruct F; auto.
  - split; [by exists own', l'|]. right. right. exists c. split; [done|].
    apply (oc_own _ _ (ok_c _ _ (g_ok _ _ (ho_good _ _ _ H)))). lia.
Qed.

Lemma queue_entries_pow2 max i j k :
  max = 2 ^ k -> cap mod 2 ^ 16 + 1 = 2 ^ j -> 0 <= i -> 0 <= j -> 0 <= k -> exists n, 0 <= n <= i /\ n <= j /\ queue_entries cap max (2 ^ i) = 2 ^ n.
Proof.
  intros -> Ej Hi Hj Hk. unfold queue_entries. rewrite Ej. cbv zeta.
  assert (exists m, 0 <= m <= j /\ (if Z.land cap 65536 =? 65536 then if 2 ^ k <=? 2 ^ j then 2 ^ k else 2 ^ j else 2 ^ j) = 2 ^ m) as (m & Hm & ->).
  { destruct (_ =? _); [|by exists j]. destruct (Z.leb_spec (2 ^ k) (2 ^ j)) as [Hle|]; [|by exists j]. exists k. apply Z.pow_le_mono_r_iff in Hle; [|lia..]. done. }
  destruct (Z.le_gt_cases i m); [exists i|exists m]; split_and!; try lia; [apply Z.min_l|apply Z.min_r]; apply Z.pow_le_mono_r; lia.
Qed.

(** C38: The masks and shifts of the parallel queues are division by the queue size.  When the
    depth asked for and the controller's limit are powers of two, every queue of a
    controller has 2^[qs_log2] entries, as the models of its submission and completion
    queues assume, and [pos & qs_minus_1] and [pos >> qs_log2] are the slot and the round
    of a position. *)
Theorem queue_masks own l s ns_id d depth numQueues y s1 i j qp q :
  startable own l s -> depth = 2 ^ i -> 1 <= i -> cap mod 2 ^ 16 + 1 = 2 ^ j ->
  new_Controller dev identify lib_addr blank cap ver page_size mm_ptr sizeof_QueuePair sizeof_Controller ns_id d depth numQueues s = Some (Ok y, s1) ->
  qp ∈ ct_h_qps y -> q = qp_sq qp \/ q = qp_cq qp ->
  let lg := gq_qs_log2 q in
  1 <= lg <= 16 /\ q_qs (gq_queue q) = ParallelSq.Sq.qs lg /\ gq_qs_minus_1 q = ParallelCq.Cq.qs_minus_1 lg /\
  forall pos, Z.land pos (gq_qs_minus_1 q) = pos mod q_qs (gq_queue q) /\ Z.shiftr pos lg = pos / q_qs (gq_queue q).
Proof.
  intros St -> Hi Ej E (n & Hn)%list_elem_of_lookup Hq lg.
  destruct (wpi_exec _ _ _ _ _ _ E (new_Controller_spec own l s ns_id d (2 ^ i) numQueues St ltac:(lia))) as (_ & _ & W & _).
  destruct (wk_pairs _ _ _ _ _ _ _ W n qp Hn) as [_ Es Ec Sz _ _]. destruct (Sz q Hq) as (S1 & _ & S2 & S3).
  assert (0 <= j) by (destruct (Z.neg_nonneg_cases j); [|done]; pose proof (Z.mod_pos_bound cap (2 ^ 16)); rewrite (Z.pow_neg_r 2 j) in Ej by lia; lia).
  assert (exists m, 0 <= m /\ q_qs (gq_queue q) = 2 ^ m) as (m & Hm & Em).
  { destruct (queue_entries_pow2 MAX_SQ_ENTRIES_64K i j 10) as (m1 & Hm1 & _ & E1); [done|done|lia..|].
    destruct (queue_entries_pow2 MAX_CQ_ENTRIES_64K i j 12) as (m2 & Hm2 & _ & E2); [done|done|lia..|].
    destruct Hq as [-> | ->]; [exists m1|exists m2]; (split; [lia|congruence]). }
  assert (El : lg = m) by (unfold lg; rewrite S3, Em; by apply Z.log2_pow2). rewrite S2, El, Em in *. change 2 with (2 ^ 1) in S1 at 1.
  split; [split; [apply (Z.pow_le_mono_r_iff 2); lia|apply (Z.pow_le_mono_r_iff 2); [lia..|]; change (2 ^ 16) with 65536; lia]|].
  split; [done|]. split; [done|]. intros pos. split; [by apply land_ones_mod|by apply Z.shiftr_div_pow2].
Qed.

End controller.

(** ** Witnesses *)

(** The end of the highest allocation. *)
Definition example_top (l : list (Z * Z)) : Z := foldr (fun p m => Z.max (Z.max (p.1 + p.2) (p.1 + 1)) m) 65536 l.

Lemma example_top_bound l : 65536 <= example_top l /\ forall b n, (b, n) ∈ l -> b + n <= example_top l /\ b < example_top l.
Proof.
  induction l as [|[b0 n0] l [IH1 IH2]]; cbn; [split; [lia|by intros b n ?%not_elem_of_nil]|]. fold (example_top l). split; [lia|].
  intros b n [[= -> ->]|H%IH2]%elem_of_cons; lia.
Qed.

Definition example_cuda : Cuda.
Proof.
  refine {| cuda_malloc live size := let a := example_top (map_to_list live) in if a + size <=? 2 ^ 48 then Some a else None;
            host_malloc live size := let a := example_top ((fun b => (b, 4096)) <$> elements live) in if a <? 2 ^ 64 then Some a else None;
            device_pointer p := p + 2 ^ 40 |}.
  - intros live size a. cbv zeta. destruct (Z.leb_spec (example_top (map_to_list live) + size) (2 ^ 48)); [|done]. intros [= <-].
    destruct (example_top_bound (map_to_list live)) as [? Hb]. split_and!; [lia|done|]. apply eq_None_not_Some. intros [n Hn%elem_of_map_to_list%Hb]. lia.
  - intros live size a b n. cbv zeta. destruct (_ <=? _); [|done]. intros [= <-] _ Hb%elem_of_map_to_list. right. by eapply (example_top_bound (map_to_list live)).
  - intros live size a. cbv zeta. set (l := _ <$> _). destruct (Z.ltb_spec (example_top l) (2 ^ 64)); [|done]. intros [= <-].
    destruct (example_top_bound l) as [? Hb]. split; [lia|]. intros Hin. assert ((example_top l, 4096) ∈ l) as Hl%Hb; [|lia].
    apply list_elem_of_fmap. eexists. split; [done|]. by apply elem_of_elements.
Defined.

(** A controller that completes every command at once and offers eight queues. *)
Definition example_dev (_ : nat) : device := fun _ _ _ => (fun _ _ => [0; 0; 0; 2 ^ 16], fun _ => [0x00070007; 0; 0; 2 ^ 16]).
Definition example_identify (_ : nat) (_ page : list Z) : list Z := <[130%nat := 9]> page.
Definition example_gpu : gpu_state := MkGpu (MkRpc (snd (start ∅ [])) ∅ ∅ [] [] (fun _ => (0, fun i => if (i =? 0)%nat then 0 else 1)) [] []) ∅ (fun _ => 255) ∅ 0 [] [] [] 0.

(** One that fails every command. *)
Definition failing_dev (_ : nat) : device := fun _ _ _ => (fun _ _ => [0; 0; 0; 2 ^ 16], fun _ => [0; 0; 0; 2 ^ 17 + 2 ^ 16]).

Definition example_new (dev : nat -> device) : option (res Controller * gpu_state) :=
  new_Controller (K := example_kernel) (C := example_cuda) dev example_identify (fun n => 2 ^ 40 + 4096 * Z.of_nat n) (example_queue 16)
    example_cap 0x10400 4096 8192 512 256 1 0 1024 2 example_gpu.

(** The constructor succeeds with two queue pairs on the first, and throws on the second. *)
Lemma example_ok : match example_new example_dev with Some (Ok y, _) => length (ct_h_qps y) = 2%nat | _ => False end.
Proof. vm_compute. reflexivity. Qed.

Lemma example_throws : match example_new failing_dev with Some (Thrown, _) => True | _ => False end.
Proof. vm_compute. exact I. Qed.

Lemma example_startable : startable example_cap 4096 8192 (fst (start ∅ [])) [] example_gpu.
Proof.
  split.
  - exists 12. split_and!; [done|lia|lia|by vm_compute].
  - split; try done; try apply NoDup_nil_2; [apply good_start|split; intros; by exfalso; eapply not_elem_of_nil].
  - intros i _. split; apply lookup_empty.
  - split; [cbn; set_solver|done].
  - done.
  - done.
Qed.

Lemma example_allocates : array_allocates (C := example_cuda) 512 example_gpu.
Proof.
  intros n Hn. rewrite u64_id by (split; lia). cbn [cuda_malloc example_cuda gs_dev example_gpu].
  rewrite map_to_list_empty. cbn [example_top foldr]. destruct (Z.leb_spec (65536 + 512 * n) (2 ^ 48)); [done|lia].
Qed.

Lemma controller_starts_witness :
  (exists y s', example_new example_dev = Some (Ok y, s') /\ length (ct_h_qps y) = 2%nat) /\
  wp (new_Controller (K := example_kernel) (C := example_cuda) example_dev example_identify (fun n => 2 ^ 40 + 4096 * Z.of_nat n) (example_queue 16)
    example_cap 0x10400 4096 8192 512 256 1 0 1024 2)
    (fun r s' => match r with
       | Ok y => working example_cap (hd example_cap 4096 8192) 0 1024 2 example_gpu s' y /\ gs_fds s' = gs_fds example_gpu
       | Thrown => True end) example_gpu.
Proof.
  split.
  - pose proof example_ok as O. destruct (example_new example_dev) as [[[y|] s1]|]; [|done|done]. by exists y, s1.
  - apply (controller_starts (K := example_kernel) (C := example_cuda) example_dev example_identify (fun n => 2 ^ 40 + 4096 * Z.of_nat n) (example_queue 16)
      example_cap 0x10400 4096 8192 512 256 ltac:(lia) (fst (start ∅ [])) [] example_gpu 1 0 1024 2 example_startable example_allocates). lia.
Defined.

Lemma controller_lifetime_witness :
  exists y s1, example_new example_dev = Some (Ok y, s1) /\
    wp (delete_Controller y) (fun _ s2 =>
      holds (fst (start ∅ [])) [] s2 /\ rs_refs (gs_rpc s2) = ∅ /\ rs_admins (gs_rpc s2) = ∅ /\
      gs_fds s2 = 0 /\ gs_cmds s2 = gs_cmds s1 /\ gs_windows s2 = [8192] /\
      (([] : list resource) = [] -> (forall c, fst (start ∅ []) c = 0) ->
       gs_dev s2 = ∅ /\ gs_host s2 = ∅ /\ hp (hst s2) = set_mms empty_heap (h_mms (hp (hst s2))))) s1.
Proof.
  pose proof example_ok as O. destruct (example_new example_dev) as [[[y|] s1]|] eqn:E; [|destruct O|destruct O]. exists y, s1. split; [reflexivity|].
  apply (controller_lifetime (K := example_kernel) (C := example_cuda) example_dev example_identify (fun n => 2 ^ 40 + 4096 * Z.of_nat n) (example_queue 16)
    example_cap 0x10400 4096 8192 512 256 ltac:(lia) (fst (start ∅ [])) [] example_gpu 1 0 1024 2 y s1 example_startable ltac:(lia) E).
Defined.

Lemma controller_throw_leaks_witness :
  exists s1, example_new failing_dev = Some (Thrown, s1) /\
    (exists own' l', holds own' l' s1) /\
    (hp (hst s1) = hp (hst example_gpu) /\ gs_fds s1 = gs_fds example_gpu \/ gs_fds s1 = gs_fds example_gpu + 1 \/
     exists c, h_ctrls (hp (hst example_gpu)) !! c = None /\ is_Some (h_ctrls (hp (hst s1)) !! c)).
Proof.
  pose proof example_throws as O. destruct (example_new failing_dev) as [[[y|] s1]|] eqn:E; [destruct O| |destruct O]. exists s1. split; [reflexivity|].
  apply (controller_throw_leaks (K := example_kernel) (C := example_cuda) failing_dev example_identify (fun n => 2 ^ 40 + 4096 * Z.of_nat n) (example_queue 16)
    example_cap 0x10400 4096 8192 512 256 ltac:(lia) (fst (start ∅ [])) [] example_gpu 1 0 1024 2 s1 example_startable ltac:(lia) E).
Defined.

Lemma queue_masks_witness :
  exists y s1 qp, example_new example_dev = Some (Ok y, s1) /\ qp ∈ ct_h_qps y /\
    let lg := gq_qs_log2 (qp_sq qp) in
    1 <= lg <= 16 /\ q_qs (gq_queue (qp_sq qp)) = ParallelSq.Sq.qs lg /\ gq_qs_minus_1 (qp_sq qp) = ParallelCq.Cq.qs_minus_1 lg /\
    forall pos, Z.land pos (gq_qs_minus_1 (qp_sq qp)) = pos mod q_qs (gq_queue (qp_sq qp)) /\ Z.shiftr pos lg = pos / q_qs (gq_queue (qp_sq qp)).
Proof.
  pose proof example_ok as O. destruct (example_new example_dev) as [[[y|] s1]|] eqn:E; [|destruct O|destruct O].
  destruct (ct_h_qps y) as [|qp qps] eqn:Eq; [discriminate O|]. exists y, s1, qp. split; [reflexivity|]. rewrite Eq. split; [apply elem_of_cons; by left|].
  apply (queue_masks (K := example_kernel) (C := example_cuda) example_dev example_identify (fun n => 2 ^ 40 + 4096 * Z.of_nat n) (example_queue 16)
    example_cap 0x10400 4096 8192 512 256 ltac:(lia) (fst (start ∅ [])) [] example_gpu 1 0 1024 2 y s1 10 12 qp (qp_sq qp) example_startable);
    [done|lia|done|exact E|rewrite Eq; apply elem_of_cons; by left|by left].
Defined.

(** A controller is open and 100 bytes of the device are in use. *)
Definition example_open : gpu_state := MkGpu (MkRpc (snd (example_state 1)) ∅ ∅ [] [] (fun _ => (0, fun i => if (i =? 0)%nat then 0 else 1)) [] []) {[65536 := 100]} (fun _ => 255) ∅ 0 [] [] [] 0.

Lemma example_open_holds : holds (fst (example_state 1)) [RDev 65536 100] example_open.
Proof.
  split; [|apply NoDup_nil_2|vm_compute; reflexivity|by apply NoDup_singleton|reflexivity| |apply NoDup_nil_2|reflexivity].
  - apply (api_reachable_good (K := example_kernel) ∅ []), example_reachable. lia.
  - split; [by intros a n [= -> ->]%list_elem_of_singleton|]. by intros a n b m [= -> ->]%list_elem_of_singleton [= -> ->]%list_elem_of_singleton.
Qed.

Lemma device_buffer_apart_witness :
  wp (createDma (K := example_kernel) (C := example_cuda) 2 65536 0) (fun r s' =>
    (forall o n, gs_dev example_open !! o = Some n -> gs_dev s' !! o = Some n) /\
    match r with
    | Ok p => exists ct b, h_conts (hp (hst s')) !! dp_dma p = Some ct /\ dma_vaddr (ct_handle ct) = User b /\ b mod 65536 = 0 /\
        (forall i, b <= i < b + 65536 -> gs_mem s' i = 0) /\
        (forall o n, gs_dev example_open !! o = Some n -> b + 65536 <= o \/ o + n <= b)
    | Thrown => True
    end) example_open.
Proof.
  apply (device_buffer_apart (K := example_kernel) (C := example_cuda) (fst (example_state 1)) [RDev 65536 100] example_open 2
    (init_handle example_cap 4096 8192 NVM_CTRL_MEM_MINSIZE)); [exact example_open_holds|split; vm_compute; done| |lia|lia].
  eexists. split; vm_compute; reflexivity.
Defined.
End Controllers.
