(* ===== verification/PageCacheSetup.v ===== *)
(** Setting up the page cache: [page_cache_t] and [range_t] of [src/include/page_cache.h],
    over the buffers of [GpuSetup].  The constructor allocates the tables the GPU code
    reads and computes the PRP entries of every cache page.

    Arrays in device memory are bytes; a structure that is copied to the device as a whole
    is kept as the value last copied.  The arrays of the host's C++ heap do not fail to be
    allocated and are values. *)
From Stdlib Require Import ZArith Lia List Bool.
From stdpp Require Import base list gmap numbers functions.
From S2P Require Import Prelude Exec NvmUtil NvmError NvmQueue Host Dma Rpc Admin GpuSetup PageCache.
Import Host Dma Rpc Admin Setup.

Import ListNotations.
Local Open Scope Z_scope.

Module PcSetup.
Import Pc(data_dist_t, STRIPE, REPLICATE, ALL_CTRLS, INVALID, FREE).

(** ** Arrays in device memory *)

(** The [w] bytes of a word, lowest first. *)
Definition bytes_of (w : nat) (z : Z) : list Z := (fun k => Z.shiftr z (8 * Z.of_nat k) mod 256) <$> seq 0 w.
Definition encode (w : nat) (l : list Z) : list Z := l ≫= bytes_of w.

Definition load (mem : Z -> Z) (w : nat) (a : Z) : Z :=
  foldr (fun k v => mem (a + Z.of_nat k) + 256 * v) 0 (seq 0 w).

(** Sizes of the structures that the code allocates. *)
Definition sizeof_uint64_t : Z := 8.
Definition sizeof_data_dist_t : Z := 4.
Definition sizeof_padded_struct_pc : Z := 4.
Definition sizeof_cache_page_t : Z := 64.
Definition sizeof_data_page_t : Z := 32.
Definition STATES_PER_CACHELINE : Z := 32.

(** ** Members *)

(** The members of [page_cache_t] with a destructor. *)
Inductive pc_member :=
  | pages_dma | prp_list_dma | prp1_buf | prp2_buf | page_ioaddrs_buf | cache_pages_buf | ranges_buf | pc_buff | d_ctrls_buff
  | ranges_page_starts_buf | ranges_dists_buf | page_ticket_buf | ctrl_counter_buf | q_head_buf | q_tail_buf | q_lock_buf
  | extra_reads_buf | write_io_cmd_cnt_buf | write_io_block_cnt_buf | write_cycles_total_buf | write_call_count_buf.

#[export] Instance pc_member_eq_dec : EqDecision pc_member.
Proof. solve_decision. Defined.

(** In the order of their declaration. *)
Definition declared : list pc_member :=
  [pages_dma; prp_list_dma; prp1_buf; prp2_buf; page_ioaddrs_buf; cache_pages_buf; ranges_buf; pc_buff; d_ctrls_buff;
   ranges_page_starts_buf; ranges_dists_buf; page_ticket_buf; ctrl_counter_buf; q_head_buf; q_tail_buf; q_lock_buf;
   extra_reads_buf; write_io_cmd_cnt_buf; write_io_block_cnt_buf; write_cycles_total_buf; write_call_count_buf].

Inductive owned := OwnDma (p : DmaPtr) | OwnBuf (p : BufferPtr).
Abbreviation members := (list (pc_member * owned)).

Definition member (ms : members) (x : pc_member) : option owned := snd <$> List.find (fun p => bool_decide (fst p = x)) ms.

(** ** The structure on the device *)

Record page_cache_d_t := MkPdt {
  base_addr : Z; page_size : Z; page_size_minus_1 : Z; page_size_log : Z; n_pages : Z; n_pages_minus_1 : Z;
  cache_pages : Z; page_ticket : Z;
  prp1 : Z; prp2 : option Z;         (** [None]: not initialised *)
  page_ioaddrs : Z; pages_per_entry : Z; ctrl_page_size : Z;
  range_cap : Z; ranges : Z; n_ranges : Z; n_ranges_bits : Z; n_ranges_mask : Z; n_cachelines_for_states : Z;
  ranges_page_starts : Z; ranges_dists : Z;
  ctrl_counter : Z; q_head : Z; q_tail : Z; q_lock : Z; extra_reads : Z;
  write_io_cmd_cnt : Z; write_io_block_cnt : Z; write_cycles_total : Z; write_call_count : Z;
  read_ctrl_override : Z; evict_ctrl_override : Z; d_ctrls : Z; n_ctrls : Z; prps : bool; n_blocks_per_page : Z;
  fake_evict_delay_cycles : Z; staging_buffer : Z; evict_queue : Z; read_queue : Z; victim : Z;
  page_vaddrs : Z
}.

(** [pc_d]: the copy at [d_pc_ptr]; [None] while no copy has succeeded.  [pc_copied]: no
    copy of an array has failed; failures are only printed. *)
Record page_cache_t := MkPageCache {
  pdt : page_cache_d_t; pc_d : option page_cache_d_t; d_pc_ptr : Z;
  h_ranges : list (option Z); h_ranges_page_starts : list Z; h_ranges_dists : list (option data_dist_t);
  pc_members : members; pc_copied : bool
}.

(** ** The tables of PRP entries *)

Section tables.
Context (ps ctrl_ps : Z) (ioaddrs : list Z).

(** Several cache pages in one page of the controller; the copy to the device reads the
    first [np] entries of [temp]. *)
Definition prp_small (np : nat) : option (list Z) :=
  let how_many_in_one := Z.to_nat (ctrl_ps / ps) in
  let temp := ioaddrs ≫= (fun io => (fun j => u64 (io + u64 (Z.of_nat j * ps))) <$> seq 0 how_many_in_one) in
  if (np <=? length temp)%nat then Some (take np temp) else None.

(** Up to two pages of the controller. *)
Definition prp_pair (np : nat) : option (list Z * list Z) :=
  temp1 ← mapM (fun i => ioaddrs !! (i * 2)%nat) (seq 0 np);
  temp2 ← mapM (fun i => ioaddrs !! (i * 2 + 1)%nat) (seq 0 np);
  Some (temp1, temp2).

(** More: one page of a list for each cache page.  [temp3] has [prp_list_size] words;
    that many bytes are copied. *)
Definition write_list (temp3 : list Z) (at_ : nat) (io : option Z) : option (list Z) :=
  a ← io; if (at_ <? length temp3)%nat then Some (<[at_ := a]> temp3) else None.

Definition list_page (how_many_in_one uints_per_page i : nat) (temp3 : list Z) : option (list Z) :=
  foldl (fun t j => t ← t; write_list t (i * uints_per_page + j) (ioaddrs !! (i * how_many_in_one + j + 1)%nat))
    (Some temp3) (seq 0 (how_many_in_one - 1)).

Definition prp_lists (np : nat) (list_ioaddrs : list Z) (prp_list_size : Z) : option (list Z * list Z * list Z) :=
  let how_many_in_one := Z.to_nat (u32 (ps / ctrl_ps)) in
  let uints_per_page := Z.to_nat (u32 (ctrl_ps / sizeof_uint64_t)) in
  temp1 ← mapM (fun i => ioaddrs !! (i * how_many_in_one)%nat) (seq 0 np);
  temp2 ← mapM (fun i => list_ioaddrs !! i) (seq 0 np);
  temp3 ← foldl (fun t i => t ← t; list_page how_many_in_one uints_per_page i t)
    (Some (repeat 0 (Z.to_nat prp_list_size))) (seq 0 np);
  Some (temp1, temp2, take (Z.to_nat (prp_list_size / sizeof_uint64_t)) temp3).

(** The controller pages of all cache pages. *)
Definition flat_ioaddrs (dma_page_size ppe : Z) (np : nat) : option (list Z) :=
  if (ppe =? 1) && (ps <=? dma_page_size) then
    let how_many := Z.to_nat (ctrl_ps / ps) in
    mapM (fun i => io ← ioaddrs !! (i / how_many)%nat; Some (u64 (io + u64 (Z.of_nat (i mod how_many) * ps)))) (seq 0 np)
  else mapM (fun k => ioaddrs !! k) (seq 0 (np * Z.to_nat ppe)).
End tables.

Section setup.
Context {K : Kernel} {C : Cuda}.
(** Memory that was not initialised. *)
Context (junk : nat -> Z).

(** [cudaMemcpy] to the device; the result tells whether it succeeded. *)
Definition copy_bytes (p : Z) (l : list Z) : G bool :=
  e ← fallible;
  if negb (e =? 0) then mret false
  else
    st_modify (fun s => set_mem s (fun i => if bytes p (Z.of_nat (length l)) i then nth (Z.to_nat (i - p)) l 0 else gs_mem s i));;
    mret true.
Definition copy_words (p : Z) (l : list Z) : G bool := copy_bytes p (encode 8 l).

(** [delete] of [n] arrays made with [new[]].  C++ leaves it undefined; it is recorded, and
    the arrays, of trivially destructible elements, are taken to be released. *)
Definition delete_arrays (n : nat) : G unit := st_modify (fun s => set_mismatched s (gs_mismatched s + n)%nat).

Definition release_owned (o : owned) : G unit := match o with OwnDma p => release_dma p | OwnBuf p => release_buffer p end.

(** Members are destroyed in the reverse order of their declaration. *)
Definition release_all (ms : members) : G unit :=
  foldr (fun x k => release_opt release_owned (member ms x);; k) (mret tt) (rev declared).

(** Creating a member; an exception destroys those created before. *)
Definition new_buffer {A} (ms : members) (x : pc_member) (size cudaDevice : Z) (k : Z -> members -> G (res A)) : G (res A) :=
  guard (createBuffer size (to_int cudaDevice)) (release_all ms) (fun p => k (bp_ptr p) ((x, OwnBuf p) :: ms)).
Definition new_dma {A} (ms : members) (x : pc_member) (ctrl : nat) (size cudaDevice : Z) (k : nvm_dma_t -> members -> G (res A)) : G (res A) :=
  guard (createDma ctrl size (to_int cudaDevice)) (release_all ms) (fun p => d ← dma_of p; k d ((x, OwnDma p) :: ms)).

Definition vaddr_of (d : nvm_dma_t) : G Z := match dma_vaddr d with User a => mret a | Alloc _ => crash end.
(** The counters, each eight bytes. *)
Fixpoint new_counters {A} (ms : members) (xs : list pc_member) (cudaDevice : Z) (ptrs : list Z) (k : list Z -> members -> G (res A)) : G (res A) :=
  match xs with
  | [] => k ptrs ms
  | x :: xs => new_buffer ms x sizeof_uint64_t cudaDevice (fun p ms => new_counters ms xs cudaDevice (ptrs ++ [p]) k)
  end.

Definition counter_members : list pc_member :=
  [ctrl_counter_buf; q_head_buf; q_tail_buf; q_lock_buf; extra_reads_buf; write_io_cmd_cnt_buf; write_io_block_cnt_buf;
   write_cycles_total_buf; write_call_count_buf].

(** The loop that copies the addresses of the controllers. *)
Fixpoint copy_ctrls (dst : Z) (ctrls : list Controller) : G bool :=
  match ctrls with
  | [] => mret true
  | c :: ctrls => ok ← copy_words dst [bp_ptr (ct_d_ctrl_buff c)]; oks ← copy_ctrls (dst + 8) ctrls; mret (ok && oks)
  end.

(** The tables [prp1] and [prp2]: addresses, whether there is a second, members, copies. *)
Definition new_prps {A} (ms : members) (ctrl : nat) (ps np ctrl_ps cudaDevice : Z) (dma : nvm_dma_t)
    (k : Z -> option Z -> bool -> members -> bool -> G (res A)) : G (res A) :=
  let n := Z.to_nat np in
  if ps <=? dma_page_size dma then
    new_buffer ms prp1_buf (u64 (np * sizeof_uint64_t)) cudaDevice (fun p1 ms =>
    temp ← deref (prp_small ps ctrl_ps (dma_ioaddrs dma) n);
    ok ← copy_words p1 temp;
    delete_arrays 1;;
    k p1 None false ms ok)
  else if ps <=? u64 (dma_page_size dma * 2) then
    new_buffer ms prp1_buf (u64 (np * sizeof_uint64_t)) cudaDevice (fun p1 ms =>
    new_buffer ms prp2_buf (u64 (np * sizeof_uint64_t)) cudaDevice (fun p2 ms =>
    temps ← deref (prp_pair (dma_ioaddrs dma) n);
    let '(temp1, temp2) := temps in
    ok1 ← copy_words p1 temp1;
    ok2 ← copy_words p2 temp2;
    delete_arrays 2;;
    k p1 (Some p2) true ms (ok1 && ok2)))
  else
    new_buffer ms prp1_buf (u64 (np * sizeof_uint64_t)) cudaDevice (fun p1 ms =>
    let prp_list_size := u32 (ctrl_ps * np) in
    new_dma ms prp_list_dma ctrl (NVM_PAGE_ALIGN prp_list_size (Z.shiftl 1 16)) cudaDevice (fun list_dma ms =>
    new_buffer ms prp2_buf (u64 (np * sizeof_uint64_t)) cudaDevice (fun p2 ms =>
    temps ← deref (prp_lists ps ctrl_ps (dma_ioaddrs dma) n (dma_ioaddrs list_dma) prp_list_size);
    let '(temp1, temp2, temp3) := temps in
    ok1 ← copy_words p1 temp1;
    ok2 ← copy_words p2 temp2;
    p3 ← vaddr_of list_dma;
    ok3 ← copy_words p3 temp3;
    delete_arrays 3;;
    k p1 (Some p2) true ms (ok1 && ok2 && ok3)))).

(** The table of all controller pages. *)
Definition new_flat {A} (ms : members) (ps np ctrl_ps cudaDevice : Z) (dma : nvm_dma_t)
    (k : Z -> Z -> members -> bool -> G (res A)) : G (res A) :=
  let ppe := if ps <=? ctrl_ps then 1 else u32 (ps / ctrl_ps) in
  let n_sub := u64 (np * ppe) in
  new_buffer ms page_ioaddrs_buf (u64 (n_sub * sizeof_uint64_t)) cudaDevice (fun p ms =>
  tmp_io ← deref (flat_ioaddrs ps ctrl_ps (dma_ioaddrs dma) (dma_page_size dma) ppe (Z.to_nat np));
  ok ← copy_words p tmp_io;
  k p ppe ms ok).

(** The addresses of the cache pages, for the eviction that exchanges pointers; an
    allocation that fails is printed and leaves the null pointer. *)
Definition new_vaddrs (base ps np : Z) : G (Z * bool) :=
  r ← cudaMalloc (u64 (np * sizeof_uint64_t));
  match r with
  | None => mret (0, false)
  | Some p =>
      ok ← copy_words p ((fun i => u64 (base + u64 (Z.of_nat i * ps))) <$> seq 0 (Z.to_nat np));
      mret (p, ok)
  end.

(** [copy_pdt]: the structure is copied to [d_pc_ptr]. *)
Definition copy_pdt (pc : page_cache_t) : G page_cache_t :=
  e ← fallible;
  mret (MkPageCache (pdt pc) (if e =? 0 then Some (pdt pc) else pc_d pc) (d_pc_ptr pc) (h_ranges pc) (h_ranges_page_starts pc)
          (h_ranges_dists pc) (pc_members pc) (pc_copied pc)).
Context (sizeof_page_cache_d_t : Z).

(** Cache pages start free; the rest of the structure is not initialised. *)
Definition free_pages (np : nat) : list Z :=
  encode 4 (seq 0 np ≫= (fun i => FREE :: ((fun k => junk (16 * i + k)) <$> seq 1 15))).

(** [std::log2] of an integer, converted to an integer; of zero it is minus infinity, whose
    conversion is undefined. *)
Definition log2_of (z : Z) : G Z := if z =? 0 then crash else mret (Z.log2 z).
Definition quotient (a b : Z) : G Z := if b =? 0 then crash else mret (a / b).

(** The constructor from the mapping of the cache on. *)
Definition new_tables (ctrl : Controller) (ctrl_ps ps np cudaDevice : Z) (ms : members) (ok : bool)
    (k : Z -> Z -> option Z -> bool -> Z -> Z -> Z -> members -> bool -> G (res page_cache_t)) : G (res page_cache_t) :=
  let cache_size := u64 (ps * np) in
  new_dma ms pages_dma (ct_ctrl ctrl) (NVM_PAGE_ALIGN cache_size (Z.shiftl 1 16)) cudaDevice (fun dma ms =>
  base ← vaddr_of dma;
  _ ← deref (dma_ioaddrs dma !! 0%nat);
  let uints_per_page := u32 (ctrl_ps / sizeof_uint64_t) in
  if (u64 (ctrl_ps * uints_per_page) <? ps) || (np =? 0) || (ps <? ni_lba_data_size (ct_ns ctrl)) then release_all ms;; mret Thrown
  else
    new_prps ms (ct_ctrl ctrl) ps np ctrl_ps cudaDevice dma (fun p1 p2 prps ms ok1 =>
    new_flat ms ps np ctrl_ps cudaDevice dma (fun pio ppe ms ok2 =>
    r ← new_vaddrs base ps np;
    let '(va, ok3) := r in
    k base p1 p2 prps pio ppe va ms (ok && ok1 && ok2 && ok3)))).

Definition new_page_cache (ps np cudaDevice : Z) (ctrl : Controller) (max_range : Z) (ctrls : list Controller) : G (res page_cache_t) :=
  new_counters [] counter_members cudaDevice [] (fun cs ms =>
  s ← st_get; hc ← deref (h_ctrls (hp (rs_host (gs_rpc s))) !! ct_ctrl ctrl);
  let ctrl_ps := ctl_page_size (c_handle hc) in
  let nc := Z.of_nat (length ctrls) in
  new_buffer ms d_ctrls_buff (u64 (nc * 8)) cudaDevice (fun dc ms =>
  blocks ← quotient ps (ct_blk_size ctrl);
  ok1 ← copy_ctrls dc ctrls;
  bits ← (if max_range =? 1 then mret 1 else log2_of max_range);
  pslog ← log2_of ps;
  new_buffer ms ranges_buf (u64 (max_range * 8)) cudaDevice (fun rg ms =>
  new_buffer ms cache_pages_buf (u64 (np * sizeof_cache_page_t)) cudaDevice (fun cp ms =>
  new_buffer ms ranges_page_starts_buf (u64 (max_range * sizeof_uint64_t)) cudaDevice (fun st ms =>
  new_buffer ms page_ticket_buf sizeof_padded_struct_pc cudaDevice (fun tk ms =>
  ok2 ← copy_bytes cp (free_pages (Z.to_nat np));
  delete_arrays 1;;
  new_buffer ms ranges_dists_buf (u64 (max_range * sizeof_data_dist_t)) cudaDevice (fun ds ms =>
  new_tables ctrl ctrl_ps ps np cudaDevice ms (ok1 && ok2) (fun base p1 p2 prps pio ppe va ms ok =>
  new_buffer ms pc_buff sizeof_page_cache_d_t cudaDevice (fun d ms =>
  let c i := nth i cs 0 in
  pc ← copy_pdt (MkPageCache
    (MkPdt base ps (u64 (ps - 1)) pslog np (u64 (np - 1)) cp tk p1 p2 pio ppe ctrl_ps max_range rg 0 bits (u64 (max_range - 1))
       (np / STATES_PER_CACHELINE) st ds (c 0%nat) (c 1%nat) (c 2%nat) (c 3%nat) (c 4%nat) (c 5%nat) (c 6%nat) (c 7%nat) (c 8%nat)
       ALL_CTRLS ALL_CTRLS dc nc prps blocks 0 0 0 0 0 va)
    None d (replicate (Z.to_nat max_range) None) (replicate (Z.to_nat max_range) 0) (replicate (Z.to_nat max_range) None) ms ok);
  mret (Ok pc)))))))))).

(** The body releases [h_ranges], [h_ranges_page_starts] and [h_ranges_dists].  The staging
    buffer and the addresses of the cache pages are not freed. *)
Definition delete_page_cache (pc : page_cache_t) : G unit := delete_arrays 3;; release_all (pc_members pc).

(** ** Configuration *)

Definition with_pdt (pc : page_cache_t) (d : page_cache_d_t) : page_cache_t :=
  MkPageCache d (pc_d pc) (d_pc_ptr pc) (h_ranges pc) (h_ranges_page_starts pc) (h_ranges_dists pc) (pc_members pc) (pc_copied pc).

Definition set_overrides (d : page_cache_d_t) (rc ec delay staging eq rq v nr : Z) : page_cache_d_t :=
  MkPdt (base_addr d) (page_size d) (page_size_minus_1 d) (page_size_log d) (n_pages d) (n_pages_minus_1 d) (cache_pages d) (page_ticket d)
    (prp1 d) (prp2 d) (page_ioaddrs d) (pages_per_entry d) (ctrl_page_size d) (range_cap d) (ranges d) nr (n_ranges_bits d) (n_ranges_mask d)
    (n_cachelines_for_states d) (ranges_page_starts d) (ranges_dists d) (ctrl_counter d) (q_head d) (q_tail d) (q_lock d) (extra_reads d)
    (write_io_cmd_cnt d) (write_io_block_cnt d) (write_cycles_total d) (write_call_count d) rc ec (d_ctrls d) (n_ctrls d) (prps d)
    (n_blocks_per_page d) delay staging eq rq v (page_vaddrs d).

Definition set_ctrl_overrides (pc : page_cache_t) (read_ctrl evict_ctrl : Z) : G page_cache_t :=
  let d := pdt pc in
  copy_pdt (with_pdt pc (set_overrides d read_ctrl evict_ctrl (fake_evict_delay_cycles d) (staging_buffer d) (evict_queue d) (read_queue d) (victim d) (n_ranges d))).
Definition set_fake_evict_delay (pc : page_cache_t) (delay_cycles : Z) : G page_cache_t :=
  let d := pdt pc in
  copy_pdt (with_pdt pc (set_overrides d (read_ctrl_override d) (evict_ctrl_override d) delay_cycles (staging_buffer d) (evict_queue d) (read_queue d) (victim d) (n_ranges d))).
Definition set_evict_queue (pc : page_cache_t) (q : Z) : G page_cache_t :=
  let d := pdt pc in
  copy_pdt (with_pdt pc (set_overrides d (read_ctrl_override d) (evict_ctrl_override d) (fake_evict_delay_cycles d) (staging_buffer d) q (read_queue d) (victim d) (n_ranges d))).
Definition set_read_queue (pc : page_cache_t) (q : Z) : G page_cache_t :=
  let d := pdt pc in
  copy_pdt (with_pdt pc (set_overrides d (read_ctrl_override d) (evict_ctrl_override d) (fake_evict_delay_cycles d) (staging_buffer d) (evict_queue d) q (victim d) (n_ranges d))).
Definition set_victim (pc : page_cache_t) (vb : Z) : G page_cache_t :=
  let d := pdt pc in
  copy_pdt (with_pdt pc (set_overrides d (read_ctrl_override d) (evict_ctrl_override d) (fake_evict_delay_cycles d) (staging_buffer d) (evict_queue d) (read_queue d) vb (n_ranges d))).

Definition enable_staging_buffer (pc : page_cache_t) : G page_cache_t :=
  let d := pdt pc in
  r ← cudaMalloc (u64 (page_size d * n_pages d));
  copy_pdt (with_pdt pc (set_overrides d (read_ctrl_override d) (evict_ctrl_override d) (fake_evict_delay_cycles d) (default 0 r) (evict_queue d) (read_queue d) (victim d) (n_ranges d))).
(** ** Ranges *)

Context (sizeof_T sizeof_range_d_t : Z).

(** [rg_cache]: the copy of the cache's structure; [rg_d]: the copy at [d_range_ptr]. *)
Record range_d_t := MkRange {
  index_start : Z; rg_count : Z; range_id : option Z; page_start_offset : Z; rg_page_size : Z; page_start : Z; page_count : Z;
  n_elems_per_page : Z; dist : data_dist_t; pages : Z; rg_cache : option page_cache_d_t
}.
Record range_t := MkRangeT { rdt : range_d_t; rg_d : option range_d_t; pages_buff : BufferPtr; range_buff : BufferPtr; rg_copied : bool }.

Definition register_range (r : range_d_t) (id : Z) (cache : option page_cache_d_t) : range_d_t :=
  MkRange (index_start r) (rg_count r) (Some id) (page_start_offset r) (rg_page_size r) (page_start r) (page_count r)
    (n_elems_per_page r) (dist r) (pages r) cache.

(** Writing past the arrays of [max_range] elements is undefined. *)
Definition dist_code (d : data_dist_t) : Z := match d with REPLICATE => 0 | STRIPE => 1 end.
Definition add_range (pc : page_cache_t) (r : range_d_t) : G (page_cache_t * range_d_t) :=
  let id := n_ranges (pdt pc) in
  let n := Z.to_nat (u64 (id + 1)) in
  if (Z.of_nat (length (h_ranges pc)) <=? id) then crash
  else
    let d := pdt pc in
    let d := set_overrides d (read_ctrl_override d) (evict_ctrl_override d) (fake_evict_delay_cycles d) (staging_buffer d) (evict_queue d)
               (read_queue d) (victim d) (u64 (id + 1)) in
    let hr := <[Z.to_nat id := Some (pages r)]> (h_ranges pc) in
    let hs := <[Z.to_nat id := page_start r]> (h_ranges_page_starts pc) in
    let hd := <[Z.to_nat id := Some (dist r)]> (h_ranges_dists pc) in
    ok1 ← copy_words (ranges_page_starts d) (take n hs);
    ok2 ← copy_words (ranges d) (default 0 <$> take n hr);
    ok3 ← copy_bytes (ranges_dists d) (encode 4 ((fun o => match o with Some x => dist_code x | None => junk 0 end) <$> take n hd));
    pc ← copy_pdt (MkPageCache d (pc_d pc) (d_pc_ptr pc) hr hs hd (pc_members pc) (pc_copied pc && ok1 && ok2 && ok3));
    mret (pc, register_range r id (rg_cache r)).

(** Pages start invalid. *)
Definition invalid_pages (n : nat) : list Z :=
  encode 4 (seq 0 n ≫= (fun i => INVALID :: ((fun k => junk (8 * i + k)) <$> seq 1 7))).

Definition new_range (is_ count ps pc pso : Z) (c_h : page_cache_t) (cudaDevice : Z) (dist : data_dist_t) : G (res (range_t * page_cache_t)) :=
  n_elems ← quotient (page_size (pdt c_h)) sizeof_T;
  guard (createBuffer (u64 (pc * sizeof_data_page_t)) (to_int cudaDevice)) (mret tt) (fun pb =>
  ok1 ← copy_bytes (bp_ptr pb) (invalid_pages (Z.to_nat pc));
  delete_arrays 1;;
  guard (createBuffer sizeof_range_d_t (to_int cudaDevice)) (release_buffer pb) (fun rb =>
  let r := MkRange is_ count None pso (page_size (pdt c_h)) ps pc n_elems dist (bp_ptr pb) None in
  e ← fallible;                       (** the first copy of the structure *)
  x ← add_range c_h r;
  let '(c_h, r) := x in
  let r := register_range r (default 0 (range_id r)) (Some (pdt c_h)) in
  e2 ← fallible;
  let first := MkRange is_ count None pso (rg_page_size r) ps pc n_elems dist (bp_ptr pb) None in
  mret (Ok (MkRangeT r (if e2 =? 0 then Some r else if e =? 0 then Some first else None) pb rb ok1, c_h)))).
End setup.
End PcSetup.
