(* ===== verification/PageCacheTables.v ===== *)
(** The tables of [PageCacheSetup]: words in device memory, and the PRP entries the
    constructor computes for a cache whose page size is a power of two. *)
From Stdlib Require Import ZArith Lia List Bool.
From stdpp Require Import base list numbers.
From S2P Require Import Prelude PageCacheSetup.
Import PcSetup.

Import ListNotations.
Local Open Scope Z_scope.

Module PcTables.

(** ** Lists made of pieces of one length *)

Section pieces.
Context {A B : Type} (f : A -> list B) (h : nat) (Hf : forall x, length (f x) = h).

Lemma bind_length l : length (l ≫= f) = (length l * h)%nat.
Proof. induction l as [|x l IH]; [done|]. rewrite bind_cons, length_app, Hf, IH. cbn. lia. Qed.

Lemma bind_lookup l i x r : l !! i = Some x -> (r < h)%nat -> (l ≫= f) !! (i * h + r)%nat = f x !! r.
Proof.
  revert i. induction l as [|y l IH]; [done|]. intros [|i] Hi Hr; rewrite bind_cons; cbn in Hi |- *.
  - injection Hi as ->. by rewrite lookup_app_l by (rewrite Hf; lia).
  - rewrite lookup_app_r, Hf by (rewrite Hf; lia). replace (h + i * h + r - h)%nat with (i * h + r)%nat by lia. by apply IH.
Qed.
End pieces.

(** ** Words and bytes *)

Lemma bytes_of_length w z : length (bytes_of w z) = w.
Proof. unfold bytes_of. by rewrite length_fmap, length_seq. Qed.

Lemma encode_length w l : length (encode w l) = (length l * w)%nat.
Proof. apply bind_length, bytes_of_length. Qed.

Lemma encode_nth w l i x k : l !! i = Some x -> (k < w)%nat -> nth (i * w + k) (encode w l) 0 = Z.shiftr x (8 * Z.of_nat k) mod 256.
Proof.
  intros Hi Hk. apply nth_lookup_Some. unfold encode. erewrite (bind_lookup (bytes_of w) w (bytes_of_length w)) by done.
  unfold bytes_of. by rewrite list_lookup_fmap, lookup_seq_lt by done.
Qed.

Lemma load_spec mem w a z :
  (forall k, (k < w)%nat -> mem (a + Z.of_nat k) = Z.shiftr z (8 * Z.of_nat k) mod 256) -> load mem w a = z mod 2 ^ (8 * Z.of_nat w).
Proof.
  unfold load. intros H.
  assert (G : forall n j, (j + n <= w)%nat ->
    foldr (fun k v => mem (a + Z.of_nat k) + 256 * v) 0 (seq j n) = Z.shiftr z (8 * Z.of_nat j) mod 2 ^ (8 * Z.of_nat n)).
  { induction n as [|n IH]; intros j Hj; [by rewrite Z.mod_1_r|]. cbn [seq foldr]. rewrite H, IH by lia.
    rewrite !Z.shiftr_div_pow2 by lia. replace (8 * Z.of_nat (S j)) with (8 * Z.of_nat j + 8) by lia.
    rewrite Z.pow_add_r, <- Z.div_div by lia. replace (8 * Z.of_nat (S n)) with (8 + 8 * Z.of_nat n) by lia. rewrite (Z.pow_add_r 2 8) by lia.
    change (2 ^ 8) with 256. rewrite Z.rem_mul_r by lia. lia. }
  rewrite (G w 0%nat) by lia. by rewrite Z.shiftr_0_r.
Qed.

(** Word [i] of an array that was copied to [p]. *)
Lemma load_encode mem p l i x :
  (forall k, (k < length (encode 8 l))%nat -> mem (p + Z.of_nat k) = nth k (encode 8 l) 0) ->
  l !! i = Some x -> is_word 64 x -> load mem 8 (p + 8 * Z.of_nat i) = x.
Proof.
  intros Hm Hi Hx. pose proof (lookup_lt_Some _ _ _ Hi). rewrite (load_spec _ _ _ x).
  - apply Z.mod_small. exact Hx.
  - intros k Hk. replace (p + 8 * Z.of_nat i + Z.of_nat k) with (p + Z.of_nat (i * 8 + k)) by lia.
    rewrite Hm by (rewrite encode_length; lia). by apply encode_nth.
Qed.

(** ** Addresses on the bus *)

(** The bus address of byte [off] of a mapping with pages of [ctrl_ps] bytes. *)
Definition dma_bus (ctrl_ps : Z) (ioaddrs : list Z) (off : Z) : Z :=
  u64 (nth (Z.to_nat (off / ctrl_ps)) ioaddrs 0 + off mod ctrl_ps).

Lemma dma_bus_page ctrl_ps ioaddrs i io :
  0 < ctrl_ps -> ioaddrs !! i = Some io -> is_word 64 io -> dma_bus ctrl_ps ioaddrs (Z.of_nat i * ctrl_ps) = io.
Proof.
  intros H Hi Hw. unfold dma_bus. rewrite Z.div_mul, Z.mod_mul, Nat2Z.id by lia. rewrite (nth_lookup_Some _ _ _ _ Hi), Z.add_0_r. by apply u64_id.
Qed.
Section tables.
Context (ps ctrl_ps : Z) (ioaddrs : list Z) (np : nat).
Context (Hctrl : 0 < ctrl_ps < 2 ^ 64) (Hps : 0 < ps < 2 ^ 64) (Hw : Forall (is_word 64) ioaddrs).

Lemma small_index how i io :
  ctrl_ps = ps * Z.of_nat how -> ioaddrs !! (i / how)%nat = Some io ->
  u64 (io + u64 (Z.of_nat (i mod how) * ps)) = dma_bus ctrl_ps ioaddrs (Z.of_nat i * ps).
Proof.
  intros E Hi. assert (Hh : (0 < how)%nat) by lia. unfold dma_bus. rewrite (Z.mul_comm (Z.of_nat i) ps), E, Z.div_mul_cancel_l, Z.mul_mod_distr_l, <- Nat2Z.inj_div, <- Nat2Z.inj_mod, Nat2Z.id by lia.
  rewrite (nth_lookup_Some _ _ _ _ Hi), (u64_id (_ * _)), (Z.mul_comm ps); [done|]. pose proof (Nat.mod_upper_bound i how). unfold is_word. nia.
Qed.

Lemma prp_small_spec how :
  ctrl_ps = ps * Z.of_nat how -> (np <= length ioaddrs * how)%nat ->
  exists t, prp_small ps ctrl_ps ioaddrs np = Some t /\ length t = np /\
    forall i, (i < np)%nat -> t !! i = Some (dma_bus ctrl_ps ioaddrs (Z.of_nat i * ps)).
Proof.
  intros E Hn. assert (Hh : (0 < how)%nat) by lia. unfold prp_small.
  replace (Z.to_nat (ctrl_ps / ps)) with how by (rewrite E, Z.mul_comm, Z.div_mul by lia; lia).
  set (f := fun io => (fun j => u64 (io + u64 (Z.of_nat j * ps))) <$> seq 0 how).
  assert (Hf : forall x, length (f x) = how) by (intros x; unfold f; by rewrite length_fmap, length_seq).
  pose proof (bind_length f how Hf ioaddrs) as L. rewrite (proj2 (Nat.leb_le _ _)) by lia.
  eexists. split; [done|]. split; [rewrite length_take; lia|]. intros i Hi. rewrite lookup_take_lt by done.
  assert (Hq : (i / how < length ioaddrs)%nat) by (apply Nat.Div0.div_lt_upper_bound; lia).
  destruct (lookup_lt_is_Some_2 _ _ Hq) as [io Hio]. pose proof (Nat.mod_upper_bound i how).
  rewrite (Nat.div_mod_eq i how) at 1. rewrite (Nat.mul_comm how). rewrite (bind_lookup f how Hf _ _ io) by (done || lia). unfold f.
  rewrite list_lookup_fmap, lookup_seq_lt by lia. cbn. f_equal. by apply small_index.
Qed.

Lemma prp_pair_spec :
  (2 * np <= length ioaddrs)%nat ->
  exists t1 t2, prp_pair ioaddrs np = Some (t1, t2) /\ length t1 = np /\ length t2 = np /\
    forall i, (i < np)%nat -> t1 !! i = ioaddrs !! (i * 2)%nat /\ t2 !! i = ioaddrs !! (i * 2 + 1)%nat.
Proof.
  intros Hn. unfold prp_pair.
  destruct (mapM_seq (fun i => ioaddrs !! (i * 2)%nat) np) as (t1 & -> & L1 & H1); [intros i Hi; apply lookup_lt_is_Some_2; lia|].
  destruct (mapM_seq (fun i => ioaddrs !! (i * 2 + 1)%nat) np) as (t2 & -> & L2 & H2); [intros i Hi; apply lookup_lt_is_Some_2; lia|].
  exists t1, t2. split_and!; [done..|]. intros i Hi. destruct (lookup_lt_is_Some_2 t1 i) as [x Hx]; [lia|]. destruct (lookup_lt_is_Some_2 t2 i) as [y Hy]; [lia|].
  by rewrite Hx, Hy, (H1 _ _ Hx), (H2 _ _ Hy).
Qed.

(** The loop that writes one list page changes its own entries only. *)
Lemma list_page_spec how uints i t n :
  (n <= how - 1)%nat -> (i * how + how <= length ioaddrs)%nat -> (i * uints + n <= length t)%nat ->
  exists t', foldl (fun t j => t ← t; write_list t (i * uints + j) (ioaddrs !! (i * how + j + 1)%nat)) (Some t) (seq 0 n) = Some t' /\
    length t' = length t /\
    (forall j, (j < n)%nat -> t' !! (i * uints + j)%nat = ioaddrs !! (i * how + j + 1)%nat) /\
    (forall k, (k < i * uints \/ i * uints + n <= k)%nat -> t' !! k = t !! k).
Proof.
  revert t. induction n as [|n IH]; intros t Hn Hio Ht; [by exists t; split_and!; [..|intros; lia|]|].
  destruct (IH t) as (t1 & E1 & L1 & H1 & K1); [lia..|]. rewrite seq_S, foldl_app, E1, Nat.add_0_l. cbn [foldl mbind option_bind].
  destruct (lookup_lt_is_Some_2 ioaddrs (i * how + n + 1)%nat) as [io Hio']; [lia|]. unfold write_list. rewrite Hio'. cbn [mbind option_bind].
  rewrite (proj2 (Nat.ltb_lt _ _)) by lia. eexists. split; [done|]. split; [by rewrite length_insert|]. split.
  - intros j Hj. destruct (decide (j = n)) as [->|Hne]; [rewrite list_lookup_insert_eq by lia; by rewrite Hio'|].
    rewrite list_lookup_insert_ne by lia. apply H1. lia.
  - intros k Hk. rewrite list_lookup_insert_ne by lia. apply K1. lia.
Qed.
Lemma list_pages_spec how uints t m :
  (0 < how)%nat -> (how - 1 <= uints)%nat -> (m * how <= length ioaddrs)%nat -> (m * uints <= length t)%nat ->
  exists t', foldl (fun t i => t ← t; list_page ioaddrs how uints i t) (Some t) (seq 0 m) = Some t' /\ length t' = length t /\
    forall i j, (i < m)%nat -> (j < how - 1)%nat -> t' !! (i * uints + j)%nat = ioaddrs !! (i * how + j + 1)%nat.
Proof.
  intros Hh Hu. induction m as [|m IH]; intros Hio Ht; [by exists t; split_and!; [..|intros; lia]|].
  destruct IH as (t1 & E1 & L1 & H1); [lia..|]. rewrite seq_S, foldl_app, E1, Nat.add_0_l. cbn [foldl mbind option_bind].
  destruct (list_page_spec how uints m t1 (how - 1)) as (t2 & E2 & L2 & H2 & K2); [lia..|]. exists t2. split; [exact E2|]. split; [lia|].
  intros i j Hi Hj. destruct (decide (i = m)) as [->|Hne]; [by apply H2|]. rewrite K2 by nia. apply H1; lia.
Qed.

Lemma prp_lists_spec how uints list_ioaddrs :
  ps = ctrl_ps * Z.of_nat how -> ctrl_ps = 8 * Z.of_nat uints -> Z.of_nat how < 2 ^ 32 -> Z.of_nat uints < 2 ^ 32 -> (how - 1 <= uints)%nat ->
  (np * how <= length ioaddrs)%nat -> (np <= length list_ioaddrs)%nat ->
  exists t1 t2 t3, prp_lists ps ctrl_ps ioaddrs np list_ioaddrs (ctrl_ps * Z.of_nat np) = Some (t1, t2, t3) /\
    length t1 = np /\ length t2 = np /\ length t3 = (np * uints)%nat /\
    forall i, (i < np)%nat -> t1 !! i = ioaddrs !! (i * how)%nat /\ t2 !! i = list_ioaddrs !! i /\
      forall j, (j < how - 1)%nat -> t3 !! (i * uints + j)%nat = ioaddrs !! (i * how + j + 1)%nat.
Proof.
  intros E1 E2 H1 H2 Hu Hn Hl. unfold prp_lists, sizeof_uint64_t. assert (Hh : (0 < how)%nat) by lia.
  replace (Z.to_nat (u32 (ps / ctrl_ps))) with how by (rewrite E1, Z.mul_comm, Z.div_mul by lia; rewrite u32_id by word_lia; lia).
  replace (Z.to_nat (u32 (ctrl_ps / 8))) with uints by (rewrite E2, Z.mul_comm, Z.div_mul by lia; rewrite u32_id by word_lia; lia).
  replace (Z.to_nat (ctrl_ps * Z.of_nat np / 8)) with (np * uints)%nat by (rewrite E2, <- Z.mul_assoc, Z.mul_comm, Z.div_mul by lia; lia).
  destruct (mapM_seq (fun i => ioaddrs !! (i * how)%nat) np) as (t1 & -> & L1 & M1); [intros i Hi; apply lookup_lt_is_Some_2; nia|].
  destruct (mapM_seq (fun i => list_ioaddrs !! i) np) as (t2 & -> & L2 & M2); [intros i Hi; apply lookup_lt_is_Some_2; lia|].
  destruct (list_pages_spec how uints (repeat 0 (Z.to_nat (ctrl_ps * Z.of_nat np))) np) as (t3 & E3 & L3 & M3); rewrite ?repeat_length in *; [lia..|].
  cbn [mbind option_bind]. rewrite E3. cbn [mbind option_bind]. exists t1, t2, (take (np * uints) t3). split_and!; [done..|rewrite length_take; lia|].
  intros i Hi. destruct (lookup_lt_is_Some_2 t1 i) as [x Hx]; [lia|]. destruct (lookup_lt_is_Some_2 t2 i) as [y Hy]; [lia|].
  rewrite Hx, Hy, (M1 _ _ Hx), (M2 _ _ Hy). split_and!; [done..|]. intros j Hj. rewrite lookup_take_lt by nia. by apply M3.
Qed.

Lemma flat_small how dma_page_size :
  ctrl_ps = ps * Z.of_nat how -> ps <= dma_page_size -> (np <= length ioaddrs * how)%nat ->
  exists t, flat_ioaddrs ps ctrl_ps ioaddrs dma_page_size 1 np = Some t /\ length t = np /\
    forall i, (i < np)%nat -> t !! i = Some (dma_bus ctrl_ps ioaddrs (Z.of_nat i * ps)).
Proof.
  intros E Hd Hn. assert (Hh : (0 < how)%nat) by lia. unfold flat_ioaddrs. rewrite (proj2 (Z.leb_le _ _) Hd). cbn [Z.eqb andb Pos.eqb].
  replace (Z.to_nat (ctrl_ps / ps)) with how by (rewrite E, Z.mul_comm, Z.div_mul by lia; lia).
  assert (Hq : forall i, (i < np)%nat -> is_Some (ioaddrs !! (i / how)%nat)) by (intros i Hi; apply lookup_lt_is_Some_2, Nat.Div0.div_lt_upper_bound; lia).
  edestruct (mapM_seq (fun i => io ← ioaddrs !! (i / how)%nat; Some (u64 (io + u64 (Z.of_nat (i mod how) * ps)))) np) as (t & -> & L & M).
  { intros i Hi. destruct (Hq i Hi) as [io ->]. cbn. eauto. }
  exists t. split_and!; [done..|]. intros i Hi. destruct (lookup_lt_is_Some_2 t i) as [x Hx]; [lia|]. rewrite Hx. apply M in Hx.
  destruct (Hq i Hi) as [io Hio]. rewrite Hio in Hx. cbn [mbind option_bind] in Hx. injection Hx as <-. f_equal. by apply small_index.
Qed.

Lemma flat_large how dma_page_size :
  (1 < how)%nat -> (np * how <= length ioaddrs)%nat ->
  exists t, flat_ioaddrs ps ctrl_ps ioaddrs dma_page_size (Z.of_nat how) np = Some t /\ length t = (np * how)%nat /\
    forall k, (k < np * how)%nat -> t !! k = ioaddrs !! k.
Proof.
  intros Hh Hn. unfold flat_ioaddrs. rewrite (proj2 (Z.eqb_neq _ _)) by lia. cbn [andb]. rewrite Nat2Z.id.
  destruct (mapM_seq (fun k => ioaddrs !! k) (np * how)) as (t & -> & L & M); [intros i Hi; apply lookup_lt_is_Some_2; lia|].
  exists t. split_and!; [done..|]. intros k Hk. destruct (lookup_lt_is_Some_2 t k) as [x Hx]; [lia|]. by rewrite Hx, (M _ _ Hx).
Qed.
End tables.
End PcTables.
