(* ===== verification/PageCacheMembers.v ===== *)
(** The members of [PageCacheSetup]: what they hold, which memory an allocation or a copy
    changes, and the steps of the constructor. *)
From Stdlib Require Import ZArith Lia List Bool.
From stdpp Require Import base list gmap gmultiset numbers functions.
From S2P Require Import Prelude Exec NvmUtil NvmCmd NvmError NvmQueue Host Dma DmaSpec DmaInv DmaApi Rpc Admin GpuSetup GpuSetupInv GpuQueuePair GpuController PageCacheSetup PageCacheTables.
Import Host Dma DmaSpec DmaInv DmaApi Rpc Admin Setup SetupInv QueuePairs PcSetup PcTables.

Import ListNotations.
Local Open Scope Z_scope.

Module PcMembers.

(** ** Memory *)

(** As [quiet], but memory may have been written. *)
Record still (own : nat -> Z) (s s' : gpu_state) : Prop := {
  sl_refs : rs_refs (gs_rpc s') = rs_refs (gs_rpc s);
  sl_admins : rs_admins (gs_rpc s') = rs_admins (gs_rpc s);
  sl_fds : gs_fds s' = gs_fds s;
  sl_windows : gs_windows s' = gs_windows s;
  sl_cmds : gs_cmds s' = gs_cmds s;
  sl_ctl c hd : 1 <= own c -> ctl s c hd -> ctl s' c hd
}.

#[export] Instance still_preorder own : PreOrder (still own).
Proof. split; [intros s; by split|]. intros s1 s2 s3 [] []. split; try congruence. auto. Qed.

Lemma quiet_still own s s' : quiet own s s' -> still own s s'.
Proof. intros []. by split. Qed.

(** The allocations of [l] have the same contents. *)
Definition keeps (l : list resource) (s s' : gpu_state) : Prop :=
  forall a n i, RDev a n ∈ l -> a <= i < a + n -> gs_mem s' i = gs_mem s i.

#[export] Instance keeps_preorder l : PreOrder (keeps l).
Proof. split; [by intros s ????|]. intros s1 s2 s3 H1 H2 a n i Hin Hi. by rewrite (H2 a n i), (H1 a n i). Qed.

Lemma keeps_mono l l' s s' : l ⊆ l' -> keeps l' s s' -> keeps l s s'.
Proof. intros Hs H a n i Hin. apply (H a n i), Hs, Hin. Qed.

(** Partial correctness: what holds if a computation ends. *)
Definition ends {A} (m : G A) (Q : A -> gpu_state -> Prop) (s : gpu_state) : Prop := forall a s', m s = Some (a, s') -> Q a s'.

Lemma wp_ends {A} (m : G A) P Q s : wp m P s -> ends m Q s -> wp m (fun a s' => P a s' /\ Q a s') s.
Proof. intros (a & s' & E & HP)%wp_total HQ. eapply wp_eq; [exact E|]. split; [done|by apply HQ]. Qed.

Lemma ends_ret {A} (a : A) (Q : A -> gpu_state -> Prop) s : Q a s -> ends (mret a) Q s.
Proof. by intros H a' s' [= <- <-]. Qed.

Lemma ends_bind {A B} (m : G A) (f : A -> G B) P Q s : ends m P s -> (forall a s', P a s' -> ends (f a) Q s') -> ends (m ≫= f) Q s.
Proof.
  intros Hm Hf b s' E. unfold mbind, ST_bind in E. destruct (m s) as [[a s1]|] eqn:E1; [|done]. by eapply Hf, E; apply Hm.
Qed.

Section frame.
Context {K : Kernel} {C : Cuda}.

Lemma ends_lib {A} (m : M A) s : ends (lib m) (fun _ s' => gs_mem s' = gs_mem s /\ gs_dev s' = gs_dev s) s.
Proof. intros a s' E. unfold lib, rpc in E. destruct (lift m (gs_rpc s)) as [[? ?]|]; [|done]. by injection E as <- <-. Qed.

Lemma ends_fallible s : ends fallible (fun _ s' => gs_mem s' = gs_mem s /\ gs_dev s' = gs_dev s) s.
Proof. apply ends_lib. Qed.

Lemma ends_malloc n s : 0 < n -> ends (cudaMalloc n) (fun r s' => gs_mem s' = gs_mem s /\
  match r with Some a => 0 < a /\ a + n <= 2 ^ 48 /\ forall b m, gs_dev s !! b = Some m -> a + n <= b \/ b + m <= a | None => True end) s.
Proof.
  intros Hn r s' E. unfold cudaMalloc in E. rewrite (proj2 (Z.eqb_neq n 0)) in E by lia.
  destruct (cuda_malloc (gs_dev s) n) as [a|] eqn:Ea; injection E as <- <-; [|done]. split; [done|]. destruct (cuda_malloc_range _ _ _ Ea) as (? & ? & _). split_and!; [done..|]. intros b m Hb. by eapply cuda_malloc_apart.
Qed.

Lemma ends_memset p v n s : ends (cudaMemset p v n) (fun _ s' => forall i, i < p \/ p + n <= i -> gs_mem s' i = gs_mem s i) s.
Proof.
  unfold cudaMemset. eapply ends_bind; [apply ends_fallible|]. intros e s1 [E _]. rewrite <- E. destruct (negb (e =? 0)); [by apply ends_ret|].
  intros a s' [= <- <-] i Hi. cbn. unfold bytes. destruct (Z.leb_spec p i), (Z.ltb_spec i (p + n)); cbn; done || lia.
Qed.

Lemma ends_mono {A} (m : G A) (P Q : A -> gpu_state -> Prop) s : ends m P s -> (forall a s', P a s' -> Q a s') -> ends m Q s.
Proof. intros H HQ a s' E. by apply HQ, H. Qed.

(** What was allocated before keeps its contents. *)
Definition kept_mem (s s' : gpu_state) : Prop := forall a n i, gs_dev s !! a = Some n -> a <= i < a + n -> gs_mem s' i = gs_mem s i.

Lemma createBuffer_kept size d s : 0 <= size < 2 ^ 63 -> ends (createBuffer size d) (fun _ s' => kept_mem s s') s.
Proof.
  intros Hs. unfold createBuffer, createBuffer_host, getDeviceMemory2. destruct (d <? 0).
  { intros r s' E. unfold mbind, ST_bind, host_alloc in E. destruct (host_malloc _ _); injection E as <- <-; by intros ????. }
  rewrite (u64_id (size + _)) by word_lia.
  eapply ends_bind with (P := fun _ s' => kept_mem s s'); [|intros r s1 H1; by apply ends_ret].
  eapply ends_bind; [apply ends_fallible|]. intros e s1 [M1 D1]. destruct (e =? 0); cbn [negb]; [|apply ends_ret; intros ????; by rewrite M1].
  eapply ends_bind; [apply ends_malloc; lia|]. intros [p|] s2 [M2 A2]; [|apply ends_ret; intros ????; by rewrite M2, M1].
  eapply ends_bind; [apply ends_memset|]. intros e2 s3 M3.
  assert (K3 : kept_mem s s3).
  { intros a n i Ha Hi. rewrite M3, M2, M1; [done|]. rewrite D1 in A2. destruct A2 as (_ & _ & A2). destruct (A2 a n Ha); lia. }
  destruct (e2 =? 0); cbn [negb]; [by apply ends_ret|]. by intros r s' [= <- <-].
Qed.
Lemma getDeviceMemory_kept d size s : 0 <= size < 2 ^ 63 ->
  ends (getDeviceMemory d size) (fun r s' => gs_mem s' = gs_mem s /\
    match r with Ok (b, o) => forall a n, gs_dev s !! a = Some n -> b + size <= a \/ a + n <= b | Thrown => True end) s.
Proof.
  intros Hs. unfold getDeviceMemory. rewrite (u64_id (size + _)) by word_lia.
  eapply ends_bind; [apply ends_fallible|]. intros e s1 [M1 D1]. destruct (e =? 0); cbn [negb]; [|by apply ends_ret].
  eapply ends_bind; [apply ends_malloc; lia|]. intros [p|] s2 [M2 A2]; [|apply ends_ret; by rewrite M2, M1].
  eapply ends_bind; [apply ends_fallible|]. intros e2 s3 [M3 D3]. destruct (e2 =? 0); cbn [negb].
  - apply ends_ret. split; [congruence|]. destruct A2 as (P1 & P2 & A2). rewrite D1 in A2. intros a n Ha.
    rewrite (u64_id (p + _)) by word_lia. destruct (align_up (p + 64 * 1024) 16 40 0xffffffffff0000) as [B1 B2]; try done; try lia.
    destruct (A2 a n Ha); lia.
  - intros r s' [= <- <-]. cbn. split; [congruence|done].
Qed.

Lemma ends_host_free b s : ends (host_free b) (fun _ s' => gs_mem s' = gs_mem s) s.
Proof.
  unfold host_free. eapply ends_bind with (P := fun a s' => s' = s); [by intros ?? [= <- <-]|]. intros a s1 ->.
  destruct (bool_decide _); [by intros ?? [= <- <-]|done].
Qed.

Lemma createDma_kept c size d s : 0 <= size < 2 ^ 63 -> ends (createDma c size d) (fun _ s' => kept_mem s s') s.
Proof.
  intros Hs. unfold createDma, createDma_host. destruct (d <? 0).
  { eapply ends_bind with (P := fun _ s' => gs_mem s' = gs_mem s).
    { intros r s' E. unfold host_alloc in E. by destruct (host_malloc _ _); injection E as <- <-. }
    intros [b|] s1 E1; [|apply ends_ret; intros ????; by rewrite E1].
    eapply ends_bind; [apply ends_lib|]. intros r s2 [E2 _]. assert (K2 : kept_mem s s2) by (intros ????; by rewrite E2, E1).
    assert (Hf : ends (host_free b;; mret (Thrown : res DmaPtr)) (fun _ s' => kept_mem s s') s2).
    { eapply ends_bind; [apply ends_host_free|]. intros u s3 E3. cbn in E3. apply ends_ret. intros a n i Ha Hi. rewrite E3. by apply (K2 a n i). }
    destruct r as [[] [x|]]; try exact Hf. by apply ends_ret. }
  eapply ends_bind; [by apply getDeviceMemory_kept|]. intros [[b o]|] s1 [M1 A1]; [|apply ends_ret; intros ????; by rewrite M1].
  eapply ends_bind; [apply ends_lib|]. intros r s2 [M2 _]. assert (K2 : kept_mem s s2) by (intros ????; by rewrite M2, M1).
  destruct r as [[] [x|]]; try by apply ends_ret.
  eapply ends_bind; [apply ends_memset|]. intros e s3 M3.
  assert (K3 : kept_mem s s3). { intros a n i Ha Hi. rewrite M3; [by apply K2 with a n|]. destruct (A1 a n Ha); lia. }
  destruct (e =? 0); cbn [negb]; [|by intros y s' [= <- <-]].
  eapply ends_bind; [apply ends_lib|]. intros _ s4 [M4 _]. apply ends_ret. intros a n i Ha Hi. rewrite M4. by apply (K3 a n i).
Qed.
End frame.
(** ** Arrays *)

(** The words [ws] are stored at [p]. *)
Definition stored (s : gpu_state) (p : Z) (bs : list Z) : Prop :=
  forall k, (k < length bs)%nat -> gs_mem s (p + Z.of_nat k) = nth k bs 0.

(** The bytes [bs] at [p], inside one of the allocations of [l]. *)
Definition array_in (l : list resource) (s : gpu_state) (t : Z * list Z) : Prop :=
  exists o n, RDev o n ∈ l /\ o <= t.1 /\ t.1 + Z.of_nat (length t.2) <= o + n /\ stored s t.1 t.2.

Lemma array_keeps l l' s s' t : l ⊆ l' -> keeps l s s' -> array_in l s t -> array_in l' s' t.
Proof.
  intros Hs Hk (o & n & Hin & H1 & H2 & St). exists o, n. split_and!; [by apply Hs|done..|]. intros k Hk'. rewrite (Hk o n) by (done || lia). by apply St.
Qed.

Section copy.
Context {K : Kernel} {C : Cuda} (own : nat -> Z).

Lemma copy_bytes_spec p bs o n l s :
  holds own l s -> RDev o n ∈ l -> o <= p -> p + Z.of_nat (length bs) <= o + n ->
  wp (copy_bytes p bs) (fun ok s' => still own s s' /\ holds own l s' /\
    (forall a m i, RDev a m ∈ l -> a <> o -> a <= i < a + m -> gs_mem s' i = gs_mem s i) /\
    (forall i, i < p \/ p + Z.of_nat (length bs) <= i -> gs_mem s' i = gs_mem s i) /\ (ok = true -> array_in l s' (p, bs))) s.
Proof.
  intros H Hin H1 H2. unfold copy_bytes. apply wp_bind, wp_fallible. intros e h Eh En.
  pose proof (holds_tick _ _ _ h H Eh ltac:(lia)) as H3. pose proof (quiet_tick own s h Eh ltac:(lia)) as Q1%quiet_still.
  destruct (e =? 0); cbn [negb]; [|apply wp_ret; by split_and!].
  apply wp_bind, wp_st_modify, wp_ret. split_and!; [by destruct Q1|by eapply (holds_same own)|..].
  - intros a m i Ha Hne Hi. cbn. unfold bytes. destruct (ho_apart _ _ _ H) as [_ A].
    assert (Hd : a + m <= o \/ o + n <= a) by (apply A; [by apply list_elem_of_omap; exists (RDev a m)|by apply list_elem_of_omap; exists (RDev o n)|done]).
    destruct (Z.leb_spec p i), (Z.ltb_spec i (p + Z.of_nat (length bs))); cbn; done || lia.
  - intros i Hi. cbn. unfold bytes. destruct (Z.leb_spec p i), (Z.ltb_spec i (p + Z.of_nat (length bs))); cbn; done || lia.
  - intros _. exists o, n. split_and!; [done..|]. intros k Hk. cbn in Hk |- *. unfold bytes.
    rewrite (proj2 (Z.leb_le _ _)), (proj2 (Z.ltb_lt _ _)) by lia. cbn. f_equal. lia.
Qed.
End copy.

(** Distinct allocations start at distinct addresses. *)
Lemma devs_notin o l a m : o ∉ (devs_of l).*1 -> RDev a m ∈ l -> a <> o.
Proof. intros Ho Hin ->. apply Ho, list_elem_of_fmap. exists (o, m). split; [done|]. apply list_elem_of_omap. by exists (RDev o m). Qed.

(** ** What the members hold *)

Definition owned_res (o : owned) (l : list resource) : Prop :=
  match o with OwnDma p => dma_res (Some p) l | OwnBuf p => buf_res (Some p) l end.

Inductive owns : members -> list resource -> Prop :=
  | owns_nil : owns [] []
  | owns_cons x o ms l1 l : x ∉ ms.*1 -> owned_res o l1 -> owns ms l -> owns ((x, o) :: ms) (l1 ++ l).

Definition slot_res (ms : members) (x : pc_member) (l : list resource) : Prop :=
  match member ms x with Some o => owned_res o l | None => l = [] end.

Lemma member_cons x o ms y : member ((x, o) :: ms) y = if decide (x = y) then Some o else member ms y.
Proof. unfold member. cbn. case_decide; case_bool_decide; done. Qed.

Lemma member_none ms x : x ∉ ms.*1 -> member ms x = None.
Proof.
  induction ms as [|[y o] ms IH]; [done|]. rewrite fmap_cons. intros [Hx Hn]%not_elem_of_cons. rewrite member_cons, decide_False by (cbn in Hx; congruence). by apply IH.
Qed.

Lemma slot_other x o ms y l : x <> y -> slot_res ms y l -> slot_res ((x, o) :: ms) y l.
Proof. intros Hne. unfold slot_res. by rewrite member_cons, decide_False. Qed.

Lemma slots_other x o ms xs ls : x ∉ xs -> Forall2 (slot_res ms) xs ls -> Forall2 (slot_res ((x, o) :: ms)) xs ls.
Proof. intros Hx F. induction F as [|y l xs ls Hy F IH]; [constructor|]. apply not_elem_of_cons in Hx as [Hx Hxs]. constructor; [by apply slot_other|by apply IH]. Qed.

(** The resources in the order of a list of members. *)
Lemma owns_slots ms l xs :
  owns ms l -> NoDup xs -> (forall x, x ∈ ms.*1 -> x ∈ xs) -> exists ls, Forall2 (slot_res ms) xs ls /\ concat ls ≡ₚ l.
Proof.
  intros O N. induction O as [|x o ms l1 l Hx Ho O IH]; intros Hin.
  - exists (replicate (length xs) []). split.
    + clear. induction xs as [|x xs IH]; [constructor|]. by constructor.
    + clear. by induction xs.
  - destruct IH as (ls & F & P); [intros y Hy; apply Hin; by right|]. assert (Hxs : x ∈ xs) by (apply Hin; by left).
    clear Hin O. assert (G : exists ls', Forall2 (slot_res ((x, o) :: ms)) xs ls' /\ concat ls' ≡ₚ l1 ++ concat ls); [|destruct G as (ls' & F' & P'); exists ls'; by rewrite P', P].
    clear P.
    induction F as [|y l2 xs ls Hy F IH]; [by apply not_elem_of_nil in Hxs|]. apply list.NoDup_cons in N as [Ny N].
    destruct (decide (x = y)) as [<-|Hne].
    + exists (l1 :: ls). split.
      * constructor; [unfold slot_res; by rewrite member_cons, decide_True|by apply slots_other].
      * unfold slot_res in Hy. rewrite member_none in Hy by done. by rewrite Hy.
    + apply elem_of_cons in Hxs as [->|Hxs]; [done|]. destruct (IH N Hxs) as (ls' & F' & P'). exists (l2 :: ls'). split; [constructor; [by apply slot_other|done]|].
      cbn. rewrite P'. by rewrite !app_assoc, (Permutation_app_comm l2 l1).
Qed.

Lemma declared_all : NoDup (rev declared) /\ forall x, x ∈ rev declared.
Proof. split; [apply (bool_decide_unpack _); vm_compute; exact I|]. intros []; apply (bool_decide_unpack _); vm_compute; exact I. Qed.
Lemma owns_length ms l : owns ms l -> (length l <= 2 * length ms)%nat.
Proof.
  induction 1 as [|x o ms l1 l _ Ho _ IH]; [done|]. rewrite length_app. cbn. assert (length l1 <= 2)%nat; [|lia].
  destruct o; cbn in Ho; [destruct Ho as (? & ? & _ & ->)|destruct Ho as (? & _ & ->)]; cbn; lia.
Qed.

Section steps.
Context {K : Kernel} {C : Cuda} (own : nat -> Z).

Lemma release_owned_spec o l1 l s :
  owned_res o l1 -> holds own (l1 ++ l) s -> wp (release_owned o) (fun _ s' => quiet own s s' /\ holds own l s') s.
Proof. destruct o as [p|p]; cbn [owned_res release_owned]; [apply (release_opt_dma own (Some p))|apply (release_opt_buf own (Some p))]. Qed.

Lemma release_slots ms xs ls l s :
  Forall2 (slot_res ms) xs ls -> holds own (concat ls ++ l) s ->
  wp (foldr (fun x k => release_opt release_owned (member ms x);; k) (mret tt) xs) (fun _ s' => quiet own s s' /\ holds own l s') s.
Proof.
  intros F. revert s. induction F as [|x l1 xs ls Hx F IH]; intros s H; [by apply wp_ret|]. cbn in H. rewrite <- app_assoc in H. cbn [foldr]. apply wp_bind.
  eapply wp_mono with (Q := fun _ s' => quiet own s s' /\ holds own (concat ls ++ l) s').
  - unfold slot_res in Hx. destruct (member ms x) as [o|]; cbn [release_opt]; [by apply (release_owned_spec o l1)|]. apply wp_ret. by rewrite Hx in H.
  - intros _ s1 [Q1 H1]. eapply wp_mono; [by apply IH|]. intros _ s2 [Q2 H2]. split; [by etransitivity|done].
Qed.

Lemma release_all_spec ms l0 l s :
  owns ms l0 -> holds own (l0 ++ l) s -> wp (release_all ms) (fun _ s' => quiet own s s' /\ holds own l s') s.
Proof.
  intros O H. destruct declared_all as [N A]. destruct (owns_slots ms l0 (rev declared) O N) as (ls & F & P); [intros; apply A|].
  apply (release_slots ms _ ls); [done|]. eapply holds_perm; [|exact H]. by rewrite P.
Qed.

(** ** Steps of the constructor *)

(** [l]: what is held besides the members; [s0]: the state at the start; [Q]: what is to
    be shown, which covers every exception. *)
Context (l : list resource) (s0 : gpu_state) {A : Type} (Q : res A -> gpu_state -> Prop).
Context (HQ : forall s', still own s0 s' -> (exists l', (length l' <= 2)%nat /\ holds own (l' ++ l) s') -> Q Thrown s').

Record built (ms : members) (l0 : list resource) (s : gpu_state) : Prop := {
  bu_owns : owns ms l0;
  bu_holds : holds own (l0 ++ l) s;
  bu_still : still own s0 s
}.

Lemma unwind_built ms l0 l1 s s1 :
  built ms l0 s -> still own s s1 -> (length l1 <= 2)%nat -> holds own (l1 ++ l0 ++ l) s1 -> wp (release_all ms;; mret Thrown) Q s1.
Proof.
  intros [O H S] S1 L H1. apply wp_bind. eapply wp_mono; [apply (release_all_spec ms l0 (l1 ++ l)); [done|]|].
  - eapply holds_perm; [|exact H1]. by rewrite !app_assoc, (Permutation_app_comm l1 l0).
  - intros _ s2 [Q2 H2]. apply wp_ret, HQ; [|by exists l1]. etransitivity; [exact S|]. etransitivity; [exact S1|by apply quiet_still].
Qed.

Lemma new_buffer_spec ms x size d k l0 s :
  built ms l0 s -> x ∉ ms.*1 -> 0 <= size < 2 ^ 63 -> 0 <= to_int d ->
  (forall p o n s', built ((x, OwnBuf p) :: ms) (RDev o n :: l0) s' -> keeps (l0 ++ l) s s' -> o <= bp_ptr p -> bp_ptr p + size <= o + n ->
     zeroed s' (bp_ptr p, size) -> wp (k (bp_ptr p) ((x, OwnBuf p) :: ms)) Q s') ->
  wp (new_buffer ms x size d k) Q s.
Proof.
  intros B Hx Hs Hd Hk. pose proof B as [O H S]. apply wp_guard. eapply wp_mono.
  { apply wp_ends; [by apply (createBuffer_spec own size (to_int d) (l0 ++ l))|by apply createBuffer_kept]. }
  intros [p|] s1 [[Q1 H1] K1]; [|eapply (unwind_built ms l0 []); [exact B|by apply quiet_still|cbn; lia|done]].
  destruct H1 as (r & F & H1 & D). destruct (D Hd) as (o & n & -> & _ & E1 & E2 & Z1). apply (Hk p o n); try done.
  - split; [|done|etransitivity; [exact S|by apply quiet_still]]. apply (owns_cons x (OwnBuf p) ms [RDev o n]); [done| |done]. by exists (RDev o n).
  - intros a m i Hin. apply K1. by apply (Controllers.holds_dev own (l0 ++ l)).
Qed.

Lemma new_dma_spec ms x c hd size d k l0 s :
  built ms l0 s -> x ∉ ms.*1 -> roomy own c 64 l -> (length ms <= 30)%nat -> ctl s c hd -> 0 <= size < 2 ^ 63 -> 0 <= to_int d ->
  (forall p ct b o n s', built ((x, OwnDma p) :: ms) (RCont (dp_dma p) ct :: RDev o n :: l0) s' -> keeps (l0 ++ l) s s' ->
     b mod 65536 = 0 -> o <= b -> b + size <= o + n -> zeroed s' (b, size) ->
     dma_for hd (descriptor 65536 MAP_TYPE_CUDA (User b) size) (ct_handle ct) ->
     wp (k (ct_handle ct) ((x, OwnDma p) :: ms)) Q s') ->
  wp (new_dma ms x c size d k) Q s.
Proof.
  intros B Hx [Ro1 Ro2] Hm Hc Hs Hd Hk. pose proof B as [O H S]. pose proof (owns_length _ _ O) as L. apply wp_guard. eapply wp_mono.
  { apply wp_ends; [apply (createDma_spec own c hd size (to_int d) (l0 ++ l)); [done| |done..]|by apply createDma_kept].
    split; [done|]. rewrite length_app. lia. }
  intros [p|] s1 [[Q1 H1] K1]; [|destruct H1 as (l1 & L1 & H1); eapply (unwind_built ms l0 l1); [exact B|by apply quiet_still|done..]].
  destruct H1 as (ct & r & F & H1 & D). destruct (D Hd) as (b & o & n & -> & Hb & E1 & E2 & Hdma & Z1).
  apply wp_bind, wp_bind, wp_st_get, wp_bind. eapply wp_deref; [exact (holds_cont _ _ _ _ _ H1)|]. apply wp_ret. apply (Hk p ct b o n); try done.
  - split; [|done|etransitivity; [exact S|by apply quiet_still]]. apply (owns_cons x (OwnDma p) ms [RCont (dp_dma p) ct; RDev o n]); [done| |done]. by exists ct, (RDev o n).
  - intros a m i Hin. apply K1. by apply (Controllers.holds_dev own (l0 ++ l)).
Qed.
(** Copying into the allocation [o]. *)
Lemma copy_step {B} ms l0 s o n p bs (k : bool -> G B) (Q' : B -> gpu_state -> Prop) :
  built ms l0 s -> RDev o n ∈ l0 -> o <= p -> p + Z.of_nat (length bs) <= o + n ->
  (forall ok s', built ms l0 s' -> (forall a m, RDev a m ∈ l0 ++ l -> a <> o -> keeps [RDev a m] s s') ->
     (ok = true -> array_in [RDev o n] s' (p, bs)) -> wp (k ok) Q' s') ->
  wp (copy_bytes p bs ≫= k) Q' s.
Proof.
  intros [O H S] Hin H1 H2 Hk. assert (Hin' : RDev o n ∈ l0 ++ l) by (apply elem_of_app; by left).
  apply wp_bind. eapply wp_mono; [by apply (copy_bytes_spec own p bs o n (l0 ++ l))|]. intros ok s1 (S1 & H3 & Ko & _ & Ar). apply Hk.
  - split; [done..|]. by etransitivity.
  - intros a m Ha Hne b m' i [= -> ->]%list_elem_of_singleton Hi. by apply (Ko a m).
  - intros Hok. destruct (Ar Hok) as (o' & n' & _ & _ & _ & St). exists o, n. split_and!; [by left|done..].
Qed.

(** The same, when temporary arrays are released after the copy. *)
Lemma copy_delete_step {B} ms l0 s o n p bs m (k : bool -> G B) (Q' : B -> gpu_state -> Prop) :
  built ms l0 s -> RDev o n ∈ l0 -> o <= p -> p + Z.of_nat (length bs) <= o + n ->
  (forall ok s', built ms l0 s' -> (forall a m, RDev a m ∈ l0 ++ l -> a <> o -> keeps [RDev a m] s s') ->
     (ok = true -> array_in [RDev o n] s' (p, bs)) -> wp (k ok) Q' s') ->
  wp (copy_bytes p bs ≫= (fun ok => delete_arrays m;; k ok)) Q' s.
Proof.
  intros B0 Hin H1 H2 Hk. eapply copy_step; [exact B0|exact Hin|exact H1|exact H2|]. intros ok s1 [O H S] Ko Ar.
  apply wp_bind, wp_st_modify, Hk; [|exact Ko|exact Ar]. split; [done|by eapply holds_same|by destruct S; split].
Qed.
End steps.
End PcMembers.
