(* ===== verification/PageCacheSetupSpec.v ===== *)
(** The constructor and destructor of the page cache: resources, and what the GPU code and
    the controller find in the tables. *)
From Stdlib Require Import ZArith Lia List Bool.
From stdpp Require Import base list gmap gmultiset numbers functions.
From S2P Require Import Prelude Exec NvmUtil NvmCmd NvmError NvmQueue Host Dma DmaSpec DmaInv DmaApi Rpc Admin GpuSetup GpuSetupInv GpuQueuePair GpuController PageCache PageCacheSetup PageCacheTables PageCacheMembers.
Import Host Dma DmaSpec DmaInv DmaApi Rpc Admin Setup SetupInv QueuePairs PcSetup PcTables PcMembers.

Import ListNotations.
Local Open Scope Z_scope.

Module PcSetupSpec.

(** Membership in explicit lists. *)
Ltac subs := cbn; intros ?; rewrite ?elem_of_cons; tauto.
Ltac no_elem H := repeat (apply elem_of_cons in H as [H|H]; [discriminate H|]); by apply not_elem_of_nil in H.
Ltac subs1 := intros ? ->%list_elem_of_singleton; cbn; rewrite ?elem_of_cons; tauto.
Ltac subs_in := rewrite ?elem_of_cons; tauto.

(** ** Mappings of the cache *)

(** A mapping of [size] bytes at [b], in pages of [mps] bytes. *)
Record maps_dma (mps b size : Z) (d : nvm_dma_t) : Prop := {
  md_vaddr : dma_vaddr d = User b;
  md_page : dma_page_size d = mps;
  md_length : size <= Z.of_nat (length (dma_ioaddrs d)) * mps;
  md_words : Forall (is_word 64) (dma_ioaddrs d)
}.

Lemma bus_word hps ps io j : is_word 64 (bus hps ps io j).
Proof. unfold bus. apply u64_range. Qed.

Lemma dma_for_maps hd b size d :
  dma_for hd (descriptor 65536 MAP_TYPE_CUDA (User b) size) d -> 0 < size < 2 ^ 62 -> 0 < ctl_page_size hd -> (ctl_page_size hd | 65536) ->
  maps_dma (ctl_page_size hd) b size d.
Proof.
  intros (io & _ & ->) Hs Hps [z Hz]. set (mps := ctl_page_size hd) in *. cbn -[NVM_PAGE_ALIGN]. set (n := (size + 2 ^ 16 - 1) / 2 ^ 16) in *.
  assert (E0 : NVM_PAGE_ALIGN size 65536 / 65536 = n).
  { change 65536 with (2 ^ 16). rewrite NVM_PAGE_ALIGN_spec by lia. rewrite Z.mul_comm. apply Z.div_mul. lia. }
  assert (Hn : size <= 65536 * n /\ 1 <= n < 2 ^ 47).
  { unfold n. split; [pose proof (Z.div_mod (size + 2 ^ 16 - 1) (2 ^ 16)); pose proof (Z.mod_pos_bound (size + 2 ^ 16 - 1) (2 ^ 16)); lia|].
    split; [apply Z.div_le_lower_bound|apply Z.div_lt_upper_bound]; lia. }
  split; try done; unfold handle_of; cbn -[NVM_PAGE_ALIGN]; rewrite E0, u64_id by word_lia.
  - fold mps. unfold bus_list. rewrite length_fmap, length_seq, Hz. replace (z * mps * n / mps) with (z * n) by (rewrite <- Z.mul_assoc, (Z.mul_comm mps), Z.mul_assoc, Z.div_mul; lia).
    rewrite Z2Nat.id by nia. nia.
  - apply list.Forall_forall. intros x (j & -> & _)%list_elem_of_fmap. apply bus_word.
Qed.
Lemma align_bounds z : 0 <= z < 2 ^ 62 -> z <= NVM_PAGE_ALIGN z (Z.shiftl 1 16) < z + 65536.
Proof.
  intros Hz. change (Z.shiftl 1 16) with (2 ^ 16). rewrite NVM_PAGE_ALIGN_spec by lia.
  pose proof (Z.div_mod (z + 2 ^ 16 - 1) (2 ^ 16)). pose proof (Z.mod_pos_bound (z + 2 ^ 16 - 1) (2 ^ 16)). lia.
Qed.

Lemma words_size n : 0 <= n < 2 ^ 48 -> u64 (n * sizeof_uint64_t) = n * 8 /\ 0 <= n * 8 < 2 ^ 63.
Proof. intros Hn. unfold sizeof_uint64_t. split; [apply u64_id; word_lia|lia]. Qed.

Lemma length_words (t : list Z) n : Z.of_nat (length t) = n -> Z.of_nat (length (encode 8 t)) = n * 8.
Proof. intros <-. rewrite encode_length. lia. Qed.

Lemma array_weaken o n l0 s t : RDev o n ∈ l0 -> array_in [RDev o n] s t -> array_in l0 s t.
Proof. intros Hin. apply array_keeps; [|reflexivity]. by intros r ->%list_elem_of_singleton. Qed.

(** ** The tables *)

Section cache.
Context (ps mps np : Z) (ioaddrs : list Z).

(** What the tables of PRP entries hold: one address inside a controller page, two pages,
    or a page and a list. *)
Inductive prps_good (l0 : list resource) (s : gpu_state) (ms : members) (p1 : Z) : option Z -> bool -> Prop :=
  | prps_one t1 :
      ps <= mps -> array_in l0 s (p1, encode 8 t1) ->
      (forall i, (i < Z.to_nat np)%nat -> t1 !! i = Some (dma_bus mps ioaddrs (Z.of_nat i * ps))) -> prps_good l0 s ms p1 None false
  | prps_two t1 t2 p2 :
      ps = mps * 2 -> array_in l0 s (p1, encode 8 t1) -> array_in l0 s (p2, encode 8 t2) ->
      (forall i, (i < Z.to_nat np)%nat -> t1 !! i = ioaddrs !! (i * 2)%nat /\ t2 !! i = ioaddrs !! (i * 2 + 1)%nat) ->
      prps_good l0 s ms p1 (Some p2) true
  | prps_many how uints t1 t2 t3 p2 p ct b :
      ps = mps * Z.of_nat how -> mps = 8 * Z.of_nat uints -> (2 < how <= uints)%nat ->
      array_in l0 s (p1, encode 8 t1) -> array_in l0 s (p2, encode 8 t2) -> array_in l0 s (b, encode 8 t3) ->
      (prp_list_dma, OwnDma p) ∈ ms -> RCont (dp_dma p) ct ∈ l0 -> dma_vaddr (ct_handle ct) = User b ->
      dma_page_size (ct_handle ct) = mps ->
      Forall (is_word 64) (dma_ioaddrs (ct_handle ct)) ->
      (forall i, (i < Z.to_nat np)%nat -> t1 !! i = ioaddrs !! (i * how)%nat /\ t2 !! i = dma_ioaddrs (ct_handle ct) !! i /\
         is_Some (t2 !! i) /\
         forall j, (j < how - 1)%nat -> t3 !! (i * uints + j)%nat = ioaddrs !! (i * how + j + 1)%nat) ->
      prps_good l0 s ms p1 (Some p2) true.

Lemma prps_keeps l0 l0' s s' ms ms' p1 p2 b :
  l0 ⊆ l0' -> ms ⊆ ms' -> keeps l0 s s' -> prps_good l0 s ms p1 p2 b -> prps_good l0' s' ms' p1 p2 b.
Proof.
  intros Hl Hm Hk H. assert (Ha : forall t, array_in l0 s t -> array_in l0' s' t) by (intros t; by apply array_keeps).
  destruct H as [t1 ? ? ?|t1 t2 p2 ? ? ? ?|how uints t1 t2 t3 p2 p ct bl ? ? ? ? ? ? ? ? ? ? ? ?].
  - apply (prps_one _ _ _ _ t1); auto.
  - apply (prps_two _ _ _ _ t1 t2); auto.
  - apply (prps_many _ _ _ _ how uints t1 t2 t3 p2 p ct bl); auto.
Qed.

Context {K : Kernel} {C : Cuda} (own : nat -> Z) (l : list resource) (s0 : gpu_state) {A : Type} (Q : res A -> gpu_state -> Prop).
Context (HQ : forall s', still own s0 s' -> (exists l', (length l' <= 2)%nat /\ holds own (l' ++ l) s') -> Q Thrown s').
Context (c : nat) (hd : nvm_ctrl_t) (Hctl : ctl s0 c hd) (Emps : ctl_page_size hd = mps) (Hroom : roomy own c 64 l) (cudaDevice : Z) (Hdev : 0 <= to_int cudaDevice).
Context (e m : Z) (Eps : ps = 2 ^ e) (Em : mps = 2 ^ m) (Hm : 3 <= m <= 16) (He : 0 <= e) (Hnp : 0 < np < 2 ^ 48) (Hsize : ps * np < 2 ^ 62).
Context (d : nvm_dma_t) (Eio : dma_ioaddrs d = ioaddrs) (b0 size0 : Z) (Hd : maps_dma mps b0 size0 d) (Hsize0 : ps * np <= size0).

Lemma np_nat : Z.of_nat (Z.to_nat np) = np.
Proof. lia. Qed.

Lemma mps_range : 8 <= mps <= 65536 /\ (mps | 65536).
Proof.
  rewrite Em. split.
  - pose proof (Z.pow_le_mono_r 2 3 m ltac:(lia) ltac:(lia)). pose proof (Z.pow_le_mono_r 2 m 16 ltac:(lia) ltac:(lia)). lia.
  - exists (2 ^ (16 - m)). rewrite <- Z.pow_add_r by lia. by replace (16 - m + m) with 16 by lia.
Qed.

(** The room in the mapping, in pages. *)
Lemma small_geometry : ps <= mps -> exists how, mps = ps * Z.of_nat how /\ (Z.to_nat np <= length ioaddrs * how)%nat.
Proof.
  intros H. assert (e <= m) by (rewrite Eps, Em in H; apply (Z.pow_le_mono_r_iff 2) in H; lia). exists (Z.to_nat (2 ^ (m - e))). pose proof (md_length _ _ _ _ Hd) as L. rewrite Eio in L.
  assert (E : mps = ps * 2 ^ (m - e)) by (rewrite Eps, Em, <- Z.pow_add_r by lia; f_equal; lia).
  rewrite Z2Nat.id by lia. split; [done|]. assert (0 < ps) by (rewrite Eps; lia). assert (0 < 2 ^ (m - e)) by lia. nia.
Qed.

Lemma large_geometry : mps < ps -> exists how, ps = mps * Z.of_nat how /\ (1 < how)%nat /\ (Z.to_nat np * how <= length ioaddrs)%nat.
Proof.
  intros H. assert (m < e) by (rewrite Eps, Em in H; apply (Z.pow_lt_mono_r_iff 2) in H; lia). exists (Z.to_nat (2 ^ (e - m))). pose proof (md_length _ _ _ _ Hd) as L. rewrite Eio in L.
  assert (E : ps = mps * 2 ^ (e - m)) by (rewrite Eps, Em, <- Z.pow_add_r by lia; f_equal; lia).
  pose proof (Z.pow_le_mono_r 2 1 (e - m) ltac:(lia) ltac:(lia)). rewrite Z2Nat.id by lia. split; [done|]. split; [lia|]. assert (0 < mps) by (rewrite Em; lia). nia.
Qed.
Abbreviation built := (built own l s0).

(** What a step adds to the members. *)
Record extends (xs : list pc_member) (ms : members) (l0 : list resource) (s : gpu_state) (ms' : members) (l0' : list resource) (s' : gpu_state) : Prop := {
  ex_built : built ms' l0' s';
  ex_members : ms ⊆ ms';
  ex_res : l0 ⊆ l0';
  ex_names : ms'.*1 ⊆ xs ++ ms.*1;
  ex_length : (length ms' <= length xs + length ms)%nat;
  ex_keeps : keeps (l0 ++ l) s s'
}.

(** Copies into [o] leave the other allocations alone. *)
Lemma keeps_copy o l1 l2 s s' :
  (forall a m, RDev a m ∈ l2 -> a <> o -> keeps [RDev a m] s s') -> l1 ⊆ l2 -> o ∉ (devs_of l1).*1 -> keeps l1 s s'.
Proof. intros H Hs Ho a n i Hin Hi. apply (H a n (Hs _ Hin)) with a n; [by eapply devs_notin|by left|done]. Qed.

Lemma new_prps_small ms l0 s k :
  built ms l0 s -> prp1_buf ∉ ms.*1 -> ps <= mps ->
  (forall p1 p2 b ms' l0' s' ok, extends [prp1_buf] ms l0 s ms' l0' s' -> (ok = true -> prps_good l0' s' ms' p1 p2 b) -> wp (k p1 p2 b ms' ok) Q s') ->
  wp (new_prps ms c ps np mps cudaDevice d k) Q s.
Proof.
  intros B H1 Hle Hk. unfold new_prps. rewrite (md_page _ _ _ _ Hd), (proj2 (Z.leb_le _ _) Hle), (proj1 (words_size np ltac:(lia))).
  apply (new_buffer_spec own l s0 Q HQ _ _ _ _ _ l0); [done|done|apply words_size; lia|done|]. intros bp o n s1 B1 K1 E1 E2 _.
  destruct (small_geometry Hle) as (how & Eh & Hlen). destruct mps_range as [Hr _].
  destruct (prp_small_spec ps mps ioaddrs (Z.to_nat np) ltac:(lia) ltac:(nia) how Eh Hlen) as (t & Et & Lt & Ht).
  apply wp_bind. rewrite Eio. eapply wp_deref; [exact Et|]. assert (Lw := length_words t np ltac:(lia)).
  eapply (copy_delete_step own l s0 _ _ _ o n); [exact B1|by left|done|lia|]. intros ok s2 B2 Ko Ar. eapply Hk.
  - split; [exact B2|subs..|done|].
    etransitivity; [exact K1|]. eapply keeps_copy; [exact Ko|subs|]. pose proof (ho_devs_nodup _ _ _ (bu_holds _ _ _ _ _ _ B1)) as N.
    by apply list.NoDup_cons in N as [? _].
  - intros Hok. apply (prps_one _ _ _ _ t); [done|apply (array_weaken o n); [by left|by apply Ar]|done].
Qed.
Lemma new_prps_pair ms l0 s k :
  built ms l0 s -> prp1_buf ∉ ms.*1 -> prp2_buf ∉ ms.*1 -> ps = mps * 2 ->
  (forall p1 p2 b ms' l0' s' ok, extends [prp1_buf; prp2_buf] ms l0 s ms' l0' s' -> (ok = true -> prps_good l0' s' ms' p1 p2 b) -> wp (k p1 p2 b ms' ok) Q s') ->
  wp (new_prps ms c ps np mps cudaDevice d k) Q s.
Proof.
  intros B H1 H2 Eq Hk. unfold new_prps. destruct mps_range as [Hr _]. destruct (words_size np ltac:(lia)) as [-> Hw].
  rewrite (md_page _ _ _ _ Hd), (proj2 (Z.leb_gt _ _)), u64_id, (proj2 (Z.leb_le _ _)) by (lia || word_lia).
  apply (new_buffer_spec own l s0 Q HQ _ _ _ _ _ l0); [done..|]. intros b1 o1 n1 s1 B1 K1 E1 E1' _.
  apply (new_buffer_spec own l s0 Q HQ _ _ _ _ _ (RDev o1 n1 :: l0)); [done|cbn; by apply not_elem_of_cons|done..|]. intros b2 o2 n2 s2 B2 K2 E2 E2' _.
  destruct (large_geometry ltac:(lia)) as (how & Eh & _ & Hlen). assert (how = 2%nat) as -> by nia.
  destruct (prp_pair_spec ioaddrs (Z.to_nat np) ltac:(lia)) as (t1 & t2 & Et & L1 & L2 & Ht).
  apply wp_bind. rewrite Eio. eapply wp_deref; [exact Et|]. pose proof (length_words t1 np ltac:(lia)). pose proof (length_words t2 np ltac:(lia)).
  pose proof (ho_devs_nodup _ _ _ (bu_holds _ _ _ _ _ _ B2)) as N. change (devs_of _) with ((o2, n2) :: (o1, n1) :: devs_of (l0 ++ l)) in N.
  cbn in N. apply list.NoDup_cons in N as [N2 N]. apply list.NoDup_cons in N as [N1 _]. apply not_elem_of_cons in N2 as [N12 N2].
  eapply (copy_step own l s0 _ _ _ o1 n1); [exact B2|by right; left|done|lia|]. intros ok1 s3 B3 Ko1 A1.
  eapply (copy_delete_step own l s0 _ _ _ o2 n2); [exact B3|by left|done|lia|]. intros ok2 s4 B4 Ko2 A2. eapply Hk.
  - split; [exact B4|subs..|done|]. etransitivity; [exact K1|]. etransitivity; [eapply keeps_mono, K2; subs|].
    etransitivity; (eapply keeps_copy; [eassumption|subs|done]).
  - intros [Hok1 Hok2]%andb_true_iff. apply (prps_two _ _ _ _ t1 t2); [done| |apply (array_weaken o2 n2); [by left|by apply A2]|done].
    apply (array_weaken o1 n1); [by right; left|]. eapply array_keeps, (A1 Hok1); [done|]. apply Ko2; [by right; left|done].
Qed.
Lemma many_geometry : mps * 2 < ps <= mps * (mps / 8) ->
  exists how uints, ps = mps * Z.of_nat how /\ mps = 8 * Z.of_nat uints /\ (2 < how <= uints)%nat /\ Z.of_nat uints < 2 ^ 32 /\
    (Z.to_nat np * how <= length ioaddrs)%nat.
Proof.
  intros [H1 H2]. destruct mps_range as [Hr _]. destruct (large_geometry ltac:(lia)) as (how & Eh & _ & Hlen).
  assert (Eu : mps = 8 * (mps / 8)).
  { rewrite Em. replace m with (3 + (m - 3)) by lia. rewrite Z.pow_add_r by lia. change (2 ^ 3) with 8. rewrite (Z.mul_comm 8 (2 ^ _)), Z.div_mul; lia. }
  exists how, (Z.to_nat (mps / 8)). rewrite Z2Nat.id by lia. split_and!; try done; try lia.
  - apply Nat2Z.inj_lt. apply (Z.mul_lt_mono_pos_l mps); lia.
  - apply Nat2Z.inj_le. rewrite Z2Nat.id by lia. apply (Z.mul_le_mono_pos_l _ _ mps); lia.
Qed.

Lemma built_ctl ms l0 s : built ms l0 s -> ctl s c hd.
Proof. intros B. apply (sl_ctl _ _ _ (bu_still _ _ _ _ _ _ B)); [apply Hroom|done]. Qed.

Lemma new_prps_many ms l0 s k :
  built ms l0 s -> prp1_buf ∉ ms.*1 -> prp2_buf ∉ ms.*1 -> prp_list_dma ∉ ms.*1 -> (length ms <= 25)%nat ->
  mps * 2 < ps <= mps * (mps / 8) -> mps * np < 2 ^ 32 ->
  (forall p1 p2 b ms' l0' s' ok, extends [prp1_buf; prp_list_dma; prp2_buf] ms l0 s ms' l0' s' -> (ok = true -> prps_good l0' s' ms' p1 p2 b) ->
     wp (k p1 p2 b ms' ok) Q s') ->
  wp (new_prps ms c ps np mps cudaDevice d k) Q s.
Proof.
  intros B H1 H2 H3 Lm Hps Hlist Hk. unfold new_prps. destruct mps_range as [Hr Hdiv]. destruct (words_size np ltac:(lia)) as [-> Hw].
  rewrite (md_page _ _ _ _ Hd), (proj2 (Z.leb_gt _ _)), (u64_id (mps * 2)), (proj2 (Z.leb_gt _ _)), (u32_id (mps * np)) by (lia || word_lia).
  apply (new_buffer_spec own l s0 Q HQ _ _ _ _ _ l0); [done..|]. intros b1 o1 n1 s1 B1 K1 E1 E1' _.
  pose proof (align_bounds (mps * np) ltac:(lia)) as Hal.
  apply (new_dma_spec own l s0 Q HQ _ _ c hd _ _ _ (RDev o1 n1 :: l0)); [done|cbn; by apply not_elem_of_cons|done|cbn; lia|by eapply built_ctl|lia|done|].
  intros pl ct bl o3 n3 s2 B2 K2 _ E3 E3' _ Hdma.
  destruct (dma_for_maps _ _ _ _ Hdma) as [V P L W]; rewrite ?Emps in *; [lia|lia|done|].
  apply (new_buffer_spec own l s0 Q HQ _ _ _ _ _ (RCont (dp_dma pl) ct :: RDev o3 n3 :: RDev o1 n1 :: l0)); [done|cbn; rewrite !not_elem_of_cons; done|done..|].
  intros b2 o2 n2 s3 B3 K3 E2 E2' _. destruct (many_geometry Hps) as (how & uints & Eh & Eu & Hu & Hu32 & Hlen).
  assert (Hln : (Z.to_nat np <= length (dma_ioaddrs (ct_handle ct)))%nat).
  { apply Nat2Z.inj_le. rewrite np_nat. apply (Z.mul_le_mono_pos_l _ _ mps); lia. }
  destruct (prp_lists_spec ps mps ioaddrs (Z.to_nat np) ltac:(lia) ltac:(lia) how uints (dma_ioaddrs (ct_handle ct)) Eh Eu) as (t1 & t2 & t3 & Et & L1 & L2 & L3 & Ht); [lia..|].
  rewrite np_nat in Et. apply wp_bind. rewrite Eio. eapply wp_deref; [exact Et|].
  pose proof (length_words t1 np ltac:(lia)). pose proof (length_words t2 np ltac:(lia)). pose proof (length_words t3 (np * Z.of_nat uints) ltac:(lia)).
  pose proof (ho_devs_nodup _ _ _ (bu_holds _ _ _ _ _ _ B3)) as N. change (devs_of _) with ((o2, n2) :: (o3, n3) :: (o1, n1) :: devs_of (l0 ++ l)) in N.
  cbn in N. rewrite !list.NoDup_cons, !not_elem_of_cons in N. destruct N as ((N23 & N21 & N2) & (N31 & N3) & N1 & _).
  eapply (copy_step own l s0 _ _ _ o1 n1); [exact B3|by do 3 right; left|done|lia|]. intros ok1 s4 B4 Ko1 A1.
  eapply (copy_step own l s0 _ _ _ o2 n2); [exact B4|by left|done|lia|]. intros ok2 s5 B5 Ko2 A2.
  unfold vaddr_of. rewrite V. apply wp_bind, wp_ret.
  eapply (copy_delete_step own l s0 _ _ _ o3 n3); [exact B5|by do 2 right; left|done|lia|]. intros ok3 s6 B6 Ko3 A3. eapply Hk.
  - split; [exact B6|subs..|done|]. etransitivity; [exact K1|]. etransitivity; [eapply keeps_mono, K2; subs|]. etransitivity; [eapply keeps_mono, K3; subs|].
    etransitivity; [eapply keeps_copy; [exact Ko1|subs|done]|]. etransitivity; (eapply keeps_copy; [eassumption|subs|done]).
  - intros [[Hok1 Hok2]%andb_true_iff Hok3]%andb_true_iff. apply (prps_many _ _ _ _ how uints t1 t2 t3 _ pl ct bl); try done.
    + apply (array_weaken o1 n1); [by do 3 right; left|]. eapply array_keeps, (A1 Hok1); [done|].
      etransitivity; [apply Ko2|apply Ko3]; try done; by do 3 right; left.
    + apply (array_weaken o2 n2); [by left|]. eapply array_keeps, (A2 Hok2); [done|]. apply Ko3; [by left|done].
    + apply (array_weaken o3 n3); [by do 2 right; left|by apply A3].
    + by right; left.
    + by right; left.
    + intros i Hi. destruct (Ht i Hi) as (T1 & T2 & T3). split_and!; try done. apply lookup_lt_is_Some_2. lia.
Qed.
(** Any of the three. *)
Lemma new_prps_spec ms l0 s k :
  built ms l0 s -> prp1_buf ∉ ms.*1 -> prp2_buf ∉ ms.*1 -> prp_list_dma ∉ ms.*1 -> (length ms <= 25)%nat ->
  ps <= mps * (mps / 8) -> (mps * 2 < ps -> mps * np < 2 ^ 32) ->
  (forall p1 p2 b ms' l0' s' ok, extends [prp1_buf; prp_list_dma; prp2_buf] ms l0 s ms' l0' s' -> (ok = true -> prps_good l0' s' ms' p1 p2 b) ->
     wp (k p1 p2 b ms' ok) Q s') ->
  wp (new_prps ms c ps np mps cudaDevice d k) Q s.
Proof.
  intros B H1 H2 H3 Lm Hmax Hlist Hk.
  assert (Hx : forall xs ms' l0' s', extends xs ms l0 s ms' l0' s' -> xs ⊆ [prp1_buf; prp_list_dma; prp2_buf] -> (length xs <= 3)%nat ->
    extends [prp1_buf; prp_list_dma; prp2_buf] ms l0 s ms' l0' s').
  { intros xs ms' l0' s' [X1 X2 X3 X4 X5 X6] Hs Hl. split; try done; [|cbn; lia]. intros x Hx%X4. apply elem_of_app. apply elem_of_app in Hx as [Hx|Hx]; auto. }
  destruct (Z.le_gt_cases ps mps) as [Hle|Hgt]; [apply (new_prps_small ms l0); try done; intros; eapply Hk; [eapply Hx; [eassumption|subs|cbn; lia]|done]|].
  destruct (decide (ps = mps * 2)) as [Heq|Hne]; [apply (new_prps_pair ms l0); try done; intros; eapply Hk; [eapply Hx; [eassumption|subs|cbn; lia]|done]|].
  assert (mps * 2 < ps).
  { destruct (large_geometry Hgt) as (how & Eh & Hh & _). destruct mps_range. nia. }
  apply (new_prps_many ms l0); try done. auto.
Qed.

(** The pages of every cache page, on the bus. *)
Definition flat_good (l0 : list resource) (s : gpu_state) (p ppe : Z) : Prop :=
  exists t, array_in l0 s (p, encode 8 t) /\ ppe = Z.max 1 (ps / mps) /\
    forall i j, (i < Z.to_nat np)%nat -> (j < Z.to_nat ppe)%nat ->
      t !! (i * Z.to_nat ppe + j)%nat = Some (dma_bus mps ioaddrs (Z.of_nat i * ps + Z.of_nat j * mps)).

Lemma flat_table : ps <= mps * (mps / 8) ->
  let ppe := if ps <=? mps then 1 else u32 (ps / mps) in
  0 < ppe < 2 ^ 32 /\ np * ppe * 8 < 2 ^ 62 /\ ppe = Z.max 1 (ps / mps) /\
  exists t, flat_ioaddrs ps mps ioaddrs mps ppe (Z.to_nat np) = Some t /\ Z.of_nat (length t) = np * ppe /\
    forall i j, (i < Z.to_nat np)%nat -> (j < Z.to_nat ppe)%nat ->
      t !! (i * Z.to_nat ppe + j)%nat = Some (dma_bus mps ioaddrs (Z.of_nat i * ps + Z.of_nat j * mps)).
Proof.
  intros Hmax. destruct mps_range as [Hr _]. assert (0 < ps) by (rewrite Eps; lia). destruct (Z.leb_spec ps mps) as [Hle|Hgt]; cbn zeta.
  - destruct (small_geometry Hle) as (how & Eh & Hlen). destruct (flat_small ps mps ioaddrs (Z.to_nat np) ltac:(lia) ltac:(nia) how mps Eh Hle Hlen) as (t & Et & Lt & Ht).
    split; [lia|]. split; [lia|]. split.
    { destruct (decide (ps = mps)) as [->|]; [rewrite Z.div_same; lia|rewrite Z.div_small; lia]. }
    exists t. split_and!; [done|lia|]. intros i j Hi Hj. assert (j = 0%nat) as -> by lia. change (Z.to_nat 1) with 1%nat.
    rewrite Nat.mul_1_r, Nat.add_0_r, Ht by done. do 2 f_equal. lia.
  - destruct (large_geometry Hgt) as (how & Eh & Hh & Hlen). assert (mps / 8 <= 8192) by (apply (Z.div_le_mono mps 65536 8); lia).
    assert (Hb : Z.of_nat how <= mps / 8) by (apply (Z.mul_le_mono_pos_l _ _ mps); lia).
    assert (Ed : ps / mps = Z.of_nat how) by (rewrite Eh, Z.mul_comm, Z.div_mul; lia).
    rewrite Ed, u32_id by word_lia. destruct (flat_large ps mps ioaddrs (Z.to_nat np) how mps Hh Hlen) as (t & Et & Lt & Ht).
    split; [lia|]. split; [|split; [lia|]].
    { assert (np * Z.of_nat how * 8 <= ps * np); [|lia]. rewrite Eh. nia. }
    exists t. split_and!; [done|lia|]. rewrite Nat2Z.id. intros i j Hi Hj. rewrite Ht by nia.
    destruct (lookup_lt_is_Some_2 ioaddrs (i * how + j)%nat) as [io Hio]; [nia|]. rewrite Hio. f_equal.
    rewrite <- (dma_bus_page mps ioaddrs (i * how + j) io); [f_equal; lia|lia|done|]. pose proof (md_words _ _ _ _ Hd) as W. rewrite Eio in W. by eapply (Forall_lookup_1 _ _ _ _ W).
Qed.

Lemma new_flat_spec ms l0 s k :
  built ms l0 s -> page_ioaddrs_buf ∉ ms.*1 -> ps <= mps * (mps / 8) ->
  (forall p ppe ms' l0' s' ok, extends [page_ioaddrs_buf] ms l0 s ms' l0' s' -> (ok = true -> flat_good l0' s' p ppe) -> wp (k p ppe ms' ok) Q s') ->
  wp (new_flat ms ps np mps cudaDevice d k) Q s.
Proof.
  intros B H1 Hmax Hk. destruct (flat_table Hmax) as (P1 & P2 & P3 & t & Et & Lt & Ht). unfold new_flat. cbn zeta. rewrite (md_page _ _ _ _ Hd), Eio.
  set (ppe := if ps <=? mps then 1 else u32 (ps / mps)) in *. unfold sizeof_uint64_t. assert (0 <= np * ppe) by lia. rewrite (u64_id (np * ppe)), u64_id by word_lia.
  apply (new_buffer_spec own l s0 Q HQ _ _ _ _ _ l0); [done|done|lia|done|]. intros bp o n s1 B1 K1 E1 E2 _.
  apply wp_bind. eapply wp_deref; [exact Et|]. pose proof (length_words t _ Lt).
  eapply (copy_step own l s0 _ _ _ o n); [exact B1|by left|done|lia|]. intros ok s2 B2 Ko Ar. eapply Hk.
  - split; [exact B2|subs..|done|]. etransitivity; [exact K1|]. eapply keeps_copy; [exact Ko|subs|].
    pose proof (ho_devs_nodup _ _ _ (bu_holds _ _ _ _ _ _ B1)) as N. by apply list.NoDup_cons in N as [? _].
  - intros Hok. exists t. split_and!; [|done..]. apply (array_weaken o n); [by left|by apply Ar].
Qed.
(** The addresses of the cache pages. *)
Definition page_addrs (base : Z) : list Z := (fun i => u64 (base + u64 (Z.of_nat i * ps))) <$> seq 0 (Z.to_nat np).

(** The allocation of [new_vaddrs], which is no member. *)
Definition vaddrs_res (va : Z) (lv : list resource) : Prop := lv = [] \/ lv = [RDev va (np * 8)].

Lemma new_vaddrs_spec {B} base ms l0 s (k : Z * bool -> G B) (Q' : B -> gpu_state -> Prop) :
  built ms l0 s ->
  (forall va ok lv s', PcMembers.built own (lv ++ l) s0 ms l0 s' -> keeps (l0 ++ l) s s' -> vaddrs_res va lv ->
     (ok = true -> array_in lv s' (va, encode 8 (page_addrs base))) -> wp (k (va, ok)) Q' s') ->
  wp (new_vaddrs base ps np ≫= k) Q' s.
Proof.
  intros B1 Hk. pose proof B1 as [O H S]. unfold new_vaddrs. destruct (words_size np ltac:(lia)) as [-> Hw].
  apply wp_bind, wp_bind. eapply wp_mono.
  { apply wp_ends; [apply (cudaMalloc_spec own (np * 8) (l0 ++ l)); [done|lia]|apply ends_malloc; lia]. }
  intros [p|] s1 [[Q1 H1] [M1 _]].
  2: { subst s1. apply wp_ret, (Hk 0 false []); [done|done|by left|done]. }
  destruct H1 as (_ & _ & H1). assert (H2 : holds own (l0 ++ RDev p (np * 8) :: l) s1) by (eapply holds_perm; [|exact H1]; apply Permutation_middle).
  apply wp_bind. pose proof (length_words (page_addrs base) np) as Lw. unfold page_addrs in Lw. rewrite length_fmap, length_seq in Lw. specialize (Lw np_nat).
  eapply wp_mono; [apply (copy_bytes_spec own p _ p (np * 8) _ s1 H2); [apply elem_of_app; right; by left|lia|lia]|].
  intros ok s2 (S2 & H3 & Ko & _ & Ar). apply wp_ret, (Hk p ok [RDev p (np * 8)]).
  - split; [done|done|]. etransitivity; [exact S|]. etransitivity; [by apply quiet_still|done].
  - intros a n i Hin Hi. rewrite (Ko a n i), M1; [done| | |done].
    + apply elem_of_app in Hin. apply elem_of_app. rewrite elem_of_cons. tauto.
    + eapply devs_notin; [|exact Hin]. pose proof (ho_devs_nodup _ _ _ H1) as N. by apply list.NoDup_cons in N as [? _].
  - by right.
  - intros Hok. destruct (Ar Hok) as (o & n & _ & _ & _ & St). exists p, (np * 8). unfold page_addrs. split_and!; [by left|cbn [fst snd]; lia..|done].
Qed.
End cache.
(** ** The constructor *)

(** The cache's own mapping. *)
Definition cache_map (ps mps np : Z) (ioaddrs : list Z) (l0 : list resource) (ms : members) (base : Z) : Prop :=
  exists p ct, (pages_dma, OwnDma p) ∈ ms /\ RCont (dp_dma p) ct ∈ l0 /\ maps_dma mps base (ps * np) (ct_handle ct) /\
    dma_ioaddrs (ct_handle ct) = ioaddrs.

(** What the device finds when every copy has succeeded. *)
Record tables_good (ps mps np : Z) (ioaddrs : list Z) (l0 lv : list resource) (s : gpu_state) (ms : members)
    (base p1 : Z) (p2 : option Z) (b : bool) (pio ppe va : Z) : Prop := {
  tg_prps : prps_good ps mps np ioaddrs l0 s ms p1 p2 b;
  tg_flat : flat_good ps mps np ioaddrs l0 s pio ppe;
  tg_vaddrs : array_in lv s (va, encode 8 (page_addrs ps np base))
}.

Lemma flat_keeps ps mps np ioaddrs l0 l0' s s' p ppe :
  l0 ⊆ l0' -> keeps l0 s s' -> flat_good ps mps np ioaddrs l0 s p ppe -> flat_good ps mps np ioaddrs l0' s' p ppe.
Proof. intros Hl Hk (t & A & E & H). exists t. split_and!; [by eapply array_keeps|done..]. Qed.

Lemma tables_keeps ps mps np ioaddrs l0 l0' lv l s s' ms ms' base p1 p2 b pio ppe va :
  l0 ⊆ l0' -> ms ⊆ ms' -> keeps (l0 ++ lv ++ l) s s' -> tables_good ps mps np ioaddrs l0 lv s ms base p1 p2 b pio ppe va ->
  tables_good ps mps np ioaddrs l0' lv s' ms' base p1 p2 b pio ppe va.
Proof.
  intros Hl Hm Hk [T1 T2 T3]. assert (K1 : keeps l0 s s') by (eapply keeps_mono, Hk; intros x Hx; apply elem_of_app; by left).
  split; [by eapply prps_keeps|by eapply flat_keeps|]. eapply array_keeps, T3; [done|]. eapply keeps_mono, Hk. intros x Hx. rewrite !elem_of_app. auto.
Qed.

(** The arrays of the ranges, each in an allocation of its own. *)
Record range_arrays (d : page_cache_d_t) (l0 : list resource) (o1 n1 o2 n2 o3 n3 : Z) : Prop := {
  ra_starts : RDev o1 n1 ∈ l0 /\ o1 <= ranges_page_starts d /\ ranges_page_starts d + range_cap d * 8 <= o1 + n1;
  ra_ranges : RDev o2 n2 ∈ l0 /\ o2 <= ranges d /\ ranges d + range_cap d * 8 <= o2 + n2;
  ra_dists : RDev o3 n3 ∈ l0 /\ o3 <= ranges_dists d /\ ranges_dists d + range_cap d * 4 <= o3 + n3;
  ra_apart : o1 <> o2 /\ o1 <> o3 /\ o2 <> o3
}.

(** A new page cache: its members hold [l0], [lv] holds the addresses of its pages. *)
Record pc_made (own : nat -> Z) (l : list resource) (s0 : gpu_state) (junk : nat -> Z) (ps mps np max_range blk : Z) (ctrls : list Controller)
    (ioaddrs : list Z) (l0 lv : list resource) (s : gpu_state) (pc : page_cache_t) : Prop := {
  pm_built : PcMembers.built own (lv ++ l) s0 (pc_members pc) l0 s;
  pm_lv : vaddrs_res np (page_vaddrs (pdt pc)) lv;
  pm_map : cache_map ps mps np ioaddrs l0 (pc_members pc) (base_addr (pdt pc));
  pm_sizes : page_size (pdt pc) = ps /\ n_pages (pdt pc) = np /\ page_size_log (pdt pc) = Z.log2 ps /\ ctrl_page_size (pdt pc) = mps /\
    n_blocks_per_page (pdt pc) = ps / blk /\ n_ctrls (pdt pc) = Z.of_nat (length ctrls);
  pm_ranges : range_cap (pdt pc) = max_range /\ n_ranges (pdt pc) = 0 /\ n_ranges_mask (pdt pc) = max_range - 1 /\
    n_ranges_bits (pdt pc) = (if max_range =? 1 then 1 else Z.log2 max_range) /\
    h_ranges pc = replicate (Z.to_nat max_range) None /\ h_ranges_page_starts pc = replicate (Z.to_nat max_range) 0 /\
    h_ranges_dists pc = replicate (Z.to_nat max_range) None;
  pm_config : read_ctrl_override (pdt pc) = Pc.ALL_CTRLS /\ evict_ctrl_override (pdt pc) = Pc.ALL_CTRLS /\
    fake_evict_delay_cycles (pdt pc) = 0 /\ staging_buffer (pdt pc) = 0 /\ evict_queue (pdt pc) = 0 /\ read_queue (pdt pc) = 0 /\ victim (pdt pc) = 0;
  pm_d : pc_d pc = None \/ pc_d pc = Some (pdt pc);
  pm_arrays : exists o1 n1 o2 n2 o3 n3, range_arrays (pdt pc) l0 o1 n1 o2 n2 o3 n3;
  pm_tables : pc_copied pc = true ->
    tables_good ps mps np ioaddrs l0 lv s (pc_members pc) (base_addr (pdt pc)) (prp1 (pdt pc)) (prp2 (pdt pc)) (prps (pdt pc))
      (page_ioaddrs (pdt pc)) (pages_per_entry (pdt pc)) (page_vaddrs (pdt pc)) /\
    array_in l0 s (d_ctrls (pdt pc), encode 8 ((fun c => bp_ptr (ct_d_ctrl_buff c)) <$> ctrls)) /\
    array_in l0 s (cache_pages (pdt pc), free_pages junk (Z.to_nat np))
}.

Lemma array_size n k : 0 <= n < 2 ^ 48 -> 0 <= k <= 64 -> u64 (n * k) = n * k /\ 0 <= n * k < 2 ^ 63.
Proof. intros Hn Hk. assert (0 <= n * k < 2 ^ 63) by nia. split; [apply u64_id; word_lia|done]. Qed.

Section constructor.
Context {K : Kernel} {C : Cuda} (own : nat -> Z) (l : list resource) (s0 : gpu_state) (Q : res page_cache_t -> gpu_state -> Prop).
Context (HQ : forall s', still own s0 s' -> (exists l', (length l' <= 3)%nat /\ holds own (l' ++ l) s') -> Q Thrown s').
Context (c : nat) (hd : nvm_ctrl_t) (mps ps np : Z) (Hctl : ctl s0 c hd) (Emps : ctl_page_size hd = mps) (Hroom : roomy own c 64 l).
Context (cudaDevice : Z) (Hdev : 0 <= to_int cudaDevice) (e m : Z) (Eps : ps = 2 ^ e) (Em : mps = 2 ^ m) (Hm : 3 <= m <= 16) (He : 0 <= e).
Context (Hnp : 0 < np < 2 ^ 48) (Hsize : ps * np < 2 ^ 61) (Hlist : mps * 2 < ps -> mps * np < 2 ^ 32).
Context (ctrl : Controller) (Ectrl : ct_ctrl ctrl = c).

Lemma HQ2 s' : still own s0 s' -> (exists l', (length l' <= 2)%nat /\ holds own (l' ++ l) s') -> Q Thrown s'.
Proof. intros S (l' & L & H). apply HQ; [done|]. exists l'. split; [lia|done]. Qed.

Definition table_names : list pc_member := [pages_dma; prp1_buf; prp_list_dma; prp2_buf; page_ioaddrs_buf].

Lemma new_tables_spec ms l0 s ok k :
  PcMembers.built own l s0 ms l0 s -> (forall x, x ∈ table_names -> x ∉ ms.*1) -> (length ms <= 20)%nat ->
  (forall ioaddrs base p1 p2 b pio ppe va ms' l0' lv s' ok',
     PcMembers.built own (lv ++ l) s0 ms' l0' s' -> l0 ⊆ l0' -> ms ⊆ ms' -> ms'.*1 ⊆ table_names ++ ms.*1 -> vaddrs_res np va lv ->
     keeps (l0 ++ l) s s' -> cache_map ps mps np ioaddrs l0' ms' base ->
     (ok' = true -> ok = true /\ tables_good ps mps np ioaddrs l0' lv s' ms' base p1 p2 b pio ppe va) -> wp (k base p1 p2 b pio ppe va ms' ok') Q s') ->
  wp (new_tables ctrl mps ps np cudaDevice ms ok k) Q s.
Proof.
  intros B Hx Lm Hk. assert (Hps0 : 0 < ps) by (rewrite Eps; lia). assert (0 < ps * np) by nia. unfold new_tables. rewrite (u64_id (ps * np)) by word_lia. pose proof (align_bounds (ps * np) ltac:(lia)) as Hal.
  assert (Hr : 8 <= mps <= 65536 /\ (mps | 65536)) by (by eapply mps_range). destruct Hr as [Hr Hdiv]. rewrite Ectrl.
  apply (new_dma_spec own l s0 Q HQ2 _ _ c hd _ _ _ l0); [done|apply Hx; by left|done|lia|by eapply built_ctl|nia|done|].
  intros pd ct b o n s1 B1 K1 _ E1 E1' _ Hdma. destruct (dma_for_maps _ _ _ _ Hdma) as [V P L W]; rewrite ?Emps in *; [nia|lia|done|].
  assert (Hd : maps_dma mps b (ps * np) (ct_handle ct)) by (split; try done; lia).
  unfold vaddr_of. rewrite V. apply wp_bind, wp_ret, wp_bind. destruct (dma_ioaddrs (ct_handle ct)) as [|io0 ios] eqn:Eio; [cbn in L; lia|].
  eapply wp_deref; [done|]. set (ioaddrs := io0 :: ios) in *. assert (0 <= mps / 8 < 65536) by (split; [apply Z.div_pos; lia|apply Z.div_lt_upper_bound; lia]).
  unfold sizeof_uint64_t. rewrite (u32_id (mps / 8)), (u64_id (mps * (mps / 8))) by (unfold is_word; nia).
  set (ms1 := (pages_dma, OwnDma pd) :: ms) in *. set (l1 := RCont (dp_dma pd) ct :: RDev o n :: l0) in *.
  destruct (_ || _ || _) eqn:Ec.
  { eapply (unwind_built own l s0 Q HQ2 ms1 l1 []); [exact B1|done|cbn; lia|apply B1]. }
  apply orb_false_iff in Ec as [[Hmax%Z.ltb_ge _]%orb_false_iff _].
  assert (Hn : forall x, x ∈ table_names -> x <> pages_dma -> x ∉ ms1.*1) by (intros x Hin Hne; cbn; apply not_elem_of_cons; split; [done|by apply Hx]).
  assert (Hsize2 : ps * np < 2 ^ 62) by lia. assert (Hle : ps * np <= ps * np) by lia.
  eapply (new_prps_spec ps mps np ioaddrs own l s0 Q HQ2 c hd Hctl Emps Hroom cudaDevice Hdev e m Eps Em Hm He Hnp Hsize2 (ct_handle ct) Eio b _ Hd Hle);
    try done; try (apply Hn; [unfold table_names; subs_in|done]); [cbn; lia|].
  intros p1 p2 prps ms2 l2 s2 ok1 [B2 M2 R2 N2 L2 K2] G1.
  eapply (new_flat_spec ps mps np ioaddrs own l s0 Q HQ2 cudaDevice Hdev e m Eps Em Hm He Hnp Hsize2 (ct_handle ct) Eio b _ Hd Hle); [done| |done|].
  { intros Hin%N2. apply elem_of_app in Hin as [Hin|Hin]; [no_elem Hin|]. by apply Hn in Hin; [|unfold table_names; subs_in|]. }
  intros pio ppe ms3 l3 s3 ok2 [B3 M3 R3 N3 L3 K3] G2.
  eapply (new_vaddrs_spec ps np own l s0 e m); try done. intros va ok3 lv s4 B4 K4 Hlv G3.
  apply (Hk ioaddrs b p1 p2 prps pio ppe va ms3 l3 lv); [done|..].
  - etransitivity; [|exact R3]. etransitivity; [|exact R2]. unfold l1. subs.
  - etransitivity; [|exact M3]. etransitivity; [|exact M2]. unfold ms1. subs.
  - intros x [Hin|Hin%N2]%N3%elem_of_app; [unfold table_names; apply elem_of_app; left; apply list_elem_of_singleton in Hin as ->; subs_in|].
    unfold ms1 in Hin. cbn in Hin |- *. rewrite !elem_of_cons in Hin. rewrite !elem_of_cons. tauto.
  - done.
  - etransitivity; [exact K1|]. etransitivity; [eapply keeps_mono, K2; unfold l1; subs|]. etransitivity; [eapply keeps_mono, K3|eapply keeps_mono, K4];
      apply list_subseteq_app_iff_l; (split; [|intros x Hin; apply elem_of_app; by right]); intros x Hin; apply elem_of_app; left.
    + apply R2. by do 2 right.
    + apply R3, R2. by do 2 right.
  - exists pd, ct. split_and!; [apply M3, M2; by left|apply R3, R2; by left|done|done].
  - intros [[[Hok Ho1]%andb_true_iff Ho2]%andb_true_iff Ho3]%andb_true_iff. split; [done|]. split; [|by eapply flat_keeps, G2; [|eapply keeps_mono, K4; intros x Hin; apply elem_of_app; by left|]|by apply G3].
    eapply prps_keeps, (G1 Ho1); [done|done|]. etransitivity; [eapply keeps_mono, K3|eapply keeps_mono, K4]; intros x Hin; apply elem_of_app; left; auto.
Qed.
Abbreviation built := (PcMembers.built own l s0).
Abbreviation extends := (extends own l s0).

Lemma new_counters_spec xs : forall ms l0 s ptrs k,
  built ms l0 s -> NoDup xs -> (forall x, x ∈ xs -> x ∉ ms.*1) ->
  (forall ptrs' ms' l0' s', extends xs ms l0 s ms' l0' s' -> wp (k ptrs' ms') Q s') ->
  wp (new_counters ms xs cudaDevice ptrs k) Q s.
Proof.
  induction xs as [|x xs IH]; intros ms l0 s ptrs k B N Hx Hk; cbn [new_counters].
  { apply (Hk _ _ l0). by split. }
  apply list.NoDup_cons in N as [Nx N]. apply (new_buffer_spec own l s0 Q HQ2 _ _ _ _ _ l0); [done|apply Hx; by left|by vm_compute|done|].
  intros p o n s1 B1 K1 _ _ _. eapply IH; [exact B1|done|..].
  - intros y Hy. cbn. apply not_elem_of_cons. split; [by intros ->|apply Hx; by right].
  - intros ptrs' ms' l0' s' [B2 M2 R2 N2 L2 K2]. apply (Hk _ _ l0'). split.
    + done.
    + etransitivity; [|exact M2]. subs.
    + etransitivity; [|exact R2]. subs.
    + intros y Hy%N2. apply elem_of_app in Hy. cbn in Hy |- *. rewrite elem_of_cons in Hy. rewrite elem_of_cons, elem_of_app. tauto.
    + cbn in L2 |- *. lia.
    + etransitivity; [exact K1|]. eapply keeps_mono, K2. subs.
Qed.

(** Copies of eight bytes, one after the other. *)
Lemma copy_ctrls_spec o n (ctrls : list Controller) : forall dst ms l0 s,
  built ms l0 s -> RDev o n ∈ l0 -> o <= dst -> dst + Z.of_nat (length ctrls) * 8 <= o + n ->
  wp (copy_ctrls dst ctrls) (fun ok s' => built ms l0 s' /\ (forall a m', RDev a m' ∈ l0 ++ l -> a <> o -> keeps [RDev a m'] s s') /\
    (forall i, i < dst -> gs_mem s' i = gs_mem s i) /\
    (ok = true -> stored s' dst (encode 8 ((fun c => bp_ptr (ct_d_ctrl_buff c)) <$> ctrls)))) s.
Proof.
  induction ctrls as [|c1 ctrls IH]; intros dst ms l0 s B Hin H1 H2; cbn [copy_ctrls].
  { apply wp_ret. split_and!; [done|done|done|]. intros _ k Hk. cbn in Hk. lia. }
  cbn [length] in H2. pose proof B as [O H S]. apply wp_bind. set (bs := encode 8 [bp_ptr (ct_d_ctrl_buff c1)]). assert (Lb : length bs = 8%nat) by apply encode_length.
  eapply wp_mono; [apply (copy_bytes_spec own dst bs o n (l0 ++ l)); [done|apply elem_of_app; by left|done|lia]|].
  intros ok s1 (S1 & H3 & Ko & Kout & Ar). assert (B1 : built ms l0 s1) by (split; [done|done|by etransitivity]).
  apply wp_bind. eapply wp_mono; [apply (IH (dst + 8) ms l0 s1 B1 Hin); lia|]. intros oks s2 (B2 & K2 & Kout2 & St2). apply wp_ret. split_and!.
  - done.
  - intros a m' Ha Hne. etransitivity; [|by apply K2]. intros b n' i [= -> ->]%list_elem_of_singleton Hi. by apply (Ko a m').
  - intros i Hi. rewrite Kout2, Kout by lia. done.
  - intros [Hok Hoks]%andb_true_iff. destruct (Ar Hok) as (_ & _ & _ & _ & _ & St1). specialize (St2 Hoks). cbn [snd fst] in St1.
    intros k Hk. change (encode 8 _) with (bs ++ encode 8 ((fun c => bp_ptr (ct_d_ctrl_buff c)) <$> ctrls)) in Hk |- *. rewrite length_app in Hk.
    destruct (decide (k < 8)%nat) as [Hlt|Hge].
    + rewrite Kout2 by lia. rewrite app_nth1 by lia. apply St1. lia.
    + rewrite app_nth2, Lb by lia. rewrite <- St2 by lia. f_equal. lia.
Qed.
Context (junk : nat -> Z) (sizeof_page_cache_d_t : Z) (Hsz : 0 <= sizeof_page_cache_d_t < 2 ^ 63) (max_range : Z) (Hmr : 0 < max_range < 2 ^ 48).
Context (ctrls : list Controller) (Hctrls : Z.of_nat (length ctrls) < 2 ^ 48) (Hblk : ct_blk_size ctrl <> 0).

Lemma free_pages_length : Z.of_nat (length (free_pages junk (Z.to_nat np))) = np * 64.
Proof.
  unfold free_pages. rewrite encode_length, (bind_length _ 16); [rewrite length_seq; lia|]. intros x. cbn [length]. by rewrite length_fmap, length_seq.
Qed.

Lemma HQ_lv va lv s' : vaddrs_res np va lv -> still own s0 s' -> (exists l', (length l' <= 2)%nat /\ holds own (l' ++ lv ++ l) s') -> Q Thrown s'.
Proof.
  intros Hlv S (l' & L & H). apply HQ; [done|]. exists (l' ++ lv). rewrite length_app, <- app_assoc. split; [|done]. destruct Hlv as [-> | ->]; cbn; lia.
Qed.

Lemma log2_of_spec z (Q' : Z -> gpu_state -> Prop) s : 0 < z -> Q' (Z.log2 z) s -> wp (log2_of z) Q' s.
Proof. intros Hz H. unfold log2_of. rewrite (proj2 (Z.eqb_neq _ _)) by lia. by apply wp_ret. Qed.

Lemma range_bits_spec (Q' : Z -> gpu_state -> Prop) s :
  Q' (if max_range =? 1 then 1 else Z.log2 max_range) s -> wp (if max_range =? 1 then mret 1 else log2_of max_range) Q' s.
Proof. destruct (max_range =? 1); [by intros; apply wp_ret|intros; apply log2_of_spec; [lia|done]]. Qed.

Lemma copy_pdt_spec pc (Q' : page_cache_t -> gpu_state -> Prop) ms l0 lv s :
  PcMembers.built own (lv ++ l) s0 ms l0 s ->
  (forall o s', PcMembers.built own (lv ++ l) s0 ms l0 s' -> gs_mem s' = gs_mem s -> o = pc_d pc \/ o = Some (pdt pc) ->
     Q' (MkPageCache (pdt pc) o (d_pc_ptr pc) (h_ranges pc) (h_ranges_page_starts pc) (h_ranges_dists pc) (pc_members pc) (pc_copied pc)) s') ->
  wp (copy_pdt pc) Q' s.
Proof.
  intros [O H S] Hk. unfold copy_pdt. apply wp_bind, wp_fallible. intros e1 h Eh En. apply wp_ret, Hk; [|done|destruct (e1 =? 0); auto].
  split; [done|by apply holds_tick; [..|lia]|]. etransitivity; [exact S|]. apply quiet_still, quiet_tick; [done|lia].
Qed.
(** The constructor from the mapping on. *)
Lemma finish_spec ms l0 s ok ts (F : Z -> Z -> option Z -> bool -> Z -> Z -> Z -> page_cache_d_t) hr hs hds :
  built ms l0 s -> (forall x, x ∈ pc_buff :: table_names -> x ∉ ms.*1) -> (length ms <= 20)%nat -> (ok = true -> Forall (array_in l0 s) ts) ->
  (forall ioaddrs base p1 p2 b pio ppe va ms' l0' lv s' o d ok',
     PcMembers.built own (lv ++ l) s0 ms' l0' s' -> l0 ⊆ l0' -> vaddrs_res np va lv -> cache_map ps mps np ioaddrs l0' ms' base ->
     (ok' = true -> tables_good ps mps np ioaddrs l0' lv s' ms' base p1 p2 b pio ppe va /\ Forall (array_in l0' s') ts) ->
     (o = None \/ o = Some (F base p1 p2 b pio ppe va)) -> Q (Ok (MkPageCache (F base p1 p2 b pio ppe va) o d hr hs hds ms' ok')) s') ->
  wp (new_tables ctrl mps ps np cudaDevice ms ok (fun base p1 p2 b pio ppe va ms ok =>
    new_buffer ms pc_buff sizeof_page_cache_d_t cudaDevice (fun d ms =>
    pc ← copy_pdt (MkPageCache (F base p1 p2 b pio ppe va) None d hr hs hds ms ok); mret (Ok pc)))) Q s.
Proof.
  intros B Hx Lm Hts HQ_ok. apply (new_tables_spec ms l0); [done|intros x Hin; apply Hx; by right|done|].
  intros ioaddrs base p1 p2 b pio ppe va ms1 l1 lv s1 ok1 B1 R1 M1 N1 Hlv K1 Hmap G1.
  apply (new_buffer_spec own (lv ++ l) s0 Q (fun s' => HQ_lv va lv s' Hlv) _ _ _ _ _ l1); [done| |done|done|].
  { intros Hin%N1. apply elem_of_app in Hin as [Hin|Hin]; [no_elem Hin|]. apply (Hx pc_buff); [by left|done]. }
  intros bp o n s2 B2 K2 _ _ _. apply wp_bind. eapply copy_pdt_spec; [exact B2|]. intros od s3 B3 M3 Hod. cbn in Hod |- *. apply wp_ret.
  assert (K3 : keeps (l1 ++ lv ++ l) s1 s3) by (intros a n' i Hin Hi; rewrite M3; by apply (K2 a n')).
  apply (HQ_ok ioaddrs _ _ _ _ _ _ _ _ (RDev o n :: l1) lv); [done|etransitivity; [exact R1|subs]|done|..|exact Hod].
  - destruct Hmap as (pm & ct & H1 & H2 & H3). exists pm, ct. split; [by right|]. split; [by right|done].
  - intros Hok. destruct (G1 Hok) as [Hok0 T]. split; [eapply tables_keeps, T; [subs|subs|done]|].
    eapply list.Forall_impl; [exact (Hts Hok0)|]. intros t At. eapply (array_keeps l1); [subs|eapply keeps_mono, K3; intros x Hin; apply elem_of_app; by left|].
    eapply array_keeps, At; [done|]. eapply keeps_mono, K1. intros x Hin. apply elem_of_app. by left.
Qed.
Context (HQ_ok : forall ioaddrs l0 lv s' pc, pc_made own l s0 junk ps mps np max_range (ct_blk_size ctrl) ctrls ioaddrs l0 lv s' pc -> Q (Ok pc) s').

Lemma counters_done : NoDup counter_members /\ forall x, x ∈ counter_members -> x ∉ pc_buff :: d_ctrls_buff :: ranges_buf :: cache_pages_buf ::
  ranges_page_starts_buf :: page_ticket_buf :: ranges_dists_buf :: table_names.
Proof. split; [apply (bool_decide_unpack _); vm_compute; exact I|]. intros x Hx Hin. revert Hx. unfold table_names in Hin.
  repeat (apply elem_of_cons in Hin as [->|Hin]; [intros Hx; no_elem Hx|]). by apply not_elem_of_nil in Hin. Qed.

Ltac fresh_name := cbn; rewrite !not_elem_of_cons; repeat (split; [done|]); match goal with Hx : forall x, _ -> x ∉ _ |- _ => apply Hx; subs_in end.

Lemma new_page_cache_spec :
  holds own l s0 -> wp (new_page_cache junk sizeof_page_cache_d_t ps np cudaDevice ctrl max_range ctrls) Q s0.
Proof.
  intros H. assert (0 < ps) by (rewrite Eps; lia). unfold new_page_cache. destruct counters_done as [Nc Dc].
  apply (new_counters_spec counter_members [] [] s0); [by split; [constructor|..]|done|by intros x _ ?%not_elem_of_nil|].
  intros cs ms l0 s [B _ _ N L _]. rewrite app_nil_r in N.
  assert (Hx : forall x, x ∈ pc_buff :: d_ctrls_buff :: ranges_buf :: cache_pages_buf :: ranges_page_starts_buf :: page_ticket_buf :: ranges_dists_buf :: table_names -> x ∉ ms.*1).
  { intros x Hin Hm'. by apply (Dc x (N x Hm')). }
  assert (Hc : ctl s c hd) by (by eapply built_ctl). destruct Hc as (hc & Hhc & Ehc).
  apply wp_bind, wp_st_get, wp_bind. rewrite Ectrl. eapply wp_deref; [exact Hhc|]. rewrite Ehc, Emps. cbn zeta.
  destruct (array_size (Z.of_nat (length ctrls)) 8) as [-> A1]; [lia|lia|].
  destruct (array_size max_range 8) as [E8 A2]; [lia|lia|]. destruct (array_size max_range 4) as [E4 A3]; [lia|lia|].
  destruct (array_size np 64) as [E64 A4]; [lia|lia|]. unfold sizeof_uint64_t, sizeof_cache_page_t, sizeof_data_dist_t. rewrite E8, E4, E64.
  apply (new_buffer_spec own l s0 Q HQ2 _ _ _ _ _ l0); [done|apply Hx; subs_in|done|done|]. intros bdc odc ndc s1 B1 K1 D1 D2 _.
  unfold quotient. rewrite (proj2 (Z.eqb_neq _ _) Hblk). apply wp_bind, wp_ret, wp_bind.
  eapply wp_mono; [eapply (copy_ctrls_spec odc ndc ctrls _ _ (RDev odc ndc :: l0) s1); [exact B1|by left|lia|lia]|]. intros ok1 s2 (B2 & K2 & _ & St).
  apply wp_bind, range_bits_spec, wp_bind, log2_of_spec; [done|].
  apply (new_buffer_spec own l s0 Q HQ2 _ _ _ _ _ (RDev odc ndc :: l0)); [done|fresh_name|done|done|]. intros brg org nrg s3 B3 K3 G1 G2 _.
  apply (new_buffer_spec own l s0 Q HQ2 _ _ _ _ _ (RDev org nrg :: RDev odc ndc :: l0)); [done|fresh_name|done|done|]. intros bcp ocp ncp s4 B4 K4 C1 C2 _.
  eapply (new_buffer_spec own l s0 Q HQ2); [exact B4|fresh_name|done|done|]. intros bst ost nst s5 B5 K5 S1 S2 _.
  eapply (new_buffer_spec own l s0 Q HQ2); [exact B5|fresh_name|done|done|]. intros btk otk ntk s6 B6 K6 _ _ _.
  eapply (copy_delete_step own l s0 _ _ _ ocp ncp); [exact B6|by do 2 right; left|done|rewrite free_pages_length; lia|]. intros ok2 s7 B7 K7 Ar.
  eapply (new_buffer_spec own l s0 Q HQ2); [exact B7|fresh_name|done|done|]. intros bds ods nds s8 B8 K8 F1 F2 _.
  pose proof (ho_devs_nodup _ _ _ (bu_holds _ _ _ _ _ _ B8)) as Nd.
  change (devs_of _) with ((ods, nds) :: (otk, ntk) :: (ost, nst) :: (ocp, ncp) :: (org, nrg) :: (odc, ndc) :: devs_of (l0 ++ l)) in Nd.
  cbn in Nd. rewrite !list.NoDup_cons, !not_elem_of_cons in Nd. destruct Nd as ((_ & N1 & _ & N2 & _) & _ & (_ & N3 & _) & (_ & N4 & _) & _).
  eapply (finish_spec _ _ _ _ [(bp_ptr bdc, encode 8 ((fun c => bp_ptr (ct_d_ctrl_buff c)) <$> ctrls)); (bp_ptr bcp, free_pages junk (Z.to_nat np))]);
    [exact B8| |cbn in L |- *; lia| |].
  - intros x Hin. cbn. assert (Hms : x ∉ ms.*1) by (apply Hx; rewrite !elem_of_cons; apply elem_of_cons in Hin; tauto). rewrite !not_elem_of_cons.
    split_and!; try done; intros ->; no_elem Hin.
  - intros [Hok1 Hok2]%andb_true_iff. repeat constructor.
    + apply (array_weaken odc ndc); [subs_in|].
      assert (A : array_in [RDev odc ndc] s2 (bp_ptr bdc, encode 8 ((fun c => bp_ptr (ct_d_ctrl_buff c)) <$> ctrls))).
      { exists odc, ndc. split_and!; [by left|done| |by apply St]. cbn [fst snd]. rewrite encode_length, length_fmap. lia. }
      eapply array_keeps, A; [done|].
      etransitivity; [eapply keeps_mono, K3; subs1|]. etransitivity; [eapply keeps_mono, K4; subs1|]. etransitivity; [eapply keeps_mono, K5; subs1|].
      etransitivity; [eapply keeps_mono, K6; subs1|]. etransitivity; [apply K7; [cbn; subs_in|congruence]|]. eapply keeps_mono, K8; subs1.
    + apply (array_weaken ocp ncp); [subs_in|]. eapply array_keeps, (Ar Hok2); [done|]. eapply keeps_mono, K8; subs1.
  - intros ioaddrs base p1 p2 b pio ppe va ms' l0' lv s' o d ok' Bf Hl0 Hlv Hmap Ht Ho. eapply HQ_ok. split; cbn; try done.
    + rewrite u64_id by word_lia. done.
    + exists ost, nst, org, nrg, ods, nds. split; [split; [apply Hl0; subs_in|cbn; lia]..|cbn; split_and!; congruence].
    + intros Hok. destruct (Ht Hok) as [T TT]. split; [done|]. split; [exact (Forall_inv TT)|exact (Forall_inv (Forall_inv_tail TT))].
Qed.
End constructor.
End PcSetupSpec.
