(* ===== verification/PageCacheRanges.v ===== *)
(** Ranges of the page cache ([range_t] and [add_range]): every range gets the next number,
    and the arrays that eviction and flush read on the device hold all ranges so far. *)
From Stdlib Require Import ZArith Lia List Bool.
From stdpp Require Import base list gmap gmultiset numbers functions.
From S2P Require Import Prelude Exec NvmUtil NvmCmd NvmError NvmQueue Host Dma DmaSpec DmaInv DmaApi Rpc Admin GpuSetup GpuSetupInv GpuQueuePair GpuController PageCache PageCacheSetup PageCacheTables PageCacheMembers PageCacheSetupSpec.
Import Host Dma DmaSpec DmaInv DmaApi Rpc Admin Setup SetupInv QueuePairs PcSetup PcTables PcMembers PcSetupSpec.

Import ListNotations.
Local Open Scope Z_scope.

Module PcRanges.

(** The cache with the ranges [rs]; [l]: everything else that is held. *)
Record pc_live (own : nat -> Z) (l l0 : list resource) (o1 n1 o2 n2 o3 n3 : Z) (rs : list range_d_t) (s : gpu_state) (pc : page_cache_t) : Prop := {
  pl_owns : owns (pc_members pc) l0;
  pl_holds : holds own (l0 ++ l) s;
  pl_cap : 0 <= range_cap (pdt pc) < 2 ^ 48 /\ length (h_ranges pc) = Z.to_nat (range_cap (pdt pc)) /\
    length (h_ranges_page_starts pc) = Z.to_nat (range_cap (pdt pc)) /\ length (h_ranges_dists pc) = Z.to_nat (range_cap (pdt pc));
  pl_arrays : range_arrays (pdt pc) l0 o1 n1 o2 n2 o3 n3;
  pl_count : n_ranges (pdt pc) = Z.of_nat (length rs);
  pl_ids : forall k r, rs !! k = Some r -> range_id r = Some (Z.of_nat k);
  pl_fit : (length rs <= length (h_ranges pc))%nat;
  pl_starts : take (length rs) (h_ranges_page_starts pc) = page_start <$> rs;
  pl_ranges : take (length rs) (h_ranges pc) = (fun r => Some (pages r)) <$> rs;
  pl_dists : take (length rs) (h_ranges_dists pc) = (fun r => Some (dist r)) <$> rs;
  pl_dev : pc_copied pc = true ->
    array_in [RDev o1 n1] s (ranges_page_starts (pdt pc), encode 8 (page_start <$> rs)) /\
    array_in [RDev o2 n2] s (ranges (pdt pc), encode 8 (pages <$> rs)) /\
    array_in [RDev o3 n3] s (ranges_dists (pdt pc), encode 4 ((fun r => dist_code (dist r)) <$> rs))
}.

Lemma take_insert {A} (l : list A) k x : (k < length l)%nat -> take (S k) (<[k := x]> l) = take k l ++ [x].
Proof.
  intros Hk. rewrite (take_S_r _ _ x) by (by apply list_lookup_insert_eq). f_equal. apply take_insert_ge. lia.
Qed.

(** A new cache has no ranges. *)
Lemma made_live own l s0 junk ps mps np max_range blk ctrls ioaddrs l0 lv s pc :
  pc_made own l s0 junk ps mps np max_range blk ctrls ioaddrs l0 lv s pc -> 0 < max_range < 2 ^ 48 ->
  exists o1 n1 o2 n2 o3 n3, pc_live own (lv ++ l) l0 o1 n1 o2 n2 o3 n3 [] s pc.
Proof.
  intros P Hr. destruct (pm_arrays _ _ _ _ _ _ _ _ _ _ _ _ _ _ _ P) as (o1 & n1 & o2 & n2 & o3 & n3 & Ar). exists o1, n1, o2, n2, o3, n3.
  destruct (pm_built _ _ _ _ _ _ _ _ _ _ _ _ _ _ _ P) as [O H _]. destruct (pm_ranges _ _ _ _ _ _ _ _ _ _ _ _ _ _ _ P) as (Ec & En & _ & _ & E1 & E2 & E3).
  destruct Ar as [(A1 & A2 & A3) (B1 & B2 & B3) (C1 & C2 & C3) D]. rewrite Ec in A3, B3, C3.
  split; try done; rewrite ?Ec, ?E1, ?E2, ?E3, ?length_replicate; [split_and!; lia|split; rewrite ?Ec; auto|cbn; lia|].
  intros _. split_and!; [exists o1, n1|exists o2, n2|exists o3, n3]; (split_and!; [by left|done|cbn; lia|intros k Hk; cbn in Hk; lia]).
Qed.

(** The arguments of a range, and ranges created one after the other. *)
Record range_args := MkArgs { ra_is : Z; ra_count : Z; ra_ps : Z; ra_pc : Z; ra_pso : Z; ra_dist : Pc.data_dist_t }.

Section ranges.
Context {K : Kernel} {C : Cuda} (own : nat -> Z) (junk : nat -> Z) (sizeof_T sizeof_range_d_t : Z).

Abbreviation live l l0 o1 n1 o2 n2 o3 n3 rs := (pc_live own l l0 o1 n1 o2 n2 o3 n3 rs).

(** The state may change as long as the device arrays do not. *)
Lemma live_keeps l l' l0 o1 n1 o2 n2 o3 n3 rs s s' pc :
  live l l0 o1 n1 o2 n2 o3 n3 rs s pc -> holds own (l0 ++ l') s' -> keeps l0 s s' -> live l' l0 o1 n1 o2 n2 o3 n3 rs s' pc.
Proof.
  intros [O H Hc Ar Hn Hi Hf H1 H2 H3 Hd] H' Hk. split; try done. intros Hok. destruct (Hd Hok) as (D1 & D2 & D3).
  destruct Ar as [(A1 & _) (A2 & _) (A3 & _) _].
  split_and!; (eapply array_keeps; [reflexivity| |eassumption]); eapply keeps_mono; try exact Hk; by intros x ->%list_elem_of_singleton.
Qed.

(** Allocations of the members and of the others start at different addresses. *)
Lemma starts_apart l l0 s o n a m : holds own (l0 ++ l) s -> RDev o n ∈ l0 -> RDev a m ∈ l -> a <> o.
Proof.
  intros H Ho Ha ->. pose proof (ho_devs_nodup _ _ _ H) as N. rewrite devs_of_app, fmap_app in N. apply list.NoDup_app in N as (_ & N & _).
  apply (N o); apply list_elem_of_fmap; [exists (o, n)|exists (o, m)]; (split; [done|]); apply list_elem_of_omap; eauto.
Qed.

Lemma add_range_spec l l0 o1 n1 o2 n2 o3 n3 rs s pc r :
  live l l0 o1 n1 o2 n2 o3 n3 rs s pc -> (length rs < length (h_ranges pc))%nat ->
  wp (add_range junk pc r) (fun x s' => still own s s' /\ keeps l s s' /\
    x.2 = register_range r (Z.of_nat (length rs)) (rg_cache r) /\ length (h_ranges x.1) = length (h_ranges pc) /\
    forall cache, live l l0 o1 n1 o2 n2 o3 n3 (rs ++ [register_range r (Z.of_nat (length rs)) cache]) s' x.1) s.
Proof.
  intros L Hlt. pose proof L as [O H (Hcap & L1 & L2 & L3) Ar Hn Hi Hf H1 H2 H3 _]. destruct Ar as [(A1 & A2 & A3) (B1 & B2 & B3) (C1 & C2 & C3) (N1 & N2 & N3)].
  unfold add_range. rewrite Hn, Nat2Z.id, (u64_id (_ + 1)) by word_lia. rewrite (proj2 (Z.leb_gt _ _)) by lia. cbn zeta.
  replace (Z.to_nat (Z.of_nat (length rs) + 1)) with (S (length rs)) by lia.
  rewrite !take_insert by lia. rewrite H1, H2, H3. unfold copy_words.
  assert (B : built own l s (pc_members pc) l0 s) by (by split).
  pose proof (fun o n Ho a m => starts_apart l l0 s o n a m H Ho) as Hne.
  apply (copy_step own l s (pc_members pc) l0 s o1 n1); [done..|rewrite encode_length, length_app, length_fmap; cbn; lia|]. intros ok1 s1 B1' K1 S1.
  apply (copy_step own l s (pc_members pc) l0 s1 o2 n2); [done..|rewrite encode_length, length_fmap, length_app, length_fmap; cbn; lia|]. intros ok2 s2 B2' K2 S2.
  apply (copy_step own l s (pc_members pc) l0 s2 o3 n3); [done..|rewrite encode_length, length_fmap, length_app, length_fmap; cbn; lia|]. intros ok3 s3 B3' K3 S3.
  unfold copy_pdt. apply wp_bind, wp_bind, wp_fallible. intros e h Eh En. apply wp_ret, wp_ret. cbn [fst snd].
  destruct B3' as [_ H4' S4']. pose proof (holds_tick _ _ _ h H4' Eh ltac:(lia)) as H4. pose proof (quiet_still _ _ _ (quiet_tick own s3 h Eh ltac:(lia))) as S4.
  match type of H4 with holds _ _ ?x => set (s4 := x) in * end. assert (M4 : gs_mem s4 = gs_mem s3) by done.
  split_and!; [by etransitivity| |done|by apply length_insert|].
  - intros a m i Ha Hb. assert (Ha' : RDev a m ∈ l0 ++ l) by (apply elem_of_app; by right). assert (Hs : RDev a m ∈ [RDev a m]) by (by left).
    rewrite M4. rewrite (K3 a m Ha' (Hne _ _ C1 _ _ Ha) a m i Hs Hb), (K2 a m Ha' (Hne _ _ B1 _ _ Ha) a m i Hs Hb). by apply (K1 a m Ha' (Hne _ _ A1 _ _ Ha) a m i).
  - intros cache. split; cbn; rewrite ?length_insert, ?length_app, ?fmap_app; cbn; rewrite ?Nat.add_1_r, ?take_insert, ?H1, ?H2, ?H3 by lia; try done; try lia.
    + intros k r' [Hk|[Hk Hr]]%lookup_app_Some; [by apply Hi|]. apply list_lookup_singleton_Some in Hr as [? <-]. cbn. f_equal. lia.
    + intros [[[_ ->]%andb_prop ->]%andb_prop ->]%andb_prop.
      assert (K4 : forall l, keeps l s3 s4) by (by intros ? ? ? ? ? ?).
      assert (G1 : keeps [RDev o1 n1] s1 s4) by (etransitivity; [apply K2; [apply elem_of_app; by left|done]|]; etransitivity; [apply K3; [apply elem_of_app; by left|done]|done]).
      assert (G2 : keeps [RDev o2 n2] s2 s4) by (etransitivity; [apply K3; [apply elem_of_app; by left|done]|done]).
      split_and!; [exact (array_keeps _ _ _ _ _ (reflexivity _) G1 (S1 eq_refl))|..].
      * pose proof (array_keeps _ _ _ _ _ (reflexivity _) G2 (S2 eq_refl)) as R. by rewrite fmap_app, <- list_fmap_compose in R.
      * pose proof (array_keeps _ _ _ _ _ (reflexivity _) (K4 _) (S3 eq_refl)) as R. by rewrite fmap_app, <- list_fmap_compose in R.
Qed.

Lemma ends_release_buffer p s : ends (release_buffer p) (fun _ s' => gs_mem s' = gs_mem s) s.
Proof. unfold release_buffer, free_memory. destruct (bp_mem p); [apply ends_host_free|by intros ?? [= <- <-]]. Qed.

Lemma kept_keeps l s s' : holds own l s -> kept_mem s s' -> keeps l s s'.
Proof. intros H Hk a m i Hin. apply Hk. by apply (Controllers.holds_dev own l). Qed.

(** An allocation beside a live cache, its release, and a copy into it. *)
Lemma live_buffer l l0 o1 n1 o2 n2 o3 n3 rs s c_h size d :
  live l l0 o1 n1 o2 n2 o3 n3 rs s c_h -> 0 <= size < 2 ^ 63 -> 0 <= d ->
  wp (createBuffer size d) (fun x s' => still own s s' /\ keeps l s s' /\
    match x with
    | Ok p => exists a n, frees (bp_mem p) (RDev a n) /\ live (RDev a n :: l) l0 o1 n1 o2 n2 o3 n3 rs s' c_h /\
        a <= bp_ptr p /\ bp_ptr p + size <= a + n
    | Thrown => live l l0 o1 n1 o2 n2 o3 n3 rs s' c_h
    end) s.
Proof.
  intros L Hs Hd. pose proof (pl_holds _ _ _ _ _ _ _ _ _ _ _ _ L) as H. eapply wp_mono; [apply wp_ends; [by apply (createBuffer_spec own size d (l0 ++ l))|by apply createBuffer_kept]|].
  intros x s1 [[Q1%quiet_still H1] K1%(kept_keeps _ _ _ H)].
  assert (Kl : keeps l s s1 /\ keeps l0 s s1) by (split; eapply keeps_mono, K1; intros y; rewrite elem_of_app; auto). destruct Kl as [Kl K0].
  split_and!; [done..|]. destruct x as [p|]; [|by eapply live_keeps].
  destruct H1 as (r & F & H1 & D). destruct (D Hd) as (a & n & -> & _ & E1 & E2 & _). exists a, n. split_and!; [done| |done..].
  eapply live_keeps; [exact L| |done]. eapply holds_perm; [|exact H1]. apply Permutation_middle.
Qed.

Lemma live_release l l0 o1 n1 o2 n2 o3 n3 rs s c_h p a n :
  live (RDev a n :: l) l0 o1 n1 o2 n2 o3 n3 rs s c_h -> frees (bp_mem p) (RDev a n) ->
  wp (release_buffer p) (fun _ s' => still own s s' /\ gs_mem s' = gs_mem s /\ live l l0 o1 n1 o2 n2 o3 n3 rs s' c_h) s.
Proof.
  intros L F. pose proof (pl_holds _ _ _ _ _ _ _ _ _ _ _ _ L) as H.
  eapply wp_mono; [apply wp_ends; [apply (release_buffer_spec own p (RDev a n) (l0 ++ l)); [done|]|apply ends_release_buffer]|].
  - eapply holds_perm; [|exact H]. symmetry. apply Permutation_middle.
  - intros _ s1 [[Q1%quiet_still H1] M1]. split_and!; [done..|]. eapply live_keeps; [exact L|done|]. intros ? ? ? ? ?. by rewrite M1.
Qed.

Lemma live_copy l l0 o1 n1 o2 n2 o3 n3 rs s c_h p bs a n :
  live (RDev a n :: l) l0 o1 n1 o2 n2 o3 n3 rs s c_h -> a <= p -> p + Z.of_nat (length bs) <= a + n ->
  wp (copy_bytes p bs) (fun ok s' => still own s s' /\ keeps l s s' /\ live (RDev a n :: l) l0 o1 n1 o2 n2 o3 n3 rs s' c_h /\
    (ok = true -> array_in [RDev a n] s' (p, bs))) s.
Proof.
  intros L H1 H2. pose proof (pl_holds _ _ _ _ _ _ _ _ _ _ _ _ L) as H. assert (Ha : RDev a n ∈ RDev a n :: l) by (by left).
  eapply wp_mono; [apply (copy_bytes_spec own p bs a n (l0 ++ RDev a n :: l)); [done|apply elem_of_app; by right|done..]|].
  intros ok s1 (S1 & H3 & Ko & _ & Ar). split_and!; [done|..].
  - intros b m i Hin Hi. apply (Ko b m); [rewrite elem_of_app, elem_of_cons; auto| |done]. apply (devs_notin a (l0 ++ l) b m); [|apply elem_of_app; by right].
    pose proof (ho_devs_nodup _ _ _ (holds_perm _ _ _ _ (symmetry (Permutation_middle _ _ _)) H)) as N. by apply list.NoDup_cons in N as [N _].
  - eapply live_keeps; [exact L|done|]. intros b m i Hin Hi. apply (Ko b m); [apply elem_of_app; by left| |done]. intros ->.
    by apply (starts_apart (RDev a n :: l) l0 s a m a n H).
  - intros Hok. destruct (Ar Hok) as (o' & n' & _ & _ & _ & St). exists a, n. split_and!; [by left|done..].
Qed.

(** The same, when a temporary array is released after the copy. *)
Lemma live_copy_delete {B} l l0 o1 n1 o2 n2 o3 n3 rs s c_h p bs a n m (k : bool -> G B) Q :
  live (RDev a n :: l) l0 o1 n1 o2 n2 o3 n3 rs s c_h -> a <= p -> p + Z.of_nat (length bs) <= a + n ->
  (forall ok s', still own s s' -> keeps l s s' -> live (RDev a n :: l) l0 o1 n1 o2 n2 o3 n3 rs s' c_h ->
     (ok = true -> array_in [RDev a n] s' (p, bs)) -> wp (k ok) Q s') ->
  wp (copy_bytes p bs ≫= (fun ok => delete_arrays m;; k ok)) Q s.
Proof.
  intros L H1 H2 Hk. apply wp_bind. eapply wp_mono; [by eapply live_copy|]. intros ok s1 (S1 & K1 & L1 & A1).
  apply wp_bind, wp_st_modify, Hk; [by destruct S1; split|exact K1| |exact A1].
  eapply live_keeps; [exact L1|eapply holds_same; [exact (pl_holds _ _ _ _ _ _ _ _ _ _ _ _ L1)|done..]|by intros ?????].
Qed.

Lemma invalid_pages_length n : length (invalid_pages junk n) = (n * 32)%nat.
Proof.
  unfold invalid_pages. rewrite encode_length, (bind_length _ 8), length_seq; [lia|]. intros i. cbn [length]. by rewrite length_fmap, length_seq.
Qed.

Lemma live_tick l l0 o1 n1 o2 n2 o3 n3 rs s c_h (k : Z -> G (res (range_t * page_cache_t))) Q :
  live l l0 o1 n1 o2 n2 o3 n3 rs s c_h ->
  (forall e s', still own s s' -> gs_mem s' = gs_mem s -> live l l0 o1 n1 o2 n2 o3 n3 rs s' c_h -> wp (k e) Q s') -> wp (fallible ≫= k) Q s.
Proof.
  intros L Hk. apply wp_bind, wp_fallible. intros e h Eh En. apply Hk; [apply quiet_still, quiet_tick; [done|lia]|done|].
  eapply live_keeps; [exact L| |by intros ? ? ? ? ?]. by apply (holds_tick _ _ _ h (pl_holds _ _ _ _ _ _ _ _ _ _ _ _ L) Eh ltac:(lia)).
Qed.

(** From the registration on; [a] and [b] are the allocations of the range. *)
Lemma register_spec l l0 o1 n1 o2 n2 o3 n3 rs s c_h r (k : Z -> Z -> page_cache_t -> range_d_t -> G (res (range_t * page_cache_t))) Q :
  live l l0 o1 n1 o2 n2 o3 n3 rs s c_h -> (length rs < length (h_ranges c_h))%nat ->
  (forall e e2 c_h' s', still own s s' -> keeps l s s' -> length (h_ranges c_h') = length (h_ranges c_h) ->
     (forall cache, live l l0 o1 n1 o2 n2 o3 n3 (rs ++ [register_range r (Z.of_nat (length rs)) cache]) s' c_h') ->
     wp (k e e2 c_h' (register_range r (Z.of_nat (length rs)) (rg_cache r))) Q s') ->
  wp (e ← fallible; x ← add_range junk c_h r; let '(c_h, r) := x in e2 ← fallible; k e e2 c_h r) Q s.
Proof.
  intros L Hlt Hk. eapply live_tick; [exact L|]. intros e s1 S1 M1 L1. apply wp_bind. eapply wp_mono; [by apply add_range_spec|].
  intros [c_h' r'] s2 (S2 & K2 & Er & El & L2). cbn [fst snd] in Er, El, L2. subst r'. eapply live_tick; [exact (L2 None)|]. intros e2 s3 S3 M3 L3. apply Hk.
  - etransitivity; [exact S1|]. by etransitivity.
  - intros a n i Hin Hi. rewrite M3, (K2 a n i Hin Hi). by rewrite M1.
  - done.
  - intros cache. eapply live_keeps; [exact (L2 cache)|exact (pl_holds _ _ _ _ _ _ _ _ _ _ _ _ L3)|]. intros ? ? ? ? ?. by rewrite M3.
Qed.

(** Creating a range: it gets the next number; the device arrays of the cache hold all
    ranges; its pages are invalid.  With an exception nothing has changed. *)
Lemma new_range_spec l l0 o1 n1 o2 n2 o3 n3 rs s c_h is_ count ps pc pso cudaDevice dist :
  live l l0 o1 n1 o2 n2 o3 n3 rs s c_h -> (length rs < length (h_ranges c_h))%nat ->
  sizeof_T <> 0 -> 0 <= sizeof_range_d_t < 2 ^ 63 -> 0 <= pc < 2 ^ 48 -> 0 <= to_int cudaDevice ->
  wp (new_range junk sizeof_T sizeof_range_d_t is_ count ps pc pso c_h cudaDevice dist) (fun x s' => still own s s' /\ keeps l s s' /\
    match x with
    | Ok (rg, c_h') => exists a n b m, live (RDev b m :: RDev a n :: l) l0 o1 n1 o2 n2 o3 n3 (rs ++ [rdt rg]) s' c_h' /\ length (h_ranges c_h') = length (h_ranges c_h) /\
        rdt rg = MkRange is_ count (Some (Z.of_nat (length rs))) pso (page_size (pdt c_h)) ps pc (page_size (pdt c_h) / sizeof_T) dist
                   (bp_ptr (pages_buff rg)) (Some (pdt c_h')) /\
        frees (bp_mem (pages_buff rg)) (RDev a n) /\ frees (bp_mem (range_buff rg)) (RDev b m) /\
        (rg_copied rg = true -> array_in [RDev a n] s' (pages (rdt rg), invalid_pages junk (Z.to_nat pc)))
    | Thrown => live l l0 o1 n1 o2 n2 o3 n3 rs s' c_h
    end) s.
Proof.
  intros L Hlt HT HR Hpc Hd. unfold new_range, quotient. rewrite (proj2 (Z.eqb_neq _ _) HT). apply wp_bind, wp_ret.
  destruct (array_size pc 32) as [Es Hs]; [lia|lia|]. unfold sizeof_data_page_t. rewrite Es. apply wp_guard. eapply wp_mono; [by eapply live_buffer|].
  intros [pb|] s1 (S1 & K1 & L1); [|apply wp_bind, wp_ret, wp_ret; by split_and!]. destruct L1 as (a & n & F1 & L1 & E1 & E2).
  eapply live_copy_delete; [exact L1|done|rewrite invalid_pages_length; lia|]. intros ok s2 S2 K2 L2 Ar.
  assert (S02 : still own s s2) by (by etransitivity). assert (K02 : keeps l s s2) by (by etransitivity).
  apply wp_guard. eapply wp_mono; [by eapply live_buffer|]. intros [rb|] s3 (S3 & K3 & L3).
  2:{ apply wp_bind. eapply wp_mono; [by eapply live_release|]. intros _ s4 (S4 & M4 & L4). apply wp_ret. split_and!; [..|done].
    - etransitivity; [exact S02|]. by etransitivity.
    - etransitivity; [exact K02|]. intros b m i Hin Hi. rewrite M4. apply (K3 b m); [by right|done]. }
  destruct L3 as (b & m & F3 & L3 & _).
  apply (register_spec (RDev b m :: RDev a n :: l) l0 o1 n1 o2 n2 o3 n3 rs s3 c_h _ (fun e e2 c_h r => mret (Ok (MkRangeT _ _ _ _ _, c_h)))); [done..|].
  intros e e2 c_h' s4 S4 K4 El L4. apply wp_ret. split_and!; [etransitivity; [exact S02|]; by etransitivity|..].
  - etransitivity; [exact K02|]. intros b' m' i Hin Hi. rewrite (K4 b' m'); [|by do 2 right|done]. apply (K3 b' m'); [by right|done].
  - exists a, n, b, m. split_and!; [exact (L4 _)|done..|]. intros Hok. eapply array_keeps; [reflexivity| |exact (Ar Hok)].
    intros b' m' i Hin%list_elem_of_singleton Hi. rewrite (K4 b' m'); [|rewrite Hin; right; by left|done]. apply (K3 b' m'); [rewrite Hin; by left|done].
Qed.

Fixpoint new_ranges (c_h : page_cache_t) (cudaDevice : Z) (reqs : list range_args) : G (res (list range_t * page_cache_t)) :=
  match reqs with
  | [] => mret (Ok ([], c_h))
  | q :: reqs =>
      x ← new_range junk sizeof_T sizeof_range_d_t (ra_is q) (ra_count q) (ra_ps q) (ra_pc q) (ra_pso q) c_h cudaDevice (ra_dist q);
      match x with
      | Thrown => mret Thrown
      | Ok (rg, c_h) =>
          y ← new_ranges c_h cudaDevice reqs;
          match y with Thrown => mret Thrown | Ok (rgs, c_h) => mret (Ok (rg :: rgs, c_h)) end
      end
  end.

(** The fields a range takes from its arguments. *)
Definition range_for (q : range_args) (r : range_d_t) : Prop :=
  index_start r = ra_is q /\ rg_count r = ra_count q /\ page_start r = ra_ps q /\ page_count r = ra_pc q /\ page_start_offset r = ra_pso q /\
  dist r = ra_dist q.

Definition pages_invalid (s : gpu_state) (rg : range_t) : Prop :=
  rg_copied rg = true -> stored s (pages (rdt rg)) (invalid_pages junk (Z.to_nat (page_count (rdt rg)))).

Lemma new_ranges_spec l l0 o1 n1 o2 n2 o3 n3 rs s c_h cudaDevice reqs :
  live l l0 o1 n1 o2 n2 o3 n3 rs s c_h -> (length rs + length reqs <= length (h_ranges c_h))%nat ->
  sizeof_T <> 0 -> 0 <= sizeof_range_d_t < 2 ^ 63 -> Forall (fun q => 0 <= ra_pc q < 2 ^ 48) reqs -> 0 <= to_int cudaDevice ->
  wp (new_ranges c_h cudaDevice reqs) (fun x s' => still own s s' /\ keeps l s s' /\
    match x with
    | Ok (rgs, c_h') => exists l', live l' l0 o1 n1 o2 n2 o3 n3 (rs ++ (rdt <$> rgs)) s' c_h' /\
        Forall2 range_for reqs (rdt <$> rgs) /\ Forall (pages_invalid s') rgs
    | Thrown => True
    end) s.
Proof.
  intros L Hlen HT HR Hq Hd. revert rs l s c_h L Hlen. induction Hq as [|q reqs Hq0 Hq IH]; intros rs l s c_h L Hlen.
  { apply wp_ret. split_and!; [done..|]. exists l. rewrite fmap_nil, app_nil_r. split_and!; [done|constructor..]. }
  cbn [new_ranges length] in *. apply wp_bind. eapply wp_mono; [apply (new_range_spec l l0 o1 n1 o2 n2 o3 n3 rs); [done|lia|done..]|].
  intros [[rg c1]|] s1 (S1 & K1 & L1); [|by apply wp_ret]. destruct L1 as (a & n & b & m & L1 & Hcap & Er & _ & _ & Ar).
  apply wp_bind. eapply wp_mono; [apply (IH _ _ _ _ L1); rewrite length_app, Hcap; cbn; lia|].
  intros [[rgs c2]|] s2 (S2 & K2 & L2); apply wp_ret; (split_and!; [by etransitivity|etransitivity; [exact K1|]; eapply keeps_mono, K2; intros x Hx; by do 2 right|]); [|done].
  destruct L2 as (l' & L2 & F2 & P2). exists l'. rewrite <- app_assoc in L2. split_and!; [exact L2|..].
  - constructor; [|done]. by rewrite Er.
  - constructor; [|done]. intros Hok. destruct (Ar Hok) as (o & n' & Hin & Hl & Hu & St).  rewrite Er. cbn. intros k Hk. rewrite Er in St, Hl, Hu. cbn in St, Hl, Hu.
    rewrite (K2 o n'); [by apply St| |lia]. apply list_elem_of_singleton in Hin as ->. right. by left.
Qed.
End ranges.
End PcRanges.
