(* ===== verification/PageCacheReady.v ===== *)
(** What a new page cache gives the GPU code: PRP entries that the controller reads as the
    pages of each cache page, free cache pages, and a valid configuration; and what its
    destructor returns. *)
From Stdlib Require Import ZArith Lia List Bool.
From stdpp Require Import base list gmap gmultiset numbers functions.
From S2P Require Import Prelude Exec NvmUtil NvmCmd NvmError NvmQueue ParallelCq Host Dma DmaSpec DmaInv DmaApi Rpc Admin GpuSetup GpuSetupInv GpuQueuePair GpuController PageCache PageCacheInv PageCacheSetup PageCacheTables PageCacheMembers PageCacheSetupSpec PageCacheRanges.
Import Host Dma DmaSpec DmaInv DmaApi Rpc Admin Setup SetupInv QueuePairs PcSetup PcTables PcMembers PcSetupSpec PcRanges.

Import ListNotations.
Local Open Scope Z_scope.

Module PcReady.

(** ** How the controller reads the entries of a cache page *)

(** The tables in device memory, as the requests of [page_cache.h] read them. *)
Definition device_prps (s : gpu_state) (pc : page_cache_t) : Cq.prp_table :=
  Cq.MkPrps (fun e => load (gs_mem s) 8 (prp1 (pdt pc) + 8 * e)) (fun e => load (gs_mem s) 8 (default 0 (prp2 (pdt pc)) + 8 * e)) (prps (pdt pc)).

(** The handle of a member. *)
Definition handle_in (s : gpu_state) (pc : page_cache_t) (x : pc_member) (d : nvm_dma_t) : Prop :=
  exists p ct, (x, OwnDma p) ∈ pc_members pc /\ h_conts (hp (hst s)) !! dp_dma p = Some ct /\ ct_handle ct = d.

(** The pages of a transfer with the given PRP entries: the first, the first two, or the
    first and those of the list, which the controller reads at the bus address [prp2]. *)
Inductive reads_pages (s : gpu_state) (pc : page_cache_t) (prp1 prp2 : Z) : list Z -> Prop :=
  | reads_one : reads_pages s pc prp1 prp2 [prp1]
  | reads_two : reads_pages s pc prp1 prp2 [prp1; prp2]
  | reads_list d b j r :
      handle_in s pc prp_list_dma d -> dma_vaddr d = User b -> dma_ioaddrs d !! j = Some prp2 -> (2 <= r)%nat -> 8 * Z.of_nat r <= dma_page_size d ->
      reads_pages s pc prp1 prp2 (prp1 :: ((fun k => load (gs_mem s) 8 (b + Z.of_nat j * dma_page_size d + 8 * Z.of_nat k)) <$> seq 0 r)).

(** The bus addresses of cache page [i]. *)
Definition bus_pages (ps mps : Z) (ioaddrs : list Z) (i : nat) : list Z :=
  (fun j => dma_bus mps ioaddrs (Z.of_nat i * ps + Z.of_nat j * mps)) <$> seq 0 (Z.to_nat (Z.max 1 (ps / mps))).

(** What a cache page needs: entries that the controller reads as its memory, the same
    addresses one by one, its address on the device, and a free lock. *)
Record page_ready (s : gpu_state) (pc : page_cache_t) (d : nvm_dma_t) (i : nat) : Prop := {
  pr_prps ns lba n op junk :
    let r := Cq.submit_io_no_second (device_prps s pc) ns lba n (Z.of_nat i) op junk in
    reads_pages s pc (Cq.r_prp1 r) (Cq.r_prp2 r) (bus_pages (page_size (pdt pc)) (dma_page_size d) (dma_ioaddrs d) i);
  pr_flat j : (j < Z.to_nat (pages_per_entry (pdt pc)))%nat ->
    load (gs_mem s) 8 (page_ioaddrs (pdt pc) + 8 * (Z.of_nat i * pages_per_entry (pdt pc) + Z.of_nat j)) =
    dma_bus (dma_page_size d) (dma_ioaddrs d) (Z.of_nat i * page_size (pdt pc) + Z.of_nat j * dma_page_size d);
  pr_vaddr : load (gs_mem s) 8 (page_vaddrs (pdt pc) + 8 * Z.of_nat i) = u64 (base_addr (pdt pc) + u64 (Z.of_nat i * page_size (pdt pc)));
  pr_free : load (gs_mem s) 4 (cache_pages (pdt pc) + sizeof_cache_page_t * Z.of_nat i) = Pc.FREE
}.

Lemma stored_load s p t i x : stored s p (encode 8 t) -> t !! i = Some x -> is_word 64 x -> load (gs_mem s) 8 (p + 8 * Z.of_nat i) = x.
Proof. intros St Hi Hw. by eapply load_encode. Qed.

Section ready.
Context (ps mps np : Z) (ioaddrs : list Z) (Hw : Forall (is_word 64) ioaddrs) (Hps : 0 < ps) (Hmps : 0 < mps).

Lemma dma_bus_word off : is_word 64 (dma_bus mps ioaddrs off).
Proof. apply u64_range. Qed.

Lemma io_word i x : ioaddrs !! i = Some x -> is_word 64 x.
Proof. intros H. by eapply (Forall_lookup_1 _ _ _ _ Hw). Qed.

(** Page [k] of the mapping. *)
Lemma io_bus k x : ioaddrs !! k = Some x -> dma_bus mps ioaddrs (Z.of_nat k * mps) = x.
Proof. intros H. apply dma_bus_page; [done|done|by eapply io_word]. Qed.

Lemma bus_pages_one i : ps <= mps -> bus_pages ps mps ioaddrs i = [dma_bus mps ioaddrs (Z.of_nat i * ps)].
Proof.
  intros H. unfold bus_pages. replace (Z.max 1 (ps / mps)) with 1; [change (Z.to_nat 1) with 1%nat; cbn [seq fmap list_fmap]; do 2 f_equal; lia|].
  destruct (decide (ps = mps)) as [->|]; [rewrite Z.div_same; lia|rewrite Z.div_small; lia].
Qed.

Lemma bus_pages_many i how : ps = mps * Z.of_nat how -> (0 < how)%nat ->
  bus_pages ps mps ioaddrs i = (fun j => dma_bus mps ioaddrs (Z.of_nat (i * how + j) * mps)) <$> seq 0 how.
Proof.
  intros E Hh. unfold bus_pages. assert (ps / mps = Z.of_nat how) as -> by (rewrite E, Z.mul_comm, Z.div_mul; lia). replace (Z.to_nat (Z.max 1 (Z.of_nat how))) with how by lia.
  apply list_fmap_ext. intros _ j _. f_equal. rewrite E. lia.
Qed.
Context (s : gpu_state) (pc : page_cache_t) (l0 : list resource) (i : nat) (Hi : (i < Z.to_nat np)%nat).
Context (Hconts : forall x ct, RCont x ct ∈ l0 -> h_conts (hp (hst s)) !! x = Some ct).

Context (Hroom : ps * np <= Z.of_nat (length ioaddrs) * mps).

Lemma in_mapping how j : ps = mps * Z.of_nat how -> (j < how)%nat -> is_Some (ioaddrs !! (i * how + j)%nat).
Proof. intros E Hj. apply lookup_lt_is_Some_2. assert (Z.of_nat how * np <= Z.of_nat (length ioaddrs)) by nia. nia. Qed.

Lemma ready_prps :
  prps_good ps mps np ioaddrs l0 s (pc_members pc) (prp1 (pdt pc)) (prp2 (pdt pc)) (prps (pdt pc)) ->
  reads_pages s pc (load (gs_mem s) 8 (prp1 (pdt pc) + 8 * Z.of_nat i))
    (if prps (pdt pc) then load (gs_mem s) 8 (default 0 (prp2 (pdt pc)) + 8 * Z.of_nat i) else 0) (bus_pages ps mps ioaddrs i).
Proof.
  intros G.
  destruct G as [t1 Hle (o1 & n1 & _ & _ & _ & St1) Ht|t1 t2 p2 E (o1 & n1 & _ & _ & _ & St1) (o2 & n2 & _ & _ & _ & St2) Ht
    |how uints t1 t2 t3 p2 p ct b E Eu Hu (o1 & n1 & _ & _ & _ & St1) (o2 & n2 & _ & _ & _ & St2) (o3 & n3 & _ & _ & _ & St3) Hp Hct V Epg W Ht]; cbn [from_option id].
  - rewrite bus_pages_one by done. rewrite (stored_load s (prp1 (pdt pc)) t1 i _ St1 (Ht i Hi)) by apply dma_bus_word. constructor.
  - destruct (Ht i Hi) as [T1 T2]. destruct (in_mapping 2 0 E) as [x1 H1]; [lia|]. destruct (in_mapping 2 1 E) as [x2 H2]; [lia|]. rewrite Nat.add_0_r in H1.
    rewrite (bus_pages_many i 2 E) by lia. cbn [seq fmap list_fmap]. rewrite Nat.add_0_r, (io_bus _ _ H1), (io_bus _ _ H2).
    rewrite (stored_load s (prp1 (pdt pc)) t1 i x1 St1), (stored_load s p2 t2 i x2 St2) by (congruence || by eapply io_word). constructor.
  - destruct (Ht i Hi) as (T1 & T2 & [y Hy] & T3). destruct (in_mapping how 0 E) as [x1 H1]; [lia|]. rewrite Nat.add_0_r in H1.
    assert (Hyl : dma_ioaddrs (ct_handle ct) !! i = Some y) by congruence.
    assert (Es : seq 0 how = 0%nat :: (S <$> seq 0 (how - 1))) by (destruct how; [lia|]; cbn [seq]; by rewrite fmap_S_seq, Nat.sub_1_r).
    rewrite (bus_pages_many i how E), Es, fmap_cons, <- list_fmap_compose by lia.
    rewrite Nat.add_0_r, (io_bus _ _ H1), (stored_load s (prp1 (pdt pc)) t1 i x1 St1) by (congruence || by eapply io_word).
    rewrite (stored_load s p2 t2 i y St2 Hy) by (by eapply (Forall_lookup_1 _ _ _ _ W)).
    rewrite <- (list_fmap_ext (fun k => load (gs_mem s) 8 (b + Z.of_nat i * dma_page_size (ct_handle ct) + 8 * Z.of_nat k))).
    + apply reads_list; [exists p, ct; split_and!; auto|done|done|lia|rewrite Epg, Eu; lia].
    + intros k j [-> Hj]%lookup_seq. cbn [compose Nat.add]. destruct (in_mapping how (S k) E) as [x Hx]; [lia|]. rewrite (io_bus _ _ Hx).
      replace (b + Z.of_nat i * dma_page_size (ct_handle ct) + 8 * Z.of_nat k) with (b + 8 * Z.of_nat (i * uints + k)) by (rewrite Epg, Eu; lia).
      apply (stored_load s b t3); [exact St3| |by eapply io_word]. rewrite T3 by lia. rewrite <- Hx. f_equal. lia.
Qed.
Lemma ready_flat p ppe j :
  flat_good ps mps np ioaddrs l0 s p ppe -> (j < Z.to_nat ppe)%nat ->
  load (gs_mem s) 8 (p + 8 * (Z.of_nat i * ppe + Z.of_nat j)) = dma_bus mps ioaddrs (Z.of_nat i * ps + Z.of_nat j * mps).
Proof.
  intros (t & (o & n & _ & _ & _ & St) & _ & Ht) Hj. rewrite <- (stored_load s p t (i * Z.to_nat ppe + j) _ St (Ht i j Hi Hj)) by apply dma_bus_word.
  do 3 f_equal. lia.
Qed.

Lemma ready_vaddr lv va base :
  array_in lv s (va, encode 8 (page_addrs ps np base)) -> load (gs_mem s) 8 (va + 8 * Z.of_nat i) = u64 (base + u64 (Z.of_nat i * ps)).
Proof.
  intros (o & n & _ & _ & _ & St). apply (stored_load s va _ i _ St); [|apply u64_range]. unfold page_addrs. by rewrite list_lookup_fmap, lookup_seq_lt by done.
Qed.

Lemma ready_free junk p : array_in l0 s (p, free_pages junk (Z.to_nat np)) -> load (gs_mem s) 4 (p + sizeof_cache_page_t * Z.of_nat i) = Pc.FREE.
Proof.
  intros (o & n & _ & _ & _ & St). cbn [fst snd] in St. unfold sizeof_cache_page_t. rewrite (load_spec _ _ _ Pc.FREE); [done|]. intros k Hk.
  replace (p + 64 * Z.of_nat i + Z.of_nat k) with (p + Z.of_nat ((i * 16 + 0) * 4 + k)) by lia. unfold free_pages in *.
  set (f := fun i0 => Pc.FREE :: ((fun k0 => junk (16 * i0 + k0)%nat) <$> seq 1 15)) in *.
  assert (Hf : forall x, length (f x) = 16%nat) by (intros x; unfold f; cbn [length]; by rewrite length_fmap, length_seq).
  rewrite St by (rewrite encode_length, (bind_length f 16 Hf), length_seq; lia). apply encode_nth; [|done].
  rewrite (bind_lookup f 16 Hf _ i i 0); [done|by apply lookup_seq_lt|lia].
Qed.
End ready.
(** ** Theorems *)

(** A controller is open, sizes are powers of two, nothing overflows. *)
Record buildable (own : nat -> Z) (l : list resource) (s : gpu_state) (hd : nvm_ctrl_t) (ctrl : Controller) (ctrls : list Controller)
    (ps np max_range cudaDevice : Z) : Prop := {
  ba_holds : holds own l s;
  ba_room : roomy own (ct_ctrl ctrl) 64 l;
  ba_ctl : ctl s (ct_ctrl ctrl) hd;
  ba_mps : exists m, 3 <= m <= 16 /\ ctl_page_size hd = 2 ^ m;
  ba_ps : exists e, 0 <= e /\ ps = 2 ^ e;
  ba_np : 0 < np < 2 ^ 48 /\ ps * np < 2 ^ 61;
  ba_list : ctl_page_size hd * 2 < ps -> ctl_page_size hd * np < 2 ^ 32;
  ba_ranges : 0 < max_range < 2 ^ 48;
  ba_ctrls : Z.of_nat (length ctrls) < 2 ^ 48;
  ba_blk : ct_blk_size ctrl <> 0;
  ba_dev : 0 <= to_int cudaDevice
}.

Section theorems.
Context {K : Kernel} {C : Cuda} (junk : nat -> Z) (sizeof_page_cache_d_t : Z) (Hsz : 0 <= sizeof_page_cache_d_t < 2 ^ 63).

Lemma make_page_cache own l s hd ctrl ctrls ps np max_range cudaDevice :
  buildable own l s hd ctrl ctrls ps np max_range cudaDevice ->
  wp (new_page_cache junk sizeof_page_cache_d_t ps np cudaDevice ctrl max_range ctrls) (fun r s' =>
    match r with
    | Ok pc => exists ioaddrs l0 lv, pc_made own l s junk ps (ctl_page_size hd) np max_range (ct_blk_size ctrl) ctrls ioaddrs l0 lv s' pc
    | Thrown => still own s s' /\ exists l', (length l' <= 3)%nat /\ holds own (l' ++ l) s'
    end) s.
Proof.
  intros [H Ro Hc (m & Hm & Em) (e & He & Ee) [Hn1 Hn2] Hl Hr Hcs Hb Hd].
  set (Q := fun (r : res page_cache_t) s' => match r with Ok pc => _ | Thrown => _ end).
  assert (HQ : forall s', still own s s' -> (exists l', (length l' <= 3)%nat /\ holds own (l' ++ l) s') -> Q Thrown s') by done.
  assert (HQ_ok : forall ioaddrs l0 lv s' pc, pc_made own l s junk ps (ctl_page_size hd) np max_range (ct_blk_size ctrl) ctrls ioaddrs l0 lv s' pc -> Q (Ok pc) s')
    by (intros ioaddrs l0 lv s' pc P; by exists ioaddrs, l0, lv).
  exact (new_page_cache_spec own l s Q HQ (ct_ctrl ctrl) hd (ctl_page_size hd) ps np Hc eq_refl Ro cudaDevice Hd e m Ee Em Hm He Hn1 Hn2 Hl
    ctrl eq_refl junk _ Hsz max_range Hr ctrls Hcs Hb HQ_ok H).
Qed.

(** C33: A new page cache whose copies have all succeeded is ready: for each cache page, the
    entries the GPU code puts into a command are read by the controller as exactly the bus
    addresses of that page's memory, whether it is part of a controller page, two or many;
    the flat table and the address table agree with them; the page's lock is free.  For
    [buildable] arguments (an open controller, page sizes that are powers of two, fewer than
    2^48 cache pages and ranges, a mapping below 2^61 bytes and, where PRP lists are needed,
    lists below 2^32 bytes, which the code does not check) the constructor meets no undefined
    behaviour but the [delete] of arrays made with [new[]], which is recorded; when it throws,
    the device memory and handles it took are returned except for what [createDma] leaks and
    the table of addresses. *)
Theorem page_cache_ready own l s hd ctrl ctrls ps np max_range cudaDevice :
  buildable own l s hd ctrl ctrls ps np max_range cudaDevice ->
  wp (new_page_cache junk sizeof_page_cache_d_t ps np cudaDevice ctrl max_range ctrls) (fun r s' =>
    match r with
    | Ok pc => pc_copied pc = true -> page_size (pdt pc) = ps /\
        exists d, handle_in s' pc pages_dma d /\ maps_dma (ctl_page_size hd) (base_addr (pdt pc)) (ps * np) d /\
          forall i, (i < Z.to_nat np)%nat -> page_ready s' pc d i
    | Thrown => still own s s' /\ exists l', (length l' <= 3)%nat /\ holds own (l' ++ l) s'
    end) s.
Proof.
  intros B. eapply wp_mono; [by apply make_page_cache|]. intros [pc|] s'; [|done]. intros (ioaddrs & l0 & lv & P) Hok.
  destruct (pm_sizes _ _ _ _ _ _ _ _ _ _ _ _ _ _ _ P) as (Eps & _). split; [done|].
  destruct (pm_map _ _ _ _ _ _ _ _ _ _ _ _ _ _ _ P) as (pd & ct & Hpd & Hct & Hd & Eio). destruct (pm_built _ _ _ _ _ _ _ _ _ _ _ _ _ _ _ P) as [O Hh _].
  destruct (pm_tables _ _ _ _ _ _ _ _ _ _ _ _ _ _ _ P Hok) as ([Tp Tf Tv] & _ & Tfree). destruct (ba_mps _ _ _ _ _ _ _ _ _ _ B) as (m & Hm & Em).
  destruct (ba_ps _ _ _ _ _ _ _ _ _ _ B) as (e & He & Ee). destruct Hd as [V Pg L W]. rewrite Eio in L, W.
  assert (Hconts : forall x ct, RCont x ct ∈ l0 -> h_conts (hp (hst s')) !! x = Some ct).
  { intros x ct' Hin. eapply holds_elem; [exact Hh|]. apply elem_of_app. by left. }
  assert (0 < ps) by (rewrite Ee; lia). assert (0 < ctl_page_size hd) by (rewrite Em; lia).
  exists (ct_handle ct). split; [exists pd, ct; auto|]. split; [split; by rewrite ?Eio|]. intros i Hi. split; rewrite ?Eps, ?Pg, ?Eio.
  - intros ns lba n op junk'. cbn. by apply (ready_prps ps (ctl_page_size hd) np ioaddrs W) with l0.
  - intros j Hj. by apply (ready_flat ps (ctl_page_size hd) np ioaddrs s' l0 i Hi).
  - by apply (ready_vaddr ps np s' i Hi lv).
  - by eapply ready_free.
Qed.
(** C34: Destroying a page cache returns every DMA handle and buffer of its members; the table
    of page addresses, which is no member, stays allocated. *)
Theorem page_cache_lifetime own l s hd ctrl ctrls ps np max_range cudaDevice pc s1 :
  buildable own l s hd ctrl ctrls ps np max_range cudaDevice ->
  new_page_cache junk sizeof_page_cache_d_t ps np cudaDevice ctrl max_range ctrls s = Some (Ok pc, s1) ->
  wp (delete_page_cache pc) (fun _ s2 => still own s s2 /\
    (holds own l s2 \/ holds own (RDev (page_vaddrs (pdt pc)) (np * 8) :: l) s2) /\
    (pc_copied pc = true -> holds own (RDev (page_vaddrs (pdt pc)) (np * 8) :: l) s2)) s1.
Proof.
  intros B E. pose proof (make_page_cache own l s hd ctrl ctrls ps np max_range cudaDevice B) as W.
  apply (wp_exec _ _ _ _ _ E) in W. destruct W as (ioaddrs & l0 & lv & P). destruct (pm_built _ _ _ _ _ _ _ _ _ _ _ _ _ _ _ P) as [O Hh S].
  apply wp_bind, wp_st_modify. set (s1' := set_mismatched _ _). assert (S1 : still own s s1') by (by destruct S; split).
  eapply wp_mono; [eapply release_all_spec; [exact O|by eapply holds_same]|]. intros _ s2 [Q2 H2]. split; [etransitivity; [exact S1|by apply quiet_still]|].
  destruct (pm_lv _ _ _ _ _ _ _ _ _ _ _ _ _ _ _ P) as [-> | ->]; (split; [auto|]); [|done]. intros Hok.
  destruct (pm_tables _ _ _ _ _ _ _ _ _ _ _ _ _ _ _ P Hok) as ([_ _ (o & n & Hin & _)] & _). by apply not_elem_of_nil in Hin.
Qed.

(** The configuration the kernels run with, given the ranges, the block size of the queue
    pairs of controller 0 and the size of the victim buffer, if one is set. *)
Definition config_of (pc : page_cache_t) (starts : Z -> Z) (dists : Z -> Pc.data_dist_t) (blk_log mask : Z) : Pc.page_cache_d_t :=
  let d := pdt pc in
  Pc.MkPc (n_pages d) (n_ranges_bits d) (n_ranges_mask d) starts dists (n_ctrls d) (n_blocks_per_page d) (read_ctrl_override d)
    (evict_ctrl_override d) (fake_evict_delay_cycles d) (negb (staging_buffer d =? 0)) (page_size d) blk_log
    (negb (read_queue d =? 0)) (negb (evict_queue d =? 0)) (if victim d =? 0 then None else Some mask).

(** A new page cache on at least one controller, with [max_range] a power of two and
    ranges that fit and do not overlap, has a configuration for which the theorems of
    the kernels hold. *)
Theorem new_cache_config own l s hd ctrl ctrls ps np max_range cudaDevice pc s1 starts dists blk_log mask page_count :
  buildable own l s hd ctrl ctrls ps np max_range cudaDevice ->
  new_page_cache junk sizeof_page_cache_d_t ps np cudaDevice ctrl max_range ctrls s = Some (Ok pc, s1) ->
  let cfg := config_of pc starts dists blk_log mask in
  max_range = 2 ^ Z.log2 max_range -> ctrls <> [] -> 0 < ct_blk_size ctrl <= ps ->
  (forall k, PcInv.key_ok cfg page_count k -> (snd k + 1) * 2 ^ n_ranges_bits (pdt pc) <= 2 ^ 64 /\
     0 <= starts (fst k) /\ (starts (fst k) + snd k) * n_blocks_per_page (pdt pc) < 2 ^ 64) ->
  (forall k k', PcInv.key_ok cfg page_count k -> PcInv.key_ok cfg page_count k' ->
     Pc.backing_index cfg k = Pc.backing_index cfg k' -> fst k = fst k') ->
  PcInv.cfg_ok cfg page_count.
Proof.
  intros B E cfg Epow Hne Hblk Hk Hd. pose proof (make_page_cache own l s hd ctrl ctrls ps np max_range cudaDevice B) as W.
  apply (wp_exec _ _ _ _ _ E) in W. destruct W as (ioaddrs & l0 & lv & P).
  destruct (pm_ranges _ _ _ _ _ _ _ _ _ _ _ _ _ _ _ P) as (_ & _ & Emask & Ebits & _).
  destruct (pm_sizes _ _ _ _ _ _ _ _ _ _ _ _ _ _ _ P) as (_ & Enp & _ & _ & Eblk & Enc).
  destruct (pm_config _ _ _ _ _ _ _ _ _ _ _ _ _ _ _ P) as (E1 & E2 & E3 & E4 & E5 & E6 & E7).
  destruct (ba_ranges _ _ _ _ _ _ _ _ _ _ B) as [Hr1 _]. pose proof (ba_np _ _ _ _ _ _ _ _ _ _ B).
  pose proof (ba_ctrls _ _ _ _ _ _ _ _ _ _ B). pose proof (Z.log2_nonneg max_range).
  assert (0 < length ctrls)%nat by (destruct ctrls; [done|cbn; lia]).
  unfold cfg, config_of. split; cbn; rewrite ?E1, ?E2, ?E3, ?E4, ?E5, ?E6, ?E7; try done.
  - lia.
  - rewrite Enc. unfold Pc.ALL_CTRLS. lia.
  - exists (Z.log2 max_range). rewrite Emask, Ebits. split; [|congruence].
    destruct (Z.eqb_spec max_range 1) as [->|]; cbn; lia.
  - intros k H'. by apply Hk.
  - rewrite Eblk. apply Z.div_str_pos. lia.
  - intros k H'. by apply Hk.
Qed.

(** C36: Range numbers: with [max_range] a power of two every page has an address of its own,
    from which range and page are recovered; otherwise two pages of different ranges share
    their address, and one is taken for the other. *)
Theorem range_numbers own l s hd ctrl ctrls ps np max_range cudaDevice pc s1 starts dists blk_log mask :
  buildable own l s hd ctrl ctrls ps np max_range cudaDevice ->
  new_page_cache junk sizeof_page_cache_d_t ps np cudaDevice ctrl max_range ctrls s = Some (Ok pc, s1) ->
  let cfg := config_of pc starts dists blk_log mask in
  (max_range = 2 ^ Z.log2 max_range -> forall r p, 0 <= r < max_range -> 0 <= p -> (p + 1) * 2 ^ n_ranges_bits (pdt pc) <= 2 ^ 64 ->
     Pc.previous_key cfg (Pc.get_global_address cfg (r, p)) = (r, p)) /\
  (max_range <> 2 ^ Z.log2 max_range -> exists r, 0 < r < max_range /\
     Pc.get_global_address cfg (r, 0) = Pc.get_global_address cfg (0, 1)).
Proof.
  intros B E. pose proof (make_page_cache own l s hd ctrl ctrls ps np max_range cudaDevice B) as W.
  apply (wp_exec _ _ _ _ _ E) in W. destruct W as (ioaddrs & l0 & lv & P). destruct (ba_ranges _ _ _ _ _ _ _ _ _ _ B) as [Hr1 Hr2].
  destruct (pm_ranges _ _ _ _ _ _ _ _ _ _ _ _ _ _ _ P) as (_ & _ & Emask & Ebits & _). cbn zeta.
  set (bits := n_ranges_bits (pdt pc)) in *. pose proof (Z.log2_spec max_range Hr1) as [L1 L2]. pose proof (Z.log2_nonneg max_range) as L0. split.
  - intros Epow r p Hr Hp Hfit. apply (PcInv.address_decode (config_of pc starts dists blk_log mask) (Z.log2 max_range)); cbn; fold bits; try done; try lia.
    rewrite Ebits. destruct (Z.eqb_spec max_range 1) as [->|]; cbn; lia.
  - intros Hne. exists (2 ^ Z.log2 max_range). destruct (Z.eqb_spec max_range 1) as [->|]; [done|]. split; [lia|]. unfold Pc.get_global_address. cbn. fold bits.
    rewrite Ebits, Z.shiftl_0_l, Z.lor_0_r, Z.shiftl_1_l. change (u64 0) with 0. rewrite Z.lor_0_l, u64_id; [done|]. unfold is_word. lia.
Qed.

(** C35: Ranges created on a new cache, at most [max_range] of fewer than 2^48 pages each: no
    undefined behaviour but the recorded [delete] of an array made with [new[]]; unless one
    throws, range [k] has the number [k] and the fields of its arguments, and its pages are
    invalid where their copy to the device has succeeded; when all copies of the cache's
    arrays have succeeded, the arrays on the device that eviction and flush read hold the
    first pages, the page arrays and the distributions of all ranges. *)
Theorem ranges_registered sizeof_T sizeof_range_d_t own l s hd ctrl ctrls ps np max_range cudaDevice pc s1 reqs :
  buildable own l s hd ctrl ctrls ps np max_range cudaDevice ->
  new_page_cache junk sizeof_page_cache_d_t ps np cudaDevice ctrl max_range ctrls s = Some (Ok pc, s1) ->
  Z.of_nat (length reqs) <= max_range -> sizeof_T <> 0 -> 0 <= sizeof_range_d_t < 2 ^ 63 -> Forall (fun q => 0 <= ra_pc q < 2 ^ 48) reqs ->
  wp (new_ranges junk sizeof_T sizeof_range_d_t pc cudaDevice reqs) (fun x s' => still own s s' /\
    match x with
    | Ok (rgs, pc') => let d := pdt pc' in
        n_ranges d = Z.of_nat (length reqs) /\ Forall2 range_for reqs (rdt <$> rgs) /\
        (forall k rg, rgs !! k = Some rg -> range_id (rdt rg) = Some (Z.of_nat k) /\ pages_invalid junk s' rg) /\
        (pc_copied pc' = true -> stored s' (ranges_page_starts d) (encode 8 (ra_ps <$> reqs)) /\
           stored s' (ranges d) (encode 8 ((fun rg => pages (rdt rg)) <$> rgs)) /\
           stored s' (ranges_dists d) (encode 4 ((fun q => dist_code (ra_dist q)) <$> reqs)))
    | Thrown => True
    end) s1.
Proof.
  intros B E Hlen HT HR Hq. pose proof (make_page_cache own l s hd ctrl ctrls ps np max_range cudaDevice B) as W.
  apply (wp_exec _ _ _ _ _ E) in W. destruct W as (ioaddrs & l0 & lv & P). pose proof (bu_still _ _ _ _ _ _ (pm_built _ _ _ _ _ _ _ _ _ _ _ _ _ _ _ P)) as S1.
  destruct (pm_ranges _ _ _ _ _ _ _ _ _ _ _ _ _ _ _ P) as (_ & _ & _ & _ & Ehr & _).
  destruct (made_live _ _ _ _ _ _ _ _ _ _ _ _ _ _ _ P (ba_ranges _ _ _ _ _ _ _ _ _ _ B)) as (o1 & n1 & o2 & n2 & o3 & n3 & L).
  eapply wp_mono; [apply (new_ranges_spec own junk sizeof_T sizeof_range_d_t _ _ _ _ _ _ _ _ [] s1 pc cudaDevice reqs L); try done|].
  - rewrite Ehr, length_replicate. cbn. lia.
  - by destruct B.
  - intros [[rgs pc']|] s2 (S2 & _ & R); (split; [by etransitivity|]); [|done]. destruct R as (l' & L2 & F & Pi). cbn [app] in L2. cbn zeta.
    pose proof (list.Forall2_length _ _ _ F) as El. split_and!; [by rewrite (pl_count _ _ _ _ _ _ _ _ _ _ _ _ L2), El|done|..].
    + intros k rg Hk. split; [|exact (proj1 (list.Forall_lookup _ _) Pi k rg Hk)]. apply (pl_ids _ _ _ _ _ _ _ _ _ _ _ _ L2). by rewrite list_lookup_fmap, Hk.
    + intros Hok. destruct (pl_dev _ _ _ _ _ _ _ _ _ _ _ _ L2 Hok) as ((? & ? & _ & _ & _ & D1) & (? & ? & _ & _ & _ & D2) & (? & ? & _ & _ & _ & D3)).
      cbn [fst snd] in *. rewrite <- list_fmap_compose in D2. split_and!.
      * replace (ra_ps <$> reqs) with (page_start <$> (rdt <$> rgs)); [done|]. clear -F. induction F as [|q r reqs' rs' (_ & _ & Hp & _)]; [done|]. cbn. by rewrite Hp, IHF.
      * exact D2.
      * replace ((fun q => dist_code (ra_dist q)) <$> reqs) with ((fun r => dist_code (dist r)) <$> (rdt <$> rgs)); [done|].
        clear -F. induction F as [|q r reqs' rs' (_ & _ & _ & _ & _ & Hp)]; [done|]. cbn. by rewrite Hp, IHF.
Qed.
End theorems.
(** The size of the lists of PRP entries is computed in 32 bits: with more than [2^20] cache
    pages of more than two controller pages of 4 KiB, fewer list pages are mapped than there
    are cache pages, and the constructor reads past their addresses. *)
Theorem prp_list_size_wraps ps np ioaddrs list_ioaddrs :
  2 ^ 20 < np < 2 ^ 21 -> let size := u32 (4096 * np) in
  Z.of_nat (length list_ioaddrs) * 4096 = NVM_PAGE_ALIGN size (Z.shiftl 1 16) ->
  size = 4096 * (np - 2 ^ 20) /\ prp_lists ps 4096 ioaddrs (Z.to_nat np) list_ioaddrs size = None.
Proof.
  intros Hnp. cbn zeta. intros Hl. assert (Es : u32 (4096 * np) = 4096 * (np - 2 ^ 20)).
  { unfold u32, wrap. symmetry. apply (Z.mod_unique_pos _ _ 1); lia. }
  rewrite Es in Hl |- *. pose proof (align_bounds (4096 * (np - 2 ^ 20)) ltac:(lia)) as Ha. split; [done|]. unfold prp_lists.
  destruct (mapM (fun i => ioaddrs !! _) _) as [t1|]; [|done]. cbn [mbind option_bind].
  destruct (mapM (fun i => list_ioaddrs !! i) (seq 0 (Z.to_nat np))) as [t2|] eqn:E; [|done]. exfalso.
  apply mapM_Some in E. assert (Hlen : (Z.to_nat (np - 1) < Z.to_nat np)%nat) by lia.
  destruct (Forall2_lookup_l _ _ _ _ _ E (lookup_seq_lt 0 _ _ Hlen)) as (x & _ & Hx%lookup_lt_Some). lia.
Qed.

(** ** Witnesses *)

Lemma prp_list_size_wraps_witness :
  u32 (4096 * (2 ^ 20 + 1)) = 4096 /\ prp_lists 16384 4096 [] (Z.to_nat (2 ^ 20 + 1)) (repeat 0 16) 4096 = None.
Proof. split; [reflexivity|]. apply (prp_list_size_wraps 16384 (2 ^ 20 + 1) [] (repeat 0 16)); [lia|reflexivity]. Defined.

(** A controller with pages of 4 KiB and blocks of 512 bytes. *)
Definition example_ctrl : Controller :=
  MkCtl 2 0 (MkDmaPtr 0 (HostMem 0)) (MkCtrlInfo 0x10400 4096 0 1000 true 1024 [] [] [] [] 0 0 64 16 0 1) (MkNsInfo 1 0 0 0 512 0)
    8 8 2 0 [] None [] 4096 512 9 (MkBufferPtr 70000 (DevMem 70000)).

Abbreviation example_cache ps np max_range :=
  (new_page_cache (K := example_kernel) (C := Controllers.example_cuda) (fun _ => 0) 400 ps np 0 example_ctrl max_range [example_ctrl] Controllers.example_open).

Lemma example_buildable ps np max_range :
  (exists e, 0 <= e /\ ps = 2 ^ e) -> 0 < np < 2 ^ 20 -> ps * np < 2 ^ 61 -> 0 < max_range < 2 ^ 48 ->
  buildable (fst (example_state 1)) [RDev 65536 100] Controllers.example_open (init_handle example_cap 4096 8192 NVM_CTRL_MEM_MINSIZE) example_ctrl [example_ctrl]
    ps np max_range 0.
Proof.
  intros Hps Hnp Hs Hr. split.
  - exact Controllers.example_open_holds.
  - split; vm_compute; done.
  - eexists. split; vm_compute; reflexivity.
  - exists 12. split; [lia|vm_compute; reflexivity].
  - exact Hps.
  - split; [lia|exact Hs].
  - intros _. change (ctl_page_size _) with 4096. lia.
  - exact Hr.
  - cbn. lia.
  - discriminate.
  - vm_compute. discriminate.
Qed.

(** Three pages of 16 KiB, each with a list of PRP entries. *)
Lemma example_cache_ok : match example_cache 16384 3 4 with Some (Ok pc, _) => pc_copied pc = true | _ => False end.
Proof. vm_compute. reflexivity. Qed.
Lemma example_pages : buildable (fst (example_state 1)) [RDev 65536 100] Controllers.example_open (init_handle example_cap 4096 8192 NVM_CTRL_MEM_MINSIZE)
  example_ctrl [example_ctrl] 16384 3 4 0.
Proof. apply example_buildable; [exists 14; split; [lia|reflexivity]|lia|lia|lia]. Qed.

Lemma page_cache_ready_witness :
  exists pc s', example_cache 16384 3 4 = Some (Ok pc, s') /\ exists d, handle_in s' pc pages_dma d /\ page_ready s' pc d 0 /\ page_ready s' pc d 1 /\ page_ready s' pc d 2.
Proof.
  pose proof (page_cache_ready (K := example_kernel) (C := Controllers.example_cuda) (fun _ => 0) 400 ltac:(lia) _ _ _ _ _ _ _ _ _ _ example_pages) as W.
  pose proof example_cache_ok as O. destruct (example_cache 16384 3 4) as [[[pc|] s']|] eqn:E; [|destruct O|destruct O]. exists pc, s'. split; [reflexivity|].
  apply (wp_exec _ _ _ _ _ E) in W. destruct (W O) as (_ & d & Hd & _ & H). exists d. split; [exact Hd|]. split; [|split]; apply H; vm_compute; lia.
Defined.

Lemma page_cache_lifetime_witness :
  exists pc s1, example_cache 16384 3 4 = Some (Ok pc, s1) /\
    wp (delete_page_cache pc) (fun _ s2 => holds (fst (example_state 1)) [RDev (page_vaddrs (pdt pc)) 24; RDev 65536 100] s2) s1.
Proof.
  pose proof example_cache_ok as O. destruct (example_cache 16384 3 4) as [[[pc|] s1]|] eqn:E; [|destruct O|destruct O]. exists pc, s1. split; [reflexivity|].
  eapply wp_mono; [exact (page_cache_lifetime (K := example_kernel) (C := Controllers.example_cuda) (fun _ => 0) 400 ltac:(lia) _ _ _ _ _ _ _ _ _ _ pc s1 example_pages E)|].
  intros u s2 (_ & _ & H). exact (H O).
Defined.

(** With three ranges, page 0 of range 2 and page 1 of range 0 share their address. *)
Lemma example_three_ok : match example_cache 4096 2 3 with Some (Ok pc, _) => pc_copied pc = true | _ => False end.
Proof. vm_compute. reflexivity. Qed.

Lemma range_numbers_witness :
  exists pc s1, example_cache 4096 2 3 = Some (Ok pc, s1) /\ exists r, 0 < r < 3 /\
    Pc.get_global_address (config_of pc (fun _ => 0) (fun _ => Pc.STRIPE) 9 0) (r, 0) = Pc.get_global_address (config_of pc (fun _ => 0) (fun _ => Pc.STRIPE) 9 0) (0, 1).
Proof.
  pose proof example_three_ok as O. destruct (example_cache 4096 2 3) as [[[pc|] s1]|] eqn:E; [|destruct O|destruct O]. exists pc, s1. split; [reflexivity|].
  apply (range_numbers (K := example_kernel) (C := Controllers.example_cuda) (fun _ => 0) 400 ltac:(lia) (fst (example_state 1)) [RDev 65536 100] Controllers.example_open
    (init_handle example_cap 4096 8192 NVM_CTRL_MEM_MINSIZE) example_ctrl [example_ctrl] 4096 2 3 0 pc s1); [|exact E|discriminate].
  apply example_buildable; [exists 12; split; [lia|reflexivity]|lia|lia|lia].
Defined.

(** Two ranges on a cache that can have four. *)
Abbreviation example_reqs := [MkArgs 0 4096 0 8 0 Pc.STRIPE; MkArgs 0 1024 100 2 0 Pc.REPLICATE].

Lemma example_ranges_ok :
  match example_cache 16384 3 4 with
  | Some (Ok pc, s1) =>
      match new_ranges (C := Controllers.example_cuda) (fun _ => 0) 4 200 pc 0 example_reqs s1 with
      | Some (Ok (_, pc'), _) => pc_copied pc' = true
      | _ => False
      end
  | _ => False
  end.
Proof. vm_compute. reflexivity. Qed.

Lemma ranges_registered_witness :
  exists pc s1 rgs pc' s2, example_cache 16384 3 4 = Some (Ok pc, s1) /\
    new_ranges (C := Controllers.example_cuda) (fun _ => 0) 4 200 pc 0 example_reqs s1 = Some (Ok (rgs, pc'), s2) /\
    n_ranges (pdt pc') = 2 /\ stored s2 (ranges_page_starts (pdt pc')) (encode 8 [0; 100]) /\ stored s2 (ranges_dists (pdt pc')) (encode 4 [1; 0]).
Proof.
  pose proof example_ranges_ok as O. destruct (example_cache 16384 3 4) as [[[pc|] s1]|] eqn:E; [|destruct O|destruct O].
  destruct (new_ranges _ _ _ _ _ _ _) as [[[[rgs pc']|] s2]|] eqn:E2; [|destruct O|destruct O]. exists pc, s1, rgs, pc', s2. split; [reflexivity|]. split; [exact E2|].
  pose proof (ranges_registered (K := example_kernel) (C := Controllers.example_cuda) (fun _ => 0) 400 ltac:(lia) 4 200 _ _ _ _ _ _ _ _ _ _ pc s1 example_reqs example_pages E) as W.
  cbn [length] in W. specialize (W ltac:(lia) ltac:(lia) ltac:(lia) ltac:(repeat constructor; cbn; lia)).
  apply (wp_exec _ _ _ _ _ E2) in W. destruct W as (_ & N & _ & _ & D). destruct (D O) as (D1 & _ & D3). split; [exact N|]. split; [exact D1|exact D3].
Defined.
End PcReady.
