(* ===== verification/KList.v ===== *)
(** The kernel module's doubly linked lists: [src/module/list.h] and [src/module/list.c].

    Nodes are embedded in heap objects and linked through a store of nodes, so that
    unlinking, aliasing and dangling pointers are visible.  The operations refine
    operations on sequences. *)
From Stdlib Require Import ZArith Lia List.
From stdpp Require Import base list gmap fin_maps functions.
From S2P Require Import Prelude Exec.

Import ListNotations.

Module KList.

(** ** Data *)

(** The lists of [pci.c]. *)
Inductive klist := ctrl_list | host_list | device_list.

#[export] Instance klist_eq_dec : EqDecision klist.
Proof. solve_decision. Defined.

(** Pointers to nodes: the head of a list, or the member [list] of a heap object. *)
Inductive node_ptr := Head (l : klist) | Elem (i : nat).

#[export] Instance node_ptr_eq_dec : EqDecision node_ptr.
Proof. solve_decision. Defined.

#[export] Instance node_ptr_countable : Countable node_ptr.
Proof.
  apply (inj_countable'
    (fun p => match p with Head ctrl_list => inl 0%nat | Head host_list => inl 1%nat | Head device_list => inl 2%nat | Elem i => inr i end)
    (fun x => match x with inl 0%nat => Head ctrl_list | inl 1%nat => Head host_list | inl _ => Head device_list | inr i => Elem i end)).
  by intros [[]|].
Defined.

(** [struct list_node]. *)
Record list_node := MkNode { n_list : option klist; n_next : option node_ptr; n_prev : option node_ptr }.

Abbreviation store := (gmap node_ptr list_node).

Definition null_node : list_node := MkNode None None None.
Definition set_next (n : list_node) (p : option node_ptr) : list_node := MkNode (n_list n) p (n_prev n).
Definition set_prev (n : list_node) (p : option node_ptr) : list_node := MkNode (n_list n) (n_next n) p.

(** ** Operations *)

Definition list_node_init (element : node_ptr) : ST store unit :=
  st_modify (fun s => <[element := null_node]> s).

Definition list_init (l : klist) : ST store unit :=
  st_modify (fun s => <[Head l := MkNode (Some l) (Some (Head l)) (Some (Head l))]> s).

(** [p->next = v] and [p->prev = v]. *)
Definition store_next (p : node_ptr) (v : option node_ptr) : ST store unit :=
  s ← st_get; n ← deref (s !! p); st_modify (fun s => <[p := set_next n v]> s).
Definition store_prev (p : node_ptr) (v : option node_ptr) : ST store unit :=
  s ← st_get; n ← deref (s !! p); st_modify (fun s => <[p := set_prev n v]> s).

Definition list_remove (element : option node_ptr) : ST store unit :=
  match element with
  | None => mret tt
  | Some e =>
      s ← st_get; n ← deref (s !! e);
      match n_list n with
      | None => mret tt
      | Some l =>
          if bool_decide (e = Head l) then mret tt
          else
            prev ← deref (n_prev n);
            store_next prev (n_next n);;
            s ← st_get; n ← deref (s !! e);
            next ← deref (n_next n);
            store_prev next (n_prev n);;
            st_modify (fun s => <[e := null_node]> s)
      end
  end.

Definition list_insert (l : klist) (element : node_ptr) : ST store unit :=
  s ← st_get; head ← deref (s !! Head l);
  last ← deref (n_prev head);
  store_next last (Some element);;
  s ← st_get; _ ← deref (s !! element);
  st_modify (fun s => <[element := MkNode (Some l) (Some (Head l)) (Some last)]> s);;
  store_prev (Head l) (Some element).

Definition list_next (current : node_ptr) : ST store (option node_ptr) :=
  s ← st_get; n ← deref (s !! current);
  l ← deref (n_list n);
  mret (if bool_decide (n_next n <> Some (Head l)) then n_next n else None).

(** The search loops of [ctrl.c] and [map.c]: the first object that passes the test, which
    reads the object and may find it gone ([None]).  The number of nodes bounds the rounds. *)
Fixpoint find_loop (fuel : nat) (element : option node_ptr) (test : nat -> option bool) : ST store (option nat) :=
  match element, fuel with
  | None, _ => mret None
  | Some _, O => crash
  | Some (Head _), _ => crash
  | Some (Elem i), S fuel =>
      b ← deref (test i);
      if b : bool then mret (Some i)
      else next ← list_next (Elem i); find_loop fuel next test
  end.

Definition list_find (l : klist) (test : nat -> option bool) : ST store (option nat) :=
  s ← st_get; element ← list_next (Head l); find_loop (size s) element test.

(** ** Chains *)

(** [b] comes after [a] in the sequence. *)
Fixpoint adj (xs : list node_ptr) (a b : node_ptr) : Prop :=
  match xs with
  | x :: ((y :: _) as t) => (x = a /\ y = b) \/ adj t a b
  | _ => False
  end.

(** The circle of a list. *)
Definition circle (l : klist) (xs : list nat) : list node_ptr := Head l :: (Elem <$> xs) ++ [Head l].

(** The fields behind a pointer. *)
Definition list_of (s : store) (a : node_ptr) : option klist := (s !! a) ≫= n_list.
Definition next_of (s : store) (a : node_ptr) : option node_ptr := (s !! a) ≫= n_next.
Definition prev_of (s : store) (a : node_ptr) : option node_ptr := (s !! a) ≫= n_prev.

(** [l] holds the objects [xs]. *)
Record linked (s : store) (l : klist) (xs : list nat) : Prop := {
  lk_nodup : NoDup xs;
  lk_list a : a ∈ Head l :: (Elem <$> xs) -> list_of s a = Some l;
  lk_next a b : adj (circle l xs) a b -> next_of s a = Some b;
  lk_prev a b : adj (circle l xs) a b -> prev_of s b = Some a
}.

Lemma adj_cons x y xs a b : adj (x :: y :: xs) a b <-> (x = a /\ y = b) \/ adj (y :: xs) a b.
Proof. done. Qed.

Lemma adj_app xs c ys a b : adj (xs ++ c :: ys) a b <-> adj (xs ++ [c]) a b \/ adj (c :: ys) a b.
Proof. induction xs as [|x [|y xs] IH]; cbn in *; [tauto| |]; destruct ys; cbn in *; tauto. Qed.

Lemma adj_init xs z a b : adj (xs ++ [z]) a b -> a ∈ xs.
Proof.
  induction xs as [|x [|y xs] IH]; cbn; [done| |].
  - intros [[-> _]|[]]. by left.
  - intros [[-> _]|H]; [by left|]. right. by apply IH.
Qed.

Lemma adj_tail z xs a b : adj (z :: xs) a b -> b ∈ xs.
Proof.
  revert z. induction xs as [|x xs IH]; intros z; cbn; [done|].
  intros [[_ ->]|H]; [by left|]. right. by apply (IH x).
Qed.

Lemma adj_fun xs z a b b' : NoDup xs -> adj (xs ++ [z]) a b -> adj (xs ++ [z]) a b' -> b = b'.
Proof.
  induction xs as [|x xs IH]; intros Hn; [done|]. apply list.NoDup_cons in Hn as [Hx Hn].
  destruct xs as [|y xs].
  - cbn. intros [[_ <-]|[]] [[_ <-]|[]]. done.
  - cbn [app]. rewrite !adj_cons. intros [[<- <-]|H] [[E <-]|H']; [done| | |by apply IH].
    + by apply (adj_init (y :: xs)) in H'.
    + subst. by apply (adj_init (y :: xs)) in H.
Qed.

Lemma adj_inj z xs a a' b : NoDup xs -> adj (z :: xs) a b -> adj (z :: xs) a' b -> a = a'.
Proof.
  revert z. induction xs as [|x xs IH]; intros z Hn; [done|]. apply list.NoDup_cons in Hn as [Hx Hn].
  intros [[<- <-]|H] [[<- E]|H']; [done| | |by apply (IH x)].
  - by apply adj_tail in H'.
  - subst. by apply adj_tail in H.
Qed.

(** ** Updates *)

Lemma lookup_fields (s : store) p n a :
  list_of (<[p := n]> s) a = (if decide (a = p) then n_list n else list_of s a) /\
  next_of (<[p := n]> s) a = (if decide (a = p) then n_next n else next_of s a) /\
  prev_of (<[p := n]> s) a = (if decide (a = p) then n_prev n else prev_of s a).
Proof.
  unfold list_of, next_of, prev_of. destruct (decide (a = p)) as [->|Hne].
  - by rewrite lookup_insert_eq.
  - by rewrite lookup_insert_ne by done.
Qed.

(** What [store_next] and [store_prev] do, field by field. *)
Definition upd_next (s s' : store) (p : node_ptr) (v : option node_ptr) : Prop :=
  (forall a, next_of s' a = if decide (a = p) then v else next_of s a) /\
  (forall a, prev_of s' a = prev_of s a) /\ (forall a, list_of s' a = list_of s a) /\
  (forall a, a <> p -> s' !! a = s !! a) /\ (forall a, is_Some (s !! a) -> is_Some (s' !! a)).
Definition upd_prev (s s' : store) (p : node_ptr) (v : option node_ptr) : Prop :=
  (forall a, next_of s' a = next_of s a) /\
  (forall a, prev_of s' a = if decide (a = p) then v else prev_of s a) /\ (forall a, list_of s' a = list_of s a) /\
  (forall a, a <> p -> s' !! a = s !! a) /\ (forall a, is_Some (s !! a) -> is_Some (s' !! a)).

Ltac kstep :=
  lazymatch goal with
  | |- wp (mret _) _ _ => apply wp_ret
  | |- wp (_ ≫= _) _ _ => apply wp_bind
  | |- wp st_get _ _ => apply wp_st_get
  | |- wp (st_modify _) _ _ => apply wp_st_modify
  end.

Lemma is_Some_insert (s : store) p n a : is_Some (s !! a) -> is_Some (<[p := n]> s !! a).
Proof. rewrite lookup_insert_is_Some'. auto. Qed.

Lemma field_unchanged {A} (f : list_node -> option A) (s : store) p n n' a :
  s !! p = Some n -> f n' = f n -> (<[p := n']> s !! a) ≫= f = (s !! a) ≫= f.
Proof.
  intros Hp E. destruct (decide (a = p)) as [->|]; [by rewrite lookup_insert_eq, Hp|by rewrite lookup_insert_ne].
Qed.

Lemma store_next_spec s p v : is_Some (s !! p) -> wp (store_next p v) (fun _ s' => upd_next s s' p v) s.
Proof.
  intros [n Hp]. unfold store_next. repeat kstep. eapply wp_deref; [done|]. repeat kstep.
  split_and!; intros a.
  - by rewrite (proj1 (proj2 (lookup_fields _ _ _ _))).
  - by apply (field_unchanged n_prev _ _ n).
  - by apply (field_unchanged n_list _ _ n).
  - intros. by rewrite lookup_insert_ne.
  - apply is_Some_insert.
Qed.

Lemma store_prev_spec s p v : is_Some (s !! p) -> wp (store_prev p v) (fun _ s' => upd_prev s s' p v) s.
Proof.
  intros [n Hp]. unfold store_prev. repeat kstep. eapply wp_deref; [done|]. repeat kstep.
  split_and!; intros a.
  - by apply (field_unchanged n_next _ _ n).
  - by rewrite (proj2 (proj2 (lookup_fields _ _ _ _))).
  - by apply (field_unchanged n_list _ _ n).
  - intros. by rewrite lookup_insert_ne.
  - apply is_Some_insert.
Qed.

(** ** Refinement of sequences *)

(** Nodes outside the list keep their content, and no node disappears. *)
Definition framed (s s' : store) (ps : list node_ptr) : Prop :=
  (forall a, a ∉ ps -> s' !! a = s !! a) /\ (forall a, is_Some (s !! a) -> is_Some (s' !! a)).

Lemma list_of_live s a l : list_of s a = Some l -> is_Some (s !! a).
Proof. unfold list_of. destruct (s !! a); [eauto|done]. Qed.

Lemma cycle_nodup l xs : NoDup xs -> NoDup (Head l :: (Elem <$> xs)).
Proof.
  intros Hn. apply list.NoDup_cons. split.
  - rewrite list_elem_of_fmap. naive_solver.
  - apply NoDup_fmap_2; [|done]. by intros ?? [= ->].
Qed.

Lemma back_nodup l xs : NoDup xs -> NoDup ((Elem <$> xs) ++ [Head l]).
Proof. intros Hn%(cycle_nodup l). by rewrite Permutation_app_comm. Qed.

Lemma linked_frame s s' l xs :
  linked s l xs -> (forall a, a ∈ Head l :: (Elem <$> xs) -> s' !! a = s !! a) -> linked s' l xs.
Proof.
  intros [Hn Hl Hx Hp] E. split; [done|..].
  - intros a Ha. unfold list_of. rewrite E by done. by apply Hl.
  - intros a b Hab. unfold next_of. rewrite E; [by apply Hx|]. by apply (adj_init (Head l :: (Elem <$> xs))) in Hab.
  - intros a b Hab. unfold prev_of. rewrite E; [by apply Hp|]. apply adj_tail in Hab.
    rewrite elem_of_app, list_elem_of_singleton in Hab. rewrite elem_of_cons. tauto.
Qed.

Lemma list_init_spec s l :
  wp (list_init l) (fun _ s' => linked s' l [] /\ framed s s' [Head l]) s.
Proof.
  unfold list_init. kstep. unfold framed. split_and!.
  - split; [apply NoDup_nil_2|..]; cbn.
    + intros a ->%list_elem_of_singleton. by rewrite (proj1 (lookup_fields _ _ _ _)), decide_True.
    + intros a b [[<- <-]|[]]. by rewrite (proj1 (proj2 (lookup_fields _ _ _ _))), decide_True.
    + intros a b [[<- <-]|[]]. by rewrite (proj2 (proj2 (lookup_fields _ _ _ _))), decide_True.
  - intros a Ha%not_elem_of_cons. by rewrite lookup_insert_ne by naive_solver.
  - intros a. apply is_Some_insert.
Qed.

(** The links after an element is added at the end. *)
Lemma adj_snoc l xs i Y last a b :
  Head l :: (Elem <$> xs) = Y ++ [last] -> adj (circle l (xs ++ [i])) a b ->
  adj (Y ++ [last]) a b \/ (a = last /\ b = Elem i) \/ (a = Elem i /\ b = Head l).
Proof.
  intros E. unfold circle. rewrite fmap_app, <- app_assoc. cbn [app fmap list_fmap].
  change (Head l :: (Elem <$> xs) ++ [Elem i; Head l]) with ((Head l :: (Elem <$> xs)) ++ [Elem i; Head l]).
  rewrite E, <- app_assoc. cbn [app]. rewrite adj_app, !adj_cons. intros [?|[[<- <-]|[[<- <-]|[]]]]; auto.
Qed.

Lemma circle_split l xs Y last : Head l :: (Elem <$> xs) = Y ++ [last] -> circle l xs = Y ++ last :: [Head l].
Proof. intros E. unfold circle. rewrite app_comm_cons, E, <- app_assoc. done. Qed.

(** The links that stay when [i] is added after [last] are away from what changes. *)
Lemma old_links l xs i Y last a b :
  NoDup xs -> i ∉ xs -> Head l :: (Elem <$> xs) = Y ++ [last] -> adj (Y ++ [last]) a b ->
  adj (circle l xs) a b /\ a <> last /\ b <> Head l /\ a <> Elem i /\ b <> Elem i.
Proof.
  intros Hn Hi E Hab. pose proof (cycle_nodup l xs Hn) as Hcyc.
  assert (Elem i ∉ Head l :: (Elem <$> xs)) as Hi' by (rewrite elem_of_cons, list_elem_of_fmap; naive_solver).
  split; [rewrite (circle_split _ _ _ _ E); apply adj_app; by left|]. pose proof (adj_init _ _ _ _ Hab) as Ha.
  rewrite <- E in Hab. pose proof (adj_tail _ _ _ _ Hab) as Hb. rewrite E in Hcyc.
  apply list.NoDup_app in Hcyc as (_ & Hd & _). split_and!.
  - intros ->. apply (Hd last); [done|by left].
  - intros ->. rewrite list_elem_of_fmap in Hb. naive_solver.
  - intros ->. apply Hi'. rewrite E. set_solver.
  - intros ->. apply Hi'. by right.
Qed.

Lemma list_insert_spec s l xs i :
  linked s l xs -> i ∉ xs -> is_Some (s !! Elem i) ->
  wp (list_insert l (Elem i)) (fun _ s' =>
    linked s' l (xs ++ [i]) /\ framed s s' (Head l :: (Elem <$> xs ++ [i]))) s.
Proof.
  intros [Hn Hl Hx Hp] Hi He.
  destruct (exists_last (l := Head l :: (Elem <$> xs))) as (Y & last & E); [done|].
  assert (Hlast : adj (circle l xs) last (Head l)) by (rewrite (circle_split _ _ _ _ E); apply adj_app; right; cbn; auto).
  assert (Hin : last ∈ Head l :: (Elem <$> xs)) by (rewrite E; set_solver).
  assert (Elem i ∉ Head l :: (Elem <$> xs)) as Hi'.
  { rewrite elem_of_cons, list_elem_of_fmap. naive_solver. }
  assert (Hold := fun a b => old_links l xs i Y last a b Hn Hi E).
  unfold list_insert. repeat kstep. destruct (list_of_live _ _ _ (Hl (Head l) ltac:(by left))) as [hn Hh].
  eapply wp_deref; [done|]. kstep. eapply wp_deref.
  { pose proof (Hp _ _ Hlast) as P. unfold prev_of in P. by rewrite Hh in P. }
  kstep. eapply wp_mono; [apply store_next_spec; by eapply list_of_live, Hl|]. intros _ s1 (N1 & P1 & L1 & F1 & D1).
  repeat kstep. destruct (D1 _ He) as [en Hen]. eapply wp_deref; [done|]. repeat kstep.
  set (s2 := <[Elem i := _]> s1).
  assert (F2 : forall a, list_of s2 a = (if decide (a = Elem i) then Some l else list_of s1 a) /\
    next_of s2 a = (if decide (a = Elem i) then Some (Head l) else next_of s1 a) /\
    prev_of s2 a = (if decide (a = Elem i) then Some last else prev_of s1 a)) by (intros a; apply lookup_fields).
  eapply wp_mono; [apply store_prev_spec, is_Some_insert, D1; by eexists|]. intros _ s3 (N3 & P3 & L3 & F3 & D3).
  split; [split|split].
  - apply list.NoDup_app. split_and!; [done|set_solver|apply NoDup_singleton].
  - intros a Ha. rewrite L3, (proj1 (F2 a)), L1. case_decide; [done|]. apply Hl.
    rewrite fmap_app, app_comm_cons, elem_of_app in Ha. set_solver.
  - intros a b Hab. rewrite N3, (proj1 (proj2 (F2 a))), N1.
    destruct (adj_snoc _ _ _ _ _ _ _ E Hab) as [Ho|[[-> ->]|[-> ->]]].
    + destruct (Hold _ _ Ho) as (? & ? & ? & ? & ?). rewrite !decide_False by done. by apply Hx.
    + rewrite decide_False, decide_True by (done || (intros ->; done)). done.
    + by rewrite decide_True.
  - intros a b Hab. rewrite P3, (proj2 (proj2 (F2 b))), P1.
    destruct (adj_snoc _ _ _ _ _ _ _ E Hab) as [Ho|[[-> ->]|[-> ->]]].
    + destruct (Hold _ _ Ho) as (? & ? & ? & ? & ?). rewrite !decide_False by done. by apply Hp.
    + by rewrite decide_False, decide_True.
    + by rewrite decide_True.
  - intros a Ha. rewrite fmap_app, app_comm_cons, elem_of_app in Ha.
    rewrite F3; [unfold s2; rewrite lookup_insert_ne, F1; [done|..]|]; intros Ea; subst; apply Ha; set_solver.
  - intros a Ha. apply D3, is_Some_insert, D1, Ha.
Qed.

(** The neighbours of an element in the circle. *)
Lemma circle_around l xs i ys :
  exists X p n Y, Head l :: (Elem <$> xs) = X ++ [p] /\ (Elem <$> ys) ++ [Head l] = n :: Y /\
    circle l (xs ++ i :: ys) = X ++ p :: Elem i :: n :: Y /\ circle l (xs ++ ys) = X ++ p :: n :: Y.
Proof.
  destruct (exists_last (l := Head l :: (Elem <$> xs))) as (X & p & Ep); [done|].
  assert (exists n Y, (Elem <$> ys) ++ [Head l] = n :: Y) as (n & Y & En) by (destruct ys; cbn; eauto).
  exists X, p, n, Y. unfold circle. rewrite !fmap_app, fmap_cons, <- !app_assoc, <- app_comm_cons, En, !app_comm_cons, Ep, <- !app_assoc.
  split_and!; done.
Qed.

(** The links that stay when [i] is removed are away from what changes. *)
Lemma kept_links l xs i ys X p n Y a b :
  NoDup (xs ++ i :: ys) -> Head l :: (Elem <$> xs) = X ++ [p] -> (Elem <$> ys) ++ [Head l] = n :: Y ->
  adj (X ++ p :: n :: Y) a b ->
  (a = p /\ b = n) \/ adj (X ++ p :: Elem i :: n :: Y) a b /\ a <> p /\ b <> n /\ a <> Elem i /\ b <> Elem i.
Proof.
  intros Hn Ep En. rewrite adj_app, adj_cons.
  pose proof (cycle_nodup l _ Hn) as Hc. pose proof (back_nodup l _ Hn) as Hb.
  rewrite fmap_app, fmap_cons, app_comm_cons, Ep in Hc. rewrite fmap_app, fmap_cons, <- app_assoc, <- app_comm_cons, En in Hb.
  intros [H|[[<- <-]|H]]; [|by left|]; right.
  - split; [apply adj_app; by left|]. pose proof (adj_init _ _ _ _ H) as Ha.
    rewrite <- Ep in H. pose proof (adj_tail _ _ _ _ H) as Hb'. rewrite <- app_assoc in Hc.
    apply list.NoDup_app in Hc as (_ & Hd & _). apply list.NoDup_app in Hb as (_ & Hd' & _).
    split_and!; intros ->; [apply (Hd p)|apply (Hd' n)|apply (Hd (Elem i))|apply (Hd' (Elem i))]; set_solver.
  - split; [apply adj_app; right; apply adj_cons; right; by apply adj_cons; right|].
    pose proof (adj_tail _ _ _ _ H) as Hb'. rewrite <- En in H. pose proof (adj_init _ _ _ _ H) as Ha.
    apply list.NoDup_app in Hc as (_ & Hd & _). apply list.NoDup_app in Hb as (_ & _ & Hd').
    apply list.NoDup_cons in Hd' as [Hi Hd']. apply list.NoDup_cons in Hd' as [Hn' _]. split_and!; intros ->.
    + apply (Hd p); set_solver.
    + done.
    + apply Hi. rewrite <- En. set_solver.
    + apply Hi. by right.
Qed.

(** A linked element, its neighbours, and the links without it. *)
Lemma node_around s l xs i ys :
  linked s l (xs ++ i :: ys) ->
  exists p n, s !! Elem i = Some (MkNode (Some l) (Some n) (Some p)) /\
    p ∈ Head l :: (Elem <$> xs ++ i :: ys) /\ n ∈ Head l :: (Elem <$> xs ++ i :: ys) /\ p <> Elem i /\ n <> Elem i /\
    forall a b, adj (circle l (xs ++ ys)) a b ->
      (a = p /\ b = n) \/ adj (circle l (xs ++ i :: ys)) a b /\ a <> p /\ b <> n /\ a <> Elem i /\ b <> Elem i.
Proof.
  intros [Hn Hl Hx Hp]. destruct (circle_around l xs i ys) as (X & p & n & Y & Ep & En & Ec & Ec').
  assert (Hpi : adj (circle l (xs ++ i :: ys)) p (Elem i)) by (rewrite Ec; apply adj_app; right; apply adj_cons; auto).
  assert (Hin : adj (circle l (xs ++ i :: ys)) (Elem i) n)
    by (rewrite Ec; apply adj_app; right; apply adj_cons; right; apply adj_cons; auto).
  assert (Ii : Elem i ∈ Head l :: (Elem <$> xs ++ i :: ys)) by (rewrite fmap_app, fmap_cons; set_solver).
  destruct (list_of_live _ _ _ (Hl _ Ii)) as [e He]. exists p, n. split_and!.
  - pose proof (Hl _ Ii) as L. pose proof (Hx _ _ Hin) as N. pose proof (Hp _ _ Hpi) as P.
    unfold list_of, next_of, prev_of in *. rewrite He in L, N, P. destruct e. cbn in *. by subst.
  - rewrite fmap_app, app_comm_cons, Ep; set_solver.
  - rewrite fmap_app, fmap_cons. assert (n ∈ (Elem <$> ys) ++ [Head l]) by (rewrite En; by left). set_solver.
  - pose proof (cycle_nodup l _ Hn) as Hc. rewrite fmap_app, fmap_cons, app_comm_cons, Ep in Hc.
    apply list.NoDup_app in Hc as (_ & Hd & _). intros ->. apply (Hd (Elem i)); set_solver.
  - pose proof (back_nodup l _ Hn) as Hb. rewrite fmap_app, fmap_cons, <- app_assoc, <- app_comm_cons, En in Hb.
    apply list.NoDup_app in Hb as (_ & _ & Hd'). apply list.NoDup_cons in Hd' as [Hi _]. intros ->. apply Hi; by left.
  - rewrite Ec, Ec'. intros a b. by apply (kept_links l xs i ys X p n Y).
Qed.

Lemma list_remove_spec s l xs i ys :
  linked s l (xs ++ i :: ys) ->
  wp (list_remove (Some (Elem i))) (fun _ s' =>
    linked s' l (xs ++ ys) /\ s' !! Elem i = Some null_node /\ framed s s' (Head l :: (Elem <$> xs ++ i :: ys))) s.
Proof.
  intros Hlk. destruct (node_around _ _ _ _ _ Hlk) as (p & n & He & Ip & In & Np & Nn & Hold). destruct Hlk as [Hn Hl Hx Hp].
  unfold list_remove. repeat kstep. eapply wp_deref; [done|]. cbn [n_list n_next n_prev].
  rewrite bool_decide_false by done. repeat kstep. apply wp_ret.
  kstep. eapply wp_mono; [apply store_next_spec; by eapply list_of_live, Hl|]. intros _ s1 (N1 & P1 & L1 & F1 & D1).
  repeat kstep. eapply wp_deref; [by rewrite F1|]. cbn [n_next n_prev]. kstep. apply wp_ret. kstep.
  eapply wp_mono; [apply store_prev_spec, D1; by eapply list_of_live, Hl|]. intros _ s2 (N2 & P2 & L2 & F2 & D2).
  kstep. split; [split|split; [apply lookup_insert_eq|split]].
  - rewrite <- Permutation_middle in Hn. by apply list.NoDup_cons in Hn as [_ ?].
  - intros a Ha. rewrite (proj1 (lookup_fields _ _ _ _)), decide_False, L2, L1.
    + apply Hl. rewrite fmap_app, fmap_cons. rewrite fmap_app in Ha. set_solver.
    + intros ->. rewrite elem_of_cons, list_elem_of_fmap in Ha. destruct Ha as [?|(j & [= <-] & Hj)]; [done|].
      rewrite <- Permutation_middle in Hn. by apply list.NoDup_cons in Hn as [? _].
  - intros a b Hab. rewrite (proj1 (proj2 (lookup_fields _ _ _ _))), N2, N1.
    destruct (Hold _ _ Hab) as [[-> ->]|(Ho & ? & ? & ? & ?)].
    + by rewrite decide_False, decide_True.
    + rewrite !decide_False by done. by apply Hx.
  - intros a b Hab. rewrite (proj2 (proj2 (lookup_fields _ _ _ _))), P2, P1.
    destruct (Hold _ _ Hab) as [[-> ->]|(Ho & ? & ? & ? & ?)].
    + by rewrite decide_False, decide_True.
    + rewrite !decide_False by done. by apply Hp.
  - intros a Ha. assert (a <> Elem i) by (intros ->; apply Ha; rewrite fmap_app, fmap_cons; set_solver).
    rewrite lookup_insert_ne, F2, F1 by (congruence || (intros ->; done)). done.
  - intros a Ha. by apply is_Some_insert, D2, D1.
Qed.

Lemma circle_next l xs a ys :
  Head l :: (Elem <$> xs) = ys ++ [a] -> forall zs, exists b, adj (circle l (xs ++ zs)) a b /\
    b = default (Head l) (head (Elem <$> zs)).
Proof.
  intros E zs. exists (default (Head l) (head (Elem <$> zs))). split; [|done].
  unfold circle. rewrite fmap_app, <- app_assoc, app_comm_cons, E, <- app_assoc. apply adj_app. right.
  destruct zs; cbn; auto.
Qed.

Lemma list_next_spec s l xs a ys zs :
  linked s l (xs ++ zs) -> Head l :: (Elem <$> xs) = ys ++ [a] ->
  wp (list_next a) (fun r s' => s' = s /\ r = head (Elem <$> zs)) s.
Proof.
  intros [Hn Hl Hx Hp] E. destruct (circle_next l xs a ys E zs) as (b & Hab & ->).
  pose proof (Hx _ _ Hab) as Hnext.
  assert (Ha : list_of s a = Some l).
  { apply Hl. rewrite fmap_app, app_comm_cons, E. set_solver. }
  unfold list_next. repeat kstep. unfold list_of, next_of in *. destruct (s !! a) as [n|] eqn:Es; [|done].
  eapply wp_deref; [done|]. kstep. eapply wp_deref; [exact Ha|]. kstep. split; [done|].
  change (n_next n = Some (default (Head l) (head (Elem <$> zs)))) in Hnext. rewrite Hnext.
  destruct zs as [|z zs]; cbn; [by rewrite bool_decide_false by naive_solver|by rewrite bool_decide_true by done].
Qed.

Lemma find_loop_spec s l test f zs : forall xs fuel,
  linked s l (xs ++ zs) -> (length zs <= fuel)%nat -> (forall i, i ∈ zs -> test i = Some (f i)) ->
  wp (find_loop fuel (head (Elem <$> zs)) test) (fun r s' => s' = s /\ r = List.find f zs) s.
Proof.
  induction zs as [|z zs IH]; intros xs fuel Hl Hf Ht; [by destruct fuel; apply wp_ret|].
  destruct fuel as [|fuel]; [cbn in Hf; lia|]. cbn. kstep. eapply wp_deref; [apply Ht; by left|].
  destruct (f z); [by kstep|]. kstep.
  assert (Hl' : linked s l ((xs ++ [z]) ++ zs)) by (by rewrite <- app_assoc).
  eapply wp_mono; [apply (list_next_spec s l (xs ++ [z]) (Elem z) (Head l :: (Elem <$> xs)) zs Hl')|].
  - by rewrite fmap_app.
  - intros r s' [-> ->]. apply (IH (xs ++ [z])); [done|cbn in Hf; lia|]. intros i Hi. apply Ht. by right.
Qed.

Lemma linked_size s l xs : linked s l xs -> (length xs <= size s)%nat.
Proof.
  intros [Hn Hl _ _]. rewrite <- (size_dom (D := gset node_ptr)), <- (length_fmap Elem).
  pose proof (cycle_nodup l xs Hn) as Hc. apply list.NoDup_cons in Hc as [_ Hc].
  rewrite <- (size_list_to_set (C := gset node_ptr)) by done. apply subseteq_size. intros a Ha%elem_of_list_to_set.
  apply elem_of_dom. apply (list_of_live _ _ l), Hl. by right.
Qed.

Lemma list_find_spec s l test f xs :
  linked s l xs -> (forall i, i ∈ xs -> test i = Some (f i)) ->
  wp (list_find l test) (fun r s' => s' = s /\ r = List.find f xs) s.
Proof.
  intros Hl Ht. unfold list_find. repeat kstep.
  eapply wp_mono; [apply (list_next_spec s l [] (Head l) [] xs); done|]. intros r s' [-> ->].
  apply (find_loop_spec s l test f xs []); [done|by eapply linked_size|done].
Qed.

(** ** Several lists *)

(** The store holds the lists [L]; no element is in two of them. *)
Record lists (s : store) (L : klist -> list nat) : Prop := {
  ls_linked l : linked s l (L l);
  ls_disj l l' i : i ∈ L l -> i ∈ L l' -> l = l'
}.

Lemma linked_other s s' l l' xs ys :
  framed s s' (Head l :: (Elem <$> xs)) -> linked s l' ys -> l <> l' -> (forall i, i ∈ ys -> i ∉ xs) -> linked s' l' ys.
Proof.
  intros [Hf _] Hl Hne Hd. apply (linked_frame s); [done|]. intros a Ha. apply Hf.
  rewrite elem_of_cons, list_elem_of_fmap in *. destruct Ha as [->|(i & -> & Hi)]; [naive_solver|].
  intros [?|(j & [= ->] & ?)]; [done|]. by apply (Hd j).
Qed.

Lemma lists_remove s L l xs i ys :
  lists s L -> L l = xs ++ i :: ys ->
  wp (list_remove (Some (Elem i))) (fun _ s' =>
    lists s' (<[l := xs ++ ys]> L) /\ (forall a, is_Some (s !! a) -> is_Some (s' !! a))) s.
Proof.
  intros [Hl Hd] E. pose proof (Hl l) as Hll. rewrite E in Hll.
  eapply wp_mono; [by apply list_remove_spec|]. intros _ s' (Hl' & _ & Hf). split; [|by apply Hf]. split.
  - intros l'. destruct (decide (l' = l)) as [->|]; [by rewrite fn_lookup_insert|]. rewrite fn_lookup_insert_ne by done.
    eapply linked_other; [exact Hf|done|done|]. intros j Hj Hj'. rewrite <- E in Hj'. by destruct (Hd l l' j).
  - assert (S : forall l' j, j ∈ <[l := xs ++ ys]> L l' -> j ∈ L l').
    { intros l' j. destruct (decide (l' = l)) as [->|]; [rewrite fn_lookup_insert, E; set_solver|by rewrite fn_lookup_insert_ne]. }
    intros l1 l2 j H1%S H2%S. by eapply Hd.
Qed.

(** Removing an element that is in no list does nothing. *)
Lemma list_remove_null s i : s !! Elem i = Some null_node -> wp (list_remove (Some (Elem i))) (fun _ s' => s' = s) s.
Proof. intros H. unfold list_remove. repeat kstep. eapply wp_deref; [done|]. by apply wp_ret. Qed.

Lemma lists_insert s L l i :
  lists s L -> (forall l, i ∉ L l) -> is_Some (s !! Elem i) ->
  wp (list_insert l (Elem i)) (fun _ s' =>
    lists s' (<[l := L l ++ [i]]> L) /\ (forall a, is_Some (s !! a) -> is_Some (s' !! a))) s.
Proof.
  intros [Hl Hd] Hi He. eapply wp_mono; [by apply list_insert_spec|]. intros _ s' (Hl' & Hf). split; [|by apply Hf]. split.
  - intros l'. destruct (decide (l' = l)) as [->|]; [by rewrite fn_lookup_insert|]. rewrite fn_lookup_insert_ne by done.
    eapply linked_other; [exact Hf|done|done|]. intros j Hj Hj'. rewrite elem_of_app, list_elem_of_singleton in Hj'.
    destruct Hj' as [Hj'| ->]; [by destruct (Hd l l' j)|by apply (Hi l')].
  - assert (S : forall l' j, j ∈ <[l := L l ++ [i]]> L l' -> (j = i /\ l' = l) \/ (j <> i /\ j ∈ L l')).
    { intros l' j. destruct (decide (l' = l)) as [->|].
      - rewrite fn_lookup_insert, elem_of_app, list_elem_of_singleton. intros [Hj| ->]; [right|by left].
        split; [|done]. intros ->. by apply (Hi l).
      - rewrite fn_lookup_insert_ne by done. intros Hj. right. split; [|done]. intros ->. by apply (Hi l'). }
    intros l1 l2 j [[-> ->]|[? H1]]%S [[? ->]|[? H2]]%S; try done. by eapply Hd.
Qed.

(** Nodes outside the lists come and go. *)
Lemma lists_node s s' L i : lists s L -> (forall l, i ∉ L l) -> (forall a, a <> Elem i -> s' !! a = s !! a) -> lists s' L.
Proof.
  intros [Hl Hd] Hi E. split; [|done]. intros l. apply (linked_frame s); [done|]. intros a Ha. apply E. intros ->.
  rewrite elem_of_cons, list_elem_of_fmap in Ha. destruct Ha as [?|(j & [= <-] & Hj)]; [done|by apply (Hi l)].
Qed.
End KList.
