(* ===== verification/KModule.v ===== *)
(** The kernel module: [src/module/ctrl.c], [src/module/map.c] and [src/module/pci.c].

    The state holds the module's objects, the lists that link them, and the resources of
    the kernel it manages: pinned pages, DMA mappings, GPU page tables and their DMA
    mappings, PCI regions and character devices.  A call of the kernel that can fail takes
    its result from a list of faults.  Releasing something that is not held, using a freed
    object and writing outside an array are undefined behaviour. *)
From Stdlib Require Import ZArith Lia List Bool.
From stdpp Require Import base list gmap gmultiset fin_maps.
From S2P Require Import Prelude Exec NvmQueue Host KList.
Import KList.

Import ListNotations.
Local Open Scope Z_scope.

Definition EFAULT : Z := 14.
Definition EEXIST : Z := 17.

(** What the kernel and the GPU driver provide: the page behind a virtual page of a task,
    the bus address a device uses for a page, and the physical and bus addresses of the
    pages of a GPU page table. *)
Class Platform := {
  frame : Z -> Z -> Z;
  bus : Z -> Z -> Z;
  p2p_phys : nat -> Z -> Z;
  p2p_bus : Z -> nat -> Z -> Z;
  bus_word d p : is_word 64 (bus d p);
  p2p_bus_word d t i : is_word 64 (p2p_bus d t i)
}.

Module KModule.

(** ** Objects *)

(** [struct ctrl]; [kc_chrdev] tells whether the character device exists. *)
Record ctrl := MkKctrl { kc_pdev : Z; kc_number : Z; kc_rdev : Z; kc_chrdev : bool }.

(** [struct gpu_region]: page table and DMA mappings by controller. *)
Record gpu_region := MkGpu { gd_pages : option nat; gd_mappings : list (option nat) }.

(** [void* data]: nothing, the pinned pages, or a GPU region. *)
Inductive map_data := NoData | Pages (pages : list Z) | Gpu (gd : gpu_region).

Inductive release := release_user_pages_cb | release_gpu_memory_cb.

(** [struct map]; [addrs] is the array allocated with it. *)
Record map := MkKmap {
  km_owner : Z; km_vaddr : Z; km_pdev : Z; km_page_size : Z; km_data : map_data;
  km_release : option release; km_n_addrs : Z; km_addrs : list Z
}.

Record kmod := MkKmod {
  k_nodes : store;
  k_ctrls : gmap nat ctrl;
  k_maps : gmap nat map;
  k_pins : gmultiset Z;              (** pages held by [get_user_pages] *)
  k_dma : gmultiset (Z * Z);         (** device and address of each mapped page *)
  k_tables : gmap nat Z;             (** GPU page tables and their numbers of entries *)
  k_p2p : gmap nat (Z * nat);        (** device and table of each GPU DMA mapping *)
  k_regions : gset Z;                (** devices whose registers are reserved *)
  k_enabled : gset Z;
  k_masters : gset Z;
  k_devs : gset Z;                   (** device numbers in use *)
  k_bound : list Z;                  (** devices the PCI core has bound to the driver *)
  k_curr_ctrls : Z;
  k_next : nat;
  k_faults : list Z;
  k_setup : bool * bool;             (** device numbers reserved, device class created *)
  k_dma_faults : list Z;             (** outcomes of mapping a page for DMA *)
  k_kfreed : nat;                    (** arrays of [kvcalloc] released with [kfree] *)
  k_unheld : nat                     (** releases of what the driver does not hold *)
}.

Abbreviation K := (ST kmod).

Definition set_nodes (s : kmod) v := MkKmod v (k_ctrls s) (k_maps s) (k_pins s) (k_dma s) (k_tables s) (k_p2p s) (k_regions s) (k_enabled s) (k_masters s) (k_devs s) (k_bound s) (k_curr_ctrls s) (k_next s) (k_faults s) (k_setup s) (k_dma_faults s) (k_kfreed s) (k_unheld s).
Definition set_kctrls (s : kmod) v := MkKmod (k_nodes s) v (k_maps s) (k_pins s) (k_dma s) (k_tables s) (k_p2p s) (k_regions s) (k_enabled s) (k_masters s) (k_devs s) (k_bound s) (k_curr_ctrls s) (k_next s) (k_faults s) (k_setup s) (k_dma_faults s) (k_kfreed s) (k_unheld s).
Definition set_kmaps (s : kmod) v := MkKmod (k_nodes s) (k_ctrls s) v (k_pins s) (k_dma s) (k_tables s) (k_p2p s) (k_regions s) (k_enabled s) (k_masters s) (k_devs s) (k_bound s) (k_curr_ctrls s) (k_next s) (k_faults s) (k_setup s) (k_dma_faults s) (k_kfreed s) (k_unheld s).
Definition set_pins (s : kmod) v := MkKmod (k_nodes s) (k_ctrls s) (k_maps s) v (k_dma s) (k_tables s) (k_p2p s) (k_regions s) (k_enabled s) (k_masters s) (k_devs s) (k_bound s) (k_curr_ctrls s) (k_next s) (k_faults s) (k_setup s) (k_dma_faults s) (k_kfreed s) (k_unheld s).
Definition set_dma (s : kmod) v := MkKmod (k_nodes s) (k_ctrls s) (k_maps s) (k_pins s) v (k_tables s) (k_p2p s) (k_regions s) (k_enabled s) (k_masters s) (k_devs s) (k_bound s) (k_curr_ctrls s) (k_next s) (k_faults s) (k_setup s) (k_dma_faults s) (k_kfreed s) (k_unheld s).
Definition set_tables (s : kmod) v := MkKmod (k_nodes s) (k_ctrls s) (k_maps s) (k_pins s) (k_dma s) v (k_p2p s) (k_regions s) (k_enabled s) (k_masters s) (k_devs s) (k_bound s) (k_curr_ctrls s) (k_next s) (k_faults s) (k_setup s) (k_dma_faults s) (k_kfreed s) (k_unheld s).
Definition set_p2p (s : kmod) v := MkKmod (k_nodes s) (k_ctrls s) (k_maps s) (k_pins s) (k_dma s) (k_tables s) v (k_regions s) (k_enabled s) (k_masters s) (k_devs s) (k_bound s) (k_curr_ctrls s) (k_next s) (k_faults s) (k_setup s) (k_dma_faults s) (k_kfreed s) (k_unheld s).
Definition set_regions (s : kmod) v := MkKmod (k_nodes s) (k_ctrls s) (k_maps s) (k_pins s) (k_dma s) (k_tables s) (k_p2p s) v (k_enabled s) (k_masters s) (k_devs s) (k_bound s) (k_curr_ctrls s) (k_next s) (k_faults s) (k_setup s) (k_dma_faults s) (k_kfreed s) (k_unheld s).
Definition set_enabled (s : kmod) v := MkKmod (k_nodes s) (k_ctrls s) (k_maps s) (k_pins s) (k_dma s) (k_tables s) (k_p2p s) (k_regions s) v (k_masters s) (k_devs s) (k_bound s) (k_curr_ctrls s) (k_next s) (k_faults s) (k_setup s) (k_dma_faults s) (k_kfreed s) (k_unheld s).
Definition set_masters (s : kmod) v := MkKmod (k_nodes s) (k_ctrls s) (k_maps s) (k_pins s) (k_dma s) (k_tables s) (k_p2p s) (k_regions s) (k_enabled s) v (k_devs s) (k_bound s) (k_curr_ctrls s) (k_next s) (k_faults s) (k_setup s) (k_dma_faults s) (k_kfreed s) (k_unheld s).
Definition set_kdevs (s : kmod) v := MkKmod (k_nodes s) (k_ctrls s) (k_maps s) (k_pins s) (k_dma s) (k_tables s) (k_p2p s) (k_regions s) (k_enabled s) (k_masters s) v (k_bound s) (k_curr_ctrls s) (k_next s) (k_faults s) (k_setup s) (k_dma_faults s) (k_kfreed s) (k_unheld s).
Definition set_bound (s : kmod) v := MkKmod (k_nodes s) (k_ctrls s) (k_maps s) (k_pins s) (k_dma s) (k_tables s) (k_p2p s) (k_regions s) (k_enabled s) (k_masters s) (k_devs s) v (k_curr_ctrls s) (k_next s) (k_faults s) (k_setup s) (k_dma_faults s) (k_kfreed s) (k_unheld s).
Definition set_curr (s : kmod) v := MkKmod (k_nodes s) (k_ctrls s) (k_maps s) (k_pins s) (k_dma s) (k_tables s) (k_p2p s) (k_regions s) (k_enabled s) (k_masters s) (k_devs s) (k_bound s) v (k_next s) (k_faults s) (k_setup s) (k_dma_faults s) (k_kfreed s) (k_unheld s).
Definition set_knext (s : kmod) v := MkKmod (k_nodes s) (k_ctrls s) (k_maps s) (k_pins s) (k_dma s) (k_tables s) (k_p2p s) (k_regions s) (k_enabled s) (k_masters s) (k_devs s) (k_bound s) (k_curr_ctrls s) v (k_faults s) (k_setup s) (k_dma_faults s) (k_kfreed s) (k_unheld s).
Definition set_kfaults (s : kmod) v := MkKmod (k_nodes s) (k_ctrls s) (k_maps s) (k_pins s) (k_dma s) (k_tables s) (k_p2p s) (k_regions s) (k_enabled s) (k_masters s) (k_devs s) (k_bound s) (k_curr_ctrls s) (k_next s) v (k_setup s) (k_dma_faults s) (k_kfreed s) (k_unheld s).

Definition set_setup (s : kmod) v := MkKmod (k_nodes s) (k_ctrls s) (k_maps s) (k_pins s) (k_dma s) (k_tables s) (k_p2p s) (k_regions s) (k_enabled s) (k_masters s) (k_devs s) (k_bound s) (k_curr_ctrls s) (k_next s) (k_faults s) v (k_dma_faults s) (k_kfreed s) (k_unheld s).

Definition set_dma_faults (s : kmod) v := MkKmod (k_nodes s) (k_ctrls s) (k_maps s) (k_pins s) (k_dma s) (k_tables s) (k_p2p s) (k_regions s) (k_enabled s) (k_masters s) (k_devs s) (k_bound s) (k_curr_ctrls s) (k_next s) (k_faults s) (k_setup s) v (k_kfreed s) (k_unheld s).

Definition set_kfreed (s : kmod) v := MkKmod (k_nodes s) (k_ctrls s) (k_maps s) (k_pins s) (k_dma s) (k_tables s) (k_p2p s) (k_regions s) (k_enabled s) (k_masters s) (k_devs s) (k_bound s) (k_curr_ctrls s) (k_next s) (k_faults s) (k_setup s) (k_dma_faults s) v (k_unheld s).
Definition set_unheld (s : kmod) v := MkKmod (k_nodes s) (k_ctrls s) (k_maps s) (k_pins s) (k_dma s) (k_tables s) (k_p2p s) (k_regions s) (k_enabled s) (k_masters s) (k_devs s) (k_bound s) (k_curr_ctrls s) (k_next s) (k_faults s) (k_setup s) (k_dma_faults s) (k_kfreed s) v.

(** A list operation. *)
Definition on_nodes {A} (m : ST store A) : K A := fun s =>
  match m (k_nodes s) with Some (a, n) => Some (a, set_nodes s n) | None => None end.

(** The outcome of the next call that can fail: 0, or what it reports instead. *)
Definition attempt : K Z := fun s =>
  match k_faults s with [] => Some (0, s) | e :: l => Some (e, set_kfaults s l) end.

Definition dma_attempt : K Z := fun s =>
  match k_dma_faults s with [] => Some (0, s) | e :: l => Some (e, set_dma_faults s l) end.

Definition fresh : K nat := fun s => Some (k_next s, set_knext s (S (k_next s))).

Section module.
Context {P : Platform}.

(** ** Calls of the kernel *)

Definition PAGE_SIZE : Z := 4096.
Definition PAGE_MASK : Z := 2 ^ 64 - PAGE_SIZE.
Definition GPU_PAGE_SHIFT : Z := 16.
Definition GPU_PAGE_SIZE : Z := u64 (Z.shiftl 1 GPU_PAGE_SHIFT).
Definition GPU_PAGE_MASK : Z := u64 (Z.lnot (GPU_PAGE_SIZE - 1)).

(** Pins pages of the task: all of them, the first few (a positive outcome), or none. *)
Definition get_user_pages (task vaddr n : Z) : K (Z * list Z) :=
  e ← attempt;
  if e <? 0 then mret (e, [])
  else
    let r := if e =? 0 then n else Z.min e n in
    let pages := (fun i => frame task (vaddr / PAGE_SIZE + Z.of_nat i)) <$> seq 0 (Z.to_nat r) in
    st_modify (fun s => set_pins s (k_pins s ⊎ list_to_set_disj pages));;
    mret (r, pages).

Definition put_page (page : Z) : K unit :=
  s ← st_get;
  if bool_decide (page ∈ k_pins s) then st_modify (fun s => set_pins s (k_pins s ∖ {[+ page +]})) else crash.

(** The address and the result of [dma_mapping_error]. *)
Definition dma_map_page (pdev page : Z) : K (Z * Z) :=
  e ← dma_attempt;
  if negb (e =? 0) then mret (2 ^ 64 - 1, e)
  else st_modify (fun s => set_dma s (k_dma s ⊎ {[+ (pdev, bus pdev page) +]}));; mret (bus pdev page, 0).

Definition dma_unmap_page (pdev addr : Z) : K unit :=
  s ← st_get;
  if bool_decide ((pdev, addr) ∈ k_dma s) then st_modify (fun s => set_dma s (k_dma s ∖ {[+ (pdev, addr) +]})) else crash.

(** A page table with one entry per GPU page of the range of [len] bytes. *)
Definition nvidia_p2p_get_pages (len : Z) : K (Z * option nat) :=
  e ← attempt;
  if negb (e =? 0) then mret (e, None)
  else t ← fresh; st_modify (fun s => set_tables s (<[t := len / GPU_PAGE_SIZE]> (k_tables s)));; mret (0, Some t).

(** [nvidia_p2p_put_pages] and [nvidia_p2p_free_page_table]. *)
Definition nvidia_p2p_put_pages (t : nat) : K unit :=
  s ← st_get; _ ← deref (k_tables s !! t); st_modify (fun s => set_tables s (delete t (k_tables s))).

Definition nvidia_p2p_dma_map_pages (pdev : Z) (t : nat) : K (Z * option nat) :=
  e ← attempt;
  if negb (e =? 0) then mret (e, None)
  else m ← fresh; st_modify (fun s => set_p2p s (<[m := (pdev, t)]> (k_p2p s)));; mret (0, Some m).

Definition nvidia_p2p_dma_unmap_pages (pdev : Z) (t m : nat) : K unit :=
  s ← st_get;
  if bool_decide (k_p2p s !! m = Some (pdev, t)) then st_modify (fun s => set_p2p s (delete m (k_p2p s))) else crash.

(** ** Walking a list

    [body] gets the object and the loop variables and tells whether the loop goes on.  The
    number of nodes bounds the rounds. *)
Fixpoint list_loop {S} (fuel : nat) (element : option node_ptr) (body : nat -> S -> K (S * bool)) (v : S) : K S :=
  match element, fuel with
  | None, _ => mret v
  | Some _, O => crash
  | Some (Head _), _ => crash
  | Some (Elem i), Datatypes.S fuel =>
      r ← body i v;
      if snd r : bool then next ← on_nodes (list_next (Elem i)); list_loop fuel next body (fst r)
      else mret (fst r)
  end.

Definition list_walk {S} (l : klist) (body : nat -> S -> K (S * bool)) (v : S) : K S :=
  s ← st_get; element ← on_nodes (list_next (Head l)); list_loop (size (k_nodes s)) element body v.

(** ** [map.c] *)

Definition upd_map (i : nat) (m : map) : K unit := st_modify (fun s => set_kmaps s (<[i := m]> (k_maps s))).
Definition map_at (i : nat) : K map := s ← st_get; deref (k_maps s !! i).

Definition with_addrs (m : map) (l : list Z) : map :=
  MkKmap (km_owner m) (km_vaddr m) (km_pdev m) (km_page_size m) (km_data m) (km_release m) (km_n_addrs m) l.
Definition with_n_addrs (m : map) (n : Z) : map :=
  MkKmap (km_owner m) (km_vaddr m) (km_pdev m) (km_page_size m) (km_data m) (km_release m) n (km_addrs m).
Definition with_data (m : map) (d : map_data) : map :=
  MkKmap (km_owner m) (km_vaddr m) (km_pdev m) (km_page_size m) d (km_release m) (km_n_addrs m) (km_addrs m).
Definition with_page_size (m : map) (n : Z) : map :=
  MkKmap (km_owner m) (km_vaddr m) (km_pdev m) n (km_data m) (km_release m) (km_n_addrs m) (km_addrs m).
Definition with_release (m : map) (r : release) : map :=
  MkKmap (km_owner m) (km_vaddr m) (km_pdev m) (km_page_size m) (km_data m) (Some r) (km_n_addrs m) (km_addrs m).

(** [sizeof(struct map)] and the offset of [addrs]. *)
Definition sizeof_map : Z := 96.
Definition addrs_offset : Z := 88.

(** The array is cleared as far as [n_pages] says; the allocation may be shorter. *)
Definition create_descriptor (task : Z) (c : nat) (vaddr n_pages : Z) : K (Z + nat) :=
  let size := u64 (sizeof_map + u64 (u64 (n_pages - 1) * 8)) in
  e ← attempt;
  if negb (e =? 0) then mret (inl (- ENOMEM))
  else
    s ← st_get; k ← deref (k_ctrls s !! c);
    if size <? addrs_offset + n_pages * 8 then crash
    else
      i ← fresh;
      on_nodes (list_node_init (Elem i));;
      upd_map i (MkKmap task vaddr (kc_pdev k) 0 NoData None n_pages (repeat 0 (Z.to_nat n_pages)));;
      mret (inr i).

Fixpoint unmap_pages (pdev : Z) (addrs : list Z) (n : nat) {struct n} : K unit :=
  match n with
  | O => mret tt
  | S n => match addrs with [] => crash | a :: addrs => dma_unmap_page pdev a;; unmap_pages pdev addrs n end
  end.
Fixpoint put_pages (pages : list Z) (n : nat) {struct n} : K unit :=
  match n with
  | O => mret tt
  | S n => match pages with [] => crash | p :: pages => put_page p;; put_pages pages n end
  end.

Definition release_user_pages (i : nat) : K unit :=
  m ← map_at i;
  match km_data m with
  | Pages pages =>
      unmap_pages (km_pdev m) (km_addrs m) (Z.to_nat (km_n_addrs m));;
      put_pages pages (Z.to_nat (km_n_addrs m));;
      upd_map i (with_data m NoData)
  | _ => crash
  end.

(** The loop over the controllers: [mappings[j]] of each that has one. *)
Definition unmap_gpu (t : option nat) (mappings : list (option nat)) : K unit :=
  _ ← list_walk ctrl_list (fun c j =>
    s ← st_get; k ← deref (k_ctrls s !! c);
    entry ← deref (mappings !! j);
    match entry with
    | Some m => t ← deref t; nvidia_p2p_dma_unmap_pages (kc_pdev k) t m;; mret (S j, true)
    | None => mret (j, true)
    end) 0%nat;
  mret tt.

Definition release_gpu_memory (i : nat) : K unit :=
  m ← map_at i;
  match km_data m with
  | NoData => mret tt
  | Gpu gd =>
      unmap_gpu (gd_pages gd) (gd_mappings gd);;
      (match gd_pages gd with Some t => nvidia_p2p_put_pages t | None => mret tt end);;
      upd_map i (with_data m NoData)
  | Pages _ => crash
  end.

Definition unmap_and_release (i : nat) : K unit :=
  on_nodes (list_remove (Some (Elem i)));;
  m ← map_at i;
  match km_release m, km_data m with
  | None, _ | _, NoData => mret tt
  | Some release_user_pages_cb, _ => release_user_pages i
  | Some release_gpu_memory_cb, _ => release_gpu_memory i
  end;;
  st_modify (fun s => set_kmaps (set_nodes s (delete (Elem i) (k_nodes s))) (delete i (k_maps s))).

(** The GPU driver takes the memory back. *)
Definition force_release_gpu_memory (i : nat) : K unit :=
  m ← map_at i;
  (match km_data m with
   | NoData => mret tt
   | Gpu gd =>
       unmap_gpu (gd_pages gd) (gd_mappings gd);;
       (match gd_pages gd with Some t => nvidia_p2p_put_pages t | None => mret tt end);;
       upd_map i (with_data m NoData)
   | Pages _ => crash
   end);;
  unmap_and_release i.

Definition map_find (task : Z) (l : klist) (vaddr : Z) : K (option nat) :=
  s ← st_get;
  on_nodes (list_find l (fun i =>
    m ← k_maps s !! i;
    Some ((km_owner m =? task) &&
          ((km_vaddr m =? Z.land vaddr PAGE_MASK) || (km_vaddr m =? Z.land vaddr GPU_PAGE_MASK))))).

(** The mapping loop: [j] is the next page, [pages] those left. *)
Fixpoint map_pages (i : nat) (j : nat) (pages : list Z) : K Z :=
  match pages with
  | [] => mret 0
  | p :: pages =>
      m ← map_at i;
      r ← dma_map_page (km_pdev m) p;
      (if (j <? length (km_addrs m))%nat then upd_map i (with_addrs m (<[j := fst r]> (km_addrs m))) else crash);;
      if negb (snd r =? 0) then mret (snd r) else map_pages i (S j) pages
  end.

Definition map_user_pages (task : Z) (i : nat) : K Z :=
  e ← attempt;
  if negb (e =? 0) then mret (- ENOMEM)
  else
    m ← map_at i;
    r ← get_user_pages task (km_vaddr m) (km_n_addrs m);
    let '(retval, pages) := r in
    if retval <=? 0 then st_modify (fun s => set_kfreed s (S (k_kfreed s)));; mret retval
    else
      upd_map i (with_release (with_data (with_page_size (with_n_addrs m retval) PAGE_SIZE) (Pages pages))
                   release_user_pages_cb);;
      map_pages i 0 pages.

Definition map_userspace (task : Z) (c : nat) (vaddr n_pages : Z) : K (Z + nat) :=
  if n_pages <? 1 then mret (inl (- EINVAL))
  else
    md ← create_descriptor task c (Z.land vaddr PAGE_MASK) n_pages;
    match md with
    | inl e => mret (inl e)
    | inr i =>
        m ← map_at i;
        upd_map i (with_page_size m PAGE_SIZE);;
        err ← map_user_pages task i;
        if negb (err =? 0) then unmap_and_release i;; mret (inl err)
        else on_nodes (list_insert host_list (Elem i));; mret (inr i)
    end.

(** [max_num_ctrls] of [map.c], a variable of its own. *)
Definition map_max_num_ctrls : nat := 64.

(** [map->addrs[i] = gd->mappings[0]->dma_addresses[i]] for the first [n] pages. *)
Definition copy_bus_addrs (i : nat) (pdev : Z) (t : nat) : K unit :=
  m ← map_at i; s ← st_get; entries ← deref (k_tables s !! t);
  if (entries <? km_n_addrs m) || (Z.of_nat (length (km_addrs m)) <? km_n_addrs m) then crash
  else
    upd_map i (with_addrs m (((fun j => p2p_bus pdev t (Z.of_nat j)) <$> seq 0 (Z.to_nat (km_n_addrs m)))
                               ++ drop (Z.to_nat (km_n_addrs m)) (km_addrs m))).

(** One controller: [(j, err)] are the loop variables. *)
Definition map_gpu_ctrl (i : nat) (t : nat) (c : nat) (v : nat * Z) : K ((nat * Z) * bool) :=
  let '(j, _) := v in
  s ← st_get; k ← deref (k_ctrls s !! c);
  r ← nvidia_p2p_dma_map_pages (kc_pdev k) t;
  m ← map_at i;
  match km_data m with
  | Gpu gd =>
      if (j <? length (gd_mappings gd))%nat then
        upd_map i (with_data m (Gpu (MkGpu (gd_pages gd)
          (match snd r with Some x => <[j := Some x]> (gd_mappings gd) | None => gd_mappings gd end))));;
        if negb (fst r =? 0) then mret ((S j, fst r), false)
        else
          (if (S j =? 1)%nat then copy_bus_addrs i (kc_pdev k) t else mret tt);;
          mret ((S j, 0), true)
      else crash
  | _ => crash
  end.

Definition map_gpu_memory (i : nat) : K Z :=
  e ← attempt;
  if negb (e =? 0) then mret (- ENOMEM)
  else
    e ← attempt;
    if negb (e =? 0) then mret (- ENOMEM)
    else
      m ← map_at i;
      let m := with_release (with_data (with_page_size m GPU_PAGE_SIZE)
                 (Gpu (MkGpu None (repeat None map_max_num_ctrls)))) release_gpu_memory_cb in
      upd_map i m;;
      r ← nvidia_p2p_get_pages (u64 (GPU_PAGE_SIZE * km_n_addrs m));
      match r with
      | (0, Some t) =>
          upd_map i (with_data m (Gpu (MkGpu (Some t) (repeat None map_max_num_ctrls))));;
          v ← list_walk ctrl_list (map_gpu_ctrl i t) (0%nat, 0);
          if negb (snd v =? 0) then mret (snd v)
          else
            s ← st_get; entries ← deref (k_tables s !! t);
            m ← map_at i;
            upd_map i (with_n_addrs m entries);;
            mret 0
      | (err, _) => mret err
      end.

Definition map_device_memory (task : Z) (c : nat) (vaddr n_pages : Z) : K (Z + nat) :=
  if n_pages <? 1 then mret (inl (- EINVAL))
  else
    md ← create_descriptor task c (Z.land vaddr GPU_PAGE_MASK) n_pages;
    match md with
    | inl e => mret (inl e)
    | inr i =>
        m ← map_at i;
        upd_map i (with_page_size m GPU_PAGE_SIZE);;
        err ← map_gpu_memory i;
        if negb (err =? 0) then unmap_and_release i;; mret (inl err)
        else on_nodes (list_insert device_list (Elem i));; mret (inr i)
    end.

(** ** [ctrl.c] *)

Definition ctrl_at (c : nat) : K ctrl := s ← st_get; deref (k_ctrls s !! c).
Definition upd_ctrl (c : nat) (k : ctrl) : K unit := st_modify (fun s => set_kctrls s (<[c := k]> (k_ctrls s))).

Definition ctrl_get (pdev number : Z) : K (Z + nat) :=
  e ← attempt;
  if negb (e =? 0) then mret (inl (- ENOMEM))
  else
    c ← fresh;
    on_nodes (list_node_init (Elem c));;
    upd_ctrl c (MkKctrl pdev number 0 false);;
    on_nodes (list_insert ctrl_list (Elem c));;
    mret (inr c).

Definition ctrl_chrdev_remove (c : nat) : K unit :=
  k ← ctrl_at c;
  if kc_chrdev k then
    st_modify (fun s => set_kdevs s (k_devs s ∖ {[kc_rdev k]}));;
    upd_ctrl c (MkKctrl (kc_pdev k) (kc_number k) (kc_rdev k) false)
  else mret tt.

Definition ctrl_put (c : option nat) : K unit :=
  match c with
  | None => mret tt
  | Some c =>
      on_nodes (list_remove (Some (Elem c)));;
      ctrl_chrdev_remove c;;
      st_modify (fun s => set_kctrls (set_nodes s (delete (Elem c) (k_nodes s))) (delete c (k_ctrls s)))
  end.

Definition ctrl_find_by_pci_dev (pdev : Z) : K (option nat) :=
  s ← st_get; on_nodes (list_find ctrl_list (fun c => k ← k_ctrls s !! c; Some (kc_pdev k =? pdev))).

(** [inode]: the controller whose [cdev] the inode points to. *)
Definition ctrl_find_by_inode (inode : nat) : K (option nat) :=
  s ← st_get; on_nodes (list_find ctrl_list (fun c => _ ← k_ctrls s !! c; Some (c =? inode)%nat)).

(** Device numbers count from the first one; a number in use is refused. *)
Definition ctrl_chrdev_create (c : nat) (first : Z) : K Z :=
  k ← ctrl_at c;
  if kc_chrdev k then mret 0
  else
    let rdev := first + kc_number k in
    upd_ctrl c (MkKctrl (kc_pdev k) (kc_number k) rdev (kc_chrdev k));;
    err ← attempt;
    if negb (err =? 0) then mret err
    else
      s ← st_get;
      if bool_decide (rdev ∈ k_devs s) then mret (- EEXIST)
      else
        err ← attempt;
        if negb (err =? 0) then mret err
        else
          st_modify (fun s => set_kdevs s (k_devs s ∪ {[rdev]}));;
          upd_ctrl c (MkKctrl (kc_pdev k) (kc_number k) rdev true);;
          mret 0.

(** ** [pci.c] *)

(** The devices' first number and the module parameter. *)
Context (dev_first max_num_ctrls : Z).

(** [len]: the size of the register window. *)
Definition mmap_registers (len : Z -> Z) (inode : nat) (vm_start vm_end : Z) : K Z :=
  c ← ctrl_find_by_inode inode;
  match c with
  | None => mret (- EBADF)
  | Some c =>
      k ← ctrl_at c;
      if len (kc_pdev k) <? u64 (vm_end - vm_start) then mret (- EINVAL) else attempt
  end.

Inductive ioctl_cmd :=
  | NVM_MAP_HOST_MEMORY (vaddr_start n_pages : Z)
  | NVM_MAP_DEVICE_MEMORY (vaddr_start n_pages : Z)
  | NVM_QUERY_DEVICE_PHYS_ADDRS (vaddr_start n_pages : Z)
  | NVM_UNMAP_MEMORY (addr : Z)
  | NVM_UNKNOWN.

(** The result of a mapping request and the addresses copied to the user. *)
Definition map_reply (r : Z + nat) : K (Z * list Z) :=
  match r with
  | inl e => mret (e, [])
  | inr i =>
      m ← map_at i;
      e ← attempt;
      if negb (e =? 0) then mret (- EFAULT, []) else mret (0, take (Z.to_nat (km_n_addrs m)) (km_addrs m))
  end.

Definition map_ioctl (task : Z) (inode : nat) (cmd : ioctl_cmd) : K (Z * list Z) :=
  ctrl ← ctrl_find_by_inode inode;
  match ctrl with
  | None => mret (- EBADF, [])
  | Some c =>
      match cmd with
      | NVM_UNKNOWN => mret (- EINVAL, [])
      | _ =>
          e ← attempt;
          if negb (e =? 0) then mret (- EFAULT, [])
          else
            match cmd with
            | NVM_MAP_HOST_MEMORY vaddr n => r ← map_userspace task c vaddr n; map_reply r
            | NVM_MAP_DEVICE_MEMORY vaddr n => r ← map_device_memory task c vaddr n; map_reply r
            | NVM_QUERY_DEVICE_PHYS_ADDRS vaddr n =>
                qmap ← map_find task device_list vaddr;
                match qmap with
                | None => mret (- EINVAL, [])
                | Some i =>
                    m ← map_at i;
                    match km_data m with
                    | Gpu (MkGpu (Some t) _) =>
                        s ← st_get; entries ← deref (k_tables s !! t);
                        if negb (n =? entries) then mret (- EINVAL, [])
                        else
                          e ← attempt;
                          if negb (e =? 0) then mret (- ENOMEM, [])
                          else
                            e ← attempt;
                            if negb (e =? 0) then mret (- EFAULT, [])
                            else mret (0, (fun j => p2p_phys t (Z.of_nat j)) <$> seq 0 (Z.to_nat n))
                    | NoData | Gpu (MkGpu None _) => mret (- EINVAL, [])
                    | Pages _ => crash
                    end
                end
            | NVM_UNMAP_MEMORY addr =>
                map ← map_find task host_list addr;
                match map with
                | Some i => unmap_and_release i;; mret (0, [])
                | None =>
                    map ← map_find task device_list addr;
                    match map with
                    | Some i => unmap_and_release i;; mret (0, [])
                    | None => mret (- EINVAL, [])
                    end
                end
            | NVM_UNKNOWN => mret (- EINVAL, [])
            end
      end
  end.

(** Releasing what the driver does not hold changes nothing but the kernel's log. *)
Definition pci_release_region (dev : Z) : K unit := st_modify (fun s =>
  if bool_decide (dev ∈ k_regions s) then set_regions s (k_regions s ∖ {[dev]}) else set_unheld s (S (k_unheld s))).
Definition pci_disable_device (dev : Z) : K unit := st_modify (fun s =>
  if bool_decide (dev ∈ k_enabled s) then set_enabled s (k_enabled s ∖ {[dev]}) else set_unheld s (S (k_unheld s))).

(** A device that is probed successfully is bound to the driver. *)
Definition add_pci_dev (dev : Z) : K Z :=
  s ← st_get;
  if k_curr_ctrls s >=? max_num_ctrls then mret 0
  else
    ctrl ← ctrl_get dev (k_curr_ctrls s);
    match ctrl with
    | inl e => mret e
    | inr c =>
        err ← attempt;
        if negb (err =? 0) then ctrl_put (Some c);; mret err
        else
          st_modify (fun s => set_regions s (k_regions s ∪ {[dev]}));;
          err ← attempt;
          if err <? 0 then
            pci_release_region dev;;
            ctrl_put (Some c);; mret err
          else
            st_modify (fun s => set_enabled s (k_enabled s ∪ {[dev]}));;
            err ← ctrl_chrdev_create c dev_first;
            if negb (err =? 0) then
              pci_disable_device dev;;
              pci_release_region dev;;
              ctrl_put (Some c);; mret err
            else
              st_modify (fun s => set_masters s (k_masters s ∪ {[dev]}));;
              st_modify (fun s => set_curr s (k_curr_ctrls s + 1));;
              mret 0
    end.

Definition remove_pci_dev (dev : option Z) : K unit :=
  match dev with
  | None => mret tt
  | Some dev =>
      st_modify (fun s => set_curr s (k_curr_ctrls s - 1));;
      ctrl ← ctrl_find_by_pci_dev dev;
      ctrl_put ctrl;;
      pci_release_region dev;;
      st_modify (fun s => set_masters s (k_masters s ∖ {[dev]}));;
      pci_disable_device dev
  end.

(** Releases the first map until the list is empty. *)
Fixpoint clear_loop (fuel : nat) (l : klist) (ptr : option node_ptr) (i : Z) : K Z :=
  match ptr, fuel with
  | None, _ => mret i
  | Some (Elem m), S fuel =>
      unmap_and_release m;;
      ptr ← on_nodes (list_next (Head l));
      clear_loop fuel l ptr (u64 (i + 1))
  | _, _ => crash
  end.

Definition clear_map_list (l : klist) : K Z :=
  s ← st_get; ptr ← on_nodes (list_next (Head l)); clear_loop (size (k_nodes s)) l ptr 0.

(** The PCI core probes and removes devices: a bound device is one whose probe returned 0. *)
Definition pci_probe (dev : Z) : K Z :=
  err ← add_pci_dev dev;
  (if err =? 0 then st_modify (fun s => set_bound s (k_bound s ++ [dev])) else mret tt);;
  mret err.

Definition pci_remove (dev : Z) : K unit :=
  remove_pci_dev (Some dev);; st_modify (fun s => set_bound s (filter (fun d => d <> dev) (k_bound s))).

Fixpoint remove_all (devs : list Z) : K unit :=
  match devs with [] => mret tt | d :: devs => pci_remove d;; remove_all devs end.

Definition pci_unregister_driver : K unit :=
  s ← st_get; remove_all (k_bound s).

Definition libnvm_helper_entry : K Z :=
  on_nodes (list_init ctrl_list);;
  on_nodes (list_init host_list);;
  on_nodes (list_init device_list);;
  err ← attempt;
  if err <? 0 then mret err
  else
    st_modify (fun s => set_setup s (true, false));;
    e ← attempt;
    if negb (e =? 0) then st_modify (fun s => set_setup s (false, false));; mret e
    else
      st_modify (fun s => set_setup s (true, true));;
      err ← attempt;
      if negb (err =? 0) then
        st_modify (fun s => set_setup s (true, false));;
        st_modify (fun s => set_setup s (false, false));;
        mret err
      else mret 0.

Definition libnvm_helper_exit : K unit :=
  _ ← clear_map_list device_list;
  _ ← clear_map_list host_list;
  pci_unregister_driver;;
  st_modify (fun s => set_setup s (true, false));;
  st_modify (fun s => set_setup s (false, false)).
End module.
End KModule.
