(* ===== verification/KModuleInv.v ===== *)
(** The kernel module's invariant: the lists hold exactly the live objects, and what the
    module has taken from the kernel is exactly what its live mappings account for. *)
From Stdlib Require Import ZArith Lia List Bool.
From stdpp Require Import base list gmap gmultiset fin_maps functions sorting.
From S2P Require Import Prelude Exec NvmQueue Host KList KModule.
Import KList KModule.

Import ListNotations.
Local Open Scope Z_scope.

Module KInv.

(** ** Accounting *)

(** What [f] finds in the mappings, in some order. *)
Definition gather {A} (f : map -> list A) (ms : gmap nat map) : list A := map_to_list ms ≫= (fun im => f (snd im)).

Lemma gather_insert {A} (f : map -> list A) ms i m :
  ms !! i = None -> gather f (<[i := m]> ms) ≡ₚ f m ++ gather f ms.
Proof. intros Hi. unfold gather. rewrite (map_to_list_insert ms i m Hi). done. Qed.

Lemma gather_delete {A} (f : map -> list A) ms i m :
  ms !! i = Some m -> gather f ms ≡ₚ f m ++ gather f (delete i ms).
Proof. intros Hi. unfold gather. rewrite <- (map_to_list_delete ms i m Hi). done. Qed.

Lemma gather_update {A} (f : map -> list A) ms i m :
  gather f (<[i := m]> ms) ≡ₚ f m ++ gather f (delete i ms).
Proof. rewrite <- (insert_delete_eq ms i m). apply gather_insert, lookup_delete_eq. Qed.

Definition pages_of (m : map) : list Z := match km_data m with Pages ps => ps | _ => [] end.

Definition bus_of (m : map) : list (Z * Z) :=
  match km_data m with Pages _ => pair (km_pdev m) <$> take (Z.to_nat (km_n_addrs m)) (km_addrs m) | _ => [] end.

Definition table_of (m : map) : list (nat * Z) :=
  match km_data m with Gpu (MkGpu (Some t) _) => [(t, km_n_addrs m)] | _ => [] end.

(** The DMA mappings of a GPU region, one per controller, from the first. *)
Definition p2p_of (pds : list Z) (m : map) : list (nat * (Z * nat)) :=
  match km_data m with
  | Gpu (MkGpu (Some t) ms) => zip_with (fun mid d => (mid, (d, t))) (omap id ms) pds
  | _ => []
  end.

(** The resources of [s] are those of the mappings [ms]. *)
Record res (s : kmod) (ms : gmap nat map) (pds : list Z) : Prop := {
  rs_pins : k_pins s = list_to_set_disj (gather pages_of ms);
  rs_dma : k_dma s = list_to_set_disj (gather bus_of ms);
  rs_tables : map_to_list (k_tables s) ≡ₚ gather table_of ms;
  rs_p2p : map_to_list (k_p2p s) ≡ₚ gather (p2p_of pds) ms
}.

(** A mapping's data fit the callback that releases it. *)
Definition wf_map (pds : list Z) (m : map) : Prop :=
  match km_data m with
  | NoData => True
  | Pages ps => km_release m = Some release_user_pages_cb /\ Z.of_nat (length ps) = km_n_addrs m /\
      (length ps <= length (km_addrs m))%nat
  | Gpu gd => km_release m = Some release_gpu_memory_cb /\ exists mids : list nat,
      gd_mappings gd = (Some <$> mids) ++ repeat None (64 - length mids) /\ (length mids <= length pds)%nat /\
      (gd_pages gd = None -> mids = [])
  end.

Definition pdevs (s : kmod) (cs : list nat) : list Z := (fun c => default 0 (kc_pdev <$> k_ctrls s !! c)) <$> cs.

(** [L] gives the contents of the lists; [pend] are the mappings being made, which are in
    no list yet. *)
Record mod_inv (s : kmod) (L : klist -> list nat) (pend : list nat) : Prop := {
  mi_lists : lists (k_nodes s) L;
  mi_ctrls c : is_Some (k_ctrls s !! c) <-> c ∈ L ctrl_list;
  mi_maps i : is_Some (k_maps s !! i) <-> i ∈ L host_list \/ i ∈ L device_list \/ i ∈ pend;
  mi_pend i : i ∈ pend -> k_nodes s !! Elem i = Some null_node /\ (i < k_next s)%nat /\ forall l, i ∉ L l;
  mi_below i : (k_next s <= i)%nat -> (forall l, i ∉ L l) /\ k_tables s !! i = None /\ k_p2p s !! i = None;
  mi_res : res s (k_maps s) (pdevs s (L ctrl_list));
  mi_wf i m : k_maps s !! i = Some m -> wf_map (pdevs s (L ctrl_list)) m;
  mi_few : (length (L ctrl_list) <= 64)%nat;
  mi_kind i m ps : i ∈ L device_list -> k_maps s !! i = Some m -> km_data m <> Pages ps
}.

(** ** Rules *)

Lemma wp_on_nodes {A} (m : ST store A) (Q : A -> kmod -> Prop) s :
  wp m (fun a n => Q a (set_nodes s n)) (k_nodes s) -> wp (on_nodes m) Q s.
Proof. intros (a & n & E & H)%wp_total. eapply wp_eq; [|exact H]. unfold on_nodes. by rewrite E. Qed.

(** The outcome is one of those to come, and the ones left are among them. *)
Lemma wp_kattempt (Q : Z -> kmod -> Prop) s :
  (forall e l, (e <> 0 -> e ∈ k_faults s) -> (forall x, x ∈ l -> x ∈ k_faults s) -> Q e (set_kfaults s l)) -> wp attempt Q s.
Proof.
  intros H. destruct (k_faults s) as [|e l] eqn:E.
  - eapply wp_eq; [unfold attempt; by rewrite E|]. specialize (H 0 []). destruct s; cbn in *; subst. by apply H.
  - eapply wp_eq; [unfold attempt; by rewrite E|]. apply H; set_solver.
Qed.

Lemma wp_dma_attempt (Q : Z -> kmod -> Prop) s : k_dma_faults s = [] -> Q 0 s -> wp dma_attempt Q s.
Proof. intros E H. eapply wp_eq; [|exact H]. unfold dma_attempt. by rewrite E. Qed.

Lemma wp_kfresh (Q : nat -> kmod -> Prop) s : Q (k_next s) (set_knext s (S (k_next s))) -> wp fresh Q s.
Proof. by apply wp_eq. Qed.

Ltac kproj := cbn [k_nodes k_ctrls k_maps k_pins k_dma k_tables k_p2p k_regions k_enabled k_masters k_devs k_bound
  k_curr_ctrls k_next k_faults k_setup k_dma_faults k_kfreed k_unheld set_nodes set_kctrls set_kmaps set_pins set_dma set_tables set_p2p
  set_regions set_enabled set_masters set_kdevs set_bound set_curr set_knext set_kfaults set_setup set_dma_faults set_kfreed set_unheld fst snd].

Ltac km_step :=
  lazymatch goal with
  | |- wp (mret _) _ _ => apply wp_ret
  | |- wp (_ ≫= _) _ _ => apply wp_bind
  | |- wp st_get _ _ => apply wp_st_get
  | |- wp (st_modify _) _ _ => apply wp_st_modify
  | |- wp attempt _ _ => let Fe := fresh "Fe" in let Fl := fresh "Fl" in apply wp_kattempt; intros ? ? Fe Fl
  | |- wp fresh _ _ => apply wp_kfresh
  | |- wp (on_nodes _) _ _ => apply wp_on_nodes
  | |- wp (if ?b then _ else _) _ _ => destruct b eqn:?; try discriminate
  end; kproj.

Ltac km_steps := repeat km_step.

Section inv.
Context {P : Platform}.

Lemma wp_map_at i m (Q : map -> kmod -> Prop) s : k_maps s !! i = Some m -> Q m s -> wp (map_at i) Q s.
Proof. intros E H. unfold map_at. km_steps. by eapply wp_deref. Qed.

(** ** Releasing host memory *)

Lemma take_out {A} `{Countable A} (X : gmultiset A) x l Y :
  X = list_to_set_disj (x :: l) ⊎ Y -> x ∈ X /\ X ∖ {[+ x +]} = list_to_set_disj l ⊎ Y.
Proof. rewrite list_to_set_disj_cons. intros ->. split; multiset_solver. Qed.

Lemma unmap_pages_spec pdev n : forall addrs s Y,
  (n <= length addrs)%nat -> k_dma s = list_to_set_disj (pair pdev <$> take n addrs) ⊎ Y ->
  wp (unmap_pages pdev addrs n) (fun _ s' => s' = set_dma s Y) s.
Proof.
  induction n as [|n IH]; intros addrs s Y Hn Ed; cbn [unmap_pages].
  - km_step. assert (k_dma s = Y) as <- by (rewrite Ed; multiset_solver). by destruct s.
  - destruct addrs as [|a addrs]; [cbn in Hn; lia|]. cbn in Hn. unfold dma_unmap_page. km_steps.
    + eapply wp_mono; [apply (IH addrs _ Y)|by intros ? ? ->]; [lia|kproj; by apply take_out].
    + apply bool_decide_eq_false in Heqb. destruct Heqb. by apply take_out in Ed as [? _].
Qed.

Lemma put_pages_spec n : forall pages s Y,
  length pages = n -> k_pins s = list_to_set_disj pages ⊎ Y ->
  wp (put_pages pages n) (fun _ s' => s' = set_pins s Y) s.
Proof.
  induction n as [|n IH]; intros [|p pages] s Y Hn Ed; try done; cbn [put_pages].
  - km_step. assert (k_pins s = Y) as <- by (rewrite Ed; multiset_solver). by destruct s.
  - unfold put_page. km_steps.
    + eapply wp_mono; [apply (IH pages _ Y)|by intros ? ? ->]; [by injection Hn|kproj; by apply take_out].
    + apply bool_decide_eq_false in Heqb. destruct Heqb. by apply take_out in Ed as [? _].
Qed.

Lemma release_user_pages_spec i m ps s X Y :
  k_maps s !! i = Some m -> km_data m = Pages ps -> Z.of_nat (length ps) = km_n_addrs m ->
  (length ps <= length (km_addrs m))%nat ->
  k_pins s = list_to_set_disj ps ⊎ X -> k_dma s = list_to_set_disj (bus_of m) ⊎ Y ->
  wp (release_user_pages i) (fun _ s' =>
    s' = set_kmaps (set_pins (set_dma s Y) X) (<[i := with_data m NoData]> (k_maps s))) s.
Proof.
  intros Hm Hd Hn Hl HX HY. unfold bus_of in HY. rewrite Hd in HY.
  replace (Z.to_nat (km_n_addrs m)) with (length ps) in * by lia.
  unfold release_user_pages. km_step. eapply wp_map_at; [done|]. rewrite Hd. replace (Z.to_nat (km_n_addrs m)) with (length ps) by lia.
  km_step. eapply wp_mono; [by apply (unmap_pages_spec _ _ _ _ Y)|]. intros _ ? ->.
  km_step. eapply wp_mono; [by apply (put_pages_spec _ _ _ X)|]. intros _ ? ->. unfold upd_map. by km_steps.
Qed.

(** ** Walking a list *)

Lemma list_loop_spec {V} l (body : nat -> V -> K (V * bool)) (I : list nat -> V -> kmod -> Prop) (Q : V -> kmod -> Prop) zs :
  forall xs fuel v s,
  linked (k_nodes s) l (xs ++ zs) -> (length zs <= fuel)%nat -> I xs v s ->
  (forall ys z ws v s, xs ++ zs = ys ++ z :: ws -> I ys v s ->
     wp (body z v) (fun r s' => k_nodes s' = k_nodes s /\ if snd r : bool then I (ys ++ [z]) (fst r) s' else Q (fst r) s') s) ->
  (forall v s, I (xs ++ zs) v s -> Q v s) ->
  wp (list_loop fuel (head (Elem <$> zs)) body v) Q s.
Proof.
  induction zs as [|z zs IH]; intros xs fuel v s Hl Hf HI Hb HQ.
  - destruct fuel; apply wp_ret, HQ; by rewrite app_nil_r.
  - destruct fuel as [|fuel]; [cbn in Hf; lia|]. cbn [head fmap list_fmap list_loop]. km_step.
    eapply wp_mono; [by apply (Hb xs z zs)|]. intros [v' b] s' [Hn H]. cbn [fst snd] in *.
    destruct b; [|by km_step]. do 2 km_step.
    assert (Hl' : linked (k_nodes s') l ((xs ++ [z]) ++ zs)) by (by rewrite Hn, <- app_assoc).
    eapply wp_mono; [apply (list_next_spec _ l (xs ++ [z]) (Elem z) (Head l :: (Elem <$> xs)) zs Hl'); by rewrite fmap_app|].
    intros r n [-> ->]. replace (set_nodes s' (k_nodes s')) with s' by (by destruct s').
    apply (IH (xs ++ [z])); [done|cbn in Hf; lia|done|..]; rewrite <- app_assoc; done.
Qed.

Lemma list_walk_spec {V} l (body : nat -> V -> K (V * bool)) (I : list nat -> V -> kmod -> Prop) (Q : V -> kmod -> Prop) xs v s :
  linked (k_nodes s) l xs -> I [] v s ->
  (forall ys z ws v s, xs = ys ++ z :: ws -> I ys v s ->
     wp (body z v) (fun r s' => k_nodes s' = k_nodes s /\ if snd r : bool then I (ys ++ [z]) (fst r) s' else Q (fst r) s') s) ->
  (forall v s, I xs v s -> Q v s) ->
  wp (list_walk l body v) Q s.
Proof.
  intros Hl HI Hb HQ. unfold list_walk. km_steps.
  eapply wp_mono; [by apply (list_next_spec _ l [] (Head l) [] xs)|]. intros r n [-> ->].
  replace (set_nodes s (k_nodes s)) with s by (by destruct s).
  apply (list_loop_spec l body I Q xs []); [done|by eapply linked_size|done..].
Qed.

(** ** Releasing device memory *)

Lemma unmap_gpu_spec topt t mids cs s Y :
  (mids <> [] -> topt = Some t) ->
  linked (k_nodes s) ctrl_list cs -> (forall c, c ∈ cs -> is_Some (k_ctrls s !! c)) -> (length cs <= 64)%nat ->
  (length mids <= length cs)%nat ->
  map_to_list (k_p2p s) ≡ₚ zip_with (fun mid d => (mid, (d, t))) mids (pdevs s cs) ++ Y ->
  wp (unmap_gpu topt ((Some <$> mids) ++ repeat None (64 - length mids))) (fun _ s' =>
    exists p, s' = set_p2p s p /\ map_to_list p ≡ₚ Y) s.
Proof.
  intros Ht Hl Hc H64 Hm Hp. set (L := zip_with _ _ _) in Hp.
  assert (HL : length L = length mids) by (unfold L, pdevs; rewrite length_zip_with, length_fmap; lia).
  unfold unmap_gpu. km_step.
  eapply (list_walk_spec ctrl_list _ (fun ys j s' => j = (length ys `min` length mids)%nat /\
    exists p, s' = set_p2p s p /\ map_to_list p ≡ₚ drop j L ++ Y)); [done|..].
  - split; [done|]. exists (k_p2p s). split; [by destruct s|done].
  - intros ys z ws j s' E (-> & p & -> & Hperm). subst cs.
    assert (Hlen : (length ys < 64)%nat) by (rewrite length_app in H64; cbn in H64; lia).
    destruct (Hc z) as [k Hk]; [set_solver|]. cbn beta. km_steps. eapply wp_deref; [done|]. km_step.
    destruct (decide (length ys < length mids)%nat) as [Hlt|Hge].
    + rewrite Nat.min_l in * by lia. destruct (lookup_lt_is_Some_2 mids (length ys) Hlt) as [mid Hmid].
      eapply wp_deref; [rewrite lookup_app_l by (by rewrite length_fmap); by rewrite list_lookup_fmap, Hmid|].
      assert (HLj : L !! length ys = Some (mid, (kc_pdev k, t))).
      { unfold L, pdevs. rewrite lookup_zip_with, Hmid. cbn. rewrite list_lookup_fmap, list_lookup_middle by done. cbn. by rewrite Hk. }
      rewrite (drop_S _ _ _ HLj) in Hperm. cbv match. km_step.
      eapply wp_deref; [apply Ht; intros ->; by cbn in Hlt; lia|]. km_step. unfold nvidia_p2p_dma_unmap_pages.
      assert (Hlk : p !! mid = Some (kc_pdev k, t)) by (apply elem_of_map_to_list; rewrite Hperm; by left).
      km_steps; [|by rewrite bool_decide_true in *]. split; [done|]. rewrite length_app. cbn [length].
      split; [lia|]. eexists. split; [done|].
      apply (Permutation_cons_inv (a := (mid, (kc_pdev k, t)))). by rewrite (map_to_list_delete _ _ _ Hlk).
    + rewrite Nat.min_r in * by lia. eapply wp_deref.
      { rewrite lookup_app_r by (by rewrite length_fmap). rewrite length_fmap, Nat.sub_diag.
        destruct (64 - length mids)%nat eqn:E; [lia|]. done. }
      km_steps. split; [done|]. rewrite length_app. cbn [length]. split; [cbn; lia|]. by exists p.
  - intros j s' (-> & p & -> & Hperm). km_step. exists p. split; [done|].
    rewrite Nat.min_r, <- HL, drop_all in Hperm by lia. done.
Qed.

(** Only the resources and mappings differ. *)
Definition res_only (s s' : kmod) : Prop :=
  s' = set_kmaps (set_p2p (set_tables (set_dma (set_pins s (k_pins s')) (k_dma s')) (k_tables s')) (k_p2p s')) (k_maps s').

Lemma omap_some {A} (l : list A) n : omap id ((Some <$> l) ++ repeat None n) = l.
Proof.
  rewrite omap_app. transitivity (l ++ []); [|by rewrite app_nil_r]. f_equal.
  - induction l; cbn; [done|by f_equal].
  - by induction n.
Qed.

(** What [release_gpu_memory] and [force_release_gpu_memory] do with a region. *)
Lemma release_region_spec i m gd s cs Y Z :
  km_data m = Gpu gd -> wf_map (pdevs s cs) m ->
  linked (k_nodes s) ctrl_list cs -> (forall c, c ∈ cs -> is_Some (k_ctrls s !! c)) -> (length cs <= 64)%nat ->
  map_to_list (k_p2p s) ≡ₚ p2p_of (pdevs s cs) m ++ Y -> map_to_list (k_tables s) ≡ₚ table_of m ++ Z ->
  wp (unmap_gpu (gd_pages gd) (gd_mappings gd);;
      (match gd_pages gd with Some t => nvidia_p2p_put_pages t | None => mret tt end);;
      upd_map i (with_data m NoData)) (fun _ s' => exists p t,
    s' = set_kmaps (set_tables (set_p2p s p) t) (<[i := with_data m NoData]> (k_maps s)) /\
    map_to_list p ≡ₚ Y /\ map_to_list t ≡ₚ Z) s.
Proof.
  intros Hd W Hl Hc H64 HY HZ. unfold wf_map in W. rewrite Hd in W. destruct W as (_ & mids & Em & Hlen & Hnone).
  destruct gd as [t ms]. cbn in Em, Hnone. subst ms. unfold p2p_of, table_of in *. rewrite Hd in HY, HZ.
  cbn [gd_pages gd_mappings]. km_step.
  pose proof (omap_some mids (64 - length mids)) as Eo.
  eapply wp_mono; [apply (unmap_gpu_spec t (default 0%nat t) mids cs s Y); try done|].
  - destruct t; [done|]. intros []. by apply Hnone.
  - unfold pdevs in Hlen. by rewrite length_fmap in Hlen.
  - destruct t; [by rewrite Eo in HY|]. rewrite (Hnone eq_refl). done.
  - intros _ ? (p & -> & Hp). km_step. destruct t as [t|].
    + unfold nvidia_p2p_put_pages. km_steps. assert (k_tables s !! t = Some (km_n_addrs m)) as Ht.
      { apply elem_of_map_to_list. rewrite HZ. by left. }
      eapply wp_deref; [exact Ht|]. unfold upd_map. km_steps. eexists _, _. split_and!; [reflexivity|done|].
      apply (Permutation_cons_inv (a := (t, km_n_addrs m))). by rewrite (map_to_list_delete _ _ _ Ht).
    + unfold upd_map. km_steps. exists p, (k_tables s). split_and!; [by destruct s|done|done].
Qed.

Lemma release_gpu_memory_spec i m gd s cs Y Z :
  k_maps s !! i = Some m -> km_data m = Gpu gd -> wf_map (pdevs s cs) m ->
  linked (k_nodes s) ctrl_list cs -> (forall c, c ∈ cs -> is_Some (k_ctrls s !! c)) -> (length cs <= 64)%nat ->
  map_to_list (k_p2p s) ≡ₚ p2p_of (pdevs s cs) m ++ Y -> map_to_list (k_tables s) ≡ₚ table_of m ++ Z ->
  wp (release_gpu_memory i) (fun _ s' => exists p t,
    s' = set_kmaps (set_tables (set_p2p s p) t) (<[i := with_data m NoData]> (k_maps s)) /\
    map_to_list p ≡ₚ Y /\ map_to_list t ≡ₚ Z) s.
Proof.
  intros Hm Hd. intros. unfold release_gpu_memory. km_step. eapply wp_map_at; [done|]. rewrite Hd. by eapply release_region_spec.
Qed.

(** A mapping without data holds nothing. *)
Lemma res_no_data s ms i m pds : ms !! i = Some m -> km_data m = NoData -> res s ms pds <-> res s (delete i ms) pds.
Proof.
  intros Hm Hd. assert (E : forall A (f : map -> list A), f m = [] -> gather f ms ≡ₚ gather f (delete i ms)).
  { intros A f Hf. rewrite (gather_delete f ms i m Hm). by rewrite Hf. }
  split; intros [R1 R2 R3 R4]; split; first [rewrite R1|rewrite R2|rewrite R3|rewrite R4]; first
    [apply list_to_set_disj_perm; (rewrite E || rewrite <- E); [done|]; unfold pages_of, bus_of; by rewrite Hd
    |(rewrite E || rewrite <- E); [done|]; unfold table_of, p2p_of; by rewrite Hd].
Qed.

(** What one mapping holds, and the rest. *)
Lemma res_split s ms i m pds : res s ms pds -> ms !! i = Some m ->
  k_pins s = list_to_set_disj (pages_of m) ⊎ list_to_set_disj (gather pages_of (delete i ms)) /\
  k_dma s = list_to_set_disj (bus_of m) ⊎ list_to_set_disj (gather bus_of (delete i ms)) /\
  map_to_list (k_tables s) ≡ₚ table_of m ++ gather table_of (delete i ms) /\
  map_to_list (k_p2p s) ≡ₚ p2p_of pds m ++ gather (p2p_of pds) (delete i ms).
Proof.
  intros [R1 R2 R3 R4] Hm. rewrite R1, R2, R3, R4, <- !list_to_set_disj_app.
  rewrite <- !(gather_delete _ _ _ _ Hm). split_and!; try done; by apply list_to_set_disj_perm, gather_delete.
Qed.

(** The release callback returns what the mapping holds. *)
Lemma release_spec i m s cs :
  k_maps s !! i = Some m -> wf_map (pdevs s cs) m -> linked (k_nodes s) ctrl_list cs ->
  (forall c, c ∈ cs -> is_Some (k_ctrls s !! c)) -> (length cs <= 64)%nat -> res s (k_maps s) (pdevs s cs) ->
  wp (match km_release m, km_data m with
      | None, _ | _, NoData => mret tt
      | Some release_user_pages_cb, _ => release_user_pages i
      | Some release_gpu_memory_cb, _ => release_gpu_memory i
      end) (fun _ s' => res_only s s' /\ delete i (k_maps s') = delete i (k_maps s) /\
        res s' (delete i (k_maps s)) (pdevs s cs)) s.
Proof.
  intros Hm W Hl Hc H64 R. pose proof W as W'. destruct (res_split _ _ _ _ _ R Hm) as (R1 & R2 & R3 & R4).
  assert (Hnone : km_data m = NoData -> res_only s s /\ delete i (k_maps s) = delete i (k_maps s) /\ res s (delete i (k_maps s)) (pdevs s cs)).
  { intros Hd. split_and!; [by destruct s|done|exact (proj1 (res_no_data s _ i m _ Hm Hd) R)]. }
  unfold wf_map in W. destruct (km_data m) as [|ps|gd] eqn:Hd.
  - destruct (km_release m) as [[]|]; apply wp_ret, Hnone; done.
  - destruct W as (-> & Hn & Ha). unfold pages_of in R1. rewrite Hd in R1.
    eapply wp_mono; [by eapply (release_user_pages_spec i m ps s)|]. intros _ s' ->.
    split_and!; [by destruct s|by cbn; rewrite delete_insert_eq|].
    unfold table_of, p2p_of in R3, R4. rewrite Hd in R3, R4. by split.
  - destruct W as (-> & _). eapply wp_mono; [by eapply (release_gpu_memory_spec i m gd s cs)|].
    intros _ s' (p & t & -> & Hp & Ht). split_and!; [by destruct s|by cbn; rewrite delete_insert_eq|].
    unfold pages_of, bus_of in R1, R2. rewrite Hd in R1, R2. split; kproj; [rewrite R1|rewrite R2|done|done]; multiset_solver.
Qed.

(** What the mapping operations leave alone. *)
Record same_rest (s s' : kmod) : Prop := {
  sr_ctrls : k_ctrls s' = k_ctrls s;
  sr_regions : k_regions s' = k_regions s;
  sr_enabled : k_enabled s' = k_enabled s;
  sr_masters : k_masters s' = k_masters s;
  sr_devs : k_devs s' = k_devs s;
  sr_bound : k_bound s' = k_bound s;
  sr_curr : k_curr_ctrls s' = k_curr_ctrls s;
  sr_setup : k_setup s' = k_setup s;
  sr_dma_faults : k_dma_faults s' = k_dma_faults s;
  sr_unheld : k_unheld s' = k_unheld s;
  sr_faults e : e ∈ k_faults s' -> e ∈ k_faults s
}.

Lemma res_only_rest s s' : res_only s s' -> same_rest s s' /\ k_nodes s' = k_nodes s /\ k_next s' = k_next s.
Proof. intros E. split_and!; [split|..]; rewrite E; done. Qed.

Lemma unmap_and_release_spec i m s cs (N : store -> Prop) :
  k_maps s !! i = Some m -> wf_map (pdevs s cs) m ->
  (forall c, c ∈ cs -> is_Some (k_ctrls s !! c)) -> (length cs <= 64)%nat -> res s (k_maps s) (pdevs s cs) ->
  wp (list_remove (Some (Elem i))) (fun _ n => linked n ctrl_list cs /\ N n) (k_nodes s) ->
  wp (unmap_and_release i) (fun _ s' => exists n, N n /\ k_nodes s' = delete (Elem i) n /\
    k_maps s' = delete i (k_maps s) /\ res s' (k_maps s') (pdevs s cs) /\ same_rest s s' /\ k_next s' = k_next s) s.
Proof.
  intros Hm W Hc H64 R Hn. unfold unmap_and_release. do 2 km_step. eapply wp_mono; [exact Hn|]. cbn beta.
  intros _ n [Hl HN]. km_step. eapply wp_map_at; [done|]. km_step.
  eapply wp_mono; [apply (release_spec i m (set_nodes s n) cs); try done; by destruct R|].
  intros _ s' ([[] [E1 E2]]%res_only_rest & Em & [R1 R2 R3 R4]). km_steps. exists n.
  split_and!; [done|by kproj; rewrite E1|done|rewrite Em; by split|by split|done].
Qed.

#[export] Instance same_rest_preorder : PreOrder same_rest.
Proof. split; [by split|]. intros s1 s2 s3 [] []. split; try congruence. auto. Qed.

(** Tables and DMA mappings are those of the mappings, so giving some back adds none. *)
Lemma res_fewer s s' i pds :
  res s (k_maps s) pds -> k_maps s' = delete i (k_maps s) -> res s' (k_maps s') pds ->
  forall a, (k_tables s !! a = None -> k_tables s' !! a = None) /\ (k_p2p s !! a = None -> k_p2p s' !! a = None).
Proof.
  intros [_ _ T P'] E [_ _ T' P''] a. rewrite E in T', P''.
  assert (G : forall A (f : map -> list A) x, x ∈ gather f (delete i (k_maps s)) -> x ∈ gather f (k_maps s)).
  { intros A f x. destruct (k_maps s !! i) as [m|] eqn:Em; [|by rewrite delete_id].
    rewrite (gather_delete f _ _ _ Em). set_solver. }
  split; rewrite !eq_None_not_Some; intros H [x Hx]; apply H; exists x; apply elem_of_map_to_list.
  - rewrite T. apply G. rewrite <- T'. by apply elem_of_map_to_list.
  - rewrite P'. apply G. rewrite <- P''. by apply elem_of_map_to_list.
Qed.

Lemma pdevs_same s s' cs : k_ctrls s' = k_ctrls s -> pdevs s' cs = pdevs s cs.
Proof. unfold pdevs. by intros ->. Qed.

Lemma ins_other (L : klist -> list nat) l xs l' : l <> l' -> <[l := xs]> L l' = L l'.
Proof. apply fn_lookup_insert_ne. Qed.

(** The invariant after a mapping has gone. *)
Lemma mod_inv_gone s s' L L' i pend pend' :
  mod_inv s L pend -> lists (k_nodes s') L' -> L' ctrl_list = L ctrl_list -> (forall l j, j ∈ L' l -> j ∈ L l) ->
  (forall j, j ∈ L' host_list \/ j ∈ L' device_list \/ j ∈ pend' <->
     (j ∈ L host_list \/ j ∈ L device_list \/ j ∈ pend) /\ j <> i) ->
  (forall j, j ∈ pend' -> j ∈ pend /\ k_nodes s' !! Elem j = k_nodes s !! Elem j) ->
  k_maps s' = delete i (k_maps s) -> res s' (k_maps s') (pdevs s (L ctrl_list)) -> same_rest s s' -> k_next s' = k_next s ->
  mod_inv s' L' pend'.
Proof.
  intros [I1 I2 I3 I4 I5 I6 I7 I8 I9] Hl Hc Hsub Hm Hp Em R SR En. pose proof (sr_ctrls _ _ SR) as Ec.
  split; rewrite ?Hc; rewrite ?(pdevs_same s s' _ Ec); try done.
  - by rewrite Ec.
  - intros j. rewrite Hm, Em, <- I3. destruct (decide (i = j)) as [->|].
    + rewrite lookup_delete_eq. split; [by intros []|by intros []].
    + rewrite lookup_delete_ne by done. naive_solver.
  - intros j Hj. apply Hp in Hj as [Hj ->]. rewrite En. destruct (I4 _ Hj) as (? & ? & ?). split_and!; [done..|]. naive_solver.
  - intros j Hj. rewrite En in Hj. destruct (I5 _ Hj) as (? & Ht & Hp2). destruct (res_fewer s s' i _ I6 Em R j).
    split_and!; [naive_solver|auto|auto].
  - intros j m Hj. rewrite Em in Hj. apply lookup_delete_Some in Hj as [_ Hj]. by apply (I7 j).
  - intros j m ps Hi Hj. rewrite Em in Hj. apply lookup_delete_Some in Hj as [_ Hj]. by apply (I9 j m ps (Hsub _ _ Hi)).
Qed.

Lemma unmap_linked l i s L :
  mod_inv s L [] -> l <> ctrl_list -> i ∈ L l ->
  wp (unmap_and_release i) (fun _ s' => exists xs ys, L l = xs ++ i :: ys /\
    mod_inv s' (<[l := xs ++ ys]> L) [] /\ same_rest s s' /\ k_maps s' = delete i (k_maps s)) s.
Proof.
  intros I Hne Hi. pose proof I as [I1 I2 I3 I4 I5 I6 I7 I8]. destruct (list_elem_of_split _ _ Hi) as (xs & ys & E).
  assert (is_Some (k_maps s !! i)) as [m Hm] by (apply I3; destruct l; naive_solver).
  eapply wp_mono.
  { eapply (unmap_and_release_spec i m s (L ctrl_list)); [done|by eapply I7|intros c; apply I2|done|done|].
    eapply wp_mono; [by apply (lists_remove _ L l xs i ys)|]. cbn beta. intros _ n [Hl _].
    split; [|exact Hl]. pose proof (ls_linked _ _ Hl ctrl_list) as Hc. by rewrite ins_other in Hc. }
  cbn beta. intros _ s' (n & Hl & En & Em & R & SR & Ex). exists xs, ys. split_and!; try done.
  pose proof (ls_linked _ _ I1 l) as Hnd. apply lk_nodup in Hnd. rewrite E in Hnd.
  apply list.NoDup_app in Hnd as (_ & N1 & N2). apply list.NoDup_cons in N2 as [N2 _].
  assert (Ni : i ∉ xs ++ ys) by (rewrite elem_of_app; intros [H|H]; [apply (N1 i H); by left|done]).
  assert (S : forall l' j, j ∈ <[l := xs ++ ys]> L l' <-> j ∈ L l' /\ j <> i).
  { intros l' j. destruct (decide (l = l')) as [<-|Hl'].
    - rewrite fn_lookup_insert, E. set_solver.
    - rewrite ins_other by done. split; [|by intros []]. intros Hj. split; [done|]. intros ->. by destruct (ls_disj _ _ I1 l l' i). }
  eapply (mod_inv_gone s s' L _ i [] []); try done.
  - rewrite En. apply (lists_node n _ _ i); [done|..]; [|by intros; rewrite lookup_delete_ne].
    intros l' H%S. naive_solver.
  - by rewrite ins_other.
  - intros l' j H%S. naive_solver.
  - intros j. rewrite !S. set_solver.
  - set_solver.
Qed.

Lemma unmap_pending i s L :
  mod_inv s L [i] -> wp (unmap_and_release i) (fun _ s' => mod_inv s' L [] /\ same_rest s s' /\ k_maps s' = delete i (k_maps s)) s.
Proof.
  intros I. pose proof I as [I1 I2 I3 I4 I5 I6 I7 I8]. destruct (I4 i) as (Hn & Hlt & Hi); [by left|].
  assert (is_Some (k_maps s !! i)) as [m Hm] by (apply I3; set_solver).
  eapply wp_mono.
  { eapply (unmap_and_release_spec i m s (L ctrl_list) (fun n => n = k_nodes s)); [done|by eapply I7|intros c; apply I2|done|done|].
    eapply wp_mono; [by apply list_remove_null|]. cbn beta. intros _ n ->. split; [by apply ls_linked|done]. }
  cbn beta. intros _ s' (n & -> & En & Em & R & SR & Ex). split; [|done].
  eapply (mod_inv_gone s s' L L i [i] []); try done.
  - rewrite En. apply (lists_node (k_nodes s) _ _ i); [done..|]. by intros; rewrite lookup_delete_ne.
  - intros j. rewrite list_elem_of_singleton. split; [|naive_solver].
    intros H. split; [set_solver|]. intros ->. destruct H as [H|[H|H]]; [by apply (Hi host_list)|by apply (Hi device_list)|set_solver].
  - set_solver.
Qed.
End inv.
End KInv.
