(* ===== verification/KModuleMap.v ===== *)
(** Making mappings in the kernel module ([src/module/map.c]): what [map_userspace] and
    [map_device_memory] leave behind when they succeed and when they fail. *)
From Stdlib Require Import ZArith Lia List Bool.
From stdpp Require Import base list gmap gmultiset fin_maps functions.
From S2P Require Import Prelude Exec NvmQueue Host KList KModule KModuleInv.
Import KList KModule KInv.

Import ListNotations.
Local Open Scope Z_scope.

Module KMapping.
Section mapping.
Context {P : Platform}.

(** ** Small changes of the state *)

Lemma mod_inv_ext s s' L pend :
  k_nodes s' = k_nodes s -> k_ctrls s' = k_ctrls s -> k_maps s' = k_maps s -> k_pins s' = k_pins s -> k_dma s' = k_dma s ->
  k_tables s' = k_tables s -> k_p2p s' = k_p2p s -> k_next s' = k_next s -> mod_inv s L pend -> mod_inv s' L pend.
Proof.
  intros E1 E2 E3 E4 E5 E6 E7 E8 [I1 I2 I3 I4 I5 [R1 R2 R3 R4] I7 I8 I9].
  split; rewrite ?(pdevs_same s s' _ E2), ?E1, ?E2, ?E3, ?E6, ?E7, ?E8; try done.
  split; by rewrite ?E4, ?E5, ?E6, ?E7.
Qed.

Lemma mod_inv_faults s L pend l : mod_inv s L pend -> mod_inv (set_kfaults s l) L pend.
Proof. intros I. eapply mod_inv_ext; [..|exact I]; done. Qed.

Lemma rest_faults s l : (forall x, x ∈ l -> x ∈ k_faults s) -> same_rest s (set_kfaults s l).
Proof. by split. Qed.

(** Only the mapping [i] is new or changed. *)
Definition only (i : nat) (s s' : kmod) : Prop := exists m, k_maps s' = <[i := m]> (k_maps s).

Lemma only_same i m s s' : k_maps s !! i = Some m -> k_maps s' = k_maps s -> only i s s'.
Proof. intros Hm E. exists m. by rewrite E, insert_id. Qed.

Lemma only_trans i s1 s2 s3 : only i s1 s2 -> only i s2 s3 -> only i s1 s3.
Proof. intros [m E] [m' E']. exists m'. by rewrite E', E, insert_insert_eq. Qed.

Lemma only_gone i s s' s'' : k_maps s !! i = None -> only i s s' -> k_maps s'' = delete i (k_maps s') -> k_maps s'' = k_maps s.
Proof. intros Hn [m E] E'. by rewrite E', E, delete_insert_id. Qed.

(** Some call to come fails, or is served in part. *)
Definition faulty (s : kmod) : Prop := exists e, e <> 0 /\ e ∈ k_faults s.

Lemma faulty_here e s : negb (e =? 0) = true -> (e <> 0 -> e ∈ k_faults s) -> faulty s.
Proof. intros He%negb_true_iff%Z.eqb_neq H. exists e. auto. Qed.

Lemma faulty_rest s s' : same_rest s s' -> faulty s' -> faulty s.
Proof. intros SR (e & He & Hin). exists e. split; [done|by apply SR]. Qed.

(** The error of a failed mapping request: too few pages asked for, no memory, or what the
    call that obtains the pages reported: a negative number for [get_user_pages], any but 0
    for the GPU driver. *)
Definition host_error (s : kmod) (n e : Z) : Prop :=
  (n < 1 /\ e = - EINVAL) \/ (1 <= n /\ ((e = - ENOMEM /\ faulty s) \/ (e < 0 /\ e ∈ k_faults s))).
Definition device_error (s : kmod) (n e : Z) : Prop :=
  (n < 1 /\ e = - EINVAL) \/ (1 <= n /\ ((e = - ENOMEM /\ faulty s) \/ (e <> 0 /\ e ∈ k_faults s))).

Lemma host_error_rest s s' n e : same_rest s s' -> host_error s' n e -> host_error s n e.
Proof. intros SR. pose proof (faulty_rest _ _ SR). pose proof (sr_faults _ _ SR e). unfold host_error. tauto. Qed.

Lemma device_error_rest s s' n e : same_rest s s' -> device_error s' n e -> device_error s n e.
Proof. intros SR. pose proof (faulty_rest _ _ SR). pose proof (sr_faults _ _ SR e). unfold device_error. tauto. Qed.

(** The pending mapping changes, and the resources with it. *)
Lemma pend_update s s' L i m :
  mod_inv s L [i] -> k_nodes s' = k_nodes s -> k_ctrls s' = k_ctrls s -> k_maps s' = <[i := m]> (k_maps s) ->
  (k_next s <= k_next s')%nat ->
  (forall a, (k_next s' <= a)%nat -> k_tables s' !! a = None /\ k_p2p s' !! a = None) ->
  res s' (k_maps s') (pdevs s (L ctrl_list)) -> wf_map (pdevs s (L ctrl_list)) m -> mod_inv s' L [i].
Proof.
  intros [I1 I2 I3 I4 I5 I6 I7 I8 I9] En Ec Em Hx Hb R W.
  split; rewrite ?En, ?Ec, ?(pdevs_same s s' _ Ec); try done.
  - intros j. rewrite Em, lookup_insert_is_Some, I3. set_solver.
  - intros j Hj. destruct (I4 j Hj) as (? & ? & ?). split_and!; [done|lia|done].
  - intros a Ha. split; [|by apply Hb]. apply I5. lia.
  - intros j m'. rewrite Em, lookup_insert_Some. intros [[<- <-]|[_ H]]; [done|by apply (I7 j)].
  - intros j m' ps Hj. rewrite Em, lookup_insert_Some. intros [[<- _]|[_ H]]; [|by apply (I9 j m' ps)].
    destruct (I4 i) as (_ & _ & Hn); [by left|]. by destruct (Hn device_list).
Qed.

(** One that keeps what it holds. *)
Lemma pend_same s L i m m' :
  mod_inv s L [i] -> k_maps s !! i = Some m -> km_data m = NoData -> km_data m' = NoData ->
  mod_inv (set_kmaps s (<[i := m']> (k_maps s))) L [i].
Proof.
  intros I Hm Hd Hd'. eapply (pend_update s _ L i m'); try done.
  - intros a Ha. by apply (mi_below _ _ _ I).
  - kproj. apply (res_no_data _ _ i m'); [by rewrite lookup_insert_eq|done|]. rewrite delete_insert_eq.
    pose proof (proj1 (res_no_data s _ i m _ Hm Hd) (mi_res _ _ _ I)) as []. by split.
  - unfold wf_map. by rewrite Hd'.
Qed.

(** The new mapping goes into the list of its kind. *)
Lemma pend_insert s L i l :
  mod_inv s L [i] -> l <> ctrl_list -> (l = device_list -> forall m ps, k_maps s !! i = Some m -> km_data m <> Pages ps) ->
  wp (on_nodes (list_insert l (Elem i))) (fun _ s' =>
    mod_inv s' (<[l := L l ++ [i]]> L) [] /\ same_rest s s' /\ k_maps s' = k_maps s) s.
Proof.
  intros I Hne Hk. pose proof I as [I1 I2 I3 I4 I5 I6 I7 I8 I9]. destruct (I4 i) as (Hn & Hlt & Hi); [by left|].
  km_step. eapply wp_mono; [apply (lists_insert _ L l i); try done|]. cbn beta. intros _ n [Hl _].
  split_and!; [|by split|done].
  assert (S : forall l' j, j ∈ <[l := L l ++ [i]]> L l' <-> j ∈ L l' \/ (l' = l /\ j = i)).
  { intros l' j. destruct (decide (l = l')) as [<-|Hl']; [rewrite fn_lookup_insert; set_solver|]. rewrite ins_other by done. naive_solver. }
  split; kproj; rewrite ?(ins_other _ l _ ctrl_list) by done; try done.
  - intros j. rewrite !S, I3. rewrite list_elem_of_singleton. destruct l; set_solver.
  - set_solver.
  - intros a Ha. destruct (I5 a Ha) as (Hnot & ? & ?). split_and!; [|done..]. intros l' [Hin|[-> ->]]%S; [by apply (Hnot l')|lia].
  - by destruct I6.
  - intros j m ps [Hj|[<- ->]]%S Hm; [by eapply I9|by apply Hk].
Qed.

(** ** [create_descriptor] *)

Lemma descriptor_size n : 1 <= n < 2 ^ 60 -> u64 (sizeof_map + u64 (u64 (n - 1) * 8)) = addrs_offset + n * 8.
Proof. intros Hn. unfold sizeof_map, addrs_offset. rewrite (u64_id (n - 1)), (u64_id (_ * 8)), u64_id; unfold is_word; lia. Qed.

Lemma create_descriptor_spec task c vaddr n s L k :
  mod_inv s L [] -> k_ctrls s !! c = Some k -> 1 <= n < 2 ^ 60 ->
  wp (create_descriptor task c vaddr n) (fun r s' => same_rest s s' /\
    match r with
    | inl e => (e = - ENOMEM /\ faulty s) /\ mod_inv s' L [] /\ k_maps s' = k_maps s
    | inr i => mod_inv s' L [i] /\ k_maps s !! i = None /\ only i s s' /\
        k_maps s' !! i = Some (MkKmap task vaddr (kc_pdev k) 0 NoData None n (repeat 0 (Z.to_nat n)))
    end) s.
Proof.
  intros I Hk Hn. pose proof I as [I1 I2 I3 I4 I5 I6 I7 I8 I9]. unfold create_descriptor. do 3 km_step.
  { km_step. split; [by apply rest_faults|]. split; [split; [done|by eapply faulty_here]|]. split; [by apply mod_inv_faults|done]. }
  km_steps. eapply wp_deref; [exact Hk|]. rewrite descriptor_size by done. rewrite Z.ltb_irrefl.
  do 4 km_step. unfold list_node_init. kproj. apply wp_st_modify. unfold upd_map. km_steps.
  split; [by split|]. set (i := k_next s) in *.
  destruct (I5 i) as (Hi & _); [lia|].
  assert (Hni : k_maps s !! i = None).
  { apply eq_None_not_Some. rewrite I3. intros [H|[H|H]]; [by apply (Hi host_list)|by apply (Hi device_list)|set_solver]. }
  split_and!; [|done|by eexists|apply lookup_insert_eq].
  split; kproj; try done.
  - apply (lists_node (k_nodes s) _ _ i); [done..|]. intros a Ha. by rewrite lookup_insert_ne.
  - intros j. rewrite lookup_insert_is_Some, I3. set_solver.
  - intros j ->%list_elem_of_singleton. rewrite lookup_insert_eq. split_and!; [done|lia|done].
  - intros a Ha. apply I5. lia.
  - eapply (res_no_data _ _ i); [by rewrite lookup_insert_eq|done|]. rewrite delete_insert_eq, delete_id by done. by destruct I6.
  - intros j m'. rewrite lookup_insert_Some. intros [[<- <-]|[_ H]]; [done|by apply (I7 j)].
  - intros j m' ps Hj. rewrite lookup_insert_Some. intros [[<- <-]|[_ H]]; [done|by apply (I9 j)].
Qed.

(** ** Host memory *)

(** The pages behind [q] virtual pages of a task, from the one that holds [vaddr]. *)
Definition user_pages (task vaddr q : Z) : list Z :=
  (fun j => frame task (vaddr / PAGE_SIZE + Z.of_nat j)) <$> seq 0 (Z.to_nat q).

Lemma with_addrs_id m : with_addrs m (km_addrs m) = m.
Proof. by destruct m. Qed.

Lemma map_pages_spec i pages : forall j m s,
  k_maps s !! i = Some m -> k_dma_faults s = [] -> (j + length pages <= length (km_addrs m))%nat ->
  wp (map_pages i j pages) (fun r s' => r = 0 /\
    s' = set_kmaps (set_dma s (k_dma s ⊎ list_to_set_disj (pair (km_pdev m) <$> (bus (km_pdev m) <$> pages))))
           (<[i := with_addrs m (take j (km_addrs m) ++ (bus (km_pdev m) <$> pages) ++ drop (j + length pages) (km_addrs m))]> (k_maps s))) s.
Proof.
  induction pages as [|p pages IH]; intros j m s Hm Hf Hlen; cbn [map_pages length] in *.
  - km_step. split; [done|]. cbn [fmap list_fmap]. rewrite Nat.add_0_r, app_nil_l, take_drop, with_addrs_id, insert_id by done.
    cbn. rewrite (right_id_L ∅ (⊎)). by destruct s.
  - km_step. eapply wp_map_at; [done|]. unfold dma_map_page. do 2 km_step. apply wp_dma_attempt; [done|].
    cbn [negb Z.eqb]. km_steps; [|apply Nat.ltb_ge in Heqb; lia]. unfold upd_map. km_steps. cbn [negb Z.eqb].
    eapply wp_mono; [apply (IH (S j)); [kproj; apply lookup_insert_eq|done|cbn; rewrite length_insert; lia]|].
    intros r s' [-> ->]. split; [done|]. kproj. cbn [km_addrs km_pdev with_addrs fmap list_fmap].
    rewrite insert_insert_eq, list_to_set_disj_cons.
    assert (Hj : (j < length (km_addrs m))%nat) by lia. unfold set_kmaps, set_dma. kproj. f_equal.
    + f_equal. rewrite (take_S_r _ j (bus (km_pdev m) p)) by (by rewrite list_lookup_insert_eq).
      rewrite take_insert_ge, drop_insert_lt by lia. unfold with_addrs. cbn. f_equal.
      rewrite <- app_assoc. cbn. by rewrite Nat.add_succ_r.
    + by rewrite (assoc_L (⊎)).
Qed.

Lemma map_user_pages_spec task i m s L :
  mod_inv s L [i] -> k_maps s !! i = Some m -> km_data m = NoData -> k_dma_faults s = [] ->
  1 <= km_n_addrs m -> Z.of_nat (length (km_addrs m)) = km_n_addrs m ->
  wp (map_user_pages task i) (fun r s' => same_rest s s' /\ mod_inv s' L [i] /\ only i s s' /\
    (r <> 0 -> (r = - ENOMEM /\ faulty s) \/ (r < 0 /\ r ∈ k_faults s)) /\
    (r = 0 -> exists q, 1 <= q <= km_n_addrs m /\
      k_maps s' !! i = Some (MkKmap (km_owner m) (km_vaddr m) (km_pdev m) PAGE_SIZE (Pages (user_pages task (km_vaddr m) q))
        (Some release_user_pages_cb) q
        ((bus (km_pdev m) <$> user_pages task (km_vaddr m) q) ++ drop (Z.to_nat q) (km_addrs m))))) s.
Proof.
  intros I Hm Hd Hf Hn Hlen. unfold map_user_pages. do 3 km_step.
  { km_step. split_and!; [by apply rest_faults|by apply mod_inv_faults|by eapply only_same|intros _; left; split; [done|eapply faulty_here; naive_solver]|done]. }
  km_step. eapply wp_map_at; [done|]. unfold get_user_pages. do 4 km_step.
  { km_step. cbn. apply Z.ltb_lt in Heqb0. rewrite (proj2 (Z.leb_le _ _)) by lia. do 3 km_step.
    split_and!; [split; naive_solver| |by eapply only_same|intros ?; right; naive_solver|lia].
    eapply mod_inv_ext; [..|exact I]; done. }
  apply Z.ltb_ge in Heqb0. set (q := if e0 =? 0 then km_n_addrs m else Z.min e0 (km_n_addrs m)).
  assert (Hq : 1 <= q <= km_n_addrs m) by (unfold q; destruct (e0 =? 0) eqn:E0; [lia|apply Z.eqb_neq in E0; lia]).
  fold (user_pages task (km_vaddr m) q). set (ps := user_pages _ _ _).
  assert (Lps : Z.of_nat (length ps) = q) by (unfold ps, user_pages; rewrite length_fmap, length_seq; lia).
  km_steps; [apply Z.leb_le in Heqb1; lia|]. unfold upd_map. km_steps.
  eapply wp_mono; [apply map_pages_spec; [kproj; apply lookup_insert_eq|done|cbn; lia]|].
  intros r s' [-> ->]. kproj. rewrite insert_insert_eq. cbn. split; [split; naive_solver|].
  replace (length ps) with (Z.to_nat q) by lia. split_and!; [|by eexists|done|intros _; exists q; split; [done|apply lookup_insert_eq]].
  set (m' := with_addrs _ _).
  assert (Em : pages_of m' = ps /\ bus_of m' = pair (km_pdev m) <$> (bus (km_pdev m) <$> ps)).
  { split; [done|]. unfold bus_of. cbn. rewrite take_0, app_nil_l, take_app_length'; [done|]. rewrite length_fmap. lia. }
  destruct Em as [Ep Eb].
  eapply (pend_update s _ L i m'); try done.
  - intros a Ha. by apply (mi_below _ _ _ I).
  - pose proof (proj1 (res_no_data s _ i m _ Hm Hd) (mi_res _ _ _ I)) as [R1 R2 R3 R4].
    split; kproj; rewrite gather_update, ?list_to_set_disj_app, ?Ep, ?Eb.
    + rewrite R1. multiset_solver.
    + rewrite R2. multiset_solver.
    + done.
    + done.
  - unfold wf_map. cbn. split_and!; [done|lia|]. rewrite !length_app, length_fmap, length_drop. lia.
Qed.

(** What a successful request leaves: [q] pages pinned and mapped for the controller's
    device, the mapping's addresses being theirs. *)
Definition host_map (task vaddr pdev : Z) (q : Z) (m : map) : Prop :=
  let v := Z.land vaddr PAGE_MASK in
  km_owner m = task /\ km_vaddr m = v /\ km_pdev m = pdev /\ km_data m = Pages (user_pages task v q) /\
  km_n_addrs m = q /\ take (Z.to_nat q) (km_addrs m) = bus pdev <$> user_pages task v q.

Lemma map_userspace_spec task c vaddr n s L k :
  mod_inv s L [] -> k_ctrls s !! c = Some k -> n < 2 ^ 60 -> k_dma_faults s = [] ->
  wp (map_userspace task c vaddr n) (fun r s' => same_rest s s' /\
    match r with
    | inl e => host_error s n e /\ mod_inv s' L [] /\ k_maps s' = k_maps s
    | inr i => mod_inv s' (<[host_list := L host_list ++ [i]]> L) [] /\ k_maps s !! i = None /\ only i s s' /\
        exists q m, 1 <= q <= n /\ k_maps s' !! i = Some m /\ host_map task vaddr (kc_pdev k) q m
    end) s.
Proof.
  intros I Hk Hn Hf. unfold map_userspace. km_step; [km_step; split_and!; [done|left; split; [by apply Z.ltb_lt|done]|done|done]|].
  apply Z.ltb_ge in Heqb.
  km_step. eapply wp_mono; [by apply (create_descriptor_spec task c _ n s L k)|].
  intros [e|i] s1 [SR1 H1]; [destruct H1 as ([-> ?] & ? & ?); km_step; split_and!; [done|right; auto|done|done]|]. destruct H1 as (I1 & N1 & O1 & M1). km_step. eapply wp_map_at; [done|].
  unfold upd_map. do 3 km_step.
  eapply wp_mono; [eapply map_user_pages_spec; [by eapply pend_same|kproj; apply lookup_insert_eq|done|..]|].
  - kproj. by rewrite (sr_dma_faults _ _ SR1).
  - cbn. lia.
  - cbn. rewrite repeat_length. lia.
  - cbn. intros err s2 (SR2 & I2 & O2 & E2 & H2). assert (SR : same_rest s s2) by (etransitivity; [exact SR1|]; by destruct SR2; split).
    assert (O : only i s s2).
    { eapply only_trans; [exact O1|]. destruct O2 as [m2 O2]. exists m2. rewrite O2. apply insert_insert_eq. }
    km_step.
    + km_step. eapply wp_mono; [by apply unmap_pending|]. intros _ s3 (I3 & SR3 & E3). km_step. apply negb_true_iff, Z.eqb_neq in Heqb0.
      split_and!; [by etransitivity| |done|by eapply only_gone].
      right. split; [done|]. destruct (E2 Heqb0) as [[-> ?]|[? ?]]; [left; split; [done|by apply (faulty_rest _ _ SR1)]|right; split; [done|by apply SR1]].
    + apply negb_false_iff, Z.eqb_eq in Heqb0. destruct (H2 Heqb0) as (q & Hq & M2).
      km_step. eapply wp_mono; [by apply pend_insert|]. intros _ s3 (I3 & SR3 & E3). km_step.
      split; [by etransitivity|]. split_and!; [done..|by destruct O as [? O]; eexists; rewrite E3, O|]. eexists q, _. split_and!; [lia|lia|by rewrite E3|].
      split_and!; try done. cbn. rewrite take_app_length'; [done|]. unfold user_pages. rewrite !length_fmap, length_seq. done.
Qed.

(** ** Device memory *)

Lemma zip_with_snoc {A B C} (f : A -> B -> C) l x (k : list B) y :
  k !! length l = Some y -> zip_with f (l ++ [x]) k = zip_with f l k ++ [f x y].
Proof. revert k. induction l as [|a l IH]; intros [|b k] H; cbn in *; try done; [by injection H as ->; destruct k|]. by rewrite IH. Qed.

(** A region whose pages are mapped for the controllers [mids] counts. *)
Definition region (t : nat) (mids : list nat) : map_data :=
  Gpu (MkGpu (Some t) ((Some <$> mids) ++ repeat None (64 - length mids))).

Lemma p2p_of_region pds m t mids :
  km_data m = region t mids -> p2p_of pds m = zip_with (fun mid d => (mid, (d, t))) mids pds.
Proof. intros Hd. unfold p2p_of. rewrite Hd. unfold region. by rewrite omap_some. Qed.

Lemma table_of_region m t mids : km_data m = region t mids -> table_of m = [(t, km_n_addrs m)].
Proof. intros Hd. unfold table_of. by rewrite Hd. Qed.

Lemma wf_region pds m t mids :
  km_data m = region t mids -> km_release m = Some release_gpu_memory_cb -> (length mids <= length pds)%nat -> wf_map pds m.
Proof. intros Hd Hr Hl. unfold wf_map. rewrite Hd. cbn. split; [done|]. by exists mids. Qed.

(** The bus addresses of [n] pages of table [t] for the first controller. *)
Definition first_bus (pds : list Z) (t : nat) (n : Z) : list Z :=
  (fun j => p2p_bus (default 0 (head pds)) t (Z.of_nat j)) <$> seq 0 (Z.to_nat n).

(** The pending mapping after the controllers [ys]. *)
Record gpu_pend (s : kmod) (L : klist -> list nat) (i : nat) (task v n : Z) (t : nat) (ys : list nat) (m : map) : Prop := {
  gp_inv : mod_inv s L [i];
  gp_map : k_maps s !! i = Some m;
  gp_data : exists mids, km_data m = region t mids /\ length mids = length ys;
  gp_rel : km_release m = Some release_gpu_memory_cb;
  gp_owner : km_owner m = task /\ km_vaddr m = v /\ km_n_addrs m = n;
  gp_addrs : Z.of_nat (length (km_addrs m)) = n;
  gp_first : ys <> [] -> km_addrs m = first_bus (pdevs s (L ctrl_list)) t n
}.

Lemma gpu_table s L i task v n t ys m : gpu_pend s L i task v n t ys m -> k_tables s !! t = Some n.
Proof.
  intros [I Hm (mids & Hd & _) _ (_ & _ & <-) _ _]. apply elem_of_map_to_list. rewrite (rs_tables _ _ _ (mi_res _ _ _ I)).
  rewrite (gather_delete _ _ _ _ Hm), (table_of_region _ _ _ Hd). by left.
Qed.

Lemma mod_inv_update_p2p s L i m m' t mids mid d :
  mod_inv s L [i] -> k_maps s !! i = Some m -> km_data m = region t mids -> pdevs s (L ctrl_list) !! length mids = Some d ->
  km_data m' = region t (mids ++ [mid]) -> km_release m' = Some release_gpu_memory_cb -> km_n_addrs m' = km_n_addrs m ->
  mid = k_next s ->
  mod_inv (set_kmaps (set_p2p (set_knext s (S mid)) (<[mid := (d, t)]> (k_p2p s))) (<[i := m']> (k_maps s))) L [i].
Proof.
  intros I Hm Hd Hp Hd' Hr En ->. pose proof (mi_below _ _ _ I) as Hb. destruct (Hb (k_next s)) as (_ & _ & Hnone); [lia|].
  eapply (pend_update s _ L i m'); try done; kproj; [lia|..].
  - intros a Ha. destruct (Hb a) as (_ & ? & ?); [lia|]. rewrite lookup_insert_ne by lia. done.
  - destruct (res_split _ _ _ _ _ (mi_res _ _ _ I) Hm) as (R1 & R2 & R3 & R4).
    split; kproj; rewrite gather_update, ?list_to_set_disj_app.
    + rewrite R1. unfold pages_of. by rewrite Hd, Hd'.
    + rewrite R2. unfold bus_of. by rewrite Hd, Hd'.
    + rewrite R3. by rewrite (table_of_region _ _ _ Hd), (table_of_region _ _ _ Hd'), En.
    + rewrite map_to_list_insert by done. rewrite R4, (p2p_of_region _ _ _ _ Hd), (p2p_of_region _ _ _ _ Hd').
      rewrite (zip_with_snoc _ _ _ _ d) by done. rewrite <- app_assoc. apply Permutation_middle.
  - eapply wf_region; [done..|]. rewrite length_app. cbn. apply lookup_lt_Some in Hp. lia.
Qed.

(** Refreshing the addresses of a region. *)
Lemma mod_inv_addrs s L i m a :
  mod_inv s L [i] -> k_maps s !! i = Some m -> (forall ps, km_data m <> Pages ps) ->
  mod_inv (set_kmaps s (<[i := with_addrs m a]> (k_maps s))) L [i].
Proof.
  intros I Hm Hd. eapply (pend_update s _ L i (with_addrs m a)); try done.
  - intros j Hj. by apply (mi_below _ _ _ I).
  - destruct (res_split _ _ _ _ _ (mi_res _ _ _ I) Hm) as (R1 & R2 & R3 & R4).
    split; kproj; rewrite gather_update, ?list_to_set_disj_app; [done|rewrite R2|done|done]. unfold bus_of. cbn. destruct (km_data m); [done|by destruct (Hd pages)|done].
  - pose proof (mi_wf _ _ _ I i m Hm) as W. unfold wf_map in *. cbn. destruct (km_data m); [done|by destruct (Hd pages)|done].
Qed.

Lemma with_data_same m d : km_data m = d -> with_data m d = m.
Proof. intros <-. by destruct m. Qed.

Lemma insert_mid (mids : list nat) x : (length mids < 64)%nat ->
  <[length mids := Some x]> ((Some <$> mids) ++ repeat None (64 - length mids)) =
  (Some <$> mids ++ [x]) ++ repeat None (64 - length (mids ++ [x])).
Proof.
  intros H. rewrite fmap_app, length_app, <- app_assoc. cbn [length].
  replace (64 - length mids)%nat with (S (64 - (length mids + 1))) by lia.
  rewrite insert_app_r_alt by (by rewrite length_fmap). rewrite length_fmap, Nat.sub_diag. done.
Qed.

Lemma copy_bus_addrs_spec i m t pdev s :
  k_maps s !! i = Some m -> k_tables s !! t = Some (km_n_addrs m) -> Z.of_nat (length (km_addrs m)) = km_n_addrs m ->
  wp (copy_bus_addrs i pdev t) (fun _ s' => s' = set_kmaps s
    (<[i := with_addrs m ((fun j => p2p_bus pdev t (Z.of_nat j)) <$> seq 0 (Z.to_nat (km_n_addrs m)))]> (k_maps s))) s.
Proof.
  intros Hm Ht Hl. unfold copy_bus_addrs. km_step. eapply wp_map_at; [done|]. km_steps. eapply wp_deref; [done|].
  rewrite Hl, Z.ltb_irrefl. cbn [orb]. unfold upd_map. km_steps. rewrite drop_ge by lia. by rewrite app_nil_r.
Qed.

Lemma map_gpu_ctrl_spec i task v n t ys z ws m s L :
  gpu_pend s L i task v n t ys m -> L ctrl_list = ys ++ z :: ws ->
  wp (map_gpu_ctrl i t z (length ys, 0)) (fun r s' => k_nodes s' = k_nodes s /\ same_rest s s' /\ only i s s' /\
    if snd r : bool then fst r = (S (length ys), 0) /\ exists m, gpu_pend s' L i task v n t (ys ++ [z]) m
    else snd (fst r) <> 0 /\ snd (fst r) ∈ k_faults s /\ mod_inv s' L [i]) s.
Proof.
  intros G E. pose proof (gpu_table _ _ _ _ _ _ _ _ _ G) as Ht. destruct G as [I Hm (mids & Hd & Hl) Hr (Ho & Hv & Hn) Ha Hf].
  assert (is_Some (k_ctrls s !! z)) as [k Hk] by (apply (mi_ctrls _ _ _ I); rewrite E; set_solver).
  pose proof (mi_few _ _ _ I) as H64. rewrite E, length_app in H64. cbn in H64.
  unfold map_gpu_ctrl. km_steps. eapply wp_deref; [done|]. unfold nvidia_p2p_dma_map_pages.
  assert (Hj : (length ys <? 64)%nat = true) by (apply Nat.ltb_lt; lia).
  assert (Hlen : length ((Some <$> mids) ++ repeat None (64 - length mids)) = 64%nat)
    by (rewrite length_app, length_fmap, repeat_length; lia).
  do 4 km_step.
  - do 2 km_step. eapply wp_map_at; [done|]. rewrite Hd. cbn [region gd_mappings gd_pages]. rewrite Hlen, Hj. unfold upd_map. do 2 km_step.
    rewrite Heqb. km_step. apply negb_true_iff, Z.eqb_neq in Heqb. split_and!; [done|by split|by eexists|done|by apply Fe|].
    rewrite with_data_same, insert_id by done. replace (set_kmaps _ _) with (set_kfaults s l) by (by destruct s). by apply mod_inv_faults.
  - km_steps. cbn [negb Z.eqb]. eapply wp_map_at; [done|]. rewrite Hd. cbn [region gd_mappings gd_pages]. rewrite Hlen, Hj.
    unfold upd_map. do 2 km_step. cbn [negb Z.eqb]. km_step.
    assert (Hp : pdevs s (L ctrl_list) !! length mids = Some (kc_pdev k)).
    { unfold pdevs. rewrite E, list_lookup_fmap, list_lookup_middle by done. cbn. by rewrite Hk. }
    set (s1 := set_kmaps _ _). set (m1 := with_data m _) in s1.
    assert (Hd1 : km_data m1 = region t (mids ++ [k_next s])) by (cbn; rewrite <- Hl, insert_mid by lia; done).
    assert (I1 : mod_inv s1 L [i]).
    { apply mod_inv_faults with (l := l) in I.
      eapply (mod_inv_update_p2p _ L i m m1 t mids (k_next s) (kc_pdev k)) in I; done. }
    assert (Hm1 : k_maps s1 !! i = Some m1) by apply lookup_insert_eq.
    assert (Hsnoc : exists mids', region t (mids ++ [k_next s]) = region t mids' /\ length mids' = length (ys ++ [z])).
    { eexists. split; [done|]. rewrite !length_app. cbn. lia. }
    destruct ys as [|y ys].
    + cbn [length Nat.eqb]. eapply wp_mono; [apply (copy_bus_addrs_spec i m1); [done|by kproj; cbn; rewrite Hn|by cbn; rewrite Hn]|].
      intros _ ? ->. km_step. split_and!; [done|by split|by eexists; apply insert_insert_eq|done|]. eexists. split; [|apply lookup_insert_eq|change (exists l, km_data m1 = region t l /\ length l = length ([] ++ [z])); by rewrite Hd1|done..| |].
      * apply mod_inv_addrs; [done..|]. by rewrite Hd1.
      * cbn. rewrite length_fmap, length_seq. lia.
      * intros _. cbn. rewrite Hn. unfold first_bus, pdevs. kproj. rewrite E. cbn. by rewrite Hk.
    + cbn [length Nat.eqb]. do 2 km_step. split_and!; [done|by split|by eexists|done|]. exists m1.
      split; [done|done|by rewrite Hd1|done..|]. intros _. by apply Hf.
Qed.

Lemma gpu_entries n : 0 <= n < 2 ^ 32 -> u64 (GPU_PAGE_SIZE * n) / GPU_PAGE_SIZE = n.
Proof.
  intros Hn. change GPU_PAGE_SIZE with 65536. rewrite u64_id by (unfold is_word; lia).
  rewrite Z.mul_comm. by apply Z.div_mul.
Qed.

(** The table has been obtained. *)
Lemma gpu_pend_start i m m' s L n t :
  mod_inv s L [i] -> k_maps s !! i = Some m -> km_data m = NoData -> t = k_next s ->
  km_data m' = region t [] -> km_release m' = Some release_gpu_memory_cb -> km_n_addrs m' = n -> Z.of_nat (length (km_addrs m')) = n ->
  gpu_pend (set_kmaps (set_tables (set_knext s (S t)) (<[t := n]> (k_tables s))) (<[i := m']> (k_maps s)))
    L i (km_owner m') (km_vaddr m') n t [] m'.
Proof.
  intros I Hm Hd -> Hd' Hr Hn Ha. pose proof (mi_below _ _ _ I) as Hb. destruct (Hb (k_next s)) as (_ & Hnone & _); [lia|].
  split; [|apply lookup_insert_eq|by exists []|done..].
  eapply (pend_update s _ L i m'); try done; kproj; [lia|..].
  - intros a Ha'. destruct (Hb a) as (_ & ? & ?); [lia|]. rewrite lookup_insert_ne by lia. done.
  - pose proof (proj1 (res_no_data s _ i m _ Hm Hd) (mi_res _ _ _ I)) as [R1 R2 R3 R4].
    split; kproj; rewrite gather_update.
    + rewrite R1. unfold pages_of. by rewrite Hd'.
    + rewrite R2. unfold bus_of. by rewrite Hd'.
    + rewrite map_to_list_insert by done. rewrite R3, (table_of_region _ _ _ Hd'), Hn. done.
    + rewrite R4, (p2p_of_region _ _ _ _ Hd'). done.
  - eapply wf_region; [done..|]. cbn. lia.
Qed.

Lemma map_gpu_memory_spec i m s L :
  mod_inv s L [i] -> k_maps s !! i = Some m -> km_data m = NoData -> 1 <= km_n_addrs m < 2 ^ 32 ->
  Z.of_nat (length (km_addrs m)) = km_n_addrs m ->
  wp (map_gpu_memory i) (fun r s' => same_rest s s' /\ mod_inv s' L [i] /\ only i s s' /\
    (r <> 0 -> (r = - ENOMEM /\ faulty s) \/ (r <> 0 /\ r ∈ k_faults s)) /\
    (r = 0 -> exists t m', gpu_pend s' L i (km_owner m) (km_vaddr m) (km_n_addrs m) t (L ctrl_list) m')) s.
Proof.
  intros I Hm Hd Hn Hlen. unfold map_gpu_memory. do 3 km_step; [km_step; split_and!; [by split|by apply mod_inv_faults|by eapply only_same|intros _; left; split; [done|eapply faulty_here; naive_solver]|done]|].
  do 3 km_step; [km_step; split_and!; [split; naive_solver|by do 2 apply mod_inv_faults|by eapply only_same|intros _; left; split; [done|eapply faulty_here; naive_solver]|done]|].
  km_step. eapply wp_map_at; [done|]. unfold upd_map, nvidia_p2p_get_pages. do 6 km_step.
  { km_step. apply negb_true_iff, Z.eqb_neq in Heqb1. destruct e1; [done|..]; (km_step; split_and!; [split; naive_solver| |by eexists|right; naive_solver|done]);
      (eapply (pend_update s); [done..| | |]; [by intros a Ha; apply (mi_below _ _ _ I)| |]).
    all: try (unfold wf_map; cbn; split; [done|]; exists []; split_and!; [done|cbn; lia|done]).
    all: pose proof (proj1 (res_no_data s _ i m _ Hm Hd) (mi_res _ _ _ I)) as [R1 R2 R3 R4]; split; kproj; rewrite gather_update; done. }
  do 6 km_step. rewrite gpu_entries by (cbn; lia). cbn [km_n_addrs with_release with_data with_page_size]. km_step. rewrite insert_insert_eq. km_step.
  set (m1 := with_data (with_release _ _) _). set (s1 := set_kmaps _ _).
  assert (G : gpu_pend s1 L i (km_owner m) (km_vaddr m) (km_n_addrs m) (k_next s) [] m1).
  { eapply (gpu_pend_start i m m1 (set_kfaults s l1)); try done. by apply mod_inv_faults. }
  eapply (list_walk_spec ctrl_list _ (fun ys v s' => v = (length ys, 0) /\ same_rest s s' /\ only i s s' /\ lists (k_nodes s') L /\
    exists m', gpu_pend s' L i (km_owner m) (km_vaddr m) (km_n_addrs m) (k_next s) ys m')).
  - apply (mi_lists _ _ _ (gp_inv _ _ _ _ _ _ _ _ _ G)).
  - split_and!; [done|split; naive_solver|by eexists|apply (mi_lists _ _ _ (gp_inv _ _ _ _ _ _ _ _ _ G))|by exists m1].
  - intros ys z ws v s2 E (-> & SR & O & _ & m2 & G2). eapply wp_mono; [by eapply map_gpu_ctrl_spec|].
    intros [[j e2] b] s3 (En & SR3 & O3 & H). cbn [fst snd] in *. split; [done|]. assert (same_rest s s3) by (by etransitivity).
    assert (only i s s3) by (by eapply only_trans). destruct b.
    + destruct H as [-> [m3 G3]]. split_and!; [by rewrite length_app, Nat.add_1_r|done|done| |by exists m3].
      apply (mi_lists _ _ _ (gp_inv _ _ _ _ _ _ _ _ _ G3)).
    + destruct H as (Hne & Hin & I3). rewrite (proj2 (Z.eqb_neq _ _) Hne). cbn [negb]. km_step.
      split_and!; [done..|right; split; [done|by apply SR]|done].
  - intros v s2 (-> & SR & O & _ & m2 & G2). cbn [snd negb Z.eqb]. km_steps. eapply wp_deref; [by eapply gpu_table|].
    km_step. eapply wp_map_at; [apply (gp_map _ _ _ _ _ _ _ _ _ G2)|]. km_steps.
    pose proof (gp_owner _ _ _ _ _ _ _ _ _ G2) as (_ & _ & En).
    replace (set_kmaps s2 _) with s2.
    + split_and!; [done|apply (gp_inv _ _ _ _ _ _ _ _ _ G2)|done|done|]. intros _. by exists (k_next s), m2.
    + rewrite <- En. replace (with_n_addrs m2 (km_n_addrs m2)) with m2 by (by destruct m2).
      rewrite insert_id by apply (gp_map _ _ _ _ _ _ _ _ _ G2). by destruct s2.
Qed.

(** What a successful request for GPU memory leaves. *)
Definition device_map (task vaddr n : Z) (pds : list Z) (m : map) : Prop :=
  km_owner m = task /\ km_vaddr m = Z.land vaddr GPU_PAGE_MASK /\ km_n_addrs m = n /\
  exists t mids, km_data m = region t mids /\ length mids = length pds /\ km_addrs m = first_bus pds t n.

Lemma map_device_memory_spec task c vaddr n s L k :
  mod_inv s L [] -> k_ctrls s !! c = Some k -> n < 2 ^ 32 ->
  wp (map_device_memory task c vaddr n) (fun r s' => same_rest s s' /\
    match r with
    | inl e => device_error s n e /\ mod_inv s' L [] /\ k_maps s' = k_maps s
    | inr i => mod_inv s' (<[device_list := L device_list ++ [i]]> L) [] /\ k_maps s !! i = None /\ only i s s' /\
        exists m, k_maps s' !! i = Some m /\ device_map task vaddr n (pdevs s (L ctrl_list)) m
    end) s.
Proof.
  intros I Hk Hn. unfold map_device_memory. km_step; [km_step; split_and!; [done|left; split; [by apply Z.ltb_lt|done]|done|done]|].
  apply Z.ltb_ge in Heqb.
  km_step. eapply wp_mono; [apply (create_descriptor_spec task c _ n s L k); [done..|lia]|].
  intros [e|i] s1 [SR1 H1]; [destruct H1 as ([-> ?] & ? & ?); km_step; split_and!; [done|right; auto|done|done]|]. destruct H1 as (I1 & N1 & O1 & M1). km_step. eapply wp_map_at; [done|].
  unfold upd_map. do 3 km_step.
  eapply wp_mono; [eapply map_gpu_memory_spec; [by eapply pend_same|kproj; apply lookup_insert_eq|done|..]|].
  - cbn. lia.
  - cbn. rewrite repeat_length. lia.
  - cbn. intros err s2 (SR2 & I2 & O2 & E2 & H2). assert (SR : same_rest s s2) by (etransitivity; [exact SR1|]; by destruct SR2; split).
    assert (O : only i s s2).
    { eapply only_trans; [exact O1|]. destruct O2 as [m2 O2]. exists m2. rewrite O2. apply insert_insert_eq. }
    km_step.
    + km_step. eapply wp_mono; [by apply unmap_pending|]. intros _ s3 (I3 & SR3 & E3). km_step. apply negb_true_iff, Z.eqb_neq in Heqb0.
      split_and!; [by etransitivity| |done|by eapply only_gone].
      right. split; [done|]. destruct (E2 Heqb0) as [[-> ?]|[? ?]]; [left; split; [done|by apply (faulty_rest _ _ SR1)]|right; split; [done|by apply SR1]].
    + apply negb_false_iff, Z.eqb_eq in Heqb0. destruct (H2 Heqb0) as (t & m & [_ Hm (mids & Hd & Hl) _ (Ho & Hv & Hna) _ Hf]).
      km_step. eapply wp_mono; [apply pend_insert; [done|done|intros _ m' ps Hm'; by rewrite Hm in Hm'; injection Hm' as <-; rewrite Hd]|].
      intros _ s3 (I3 & SR3 & E3). km_step.
      split; [by etransitivity|]. split_and!; [done..|by destruct O as [? O]; eexists; rewrite E3, O|]. exists m. split; [by rewrite E3|]. split_and!; [done..|].
      exists t, mids. split_and!; [done|by rewrite Hl; unfold pdevs; rewrite length_fmap|].
      rewrite <- (pdevs_same s s2) by apply SR. apply Hf. assert (Hc : c ∈ L ctrl_list) by (apply (mi_ctrls _ _ _ I); by eexists).
      intros E. rewrite E in Hc. set_solver.
Qed.
End mapping.
End KMapping.
