(* ===== verification/KModuleBus.v ===== *)
(** Controllers in the kernel module ([src/module/ctrl.c], the probe and remove functions of
    [src/module/pci.c]): adding one, failing to, and removing one. *)
From Stdlib Require Import ZArith Lia List Bool.
From stdpp Require Import base list gmap gmultiset fin_maps functions.
From S2P Require Import Prelude Exec NvmQueue Host KList KModule KModuleInv KModuleMap.
Import KList KModule KInv KMapping.

Import ListNotations.
Local Open Scope Z_scope.

Module KBus.

(** ** Fields of the controllers of a list *)

Definition fields (f : ctrl -> Z) (ks : gmap nat ctrl) (cs : list nat) : list Z :=
  (fun c => default 0 (f <$> ks !! c)) <$> cs.

Lemma fields_ext f ks ks' cs : (forall c, c ∈ cs -> f <$> ks' !! c = f <$> ks !! c) -> fields f ks' cs = fields f ks cs.
Proof. intros E. unfold fields. apply list_fmap_ext. intros i c Hc%list_elem_of_lookup_2. by rewrite E. Qed.

Lemma fields_insert f ks c k cs : c ∉ cs -> fields f (<[c := k]> ks) cs = fields f ks cs.
Proof. intros Hc. apply fields_ext. intros c' ?. rewrite lookup_insert_ne; [done|set_solver]. Qed.

Lemma fields_delete f ks c cs : c ∉ cs -> fields f (delete c ks) cs = fields f ks cs.
Proof. intros Hc. apply fields_ext. intros c' ?. rewrite lookup_delete_ne; [done|set_solver]. Qed.

Lemma fields_snoc f ks c k cs : ks !! c = Some k -> fields f ks (cs ++ [c]) = fields f ks cs ++ [f k].
Proof. intros E. unfold fields. rewrite fmap_app. cbn. by rewrite E. Qed.

(** The controllers [cs] are the bound devices, each with its registers reserved, enabled
    and visible under a number of its own. *)
Record bus_inv (s : kmod) (cs : list nat) : Prop := {
  bi_bound : pdevs s cs = k_bound s;
  bi_nodup : NoDup (k_bound s);
  bi_curr : k_curr_ctrls s = Z.of_nat (length cs);
  bi_regions : k_regions s = list_to_set (k_bound s);
  bi_enabled : k_enabled s = list_to_set (k_bound s);
  bi_masters : k_masters s = list_to_set (k_bound s);
  bi_chrdev c k : k_ctrls s !! c = Some k -> kc_chrdev k = true;
  bi_devs : k_devs s = list_to_set (fields kc_rdev (k_ctrls s) cs);
  bi_rdevs : NoDup (fields kc_rdev (k_ctrls s) cs);
  bi_unheld : k_unheld s = 0%nat
}.

Lemma bus_inv_ext s s' cs :
  k_ctrls s' = k_ctrls s -> k_regions s' = k_regions s -> k_enabled s' = k_enabled s -> k_masters s' = k_masters s ->
  k_devs s' = k_devs s -> k_bound s' = k_bound s -> k_curr_ctrls s' = k_curr_ctrls s -> k_unheld s' = k_unheld s ->
  bus_inv s cs -> bus_inv s' cs.
Proof.
  intros E1 E2 E3 E4 E5 E6 E7 E8 []. split; rewrite ?(pdevs_same s s' cs E1), ?E2, ?E3, ?E4, ?E5, ?E6, ?E7, ?E8, ?E1; done.
Qed.

Lemma bus_inv_rest s s' cs : same_rest s s' -> bus_inv s cs -> bus_inv s' cs.
Proof. intros []. by apply bus_inv_ext. Qed.

(** ** The mappings' side of a change of controllers *)

Lemma gather_ext {A} (f g : map -> list A) ms :
  (forall i m, ms !! i = Some m -> f m = g m) -> gather f ms ≡ₚ gather g ms.
Proof.
  intros E. unfold gather. induction ms as [|i m ms Hi IH] using map_ind; [done|].
  rewrite !(map_to_list_insert ms i m Hi). cbn. rewrite (E i m) by apply lookup_insert_eq. apply Permutation_app; [done|].
  apply IH. intros j m' Hj. apply (E j). rewrite lookup_insert_ne; [done|]. congruence.
Qed.

(** The devices change from [pds] to [pds'], which makes no difference to any mapping. *)
Definition indifferent (ms : gmap nat map) (pds pds' : list Z) : Prop :=
  forall i m, ms !! i = Some m -> wf_map pds' m /\ p2p_of pds' m = p2p_of pds m.

Lemma res_indifferent s ms pds pds' : indifferent ms pds pds' -> res s ms pds -> res s ms pds'.
Proof.
  intros H [R1 R2 R3 R4]. split; try done. rewrite R4. apply gather_ext. intros i m Hm. by destruct (H i m Hm) as [_ ->].
Qed.

Lemma p2p_of_longer pds ds m : wf_map pds m -> wf_map (pds ++ ds) m /\ p2p_of (pds ++ ds) m = p2p_of pds m.
Proof.
  unfold wf_map, p2p_of. intros W. destruct (km_data m) as [|ps|[t ms]]; [done|done|].
  destruct W as (Hr & mids & E & Hl & Hn). cbn in E. subst ms. split.
  - split; [done|]. exists mids. rewrite length_app. split_and!; [done|lia|done].
  - destruct t as [t|]; [|done]. rewrite omap_some. clear - Hl. revert pds Hl.
    induction mids as [|x mids IH]; intros [|d pds] Hl; cbn in *; [by destruct ds|done|lia|]. by rewrite IH by lia.
Qed.

Lemma no_gpu_indifferent ms pds pds' :
  (forall i m, ms !! i = Some m -> wf_map pds m) -> (forall i m gd, ms !! i = Some m -> km_data m <> Gpu gd) -> indifferent ms pds pds'.
Proof.
  intros W H i m Hm. specialize (W i m Hm). unfold wf_map, p2p_of in *. destruct (km_data m) eqn:E; [done|done|].
  by destruct (H i m gd Hm).
Qed.

(** What a change of controllers leaves alone. *)
Record same_maps (s s' : kmod) : Prop := {
  sm_maps : k_maps s' = k_maps s;
  sm_pins : k_pins s' = k_pins s;
  sm_dma : k_dma s' = k_dma s;
  sm_tables : k_tables s' = k_tables s;
  sm_p2p : k_p2p s' = k_p2p s;
  sm_dma_faults : k_dma_faults s' = k_dma_faults s;
  sm_setup : k_setup s' = k_setup s
}.

#[export] Instance same_maps_preorder : PreOrder same_maps.
Proof. split; [by split|]. intros s1 s2 s3 [] []. split; congruence. Qed.

Lemma mod_inv_ctrls s s' L L' :
  mod_inv s L [] -> same_maps s s' -> lists (k_nodes s') L' -> (forall l, l <> ctrl_list -> L' l = L l) ->
  (forall c, is_Some (k_ctrls s' !! c) <-> c ∈ L' ctrl_list) -> (k_next s <= k_next s')%nat ->
  (forall c, c ∈ L' ctrl_list -> (c < k_next s')%nat) ->
  indifferent (k_maps s) (pdevs s (L ctrl_list)) (pdevs s' (L' ctrl_list)) -> (length (L' ctrl_list) <= 64)%nat -> mod_inv s' L' [].
Proof.
  intros [I1 I2 I3 I4 I5 I6 I7 I8 I9] [E1 E2 E3 E4 E5 _ _] Hl HL Hc Hx Hb Hi H64.
  split; rewrite ?E1, ?E4, ?E5, ?(HL host_list), ?(HL device_list) by done; try done.
  - by intros i H%elem_of_nil.
  - intros a Ha. destruct (I5 a) as (? & ? & ?); [lia|]. split_and!; [|done..].
    intros l Hin. destruct (decide (l = ctrl_list)) as [->|]; [apply Hb in Hin; lia|]. rewrite HL in Hin by done. naive_solver.
  - eapply res_indifferent; [exact Hi|]. destruct I6. split; congruence.
  - intros i m Hm. by apply (Hi i m Hm).
Qed.

Section bus.
Context {P : Platform}.

(** The hardware's side of the state is unchanged. *)
Record same_hw (s s' : kmod) : Prop := {
  sh_regions : k_regions s' = k_regions s;
  sh_enabled : k_enabled s' = k_enabled s;
  sh_masters : k_masters s' = k_masters s;
  sh_bound : k_bound s' = k_bound s;
  sh_curr : k_curr_ctrls s' = k_curr_ctrls s;
  sh_unheld : k_unheld s' = k_unheld s
}.

Lemma wp_ctrl_at c k (Q : ctrl -> kmod -> Prop) s : k_ctrls s !! c = Some k -> Q k s -> wp (ctrl_at c) Q s.
Proof. intros E H. unfold ctrl_at. km_steps. by eapply wp_deref. Qed.

Lemma kctrl_get_spec dev num s L :
  mod_inv s L [] -> (length (L ctrl_list) < 64)%nat ->
  wp (ctrl_get dev num) (fun r s' =>
    match r with
    | inl e => e = - ENOMEM /\ exists l, s' = set_kfaults s l
    | inr c => exists L' l n, c = k_next s /\ L' ctrl_list = L ctrl_list ++ [c] /\ mod_inv s' L' [] /\
        (forall l, l <> ctrl_list -> L' l = L l) /\
        s' = set_nodes (set_kctrls (set_knext (set_kfaults s l) (S c)) (<[c := MkKctrl dev num 0 false]> (k_ctrls s))) n
    end) s.
Proof.
  intros I H64. pose proof I as [I1 I2 I3 I4 I5 I6 I7 I8]. unfold ctrl_get. do 3 km_step; [km_step; by eauto|].
  do 4 km_step. unfold list_node_init. apply wp_st_modify. unfold upd_ctrl. km_steps. set (c := k_next s).
  destruct (I5 c) as (Hc & _ & _); [done|].
  assert (Hl : lists (<[Elem c := null_node]> (k_nodes s)) L).
  { apply (lists_node (k_nodes s) _ _ c); [done..|]. intros a Ha. by rewrite lookup_insert_ne. }
  eapply wp_mono; [apply (lists_insert _ L ctrl_list c Hl Hc); rewrite lookup_insert_eq; by eexists|].
  intros _ n [Hn _]. km_step. exists (<[ctrl_list := L ctrl_list ++ [c]]> L), l, n.
  assert (HL : forall l, l <> ctrl_list -> <[ctrl_list := L ctrl_list ++ [c]]> L l = L l) by (intros; by rewrite ins_other).
  split_and!; [done|apply fn_lookup_insert| |done|done].
  eapply (mod_inv_ctrls s _ L); try done; rewrite ?fn_lookup_insert; kproj.
  - intros c'. rewrite lookup_insert_is_Some, I2. set_solver.
  - lia.
  - intros c' [H| ->%list_elem_of_singleton]%elem_of_app; [|lia]. apply Nat.lt_nge. intros Hge.
    destruct (I5 c') as (H' & _); [lia|]. by apply (H' ctrl_list).
  - intros i m Hm. change (pdevs (set_nodes ?x _) ?y) with (fields kc_pdev (k_ctrls x) y). kproj.
    rewrite (fields_snoc _ _ _ (MkKctrl dev num 0 false)) by apply lookup_insert_eq. rewrite fields_insert by done.
    apply p2p_of_longer. by apply (I7 i).
  - rewrite length_app. cbn. lia.
Qed.

Lemma ctrl_chrdev_create_spec c k first s :
  k_ctrls s !! c = Some k -> kc_chrdev k = false ->
  wp (ctrl_chrdev_create c first) (fun r s' => exists l k' d,
    s' = set_kdevs (set_kctrls (set_kfaults s l) (<[c := k']> (k_ctrls s))) d /\ kc_pdev k' = kc_pdev k /\
    if r =? 0 then kc_chrdev k' = true /\ kc_rdev k' = first + kc_number k /\ (kc_rdev k' ∉ k_devs s) /\ d = k_devs s ∪ {[kc_rdev k']}
    else kc_chrdev k' = false /\ d = k_devs s) s.
Proof.
  intros Hk Hf. unfold ctrl_chrdev_create. km_step. eapply wp_ctrl_at; [done|]. rewrite Hf. unfold upd_ctrl. do 2 km_step.
  set (k1 := MkKctrl _ _ _ false). do 3 km_step.
  { km_step. exists l, k1, (k_devs s). apply negb_true_iff in Heqb. rewrite Heqb. by destruct s. }
  do 3 km_step; [km_step; exists l, k1, (k_devs s); by destruct s|].
  do 3 km_step.
  { km_step. exists l0, k1, (k_devs s). apply negb_true_iff in Heqb1. rewrite Heqb1. by destruct s. }
  apply bool_decide_eq_false in Heqb0. km_steps. exists l0, (MkKctrl (kc_pdev k) (kc_number k) (first + kc_number k) true), (k_devs s ∪ {[first + kc_number k]}).
  split_and!; [by rewrite insert_insert_eq|done..].
Qed.

Lemma kctrl_put_spec c k xs ys s L :
  mod_inv s L [] -> L ctrl_list = xs ++ c :: ys -> k_ctrls s !! c = Some k ->
  indifferent (k_maps s) (pdevs s (L ctrl_list)) (pdevs s (xs ++ ys)) ->
  wp (ctrl_put (Some c)) (fun _ s' => exists L', mod_inv s' L' [] /\ L' ctrl_list = xs ++ ys /\ same_maps s s' /\ same_hw s s' /\
    k_ctrls s' = delete c (k_ctrls s) /\ k_devs s' = if kc_chrdev k then k_devs s ∖ {[kc_rdev k]} else k_devs s) s.
Proof.
  intros I E Hk Hi. pose proof I as [I1 I2 I3 I4 I5 I6 I7 I8].
  pose proof (lk_nodup _ _ _ (ls_linked _ _ I1 ctrl_list)) as Hnd. rewrite E, <- Permutation_middle in Hnd.
  apply list.NoDup_cons in Hnd as [Nc _].
  unfold ctrl_put. do 2 km_step. eapply wp_mono; [by apply (lists_remove _ L ctrl_list xs c ys)|]. intros _ n [Hn _]. km_step.
  set (s1 := set_nodes s n). set (L' := <[ctrl_list := xs ++ ys]> L) in *.
  assert (Q : forall s', k_nodes s' = n -> same_maps s s' -> same_hw s s' -> k_next s' = k_next s -> delete c (k_ctrls s') = delete c (k_ctrls s) ->
    mod_inv (set_kctrls (set_nodes s' (delete (Elem c) (k_nodes s'))) (delete c (k_ctrls s'))) L' []).
  { intros s' En SM SH Ex Ec. rewrite En. eapply (mod_inv_ctrls s _ L); try done; kproj; rewrite ?Ec, ?Ex; try done.
    - by destruct SM.
    - apply (lists_node n _ _ c); [done| |by intros; rewrite lookup_delete_ne]. intros l Hl.
      destruct (decide (l = ctrl_list)) as [->|Hne]; [unfold L' in Hl; by rewrite fn_lookup_insert in Hl|].
      unfold L' in Hl. rewrite ins_other in Hl by done. apply Hne. symmetry. apply (ls_disj _ _ I1 ctrl_list l c); [rewrite E; set_solver|done].
    - intros l Hl. unfold L'. by rewrite ins_other.
    - intros c'. unfold L'. rewrite fn_lookup_insert. rewrite lookup_delete_is_Some, I2, E. set_solver.
    - intros c'. unfold L'. rewrite fn_lookup_insert. intros Hc'. apply Nat.lt_nge. intros Hge.
      destruct (I5 c') as (H' & _); [lia|]. apply (H' ctrl_list). rewrite E. set_solver.
    - unfold L'. rewrite fn_lookup_insert. change (pdevs (set_kctrls ?x ?y) ?z) with (fields kc_pdev y z).
      rewrite fields_delete by done. exact Hi.
    - unfold L'. rewrite fn_lookup_insert. rewrite E, !length_app in I8. rewrite length_app. cbn in I8. lia. }
  assert (HL : L' ctrl_list = xs ++ ys) by apply fn_lookup_insert.
  unfold ctrl_chrdev_remove. km_step. eapply wp_ctrl_at; [exact Hk|]. destruct (kc_chrdev k); unfold upd_ctrl; km_steps.
  - exists L'. split_and!; [lazymatch goal with |- mod_inv (set_kctrls (set_nodes ?x _) _) _ _ => apply (Q x); try done end|done|by split|by split| |done]; kproj; by rewrite delete_insert_eq.
  - exists L'. split_and!; [lazymatch goal with |- mod_inv (set_kctrls (set_nodes ?x _) _) _ _ => by apply (Q x) end|done|by split|by split|done|done].
Qed.

(** ** The invariant of the loaded module *)

Definition kinv (s : kmod) : Prop :=
  exists L, mod_inv s L [] /\ bus_inv s (L ctrl_list) /\ k_dma_faults s = [] /\ k_setup s = (true, true).

(** A controller that could not be set up is dropped again. *)
Lemma probe_undo s s1 L L1 c k :
  mod_inv s L [] -> bus_inv s (L ctrl_list) -> k_dma_faults s = [] -> k_setup s = (true, true) ->
  mod_inv s1 L1 [] -> L1 ctrl_list = L ctrl_list ++ [c] -> k_ctrls s1 = <[c := k]> (k_ctrls s) -> c ∉ L ctrl_list ->
  kc_chrdev k = false -> same_maps s s1 -> same_hw s s1 -> k_devs s1 = k_devs s ->
  wp (ctrl_put (Some c)) (fun _ s' => kinv s' /\ k_maps s' = k_maps s) s1.
Proof.
  intros I B Hf Hs I1 EL Ec Hc Hk SM SH Ed.
  assert (Hnone : k_ctrls s !! c = None) by (apply eq_None_not_Some; by rewrite (mi_ctrls _ _ _ I)).
  assert (Ep : pdevs s1 (L ctrl_list) = pdevs s (L ctrl_list)).
  { change (fields kc_pdev (k_ctrls s1) (L ctrl_list) = pdevs s (L ctrl_list)). rewrite Ec. by apply fields_insert. }
  eapply wp_mono; [eapply (kctrl_put_spec c k (L ctrl_list) [] s1 L1); [done|done|by rewrite Ec, lookup_insert_eq|]|].
  - rewrite app_nil_r, Ep, (sm_maps _ _ SM). intros i m Hm. pose proof (mi_wf _ _ _ I i m Hm) as W. split; [done|].
    rewrite EL. change (pdevs s1 (L ctrl_list ++ [c])) with (fields kc_pdev (k_ctrls s1) (L ctrl_list ++ [c])).
    rewrite (fields_snoc _ _ _ k) by (by rewrite Ec, lookup_insert_eq).
    change (fields kc_pdev (k_ctrls s1) (L ctrl_list)) with (pdevs s1 (L ctrl_list)). rewrite Ep. symmetry. by apply p2p_of_longer.
  - cbn beta. intros _ s' (L' & I' & EL' & SM' & [H1 H2 H3 H4 H5 H6] & Ec' & Ed'). rewrite Hk in Ed'. rewrite app_nil_r in EL'.
    rewrite Ec, delete_insert_id in Ec' by done.
    destruct SH as [G1 G2 G3 G4 G5 G6]. assert (SM2 : same_maps s s') by (by etransitivity). split; [|apply SM2]. exists L'.
    split_and!; [done| |by rewrite (sm_dma_faults _ _ SM2)|by rewrite (sm_setup _ _ SM2)].
    rewrite EL'. destruct SM2. eapply (bus_inv_ext s); [..|done]; congruence.
Qed.

Context (dev_first max_num_ctrls : Z).

Lemma bus_inv_add s s1 L c k dev :
  bus_inv s (L ctrl_list) -> c ∉ L ctrl_list -> dev ∉ k_bound s -> kc_pdev k = dev -> kc_chrdev k = true -> (kc_rdev k ∉ k_devs s) ->
  k_ctrls s1 = <[c := k]> (k_ctrls s) -> k_devs s1 = k_devs s ∪ {[kc_rdev k]} ->
  k_bound s1 = k_bound s ++ [dev] -> k_curr_ctrls s1 = k_curr_ctrls s + 1 -> k_regions s1 = k_regions s ∪ {[dev]} ->
  k_enabled s1 = k_enabled s ∪ {[dev]} -> k_masters s1 = k_masters s ∪ {[dev]} -> k_unheld s1 = k_unheld s ->
  bus_inv s1 (L ctrl_list ++ [c]).
Proof.
  intros [B1 B2 B3 B4 B5 B6 B7 B8 B9 B10] Hc Hd Ep Hk Hr Ec Ed Eb Ecu Er Ee Em Eu.
  assert (F : forall f, fields f (k_ctrls s1) (L ctrl_list ++ [c]) = fields f (k_ctrls s) (L ctrl_list) ++ [f k]).
  { intros f. rewrite Ec, (fields_snoc _ _ _ k) by apply lookup_insert_eq. by rewrite fields_insert. }
  split.
  - rewrite Eb, <- B1, <- Ep. apply (F kc_pdev).
  - rewrite Eb. apply list.NoDup_app. split_and!; [done|set_solver|apply NoDup_singleton].
  - rewrite Ecu, B3, length_app. cbn. lia.
  - rewrite Er, Eb, B4. set_solver.
  - rewrite Ee, Eb, B5. set_solver.
  - rewrite Em, Eb, B6. set_solver.
  - intros c' k'. rewrite Ec, lookup_insert_Some. intros [[<- <-]|[_ H]]; [done|by eapply B7].
  - rewrite Ed, F, B8. set_solver.
  - rewrite F. apply list.NoDup_app. split_and!; [done| |apply NoDup_singleton]. intros x Hx ->%list_elem_of_singleton.
    apply Hr. rewrite B8. by apply elem_of_list_to_set.
  - by rewrite Eu.
Qed.

Lemma kinv_faults s l : kinv s -> kinv (set_kfaults s l).
Proof.
  intros (L & I & B & ? & ?). exists L. split_and!; [by apply mod_inv_faults| |done|done].
  eapply bus_inv_ext; [..|exact B]; done.
Qed.

(** Releasing what is held. *)
Lemma wp_release_region dev (Q : unit -> kmod -> Prop) s :
  dev ∈ k_regions s -> Q tt (set_regions s (k_regions s ∖ {[dev]})) -> wp (pci_release_region dev) Q s.
Proof. intros Hd H. unfold pci_release_region. apply wp_st_modify. by rewrite bool_decide_true. Qed.

Lemma wp_disable_device dev (Q : unit -> kmod -> Prop) s :
  dev ∈ k_enabled s -> Q tt (set_enabled s (k_enabled s ∖ {[dev]})) -> wp (pci_disable_device dev) Q s.
Proof. intros Hd H. unfold pci_disable_device. apply wp_st_modify. by rewrite bool_decide_true. Qed.

(** A refused probe ends in a state that is as good as before. *)
Lemma probe_fails s dev err (m : K unit) s1 :
  err <> 0 -> wp m (fun _ s' => kinv s' /\ k_maps s' = k_maps s) s1 ->
  wp (m;; mret err) (fun b s' => wp ((if b =? 0 then st_modify (fun s => set_bound s (k_bound s ++ [dev])) else mret tt);; mret b)
    (fun r s'' => kinv s'' /\ k_maps s'' = k_maps s) s') s1.
Proof.
  intros He Hm. km_step. eapply wp_mono; [exact Hm|]. cbn beta. intros _ s2 H. km_step. rewrite (proj2 (Z.eqb_neq _ _) He). by km_steps.
Qed.

Lemma pci_probe_spec dev s :
  kinv s -> dev ∉ k_bound s -> k_curr_ctrls s < max_num_ctrls -> max_num_ctrls <= 64 ->
  wp (pci_probe dev_first max_num_ctrls dev) (fun r s' => kinv s' /\ k_maps s' = k_maps s) s.
Proof.
  intros (L & I & B & Hf & Hs) Hd Hc H64. unfold pci_probe, add_pci_dev. do 3 km_step.
  rewrite Z.geb_leb, (proj2 (Z.leb_gt _ _)) by done. km_step.
  eapply wp_mono; [apply (kctrl_get_spec dev (k_curr_ctrls s) s L I); pose proof (bi_curr _ _ B); lia|].
  intros [e|c] s1.
  { intros [-> [l ->]]. km_steps. split; [|done]. apply kinv_faults. by exists L. }
  intros (L1 & l & n & -> & EL & I1 & HL & ->). set (c := k_next s) in *.
  assert (Hcc : c ∉ L ctrl_list) by (by apply (mi_below _ _ _ I)).
  assert (Hreg : (k_regions s ∪ {[dev]}) ∖ {[dev]} = k_regions s) by (rewrite (bi_regions _ _ B); set_solver).
  assert (Hen : (k_enabled s ∪ {[dev]}) ∖ {[dev]} = k_enabled s) by (rewrite (bi_enabled _ _ B); set_solver).
  do 3 km_step.
  { apply probe_fails; [by apply Z.eqb_neq, negb_true_iff|]. eapply (probe_undo s _ L L1 c); try done. by apply mod_inv_faults. }
  do 5 km_step.
  { km_step. apply wp_release_region; [kproj; set_solver|]. kproj. apply probe_fails; [apply Z.ltb_lt in Heqb0; lia|]. eapply (probe_undo s _ L L1 c); try done.
    eapply mod_inv_ext; [..|exact I1]; done. }
  do 3 km_step. eapply wp_mono; [apply (ctrl_chrdev_create_spec c (MkKctrl dev (k_curr_ctrls s) 0 false)); [apply lookup_insert_eq|done]|].
  intros r s2 (l2 & k' & d & -> & Ep & H). kproj. rewrite insert_insert_eq.
  assert (I2 : forall s3, k_nodes s3 = n -> k_ctrls s3 = <[c := k']> (k_ctrls s) -> same_maps s s3 -> k_next s3 = S c -> mod_inv s3 L1 []).
  { intros s3 E1 E2 SM E3. eapply (mod_inv_ctrls _ s3 L1 L1 I1); kproj.
    - by destruct SM.
    - rewrite E1. by destruct I1.
    - done.
    - intros c'. rewrite E2, EL. rewrite lookup_insert_is_Some, (mi_ctrls _ _ _ I). set_solver.
    - by rewrite E3.
    - intros c' Hin. rewrite E3. apply Nat.lt_nge. intros Hge. by destruct (mi_below _ _ _ I1 c' Hge) as [H' _]; apply (H' ctrl_list).
    - match goal with |- indifferent _ ?a ?b => replace b with a end; [intros i m Hm; split; [by apply (mi_wf _ _ _ I1 i m)|done]|].
      rewrite EL. symmetry. apply (fields_ext kc_pdev). intros c' _. rewrite E2. kproj. rewrite !lookup_insert. case_decide; [|done].
      cbn. by rewrite Ep.
    - apply (mi_few _ _ _ I1). }
  km_step.
  - apply negb_true_iff in Heqb1. rewrite Heqb1 in H. destruct H as [Hk ->]. km_step. apply wp_disable_device; [kproj; set_solver|]. kproj.
    km_step. apply wp_release_region; [kproj; set_solver|]. kproj. apply probe_fails; [by apply Z.eqb_neq|]. eapply (probe_undo s _ L L1 c k' I B Hf Hs); [by apply I2|done|done|done|done|done| |done].
    split; [apply Hreg|apply Hen|done..].
  - apply negb_false_iff in Heqb1. rewrite Heqb1 in H. destruct H as (Hk & _ & Hr & ->). km_steps. split; [|done].
    exists L1. split_and!; [by apply I2| |done|done]. rewrite EL. by eapply (bus_inv_add s _ L c k' dev).
Qed.

(** ** Removal *)

Lemma find_field ks cs dev :
  (forall c, c ∈ cs -> is_Some (ks !! c)) -> dev ∈ fields kc_pdev ks cs ->
  exists c xs ys k, List.find (fun c => default false ((fun k => kc_pdev k =? dev) <$> ks !! c)) cs = Some c /\
    cs = xs ++ c :: ys /\ ks !! c = Some k /\ kc_pdev k = dev.
Proof.
  intros Hl Hd. induction cs as [|c cs IH]; [set_solver|]. destruct (Hl c) as [k Hk]; [by left|]. cbn. rewrite Hk. cbn.
  destruct (kc_pdev k =? dev) eqn:E; [exists c, [], cs, k; split_and!; [done..|by apply Z.eqb_eq]|].
  apply Z.eqb_neq in E. destruct IH as (c' & xs & ys & k' & ? & -> & ? & ?).
  - intros c' Hc'. apply Hl. by right.
  - cbn in Hd. rewrite Hk in Hd. cbn in Hd. set_solver.
  - by exists c', (c :: xs), ys, k'.
Qed.

Lemma fields_app f ks cs cs' : fields f ks (cs ++ cs') = fields f ks cs ++ fields f ks cs'.
Proof. apply fmap_app. Qed.

Lemma fields_cons f ks c k cs : ks !! c = Some k -> fields f ks (c :: cs) = f k :: fields f ks cs.
Proof. intros E. unfold fields. cbn. by rewrite E. Qed.

Lemma filter_keep (l : list Z) d : d ∉ l -> filter (fun x => x <> d) l = l.
Proof. induction l as [|x l IH]; intros H; [done|]. rewrite filter_cons_True by set_solver. rewrite IH; [done|set_solver]. Qed.

Lemma filter_out (xs ys : list Z) d : NoDup (xs ++ d :: ys) -> filter (fun x => x <> d) (xs ++ d :: ys) = xs ++ ys.
Proof.
  intros (Hx & Hxy & [Hy _]%list.NoDup_cons)%list.NoDup_app. rewrite list.filter_app, filter_cons_False by naive_solver.
  rewrite !filter_keep; [done|done|]. intros Hd. apply (Hxy d); [done|by left].
Qed.

Lemma bus_inv_remove s s' xs c ys k dev :
  bus_inv s (xs ++ c :: ys) -> c ∉ xs ++ ys -> k_ctrls s !! c = Some k -> kc_pdev k = dev ->
  k_ctrls s' = delete c (k_ctrls s) -> k_devs s' = k_devs s ∖ {[kc_rdev k]} ->
  k_bound s' = filter (fun x => x <> dev) (k_bound s) -> k_curr_ctrls s' = k_curr_ctrls s - 1 ->
  k_regions s' = k_regions s ∖ {[dev]} -> k_enabled s' = k_enabled s ∖ {[dev]} -> k_masters s' = k_masters s ∖ {[dev]} ->
  k_unheld s' = k_unheld s -> bus_inv s' (xs ++ ys).
Proof.
  intros [B1 B2 B3 B4 B5 B6 B7 B8 B9 B10] Hc Hk Ep Ec Ed Eb Ecu Er Ee Em Eu.
  assert (F : forall f, fields f (k_ctrls s) (xs ++ c :: ys) = fields f (k_ctrls s) xs ++ f k :: fields f (k_ctrls s) ys).
  { intros f. by rewrite fields_app, (fields_cons _ _ _ k). }
  assert (F' : forall f, fields f (k_ctrls s') (xs ++ ys) = fields f (k_ctrls s) xs ++ fields f (k_ctrls s) ys).
  { intros f. rewrite Ec, fields_delete by done. apply fields_app. }
  change (fields kc_pdev (k_ctrls s) (xs ++ c :: ys) = k_bound s) in B1. rewrite F, Ep in B1. rewrite F in B8, B9.
  rewrite <- B1 in Eb, B2. rewrite filter_out in Eb by done.
  assert (S : forall (l l' : list Z) x, NoDup (l ++ x :: l') -> (list_to_set (l ++ x :: l') : gset Z) ∖ {[x]} = list_to_set (l ++ l')).
  { intros l l' x N. rewrite <- Permutation_middle in N. apply list.NoDup_cons in N as [N _]. apply set_eq. set_solver. }
  split.
  - rewrite Eb. apply (F' kc_pdev).
  - rewrite Eb. rewrite <- Permutation_middle in B2. by apply list.NoDup_cons in B2 as [_ ?].
  - rewrite Ecu, B3, !length_app. cbn. lia.
  - rewrite Er, Eb, B4, <- B1. by apply S.
  - rewrite Ee, Eb, B5, <- B1. by apply S.
  - rewrite Em, Eb, B6, <- B1. by apply S.
  - intros c' k'. rewrite Ec, lookup_delete_Some. intros [_ H]. by eapply B7.
  - rewrite Ed, F', B8. by apply S.
  - rewrite F'. rewrite <- Permutation_middle in B9. by apply list.NoDup_cons in B9 as [_ ?].
  - by rewrite Eu.
Qed.

Lemma pci_remove_spec dev s :
  kinv s -> dev ∈ k_bound s -> (forall i m gd, k_maps s !! i = Some m -> km_data m <> Gpu gd) ->
  wp (pci_remove dev) (fun _ s' => kinv s' /\ k_maps s' = k_maps s /\ k_bound s' = filter (fun x => x <> dev) (k_bound s)) s.
Proof.
  intros (L & I & B & Hf & Hs) Hd Hg. unfold pci_remove, remove_pci_dev, ctrl_find_by_pci_dev. do 7 km_step.
  destruct (find_field (k_ctrls s) (L ctrl_list) dev) as (c & xs & ys & k & Ef & EL & Hk & Ep).
  { intros c. apply (mi_ctrls _ _ _ I). }
  { rewrite <- (bi_bound _ _ B) in Hd. exact Hd. }
  eapply wp_mono; [eapply (list_find_spec _ ctrl_list _ _ (L ctrl_list)); [apply (ls_linked _ _ (mi_lists _ _ _ I))|]|].
  { intros c' Hc'. destruct (proj2 (mi_ctrls _ _ _ I c') Hc') as [k' Hk']. kproj. instantiate (1 := fun c => default false ((fun k => kc_pdev k =? dev) <$> k_ctrls s !! c)).
    cbn. by rewrite Hk'. }
  intros r n [-> ->]. rewrite Ef. km_step.
  assert (Nc : c ∉ xs ++ ys).
  { pose proof (lk_nodup _ _ _ (ls_linked _ _ (mi_lists _ _ _ I) ctrl_list)) as N. rewrite EL, <- Permutation_middle in N.
    by apply list.NoDup_cons in N as [? _]. }
  eapply wp_mono; [eapply (kctrl_put_spec c k xs ys _ L); [|done|exact Hk|]|].
  - eapply mod_inv_ext; [..|exact I]; done.
  - apply no_gpu_indifferent; [apply (mi_wf _ _ _ I)|exact Hg].
  - cbn beta. intros _ s1 (L' & I' & EL' & SM & [S1 S2 S3 S4 S5 S6] & Ec & Ed).
    km_step. apply wp_release_region; [rewrite S1; kproj; rewrite (bi_regions _ _ B); by apply elem_of_list_to_set|]. km_steps.
    apply wp_disable_device; [kproj; rewrite S2; kproj; rewrite (bi_enabled _ _ B); by apply elem_of_list_to_set|]. km_steps. kproj.
    rewrite (bi_chrdev _ _ B c k Hk) in Ed.
    split_and!; [|apply SM|by rewrite S4]. exists L'. split_and!.
    + eapply mod_inv_ext; [..|exact I']; done.
    + rewrite EL'. rewrite EL in B. eapply (bus_inv_remove s _ xs c ys k dev B); kproj; try done; by rewrite ?S1, ?S2, ?S3, ?S4, ?S5, ?S6.
    + kproj. by rewrite (sm_dma_faults _ _ SM).
    + kproj. by rewrite (sm_setup _ _ SM).
Qed.
End bus.
End KBus.
