(* ===== verification/KModuleSpec.v ===== *)
(** The kernel module's requests as a whole: every sequence of them keeps the module's
    account of what it holds, and unloading it returns everything. *)
From Stdlib Require Import ZArith Lia List Bool.
From stdpp Require Import base list gmap gmultiset fin_maps functions.
From S2P Require Import Prelude Exec NvmQueue Host DmaSpec KList KModule KModuleInv KModuleMap KModuleBus.
Import KList KModule KInv KMapping KBus.

Import ListNotations.
Local Open Scope Z_scope.

Module KSpec.
Section requests.
Context {P : Platform}.

(** ** Lookups *)

Lemma set_nodes_id s : set_nodes s (k_nodes s) = s.
Proof. by destruct s. Qed.

(** The test [map_find] applies. *)
Definition matches (task vaddr : Z) (m : map) : bool :=
  (km_owner m =? task) && ((km_vaddr m =? Z.land vaddr PAGE_MASK) || (km_vaddr m =? Z.land vaddr GPU_PAGE_MASK)).

Lemma map_find_spec task l vaddr s L :
  mod_inv s L [] -> l <> ctrl_list ->
  wp (map_find task l vaddr) (fun r s' => s' = s /\
    match r with
    | Some i => i ∈ L l /\ exists m, k_maps s !! i = Some m /\ matches task vaddr m = true
    | None => forall i m, i ∈ L l -> k_maps s !! i = Some m -> matches task vaddr m = false
    end) s.
Proof.
  intros I Hl. set (f := fun i => default false (matches task vaddr <$> k_maps s !! i)).
  assert (Hm : forall i, i ∈ L l -> is_Some (k_maps s !! i)) by (intros i Hi; apply (mi_maps _ _ _ I); destruct l; naive_solver).
  unfold map_find. do 3 km_step.
  eapply wp_mono; [apply (list_find_spec _ l _ f (L l)); [apply (ls_linked _ _ (mi_lists _ _ _ I))|]|].
  { intros i Hi. unfold f. destruct (Hm i Hi) as [m ->]. done. }
  intros r n [-> ->]. rewrite set_nodes_id. split; [done|]. destruct (List.find f (L l)) as [i|] eqn:E.
  - apply find_some in E as [Hi Hf]. apply list_elem_of_In in Hi. split; [done|]. unfold f in Hf. destruct (k_maps s !! i); [by eexists|done].
  - intros i m Hi Hm'. apply list_elem_of_In in Hi. pose proof (find_none _ _ E i Hi) as Hf. unfold f in Hf. by rewrite Hm' in Hf.
Qed.

Lemma ctrl_find_by_inode_spec inode s L :
  mod_inv s L [] ->
  wp (ctrl_find_by_inode inode) (fun r s' => s' = s /\
    match r with Some c => c = inode /\ is_Some (k_ctrls s !! c) | None => k_ctrls s !! inode = None end) s.
Proof.
  intros I. unfold ctrl_find_by_inode. do 3 km_step.
  eapply wp_mono; [apply (list_find_spec _ ctrl_list _ (fun c => c =? inode)%nat (L ctrl_list)); [apply (ls_linked _ _ (mi_lists _ _ _ I))|]|].
  { intros c Hc. apply (mi_ctrls _ _ _ I) in Hc as [k ->]. done. }
  intros r n [-> ->]. rewrite set_nodes_id. split; [done|]. destruct (List.find _ _) as [c|] eqn:E.
  - apply find_some in E as [Hc Hf]. apply Nat.eqb_eq in Hf as <-. split; [done|]. by apply (mi_ctrls _ _ _ I), list_elem_of_In.
  - apply eq_None_not_Some. rewrite (mi_ctrls _ _ _ I). intros Hin%list_elem_of_In. pose proof (find_none _ _ E _ Hin) as Hf.
    cbn beta in Hf. by rewrite Nat.eqb_refl in Hf.
Qed.

(** ** Requests *)

(** The invariant with the lists named, for the operations on mappings. *)
Lemma kinv_maps s s' L L' :
  bus_inv s (L ctrl_list) -> k_dma_faults s = [] -> k_setup s = (true, true) -> L' ctrl_list = L ctrl_list ->
  same_rest s s' -> mod_inv s' L' [] -> kinv s'.
Proof.
  intros B Hf Hs EL SR I. exists L'. rewrite EL. split_and!; [done|by eapply bus_inv_rest| |].
  - by rewrite (sr_dma_faults _ _ SR).
  - by rewrite (sr_setup _ _ SR).
Qed.

(** Number of pages a request asks for. *)
Definition small (cmd : ioctl_cmd) : Prop :=
  match cmd with NVM_MAP_HOST_MEMORY _ n | NVM_MAP_DEVICE_MEMORY _ n => n < 2 ^ 32 | _ => True end.

(** What a mapping request leaves and answers: one new mapping, reported with its addresses
    or, when they cannot be copied to the program, with an error; or no new mapping and the
    error of the step that failed. *)
Definition map_outcome (fails : Z -> Prop) (good : map -> Prop) (s : kmod) (r : Z * list Z) (s' : kmod) : Prop :=
  kinv s' /\
  ((exists i m, k_maps s !! i = None /\ k_maps s' = <[i := m]> (k_maps s) /\ good m /\
      (r = (0, take (Z.to_nat (km_n_addrs m)) (km_addrs m)) \/ (r = (- EFAULT, []) /\ faulty s))) \/
   (snd r = [] /\ fails (fst r) /\ k_maps s' = k_maps s)).

Lemma map_reply_spec (fails : Z -> Prop) (good : map -> Prop) (r : Z + nat) s s0 :
  kinv s -> same_rest s0 s ->
  match r with
  | inl e => fails e /\ k_maps s = k_maps s0
  | inr i => k_maps s0 !! i = None /\ only i s0 s /\ exists m, k_maps s !! i = Some m /\ good m
  end -> wp (map_reply r) (map_outcome fails good s0) s.
Proof.
  intros K SR H. destruct r as [e|i]; cbn [map_reply]; [km_step; split; [done|by right]|].
  destruct H as (Hn & [m' Hi] & m & Hm & Hg). assert (m' = m) as -> by (rewrite Hi, lookup_insert_eq in Hm; by injection Hm).
  km_step. eapply wp_map_at; [done|].
  do 3 km_step; km_step; (split; [by apply kinv_faults|]); left; exists i, m; split_and!; try done; [right|by left].
  split; [done|]. eapply faulty_rest; [exact SR|]. by eapply faulty_here.
Qed.

Lemma map_host_spec task c vaddr n s k :
  kinv s -> k_ctrls s !! c = Some k -> n < 2 ^ 60 ->
  wp (r ← map_userspace task c vaddr n; map_reply r)
    (map_outcome (host_error s n) (fun m => exists q, 1 <= q <= n /\ host_map task vaddr (kc_pdev k) q m) s) s.
Proof.
  intros (L & I & B & Hf & Hs) Hk Hn. km_step. eapply wp_mono; [by eapply map_userspace_spec|].
  intros [e|i] s1 [SR H]; apply map_reply_spec; try done.
  - destruct H as (_ & I1 & _). by eapply (kinv_maps s s1 L L).
  - by destruct H as (? & _ & ?).
  - destruct H as [I1 _]. eapply (kinv_maps s s1 L _ B Hf Hs); [|exact SR|exact I1]. by rewrite ins_other.
  - destruct H as (_ & ? & ? & q & m & Hq & Hm & Hh). eauto 10.
Qed.

Lemma map_device_spec task c vaddr n s k :
  kinv s -> k_ctrls s !! c = Some k -> n < 2 ^ 32 ->
  wp (r ← map_device_memory task c vaddr n; map_reply r)
    (map_outcome (device_error s n) (device_map task vaddr n (k_bound s)) s) s.
Proof.
  intros (L & I & B & Hf & Hs) Hk Hn. km_step. eapply wp_mono; [by eapply map_device_memory_spec|].
  rewrite (bi_bound _ _ B). intros [e|i] s1 [SR H]; apply map_reply_spec; try done.
  - destruct H as (_ & I1 & _). by eapply (kinv_maps s s1 L L).
  - by destruct H as (? & _ & ?).
  - destruct H as [I1 _]. eapply (kinv_maps s s1 L _ B Hf Hs); [|exact SR|exact I1]. by rewrite ins_other.
  - by destruct H as (_ & ? & ? & m & Hm & Hd); eauto 10.
Qed.

(** A request reads its argument first, which may use up one outcome. *)
Lemma map_outcome_later (fails fails' : Z -> Prop) good s s1 r s' :
  same_rest s s1 -> k_maps s1 = k_maps s -> (forall e, fails e -> fails' e) ->
  map_outcome fails good s1 r s' -> map_outcome fails' good s r s'.
Proof.
  intros SR E H. pose proof (faulty_rest _ _ SR). unfold map_outcome. rewrite E.
  intros [K [(i & m & ? & ? & ? & [?|[? ?]])|(? & ? & ?)]]; (split; [done|]); [left; exists i, m; tauto..|]. right. auto.
Qed.

(** A mapping of a list goes, and what it held with it. *)
Lemma unmap_kinv l i m s L :
  mod_inv s L [] -> bus_inv s (L ctrl_list) -> k_dma_faults s = [] -> k_setup s = (true, true) -> l <> ctrl_list -> i ∈ L l ->
  k_maps s !! i = Some m ->
  wp (unmap_and_release i) (fun _ s' => kinv s' /\ k_maps s' = delete i (k_maps s) /\
    k_pins s = list_to_set_disj (pages_of m) ⊎ k_pins s' /\ k_dma s = list_to_set_disj (bus_of m) ⊎ k_dma s') s.
Proof.
  intros I B Hf Hs Hl Hi Hm. eapply wp_mono; [by apply (unmap_linked l i s L)|]. intros _ s' (xs & ys & E & I' & SR & Em).
  split_and!; [|done|..].
  - eapply (kinv_maps s s' L _ B Hf Hs); [|exact SR|exact I']. by rewrite ins_other.
  - destruct (res_split _ _ _ _ _ (mi_res _ _ _ I) Hm) as (-> & _). by rewrite (rs_pins _ _ _ (mi_res _ _ _ I')), Em.
  - destruct (res_split _ _ _ _ _ (mi_res _ _ _ I) Hm) as (_ & -> & _). by rewrite (rs_dma _ _ _ (mi_res _ _ _ I')), Em.
Qed.

(** What an unmap request does: one of the task's mappings at the address goes, or there is
    none. *)
Definition unmap_outcome (task addr : Z) (s : kmod) (r : Z * list Z) (s' : kmod) : Prop :=
  kinv s' /\
  ((r = (0, []) /\ exists i m, k_maps s !! i = Some m /\ matches task addr m = true /\ k_maps s' = delete i (k_maps s) /\
      k_pins s = list_to_set_disj (pages_of m) ⊎ k_pins s' /\ k_dma s = list_to_set_disj (bus_of m) ⊎ k_dma s') \/
   (r = (- EINVAL, []) /\ k_maps s' = k_maps s /\ forall i m, k_maps s !! i = Some m -> matches task addr m = false)).

Lemma unmap_spec task addr s :
  kinv s ->
  wp (map ← map_find task host_list addr;
      match map with
      | Some i => unmap_and_release i;; mret (0, [])
      | None =>
          map ← map_find task device_list addr;
          match map with Some i => unmap_and_release i;; mret (0, []) | None => mret (- EINVAL, []) end
      end) (unmap_outcome task addr s) s.
Proof.
  intros K. pose proof K as (L & I & B & Hf & Hs).
  assert (F : forall l i, l <> ctrl_list -> i ∈ L l -> (exists m, k_maps s !! i = Some m /\ matches task addr m = true) ->
    wp (unmap_and_release i;; mret (0, [])) (unmap_outcome task addr s) s).
  { intros l i Hl Hi (m & Hm & Hma). km_step. eapply wp_mono; [by eapply (unmap_kinv l i m s L)|].
    intros _ s' (K' & ?). km_step. split; [done|]. left. split; [done|]. by exists i, m. }
  km_step. eapply wp_mono; [by apply (map_find_spec task host_list addr s L)|]. intros [i|] s' [-> H]; [by destruct H; apply (F host_list)|].
  km_step. eapply wp_mono; [by apply (map_find_spec task device_list addr s L)|]. intros [i|] s' [-> H']; [by destruct H'; apply (F device_list)|].
  km_step. split; [done|]. right. split_and!; [done..|]. intros i m Hm.
  assert (Hi : is_Some (k_maps s !! i)) by (by eexists). apply (mi_maps _ _ _ I) in Hi as [Hi|[Hi|Hi]]; [by eapply H|by eapply H'|set_solver].
Qed.

(** A query for the physical addresses: [ds] are the mappings of the device list.  No mapping
    of the task at the address; one without a page table or of another size; no memory for
    the answer or no way to copy it; or the addresses of the table's pages. *)
Definition query_outcome (task vaddr n : Z) (s : kmod) (r : Z * list Z) (s' : kmod) : Prop :=
  kinv s' /\ k_maps s' = k_maps s /\ exists ds, linked (k_nodes s) device_list ds /\
  ((r = (- EINVAL, []) /\ forall i m, i ∈ ds -> k_maps s !! i = Some m -> matches task vaddr m = false) \/
   exists i m, i ∈ ds /\ k_maps s !! i = Some m /\ matches task vaddr m = true /\
     ((r = (- EINVAL, []) /\ forall t ms, km_data m = Gpu (MkGpu (Some t) ms) -> km_n_addrs m <> n) \/
      exists t ms, km_data m = Gpu (MkGpu (Some t) ms) /\ km_n_addrs m = n /\
        (((r = (- ENOMEM, []) \/ r = (- EFAULT, [])) /\ faulty s) \/
         r = (0, (fun j => p2p_phys t (Z.of_nat j)) <$> seq 0 (Z.to_nat n))))).

Lemma query_outcome_later task vaddr n s l r s' :
  (forall x, x ∈ l -> x ∈ k_faults s) -> query_outcome task vaddr n (set_kfaults s l) r s' -> query_outcome task vaddr n s r s'.
Proof.
  intros SR%rest_faults. pose proof (faulty_rest _ _ SR) as F. unfold query_outcome. kproj.
  intros (K & E & ds & Hl & [H|(i & m & ? & ? & ? & [H|(t & ms & ? & ? & H)])]); (split_and!; [done..|]); exists ds; split; try done.
  - by left.
  - right. exists i, m. split_and!; [done..|]. by left.
  - right. exists i, m. split_and!; [done..|]. right. exists t, ms. split_and!; [done..|]. tauto.
Qed.

Lemma table_live s ms i m t l pds :
  res s ms pds -> ms !! i = Some m -> km_data m = Gpu (MkGpu (Some t) l) -> k_tables s !! t = Some (km_n_addrs m).
Proof.
  intros R Hm Hd. apply elem_of_map_to_list. destruct (res_split _ _ _ _ _ R Hm) as (_ & _ & -> & _).
  unfold table_of. rewrite Hd. by left.
Qed.

Lemma query_spec task vaddr n s :
  kinv s ->
  wp (qmap ← map_find task device_list vaddr;
      match qmap with
      | None => mret (- EINVAL, [])
      | Some i =>
          m ← map_at i;
          match km_data m with
          | Gpu (MkGpu (Some t) _) =>
              s ← st_get; entries ← deref (k_tables s !! t);
              if negb (n =? entries) then mret (- EINVAL, [])
              else
                e ← attempt;
                if negb (e =? 0) then mret (- ENOMEM, [])
                else
                  e ← attempt;
                  if negb (e =? 0) then mret (- EFAULT, [])
                  else mret (0, (fun j => p2p_phys t (Z.of_nat j)) <$> seq 0 (Z.to_nat n))
          | NoData | Gpu (MkGpu None _) => mret (- EINVAL, [])
          | Pages _ => crash
          end
      end) (query_outcome task vaddr n s) s.
Proof.
  intros K. pose proof K as (L & I & _). pose proof (ls_linked _ _ (mi_lists _ _ _ I) device_list) as Hl.
  km_step. eapply wp_mono; [by apply (map_find_spec task device_list vaddr s L)|].
  intros [i|] s' [-> H]; [|km_step; split_and!; [done..|]; exists (L device_list); split; [done|by left]]. destruct H as (Hi & m & Hm & Hma).
  assert (Q : forall r s1, kinv s1 -> k_maps s1 = k_maps s ->
    (r = (- EINVAL, []) /\ (forall t ms, km_data m = Gpu (MkGpu (Some t) ms) -> km_n_addrs m <> n)) \/
    (exists t ms, km_data m = Gpu (MkGpu (Some t) ms) /\ km_n_addrs m = n /\
       (((r = (- ENOMEM, []) \/ r = (- EFAULT, [])) /\ faulty s) \/
        r = (0, (fun j => p2p_phys t (Z.of_nat j)) <$> seq 0 (Z.to_nat n)))) -> query_outcome task vaddr n s r s1).
  { intros r s1 K1 E1 H. split_and!; [done..|]. exists (L device_list). split; [done|]. right. by exists i, m. }
  km_step. eapply wp_map_at; [done|].
  destruct (km_data m) as [|ps|[[t|] l]] eqn:Hd; [km_step; apply Q; [done..|by left]|by destruct (mi_kind _ _ _ I i m ps)| |km_step; apply Q; [done..|by left]].
  km_steps. eapply wp_deref; [by eapply table_live; [apply (mi_res _ _ _ I)|..]|]. km_step.
  { km_step. apply negb_true_iff, Z.eqb_neq in Heqb. apply Q; [done..|]. left. split; [done|]. intros _ _ _. congruence. }
  apply negb_false_iff, Z.eqb_eq in Heqb.
  do 3 km_step; [km_step; apply Q; [by apply kinv_faults|done|]; right; exists t, l; split_and!; [done..|left; split; [by left|by eapply faulty_here]]|].
  do 3 km_step; km_step; apply Q; try done; try (by do 2 apply kinv_faults); right; exists t, l; split_and!; try done; [left|by right].
  split; [by right|]. eapply faulty_here; [done|]. auto.
Qed.

(** Every request: unknown files and commands, unreadable arguments, and the rest. *)
Definition ioctl_outcome (task : Z) (inode : nat) (cmd : ioctl_cmd) (s : kmod) (r : Z * list Z) (s' : kmod) : Prop :=
  match k_ctrls s !! inode, cmd with
  | None, _ => r = (- EBADF, []) /\ s' = s
  | Some _, NVM_UNKNOWN => r = (- EINVAL, []) /\ s' = s
  | Some k, _ =>
      (r = (- EFAULT, []) /\ k_maps s' = k_maps s /\ faulty s) \/
      match cmd with
      | NVM_MAP_HOST_MEMORY v n => map_outcome (host_error s n) (fun m => exists q, 1 <= q <= n /\ host_map task v (kc_pdev k) q m) s r s'
      | NVM_MAP_DEVICE_MEMORY v n => map_outcome (device_error s n) (device_map task v n (k_bound s)) s r s'
      | NVM_QUERY_DEVICE_PHYS_ADDRS v n => query_outcome task v n s r s'
      | NVM_UNMAP_MEMORY a => unmap_outcome task a s r s'
      | NVM_UNKNOWN => True
      end
  end.

Lemma map_ioctl_spec task inode cmd s :
  kinv s -> small cmd -> wp (map_ioctl task inode cmd) (fun r s' => kinv s' /\ ioctl_outcome task inode cmd s r s') s.
Proof.
  intros K Hc. pose proof K as (L & I & _). unfold map_ioctl, ioctl_outcome. km_step.
  eapply wp_mono; [by apply (ctrl_find_by_inode_spec inode s L)|]. intros [c|] s' [-> H]; [|rewrite H; by km_step].
  destruct H as [-> [k Hk]]. rewrite Hk.
  destruct cmd as [v n|v n|v n|a|]; cbn [small] in Hc; [..|by km_step]; do 3 km_step; 
    try (km_step; split; [by apply kinv_faults|left; split_and!; [done..|by eapply faulty_here]]);
    apply kinv_faults with (l := l) in K; apply negb_false_iff in Heqb.
  - eapply wp_mono; [eapply (map_host_spec _ _ _ _ _ k K Hk); lia|]. intros r s' H. split; [apply H|right].
    eapply (map_outcome_later _ _ _ s (set_kfaults s l)); [by apply rest_faults|done| |exact H]. intros e'. apply host_error_rest. by apply rest_faults.
  - eapply wp_mono; [eapply (map_device_spec _ _ _ _ _ k K Hk); lia|]. intros r s' H. split; [apply H|right].
    eapply (map_outcome_later _ _ _ s (set_kfaults s l)); [by apply rest_faults|done| |exact H]. intros e'. apply device_error_rest. by apply rest_faults.
  - eapply wp_mono; [by apply query_spec|]. intros r s' H. split; [apply H|right; by eapply query_outcome_later].
  - eapply wp_mono; [by apply unmap_spec|]. intros r s' H. split; [apply H|by right].
Qed.

(** ** The GPU driver takes memory back *)

(** A mapping of a list that has given its data back. *)
Lemma mod_inv_emptied s L i m p t :
  mod_inv s L [] -> k_maps s !! i = Some m -> (exists gd, km_data m = Gpu gd) ->
  map_to_list p ≡ₚ gather (p2p_of (pdevs s (L ctrl_list))) (delete i (k_maps s)) ->
  map_to_list t ≡ₚ gather table_of (delete i (k_maps s)) ->
  mod_inv (set_kmaps (set_tables (set_p2p s p) t) (<[i := with_data m NoData]> (k_maps s))) L [].
Proof.
  intros I Hm [gd Hd] Hp Ht. pose proof I as [I1 I2 I3 I4 I5 I6 I7 I8 I9].
  destruct (res_split _ _ _ _ _ I6 Hm) as (R1 & R2 & R3 & R4).
  split; kproj; try done.
  - intros j. rewrite lookup_insert_is_Some, <- I3. split; [intros [<-|[_ H]]; [by eexists|done]|]. intros H.
    destruct (decide (i = j)); [by left|by right].
  - intros a Ha. destruct (I5 a Ha) as (Hn & Hta & Hpa). split_and!; [done|..]; apply eq_None_not_Some; intros [x Hx%elem_of_map_to_list].
    + rewrite Ht in Hx. assert (Hin : (a, x) ∈ map_to_list (k_tables s)) by (rewrite R3; set_solver).
      apply elem_of_map_to_list in Hin. congruence.
    + rewrite Hp in Hx. assert (Hin : (a, x) ∈ map_to_list (k_p2p s)) by (rewrite R4; set_solver).
      apply elem_of_map_to_list in Hin. congruence.
  - eapply (res_no_data _ _ i); [by rewrite lookup_insert_eq|done|]. rewrite delete_insert_eq. split; kproj; [rewrite R1|rewrite R2|done|done].
    + unfold pages_of. rewrite Hd. multiset_solver.
    + unfold bus_of. rewrite Hd. multiset_solver.
  - intros j m'. rewrite lookup_insert_Some. intros [[<- <-]|[_ H]]; [done|by apply (I7 j)].
  - intros j m' ps Hj. rewrite lookup_insert_Some. intros [[<- <-]|[_ H]]; [done|by apply (I9 j)].
Qed.

Lemma force_release_spec i m gd s :
  kinv s -> k_maps s !! i = Some m -> km_data m = Gpu gd ->
  wp (force_release_gpu_memory i) (fun _ s' => kinv s' /\ k_maps s' = delete i (k_maps s)) s.
Proof.
  intros (L & I & B & Hf & Hs) Hm Hd. pose proof I as [I1 I2 I3 I4 I5 I6 I7 I8].
  destruct (res_split _ _ _ _ _ I6 Hm) as (R1 & R2 & R3 & R4).
  unfold force_release_gpu_memory. km_step. eapply wp_map_at; [done|]. rewrite Hd. km_step.
  eapply wp_mono; [eapply (release_region_spec i m gd s (L ctrl_list)); [done|by apply (I7 i)|apply (ls_linked _ _ I1)|intros c; apply I2|done|done|done]|].
  cbn beta. intros _ s1 (p & t & -> & Hp & Ht).
  assert (I' := mod_inv_emptied s L i m p t I Hm ltac:(by eexists) Hp Ht). set (s1 := set_kmaps _ _) in *.
  assert (B1 : bus_inv s1 (L ctrl_list)) by (by eapply bus_inv_rest; [|exact B]; split).
  assert (exists l, l <> ctrl_list /\ i ∈ L l) as (l & Hl & Hi).
  { assert (is_Some (k_maps s !! i)) as Hi by (by eexists). apply I3 in Hi as [H|[H|H]]; [by exists host_list|by exists device_list|set_solver]. }
  eapply wp_mono; [eapply (unmap_kinv l i (with_data m NoData) s1 L); try done; apply lookup_insert_eq|].
  intros _ s2 (K2 & E2 & _). split; [done|]. rewrite E2. unfold s1. kproj. by rewrite delete_insert_eq.
Qed.

(** ** Unloading *)

Lemma clear_loop_spec l fuel : forall s L i,
  mod_inv s L [] -> l <> ctrl_list -> (length (L l) <= fuel)%nat -> is_word 64 i ->
  wp (clear_loop fuel l (head (Elem <$> L l)) i) (fun r s' => exists L', mod_inv s' L' [] /\ L' l = [] /\
    (forall l', l' <> l -> L' l' = L l') /\ same_rest s s' /\ r = u64 (i + Z.of_nat (length (L l)))) s.
Proof.
  induction fuel as [|fuel IH]; intros s L i I Hl Hlen Hi; destruct (L l) as [|z zs] eqn:E; cbn [length] in Hlen; try lia.
  1,2: apply wp_ret; exists L; split_and!; [done..|]; rewrite Z.add_0_r; by rewrite u64_id.
  cbn [clear_loop head fmap list_fmap]. km_step.
  eapply wp_mono; [apply (unmap_linked l z s L); [done|done|rewrite E; by left]|]. cbn beta.
  intros _ s1 (xs & ys & E1 & I1 & SR1 & _).
  assert (xs = []) as ->.
  { destruct xs as [|x xs]; [done|]. rewrite E in E1. injection E1 as -> E1.
    pose proof (lk_nodup _ _ _ (ls_linked _ _ (mi_lists _ _ _ I) l)) as N. rewrite E, E1 in N. apply list.NoDup_cons in N as [N _]. set_solver. }
  rewrite E in E1. injection E1 as ->. cbn [app] in I1. set (L1 := <[l := ys]> L) in *.
  assert (EL : L1 l = ys) by apply fn_lookup_insert. do 2 km_step.
  eapply wp_mono; [apply (list_next_spec _ l [] (Head l) [] ys); [|done]; rewrite <- EL; apply (ls_linked _ _ (mi_lists _ _ _ I1))|].
  intros r n [-> ->]. rewrite set_nodes_id, <- EL.
  eapply wp_mono; [apply (IH s1 L1 (u64 (i + 1)) I1 Hl); [rewrite EL; lia|apply u64_range]|].
  intros r s2 (L2 & I2 & E2 & H2 & SR2 & ->). exists L2. split_and!; [done|done| |by etransitivity|].
  - intros l' Hl'. rewrite H2 by done. by apply ins_other.
  - rewrite EL. unfold u64. rewrite wrap_add_l. f_equal. cbn [length]. lia.
Qed.

Lemma clear_map_list_spec l s L :
  mod_inv s L [] -> l <> ctrl_list ->
  wp (clear_map_list l) (fun r s' => exists L', mod_inv s' L' [] /\ L' l = [] /\
    (forall l', l' <> l -> L' l' = L l') /\ same_rest s s' /\ r = u64 (Z.of_nat (length (L l)))) s.
Proof.
  intros I Hl. unfold clear_map_list. do 4 km_step. pose proof (ls_linked _ _ (mi_lists _ _ _ I) l) as Hlk.
  eapply wp_mono; [by apply (list_next_spec _ l [] (Head l) [] (L l))|]. intros r n [-> ->]. rewrite set_nodes_id.
  eapply wp_mono; [apply (clear_loop_spec l _ s L 0 I Hl); [by apply linked_size in Hlk|done]|].
  intros r s' (L' & ? & ? & ? & ? & ->). by exists L'.
Qed.

Lemma remove_all_spec devs : forall s,
  kinv s -> k_bound s = devs -> k_maps s = ∅ -> wp (remove_all devs) (fun _ s' => kinv s' /\ k_bound s' = [] /\ k_maps s' = ∅) s.
Proof.
  induction devs as [|d devs IH]; intros s K Hb Hm; cbn [remove_all]; [by km_step|]. km_step.
  eapply wp_mono; [apply (pci_remove_spec d s K); [rewrite Hb; by left|by rewrite Hm]|].
  intros _ s1 (K1 & E1 & B1). apply IH; [done| |by rewrite E1]. rewrite B1, Hb.
  destruct K as (L & _ & B & _). pose proof (bi_nodup _ _ B) as N. rewrite Hb in N. by apply (filter_out [] devs d).
Qed.

(** Nothing is held any more. *)
Record all_free (s : kmod) : Prop := {
  af_maps : k_maps s = ∅; af_ctrls : k_ctrls s = ∅; af_pins : k_pins s = ∅; af_dma : k_dma s = ∅;
  af_tables : k_tables s = ∅; af_p2p : k_p2p s = ∅;
  af_pci : k_regions s = ∅ /\ k_enabled s = ∅ /\ k_masters s = ∅ /\ k_devs s = ∅;
  af_curr : k_curr_ctrls s = 0
}.

Lemma kinv_free s : kinv s -> k_bound s = [] -> k_maps s = ∅ -> all_free s.
Proof.
  intros (L & I & [B1 B2 B3 B4 B5 B6 B7 B8 B9] & _) Hb Hm. rewrite Hb in B1, B4, B5, B6. apply fmap_nil_inv in B1.
  rewrite B1 in B3, B8. destruct (mi_res _ _ _ I) as [R1 R2 R3 R4]. rewrite Hm in R1, R2, R3, R4. cbn in R3, R4.
  apply Permutation_nil_r, map_to_list_empty_iff in R3. apply Permutation_nil_r, map_to_list_empty_iff in R4.
  split; try done. apply map_empty. intros c. apply eq_None_not_Some. rewrite (mi_ctrls _ _ _ I), B1. set_solver.
Qed.

Lemma libnvm_helper_exit_spec s :
  kinv s -> wp libnvm_helper_exit (fun _ s' => all_free s' /\ k_bound s' = [] /\ k_setup s' = (false, false)) s.
Proof.
  intros (L & I & B & Hf & Hs). unfold libnvm_helper_exit. km_step.
  eapply wp_mono; [by apply (clear_map_list_spec device_list s L)|]. intros r1 s1 (L1 & I1 & D1 & H1 & SR1 & _). km_step.
  eapply wp_mono; [by apply (clear_map_list_spec host_list s1 L1)|]. intros r2 s2 (L2 & I2 & D2 & H2 & SR2 & _). km_step.
  assert (K2 : kinv s2).
  { eapply (kinv_maps s s2 L L2 B Hf Hs); [|by etransitivity|done]. by rewrite H2, H1. }
  assert (Hm : k_maps s2 = ∅).
  { apply map_empty. intros i. apply eq_None_not_Some. rewrite (mi_maps _ _ _ I2), D2, (H2 device_list), D1 by done. set_solver. }
  unfold pci_unregister_driver. do 2 km_step.
  eapply wp_mono; [by apply (remove_all_spec (k_bound s2) s2)|]. intros _ s3 (K3 & B3 & M3). km_steps.
  destruct (kinv_free s3 K3 B3 M3). by split.
Qed.

(** ** Loading *)

(** Before the module is loaded; [fs] are the outcomes of the calls to come. *)
Definition unloaded (fs : list Z) : kmod := MkKmod ∅ ∅ ∅ ∅ ∅ ∅ ∅ ∅ ∅ ∅ ∅ [] 0 0 fs (false, false) [] 0 0.

Lemma init_lists (Q : Z -> kmod -> Prop) (m : K Z) s :
  (forall n, lists n (fun _ => []) -> wp m Q (set_nodes s n)) ->
  wp (on_nodes (list_init ctrl_list);; on_nodes (list_init host_list);; on_nodes (list_init device_list);; m) Q s.
Proof.
  intros H. do 2 km_step. eapply wp_mono; [apply list_init_spec|]. cbn beta. intros _ n1 [L1 F1].
  do 2 km_step. eapply wp_mono; [apply list_init_spec|]. cbn beta. intros _ n2 [L2 F2].
  do 2 km_step. eapply wp_mono; [apply list_init_spec|]. cbn beta. intros _ n3 [L3 F3].
  apply (H n3). split; [|set_solver].
  assert (F : forall n n' l l', framed n n' [Head l] -> linked n l' [] -> l <> l' -> linked n' l' []).
  { intros n n' l l' Hf Hl Hne. eapply (linked_other n n' l l' []); [exact Hf|done|done|set_solver]. }
  intros []; [|by eapply F|done]. eapply (F n2); [done| |done]. by eapply F.
Qed.

Lemma loaded_kinv n fs : lists n (fun _ => []) -> kinv (MkKmod n ∅ ∅ ∅ ∅ ∅ ∅ ∅ ∅ ∅ ∅ [] 0 0 fs (true, true) [] 0 0).
Proof.
  intros Hl. exists (fun _ => []). split_and!; [| |done|done].
  - split; kproj; try done; try (by intros ? ?%elem_of_nil).
    + intros c. rewrite lookup_empty. split; [by intros []|set_solver].
    + intros c. rewrite lookup_empty. split; [by intros []|set_solver].
    + intros i _. split_and!; [intros; apply not_elem_of_nil|done..].
    + cbn. lia.
  - split; kproj; try done; apply NoDup_nil_2.
Qed.

Lemma libnvm_helper_entry_spec fs :
  wp libnvm_helper_entry (fun r s => if r =? 0 then kinv s else all_free s /\ k_setup s = (false, false)) (unloaded fs).
Proof.
  unfold libnvm_helper_entry. apply init_lists. intros n Hn. unfold unloaded. do 3 km_step.
  { km_step. apply Z.ltb_lt in Heqb. rewrite (proj2 (Z.eqb_neq _ _)) by lia. by split. }
  do 5 km_step; [km_steps; apply negb_true_iff in Heqb0; rewrite Heqb0; by split|].
  do 5 km_step; [km_steps; apply negb_true_iff in Heqb1; rewrite Heqb1; by split|].
  km_step. cbn [Z.eqb]. by apply loaded_kinv.
Qed.

(** ** Sequences of requests *)

(** Requests of user programs, and what the PCI core and the GPU driver call. *)
Inductive request :=
  | Ioctl (task : Z) (inode : nat) (cmd : ioctl_cmd)
  | Mmap (inode : nat) (vm_start vm_end : Z)
  | Probe (dev : Z)
  | Remove (dev : Z)
  | Reclaim (i : nat).

(** [dev_first] is the first device number, [max_num_ctrls] the module parameter, [len]
    gives the sizes of the devices' register windows. *)
Context (dev_first max_num_ctrls : Z) (len : Z -> Z).

Definition do_request (q : request) : K (Z * list Z) :=
  match q with
  | Ioctl task inode cmd => map_ioctl task inode cmd
  | Mmap inode a b => r ← mmap_registers len inode a b; mret (r, [])
  | Probe dev => r ← pci_probe dev_first max_num_ctrls dev; mret (r, [])
  | Remove dev => pci_remove dev;; mret (0, [])
  | Reclaim i => force_release_gpu_memory i;; mret (0, [])
  end.

(** The requests the guarantees cover.  The module itself checks none of this: a request maps
    fewer than 2^32 pages ([huge_request_overruns] is what happens otherwise); a device is
    probed while there is room for it under a limit of at most 64 (over the limit the probe
    succeeds without reserving anything); a device is removed while no GPU memory is mapped
    (the entries of a removed controller are not released); and the GPU driver takes back
    memory it has given. *)
Definition allowed (s : kmod) (q : request) : Prop :=
  match q with
  | Ioctl _ _ cmd => small cmd
  | Mmap _ _ _ => True
  | Probe dev => (dev ∉ k_bound s) /\ k_curr_ctrls s < max_num_ctrls <= 64
  | Remove dev => dev ∈ k_bound s /\ forall i m gd, k_maps s !! i = Some m -> km_data m <> Gpu gd
  | Reclaim i => exists m gd, k_maps s !! i = Some m /\ km_data m = Gpu gd
  end.

(** The states of the loaded module after allowed requests.  Any call of the kernel may fail
    ([fs]) but the mapping of a single page for DMA, see [dma_fault_unmaps_unmapped]. *)
Inductive loaded : kmod -> Prop :=
  | loaded_entry fs s : libnvm_helper_entry (unloaded fs) = Some (0, s) -> loaded s
  | loaded_request s q r s' : loaded s -> allowed s q -> do_request q s = Some (r, s') -> loaded s'.

Lemma mmap_registers_spec inode a b s : kinv s -> wp (mmap_registers len inode a b) (fun _ s' => kinv s') s.
Proof.
  intros K. pose proof K as (L & I & _). unfold mmap_registers. km_step.
  eapply wp_mono; [by apply (ctrl_find_by_inode_spec inode s L)|]. intros [c|] s' [-> H]; [|by km_step].
  destruct H as [-> [k Hk]]. km_step. eapply wp_ctrl_at; [done|]. km_step; [by km_step|]. km_step. by apply kinv_faults.
Qed.

Lemma do_request_spec q s : kinv s -> allowed s q -> wp (do_request q) (fun _ s' => kinv s') s.
Proof.
  intros K Ha. destruct q as [task inode cmd|inode a b|dev|dev|i]; cbn [do_request allowed] in *.
  - eapply wp_mono; [by apply map_ioctl_spec|]. by intros ? ? [? _].
  - km_step. eapply wp_mono; [by apply mmap_registers_spec|]. intros. by km_step.
  - destruct Ha as (? & ? & ?). km_step. eapply wp_mono; [by apply pci_probe_spec|]. intros ? ? [? _]. by km_step.
  - destruct Ha as [? ?]. km_step. eapply wp_mono; [by apply pci_remove_spec|]. cbn beta. intros _ ? [? _]. by km_step.
  - destruct Ha as (m & gd & Hm & Hd). km_step. eapply wp_mono; [by eapply force_release_spec|]. cbn beta. intros _ ? [? _]. by km_step.
Qed.

Lemma loaded_kinv_all s : loaded s -> kinv s.
Proof.
  induction 1 as [fs s E|s q r s' _ IH Ha E].
  - apply (wp_exec _ _ _ _ _ E (libnvm_helper_entry_spec fs)).
  - apply (wp_exec _ _ _ _ _ E (do_request_spec q s IH Ha)).
Qed.

(** ** A request for host memory *)

Lemma wp_attempt_head e l (Q : Z -> kmod -> Prop) s : k_faults s = e :: l -> Q e (set_kfaults s l) -> wp attempt Q s.
Proof. intros E H. eapply wp_eq; [|exact H]. unfold attempt. by rewrite E. Qed.

Lemma wp_attempt_none (Q : Z -> kmod -> Prop) s : k_faults s = [] -> Q 0 s -> wp attempt Q s.
Proof. intros E H. eapply wp_eq; [|exact H]. unfold attempt. by rewrite E. Qed.

(** The pages [get_user_pages] gives for [n] when it reports [e]. *)
Definition pinned (e n : Z) : Z := if e =? 0 then n else Z.min e n.

Lemma create_descriptor_served task c vaddr n s l k (Q : Z + nat -> kmod -> Prop) :
  k_faults s = 0 :: l -> k_ctrls s !! c = Some k -> 1 <= n < 2 ^ 60 ->
  (forall i s', k_nodes s' = <[Elem i := null_node]> (k_nodes s) -> i = k_next s -> k_faults s' = l -> k_dma_faults s' = k_dma_faults s ->
     k_dma s' = k_dma s ->
     k_maps s' !! i = Some (MkKmap task vaddr (kc_pdev k) 0 NoData None n (repeat 0 (Z.to_nat n))) -> Q (inr i) s') ->
  wp (create_descriptor task c vaddr n) Q s.
Proof.
  intros Hf Hk Hn H. unfold create_descriptor. km_step. eapply wp_attempt_head; [exact Hf|]. cbn [negb Z.eqb]. km_steps.
  eapply wp_deref; [exact Hk|]. rewrite descriptor_size by done. rewrite Z.ltb_irrefl.
  do 4 km_step. unfold list_node_init. kproj. apply wp_st_modify. unfold upd_map. km_steps. apply H; try done. apply lookup_insert_eq.
Qed.

Lemma map_user_pages_served task i m s e :
  k_maps s !! i = Some m -> k_faults s = [0; e] -> 0 <= e -> k_dma_faults s = [] -> 1 <= km_n_addrs m ->
  Z.of_nat (length (km_addrs m)) = km_n_addrs m ->
  let q := pinned e (km_n_addrs m) in
  wp (map_user_pages task i) (fun r s' => r = 0 /\ k_faults s' = [] /\ k_nodes s' = k_nodes s /\
    exists m', k_maps s' !! i = Some m' /\ km_n_addrs m' = q /\
      take (Z.to_nat q) (km_addrs m') = bus (km_pdev m) <$> user_pages task (km_vaddr m) q) s.
Proof.
  intros Hm Hf He Hdf Hn Hlen q. assert (Hq : 1 <= q <= km_n_addrs m) by (unfold q, pinned; destruct (Z.eqb_spec e 0); lia).
  unfold map_user_pages. km_step. eapply wp_attempt_head; [exact Hf|]. cbn [negb Z.eqb]. km_step. eapply wp_map_at; [done|].
  unfold get_user_pages. do 2 km_step. eapply wp_attempt_head; [done|]. rewrite (proj2 (Z.ltb_ge _ _)) by done.
  fold (pinned e (km_n_addrs m)). fold q. fold (user_pages task (km_vaddr m) q). set (ps := user_pages _ _ _).
  assert (Lps : length ps = Z.to_nat q) by (unfold ps, user_pages; by rewrite length_fmap, length_seq).
  km_steps; [apply Z.leb_le in Heqb; lia|]. unfold upd_map. km_steps.
  eapply wp_mono; [apply map_pages_spec; [kproj; apply lookup_insert_eq|done|cbn; lia]|]. intros r s' [-> ->]. kproj.
  split_and!; [done..|]. eexists. split; [apply lookup_insert_eq|]. split; [done|]. cbn. rewrite take_0, app_nil_l.
  apply take_app_length'. by rewrite length_fmap.
Qed.

Lemma host_request_run task inode v n e s k :
  kinv s -> k_ctrls s !! inode = Some k -> 1 <= n < 2 ^ 60 -> k_faults s = [0; 0; 0; e] -> 0 <= e ->
  wp (map_ioctl task inode (NVM_MAP_HOST_MEMORY v n)) (fun r _ =>
    r = (0, bus (kc_pdev k) <$> user_pages task (Z.land v PAGE_MASK) (pinned e n))) s.
Proof.
  intros (L & I & _ & Hd & _) Hk Hn Hf He. unfold map_ioctl. km_step.
  eapply wp_mono; [by apply (ctrl_find_by_inode_spec inode s L)|]. intros [c|] s' [-> H]; [|congruence]. destruct H as [-> _].
  km_step. eapply wp_attempt_head; [exact Hf|]. cbn [negb Z.eqb]. unfold map_userspace. rewrite (proj2 (Z.ltb_ge _ _)) by lia. do 2 km_step.
  eapply create_descriptor_served; [done|exact Hk|done|]. intros i s1 En -> Ef Edf _ Em. km_step. eapply wp_map_at; [exact Em|].
  unfold upd_map. do 3 km_step.
  eapply wp_mono; [apply map_user_pages_served; [kproj; apply lookup_insert_eq|done|done|by kproj; rewrite Edf|cbn; lia|cbn; rewrite repeat_length; lia]|].
  cbn -[pinned]. intros r s2 (-> & Ef2 & En2 & m & Em2 & Hq & Ht). cbn [negb Z.eqb]. do 2 km_step.
  assert (Hi : forall l, k_next s ∉ L l) by (by apply (mi_below _ _ _ I)).
  eapply wp_mono; [apply (lists_insert _ L host_list (k_next s))|].
  - rewrite En2, En. apply (lists_node (k_nodes s) _ _ (k_next s)); [apply (mi_lists _ _ _ I)|done|]. intros a Ha. by rewrite lookup_insert_ne.
  - done.
  - rewrite En2, En, lookup_insert_eq. by eexists.
  - intros _ n' _. km_step. cbn [map_reply]. km_step. eapply wp_map_at; [exact Em2|]. km_step. apply wp_attempt_none; [done|].
    cbn [negb Z.eqb]. km_step. by rewrite Hq, Ht.
Qed.

(** ** A failing DMA mapping *)

Lemma crash_after {A B} (m : K A) (f : A -> K B) s : wp m (fun a s' => f a s' = None) s -> (m ≫= f) s = None.
Proof. intros (a & s' & E & H)%wp_total. unfold mbind, ST_bind. by rewrite E. Qed.

Lemma crash_first {A B} (m : K A) (f : A -> K B) s : m s = None -> (m ≫= f) s = None.
Proof. intros E. unfold mbind, ST_bind. by rewrite E. Qed.

Ltac crash_step := apply crash_after; lazymatch goal with
  | |- wp st_get _ _ => apply wp_st_get
  | |- wp (st_modify _) _ _ => apply wp_st_modify
  | |- _ => idtac
  end; kproj.

(** Releasing a mapping whose first address is not mapped. *)
Lemma unmap_and_release_crash i m ps a addrs s :
  k_nodes s !! Elem i = Some null_node -> k_maps s !! i = Some m -> km_data m = Pages ps ->
  km_release m = Some release_user_pages_cb -> 1 <= km_n_addrs m -> km_addrs m = a :: addrs -> (km_pdev m, a) ∉ k_dma s ->
  unmap_and_release i s = None.
Proof.
  intros Hn Hm Hd Hr Hna Ha Hx. unfold unmap_and_release. crash_step. km_step.
  eapply wp_mono; [by apply list_remove_null|]. cbn beta. intros _ n ->. rewrite set_nodes_id. crash_step. eapply wp_map_at; [done|].
  apply crash_first. rewrite Hr, Hd. unfold release_user_pages. crash_step. eapply wp_map_at; [done|]. rewrite Hd. apply crash_first.
  destruct (Z.to_nat (km_n_addrs m)) as [|q] eqn:E; [lia|]. cbn [unmap_pages]. rewrite Ha. apply crash_first. unfold dma_unmap_page.
  crash_step. by rewrite bool_decide_false.
Qed.

Lemma map_user_pages_dma_fault task i m s e :
  k_maps s !! i = Some m -> k_faults s = [0; 0] -> k_dma_faults s = [e] -> e <> 0 -> 1 <= km_n_addrs m ->
  Z.of_nat (length (km_addrs m)) = km_n_addrs m ->
  wp (map_user_pages task i) (fun r s' => r = e /\ k_nodes s' = k_nodes s /\ k_dma s' = k_dma s /\
    exists m' ps addrs, k_maps s' !! i = Some m' /\ km_data m' = Pages ps /\ km_release m' = Some release_user_pages_cb /\
      km_n_addrs m' = km_n_addrs m /\ km_pdev m' = km_pdev m /\ km_addrs m' = (2 ^ 64 - 1) :: addrs) s.
Proof.
  intros Hm Hf Hdf He Hn Hlen.
  unfold map_user_pages. km_step. eapply wp_attempt_head; [exact Hf|]. cbn [negb Z.eqb]. km_step. eapply wp_map_at; [done|].
  unfold get_user_pages. do 2 km_step. eapply wp_attempt_head; [done|]. cbn [Z.ltb Z.compare Z.eqb].
  fold (user_pages task (km_vaddr m) (km_n_addrs m)). set (ps := user_pages _ _ _).
  assert (Lps : length ps = Z.to_nat (km_n_addrs m)) by (unfold ps, user_pages; by rewrite length_fmap, length_seq).
  destruct ps as [|p ps'] eqn:Eps; [cbn in Lps; lia|]. km_steps; [apply Z.leb_le in Heqb; lia|]. unfold upd_map. km_step.
  cbn [map_pages]. km_step. eapply wp_map_at; [kproj; apply lookup_insert_eq|]. unfold dma_map_page, dma_attempt. do 2 km_step.
  eapply wp_eq; [kproj; by rewrite Hdf|]. rewrite (proj2 (Z.eqb_neq _ _) He). cbn [negb]. do 2 km_step. cbn [km_addrs with_release with_data with_page_size with_n_addrs].
  rewrite (proj2 (Nat.ltb_lt _ _)) by lia. unfold upd_map. km_step. kproj. rewrite (proj2 (Z.eqb_neq _ _) He). cbn [negb]. km_step.
  destruct (km_addrs m) as [|a addrs] eqn:Ea; [cbn in Hlen; lia|].
  split_and!; [done..|]. eexists _, _, addrs. split; [apply lookup_insert_eq|]. done.
Qed.

(** A request for 2^61 + 1 pages allocates 96 bytes and clears far more. *)
Lemma huge_request_overruns task c vaddr s k :
  k_ctrls s !! c = Some k -> k_faults s = [] -> create_descriptor task c vaddr (2 ^ 61 + 1) s = None.
Proof.
  intros Hk Hf. unfold create_descriptor. crash_step. apply wp_attempt_none; [done|]. cbn [negb Z.eqb]. crash_step. crash_step.
  by eapply wp_deref.
Qed.

(** ** The module's guarantees *)

(** C6: After any sequence of requests that are [allowed] (fewer than 2^32 pages each, probes
    below a limit of at most 64, no removal while GPU memory is mapped), whatever calls of
    the kernel fail other than the DMA mapping of a single page, the next allowed request
    completes without touching memory, pages, mappings or tables it does not hold, and
    leaves such a state again.  The page array of a request whose [get_user_pages] fails is
    given to [kfree] though it comes from [kvcalloc]; the model counts these. *)
Theorem module_safe s q : loaded s -> allowed s q -> exists r s', do_request q s = Some (r, s') /\ loaded s'.
Proof.
  intros Hl Ha. pose proof (do_request_spec q s (loaded_kinv_all s Hl) Ha) as (r & s' & E & _)%wp_total.
  exists r, s'. split; [done|]. by econstructor.
Qed.

(** C8: After any sequence of [allowed] requests and no failed DMA mapping of a
    single page, what the module holds is what its live mappings account for: pinned pages,
    their DMA addresses, GPU page tables and their DMA mappings for the bound devices; every
    bound device has its registers reserved, is enabled and has one controller; and the
    module has never released a region or device it did not hold. *)
Theorem module_accounts s : loaded s ->
  k_pins s = list_to_set_disj (gather pages_of (k_maps s)) /\
  k_dma s = list_to_set_disj (gather bus_of (k_maps s)) /\
  map_to_list (k_tables s) ≡ₚ gather table_of (k_maps s) /\
  map_to_list (k_p2p s) ≡ₚ gather (p2p_of (k_bound s)) (k_maps s) /\
  k_regions s = list_to_set (k_bound s) /\ k_enabled s = list_to_set (k_bound s) /\ k_masters s = list_to_set (k_bound s) /\
  k_curr_ctrls s = Z.of_nat (length (k_bound s)) /\ size (k_devs s) = length (k_bound s) /\
  k_unheld s = 0%nat.
Proof.
  intros (L & I & B & _)%loaded_kinv_all. destruct B as [B1 B2 B3 B4 B5 B6 _ B8 B9 B10], (mi_res _ _ _ I) as [R1 R2 R3 R4].
  rewrite B1 in R4. assert (El : length (k_bound s) = length (L ctrl_list)) by (by rewrite <- B1; unfold pdevs; rewrite length_fmap).
  split_and!; try done; [by rewrite El|]. rewrite B8, size_list_to_set by done. unfold fields. by rewrite length_fmap.
Qed.

(** C23: Unloading the module after any sequence of [allowed] requests (so no device was
    removed while GPU memory was mapped) in which no DMA mapping of a single page failed
    returns everything it holds. *)
Theorem module_exit_clean s : loaded s ->
  exists s', libnvm_helper_exit s = Some (tt, s') /\ all_free s' /\ k_bound s' = [] /\ k_setup s' = (false, false).
Proof.
  intros K%loaded_kinv_all. pose proof (libnvm_helper_exit_spec s K) as ([] & s' & E & H)%wp_total. by exists s'.
Qed.

(** C26: After any sequence of [allowed] requests in which no DMA
    mapping of a single page failed, every [ioctl] request for fewer
    than 2^32 pages is answered, and the answer and its effect are those of the branch
    taken.  A request on an unknown file or with an unknown command is refused and changes
    nothing; one whose argument cannot be read gets -EFAULT.  A mapping of host memory adds
    one mapping and reports the bus addresses of the pages it pinned, one of device memory
    those of its pages for the first controller, or -EFAULT, with the mapping kept, when
    they cannot be copied; a failed one changes no mapping and reports -EINVAL for
    less than one page, otherwise -ENOMEM or what the call that obtains the pages reported.
    A query reports the physical addresses, -EINVAL when there is no mapping or it has
    another size, -ENOMEM or -EFAULT.  An unmap request releases one mapping of the task at
    the address, or reports -EINVAL when there is none. *)
Theorem map_ioctl_outcomes s task inode cmd : loaded s -> small cmd ->
  exists r s', map_ioctl task inode cmd s = Some (r, s') /\ ioctl_outcome task inode cmd s r s'.
Proof.
  intros K%loaded_kinv_all Hs. pose proof (map_ioctl_spec task inode cmd s K Hs) as (r & s' & E & _ & H)%wp_total. by exists r, s'.
Qed.

(** C27: A request for [n] pages of host memory of which [get_user_pages] pins [pinned e n] is
    answered with 0 and that many addresses: what the library relies on exactly when
    all of them were pinned. *)
Theorem host_request_served s task inode v n e k :
  loaded s -> k_ctrls s !! inode = Some k -> 1 <= n < 2 ^ 60 -> k_faults s = [0; 0; 0; e] -> 0 <= e ->
  exists addrs s', map_ioctl task inode (NVM_MAP_HOST_MEMORY v n) s = Some ((0, addrs), s') /\
    addrs = bus (kc_pdev k) <$> user_pages task (Z.land v PAGE_MASK) (pinned e n) /\
    (DmaSpec.addrs_ok n addrs <-> e = 0 \/ n <= e).
Proof.
  intros K%loaded_kinv_all Hk Hn Hf He.
  pose proof (host_request_run task inode v n e s k K Hk Hn Hf He) as (r & s' & E & ->)%wp_total.
  eexists _, s'. split; [exact E|]. split; [done|]. unfold DmaSpec.addrs_ok, user_pages, pinned. rewrite !length_fmap, length_seq. split.
  - intros [H _]. destruct (Z.eqb_spec e 0); [by left|right; lia].
  - intros H. split; [destruct (Z.eqb_spec e 0); lia|]. apply list.Forall_forall. intros x (? & -> & _)%list_elem_of_fmap. apply bus_word.
Qed.

(** When mapping the first page for DMA fails, the error path unmaps an address that was
    never mapped. *)
Theorem dma_fault_unmaps_unmapped s task inode v n e k :
  loaded s -> k_ctrls s !! inode = Some k -> 1 <= n < 2 ^ 60 -> k_faults s = [0; 0; 0; 0] -> e <> 0 ->
  (kc_pdev k, 2 ^ 64 - 1) ∉ k_dma s ->
  map_ioctl task inode (NVM_MAP_HOST_MEMORY v n) (set_dma_faults s [e]) = None.
Proof.
  intros (L & I & _)%loaded_kinv_all Hk Hn Hf He Hx.
  assert (I' : mod_inv (set_dma_faults s [e]) L []) by (eapply mod_inv_ext; [..|exact I]; done).
  unfold map_ioctl. crash_step.
  eapply wp_mono; [by apply (ctrl_find_by_inode_spec inode _ L)|]. intros [c|] s' [-> H]; [|change (k_ctrls s !! inode = None) in H; congruence]. destruct H as [-> _].
  crash_step. eapply wp_attempt_head; [exact Hf|]. cbn [negb Z.eqb]. apply crash_first.
  unfold map_userspace. rewrite (proj2 (Z.ltb_ge _ _)) by lia. crash_step.
  eapply create_descriptor_served; [done|exact Hk|done|]. intros i s1 En _ Ef Edf Ed Em. crash_step. eapply wp_map_at; [exact Em|].
  unfold upd_map. do 2 crash_step.
  eapply wp_mono; [eapply (map_user_pages_dma_fault _ _ _ _ e); [kproj; apply lookup_insert_eq|done|done|done|cbn; lia|cbn; rewrite repeat_length; lia]|].
  cbn beta. intros r s2 (-> & En2 & Ed2 & m & ps & addrs & Em2 & Hd & Hr & Hna & Hp & Ha). rewrite (proj2 (Z.eqb_neq _ _) He). cbn [negb].
  apply crash_first. cbn in Hna, Hp. eapply (unmap_and_release_crash i m ps); [|done..|lia|exact Ha|].
  - rewrite En2. kproj. rewrite En. apply lookup_insert_eq.
  - rewrite Ed2, Hp. kproj. by rewrite Ed.
Qed.
End requests.

(** ** Witnesses *)

Definition example_platform : Platform.
Proof.
  refine {| frame task v := v + 100; bus d p := u64 (p * 4096); p2p_phys t i := i * 65536; p2p_bus d t i := u64 (2 ^ 40 + i * 65536) |};
    intros; apply u64_range.
Defined.

Definition example_request : request -> K (Z * list Z) := do_request (P := example_platform) 0 64 (fun _ => 8192).

(** Loading the module, then the requests [qs]. *)
Fixpoint run_requests (qs : list request) (s : kmod) : option kmod :=
  match qs with [] => Some s | q :: qs => match example_request q s with Some (_, s') => run_requests qs s' | None => None end end.

Definition example_loaded (fs : list Z) (qs : list request) : kmod :=
  default (unloaded fs) (match libnvm_helper_entry (unloaded fs) with Some (0, s) => run_requests qs s | _ => None end).

Abbreviation is_loaded := (loaded (P := example_platform) 0 64 (fun _ => 8192)).

Lemma example_requests_loaded qs s s' :
  is_loaded s -> run_requests qs s = Some s' ->
  (forall q qs1 qs2 s1, qs = qs1 ++ q :: qs2 -> run_requests qs1 s = Some s1 -> allowed 64 s1 q) -> is_loaded s'.
Proof.
  revert s. induction qs as [|q qs IH]; intros s Hl E Ha; [by injection E as <-|]. cbn in E.
  destruct (example_request q s) as [[r s1]|] eqn:E1; [|done]. eapply (IH s1); [|done|].
  - eapply loaded_request; [done| |exact E1]. by apply (Ha q [] qs).
  - intros q' qs1 qs2 s2 -> E2. apply (Ha q' (q :: qs1) qs2); [done|]. cbn. by rewrite E1.
Qed.

(** One controller; a mapping of two host pages, of which [e] tells how many are pinned. *)
Definition example_faults (e : Z) : list Z := repeat 0 11 ++ [e].

Definition example_probed (e : Z) : kmod := example_loaded (example_faults e) [Probe 7].

Lemma example_probed_loaded e : is_loaded (example_probed e).
Proof.
  eapply (example_requests_loaded [Probe 7]); [eapply (loaded_entry _ _ _ (example_faults e)); vm_compute; reflexivity|vm_compute; reflexivity|].
  intros q [|q1 [|]] qs2 s1 [= <- <-] [= <-]. split; [|vm_compute; split; congruence]. vm_compute. intros H. inversion H.
Qed.

Lemma module_safe_witness :
  exists r s', example_request (Ioctl 1 0 (NVM_MAP_DEVICE_MEMORY 65536 2)) (example_probed 0) = Some (r, s') /\ is_loaded s'.
Proof.
  apply (module_safe (P := example_platform) 0 64 (fun _ => 8192) (example_probed 0) (Ioctl 1 0 (NVM_MAP_DEVICE_MEMORY 65536 2)));
    [apply example_probed_loaded|reflexivity].
Defined.

(** The state after a program has mapped two host pages and two GPU pages. *)
Definition example_requests : list request :=
  [Probe 7; Ioctl 1 0 (NVM_MAP_HOST_MEMORY 8192 2); Ioctl 1 0 (NVM_MAP_DEVICE_MEMORY 65536 2)].

Definition example_mapped : kmod := example_loaded [] example_requests.

Lemma example_mapped_loaded : is_loaded example_mapped.
Proof.
  eapply (example_requests_loaded example_requests); [eapply (loaded_entry _ _ _ []); vm_compute; reflexivity|vm_compute; reflexivity|].
  intros q [|q1 [|q2 [|q3 [|]]]] qs2 s1 E Hr; injection E; intros; subst; try done.
  injection Hr as <-. split; [|vm_compute; split; congruence]. vm_compute. intros H. inversion H.
Qed.

Lemma module_accounts_witness :
  elements (k_pins example_mapped) = [103; 102] /\
  k_pins example_mapped = list_to_set_disj (gather pages_of (k_maps example_mapped)) /\ size (k_devs example_mapped) = 1%nat.
Proof.
  split; [vm_compute; reflexivity|].
  pose proof (module_accounts (P := example_platform) 0 64 (fun _ => 8192) example_mapped example_mapped_loaded) as (H & _ & _ & _ & _ & _ & _ & _ & Hs & _).
  split; [exact H|exact Hs].
Defined.

Lemma module_exit_clean_witness :
  exists s', libnvm_helper_exit example_mapped = Some (tt, s') /\ all_free s' /\ k_bound s' = [] /\ k_setup s' = (false, false).
Proof.
  apply (module_exit_clean (P := example_platform) 0 64 (fun _ => 8192) example_mapped example_mapped_loaded).
Defined.

Lemma map_ioctl_outcomes_witness :
  exists r s', map_ioctl (P := example_platform) 1 0 (NVM_UNMAP_MEMORY 8192) example_mapped = Some (r, s') /\
    ioctl_outcome (P := example_platform) 1 0 (NVM_UNMAP_MEMORY 8192) example_mapped r s'.
Proof.
  apply (map_ioctl_outcomes (P := example_platform) 0 64 (fun _ => 8192) example_mapped 1 0 (NVM_UNMAP_MEMORY 8192));
    [apply example_mapped_loaded|exact I].
Defined.

(** Only one page of two is pinned: the request succeeds with one address. *)
Lemma host_request_served_witness :
  exists addrs s', map_ioctl (P := example_platform) 1 0 (NVM_MAP_HOST_MEMORY 8192 2) (example_probed 1) = Some ((0, addrs), s') /\
    addrs = [417792] /\ (DmaSpec.addrs_ok 2 addrs <-> 1 = 0 \/ 2 <= 1).
Proof.
  apply (host_request_served (P := example_platform) 0 64 (fun _ => 8192) (example_probed 1) 1 0 8192 2 1 (MkKctrl 7 0 0 true));
    [apply example_probed_loaded|vm_compute; reflexivity|lia|vm_compute; reflexivity|lia].
Defined.

Lemma dma_fault_unmaps_unmapped_witness :
  map_ioctl (P := example_platform) 1 0 (NVM_MAP_HOST_MEMORY 8192 2) (set_dma_faults (example_probed 0) [5]) = None.
Proof.
  apply (dma_fault_unmaps_unmapped (P := example_platform) 0 64 (fun _ => 8192) (example_probed 0) 1 0 8192 2 5 (MkKctrl 7 0 0 true));
    [apply example_probed_loaded|vm_compute; reflexivity|lia|vm_compute; reflexivity|lia|].
  apply (bool_decide_unpack _). vm_compute. exact I.
Defined.
End KSpec.
